(* ===== verification/_CoqProject ===== *)
-Q . S2P
Prelude.v
GoLib.v
Rpc.v
Errors.v
Query.v
Router.v
Iapi.v
Services.v
Http.v
Ip.v
Wallet.v
WalletDB.v
Auth.v
Hashes.v
Paid.v
Caller.v
Access.v
AccessSpec.v
Cache.v
CacheSpec.v
Call.v
CallSpec.v
Proxy.v
Asynquery.v
AsynquerySpec.v
Uploads.v
Forklift.v
Files.v
Locks.v
Geopublish.v
Carriage.v
GeopublishSpec.v
GeoStatus.v
Publish.v
PublishSpec.v
Fileanalyzer.v
Keybox.v
Watchman.v
WatchmanSpec.v
Admin.v
Monitor.v
Status.v
Queue.v
Sturdycache.v
Chainquery.v
Server.v
ServerSpec.v
Blobs.v
ServerProxy.v
Metrics.v
GoUrl.v
Json.v
Arweave.v
Boil.v
Models.v
CacheKey.v
Relations.v
Postgres.v
BoilSpec.v
BoilCache.v
ModelsSpec.v
RelationsSpec.v
Settings.v
AuditLog.v
CacheText.v
UploadsServer.v
WatchmanClient.v
PromMetrics.v
Logging.v
StackTrace.v
Databases.v
Launchers.v
Endpoints.v
