(* ===== verification/Prelude.v ===== *)
(** * Verification of odysee-api

    odysee-api is the server between Odysee clients and a fleet of LBRY SDK
    servers.  It authenticates requests, binds them to the wallet of their user,
    sends them to the SDK that hosts this wallet, and adds access control,
    caching and asynchronous publishing around that.  This development models
    the Go code under [src/] as definitions that can be evaluated, and proves
    what makes its parts correct.

    ** How the program is put together

    The server ([server], [api/routes.go]) puts every route behind a chain of
    middlewares.  A client request passes [internal/ip] (client address), [app/auth] (who is
    asking; with [app/wallet] behind it, which provisions users and wallets in
    PostgreSQL and on the SDKs) and reaches [app/proxy].  The proxy picks the
    user's SDK, or one of [app/sdkrouter], sets up a [Caller] and lets it run the
    request ([app/query]): [NewQuery] checks method and parameters and binds the
    wallet; preflight hooks may answer or change the query (stream access,
    [claim_search] limits, cache); [SendQuery] talks to the SDK and reloads
    wallets that are not loaded; postflight hooks rewrite the answer.  Publishing
    with uploaded files goes through [app/asynquery] instead, which records the
    query, waits for the client's commit and for the file, and runs the query in
    a worker through the same [Caller].  The files come from two other processes:
    the upload service ([apps/uploads]), which receives them and queues them, and
    forklift ([apps/forklift]), which turns a file into blobs on the reflector and
    reports it done.  Two older ways to publish remain: [app/publish] takes the
    file in a form or from a tus upload and publishes it within the request, and
    [app/geopublish] hands a tus upload over to a queue whose worker publishes it
    and reports back through a list of results.  Beside the API run the collector
    of playback reports ([apps/watchman]), the admin and status endpoints, and
    around all handlers the middleware that records responses and recovers from
    panics ([internal/monitor]).  Tables are reached through generated code
    ([models]), which builds, caches and binds the statements.

    ** Files

    - [Prelude.v]: outcomes of Go calls (value, error, panic), the monad [GoM]
      of explicit state passing with its notations, the predicates [extends],
      [nopanic], [noerr], [yields] and [wp], the tactics [go_inv], [go_paths] and
      [go_wp] and the hint database [go].
    - [GoLib.v], [Hashes.v], [Http.v], [Rpc.v]: what the code uses of Go's
      standard library and of the JSON-RPC package: strings, numbers, hex,
      base64, MD5, SHA-256, headers, response writers, dynamic values.
    - [Errors.v]: [internal/errors], [pkg/rpcerrors], [internal/lbrynet]; error
      chains with identity, [Is] and [As], and their JSON-RPC form.
    - [Query.v]: [app/query/const.go] and [query.go]; method tables, [NewQuery].
    - [Router.v]: [app/sdkrouter]; the server list, its reload, the choice of
      the least loaded server, wallet ids.
    - [Iapi.v]: [pkg/iapi]; the internal-api client.
    - [Services.v]: the outside world of the query components.  Each service is
      a class over a world type [W]; [Oracle] and [history] give the instance
      that answers every interaction by an arbitrary function of all earlier
      ones and records it.
    - [Ip.v]: [internal/ip].
    - [Wallet.v], [WalletDB.v]: [app/wallet] and its tracker, written against
      classes for the database, the SDK and internal-api; the second file gives
      a PostgreSQL table with transactions, faults and concurrent writers as the
      instance and proves the properties there.
    - [Auth.v]: [app/auth] and the tracker's middleware.
    - [Paid.v]: [app/query/paid.go] and [validation.go].
    - [Caller.v]: [app/query/caller.go] and the postflight hooks.
    - [Access.v], [AccessSpec.v]: the preflight hooks of
      [app/query/processors.go] and their properties.
    - [Cache.v], [CacheSpec.v]: [app/query/cache.go] and the cache hook.
    - [Sturdycache.v]: [pkg/sturdycache], the replicated store behind it.
    - [Chainquery.v]: [pkg/chainquery] and the invalidator on top of it.
    - [Call.v], [CallSpec.v]: [Caller.Call] and what it may send.
    - [Proxy.v]: [app/proxy] with its end-to-end theorem.
    - [Asynquery.v], [AsynquerySpec.v]: [app/asynquery] and [internal/tasks].
    - [Uploads.v]: [apps/uploads] with its tables.
    - [Forklift.v]: [apps/forklift], and the pipeline from an upload to its query.
    - [Files.v], [Locks.v]: paths and files ([path/filepath], [os]), and
      [pkg/redislocker].
    - [Geopublish.v], [Carriage.v], [GeopublishSpec.v], [GeoStatus.v]:
      [app/geopublish], its worker, the system of both, and what a client sees of it.
    - [Publish.v], [PublishSpec.v]: [app/publish].
    - [Fileanalyzer.v]: [pkg/fileanalyzer].
    - [Keybox.v]: [pkg/keybox], with round trips of decimal numbers and base64.
    - [Watchman.v], [WatchmanSpec.v]: [apps/watchman].
    - [Admin.v]: [internal/admin] and [pkg/iprate].
    - [Monitor.v]: [internal/monitor/middleware.go].
    - [Status.v]: [internal/status].
    - [Queue.v]: [pkg/queue].
    - [Server.v], [ServerSpec.v], [ServerProxy.v]: [api/routes.go], [server] and the
      routes of the other packages; what every request to a handler has passed, and
      the composition with the proxy handler.
    - [Blobs.v]: [pkg/blobs].
    - [AuditLog.v]: [internal/audit], on the generated insert.
    - [Settings.v]: [config] and [apps/lbrytv/config].
    - [Metrics.v]: timers and the metrics endpoint of [internal/metrics].
    - [GoUrl.v], [Arweave.v]: query strings of [net/url], and [app/arweave], an
      instance of the service the query hooks use.
    - [Boil.v]: the template all files of [models/] are generated from, over a
      description of a table ([Table]) and classes for SQLBoiler's query builder,
      column sets and executor; [Models.v]: the seven tables and their methods;
      [Relations.v]: relations and eager loading.
    - [Postgres.v]: a database with the schema of the migrations that runs the
      statements and stores values in the form of their column types; [BoilSpec.v], [BoilCache.v], [CacheKey.v]: the template against it,
      the statement caches, the injectivity of their keys; [ModelsSpec.v],
      [RelationsSpec.v]: the theorems for the tables.
    - [Json.v]: the printer and the parser of [encoding/json] over dynamic values, with
      their round trip; [CacheText.v]: the keys and the stored responses of the query
      cache as texts.
    - [UploadsServer.v]: start-up, origins, routes, listeners and shutdown of
      [apps/uploads]; [Launchers.v]: start-up of the forklift and of geopublish,
      [pkg/app] and [internal/handler]; [Databases.v]: [pkg/migrator], [pkg/configng]
      and [internal/storage].
    - [Endpoints.v]: the mounted server of [apps/watchman] and its log settings, the
      context of [app/query], the tus handler's options of [app/publish], the listener of
      [server].
    - [WatchmanClient.v]: the generated client of [apps/watchman/gen], against the
      modelled server.
    - [PromMetrics.v]: the metrics of all packages, their registration and what the
      code observes; [Logging.v]: [pkg/logging], the module loggers and Sentry reports
      of [internal/monitor]; [StackTrace.v]: [internal/errors/stack.go] and traced
      errors.

    State corresponds to the code as follows: the mutable [Caller] is a record
    passed along with the world ([Caller * W]); the router's fields are the
    record [Router]; tables are maps or lists of rows with the columns the code
    uses; the request context is the value the middlewares attach
    ([userCtx]); a response writer is a record of status, headers and body; the
    batch writer's channel is the list of what waits on it; the limiter's entries
    point into a heap.

    ** What the theorems show

    - Wallet isolation: whatever the SDK and the other services answer, every
      SDK request of a call whose method accepts a wallet carries the wallet of the
      authenticated user, and without authentication only methods that need no wallet
      are sent (these keep a wallet id the client has put into their parameters)
      ([server_isolates_wallets], [call_wallet_isolation], [Handle_isolation], [workers_isolated],
      [cache_keys_isolate_json], [wallet_id_of_inj]); [NewQuery] accepts exactly
      the allowed requests.
    - Stream access: who may watch restricted content, and only by signed link
      ([checkStreamAccess_sound], [anonymous_denied], [get_restricted_is_signed],
      [findPurchase_sound], [claim_search_hides_unreleased],
      [validateSignature_ok_iff]).
    - The SDK protocol: the exact sequence of sends, wallet loads and the deletion of
      the user ([SendQuery_protocol]), the choice of endpoints and servers, the cache
      ([Retrieve_spec], [runInvalidator_spec], [invalidator_follows_chain]).
    - Provisioning: the middlewares attach the answer of a backend to a token of the
      request, with a client for that very token ([authChain_identity]); legacy
      authentication returns the verified user with a server, whatever other requests
      do, and its row holds this server if they respect it ([legacy_auth_provisions]);
      OAuth checks the audience of tokens; unloading spares users seen since the
      cutoff, also those seen while it runs ([Unload_keeps_recent_access]).
    - Asynchronous queries: a refinement of the two transactions to their
      effects ([callUploadTx_effect], [handleMergeTx_effect]), all or nothing also when a commit takes
      effect and reports an error ([transactions_atomic]); over every interleaving, a
      committed query whose file came first is queued at most once, and exactly once
      unless its send failed or the error of its commit was reported, and run by the
      report otherwise ([enqueued_at_most_once], [either_order_runs]); results
      are recorded; the handlers show a query to its owner only.
    - Uploads: nobody reaches or changes an upload of somebody else
      ([uploads_server_guarded], [hooks_respect_owner]); forklift reports an upload
      only when it is done ([report_follows_processing]), and from the event to the
      query its user and id stay the same ([pipeline_identity]).
    - Publishing: the v3 handler takes an upload over exactly when it answers so
      ([Notify_takes_over]); over every interleaving of events, notifications,
      workers and results each upload has at most one task and everything is done
      for its owner ([geo_reachable_isolated]); a worker reports once, at the end
      ([ProcessTask_reports]), and what the client sees then ([status_after_result]).
      The form handler ends after at most five downloads and acts for the user of
      the request ([publish_acts_for_user]), leaves no files ([publish_leaves_no_files])
      and the tus handler authenticates like the rest ([multiAuthUser_agrees]).
    - Upload tokens are read back as the user they were issued for
      ([upload_token_roundtrip]).
    - Playback reports: over every interleaving, the reports answered 201 are stored
      in whole batches, at most once and in order ([reports_stored_once]), and reach a
      healthy database ([reports_reach_table]); rows have the types of the columns, and
      their strings fit them exactly when the player's name is short enough
      ([rows_well_typed]); numbers are kept modulo the width of their column
      ([playback_values_kept]); what the generated client sends is what the server
      receives ([client_report_received]).
    - Texts: JSON values are read back from what is printed ([unmarshal_print]), so
      cached responses are read back as they were stored ([cached_response_roundtrip]).
    - Operation: the admin routes need the token ([admin_admits_token]), the limiter
      is a bucket per address ([limiter_refines_buckets]), users move through the
      servers of their group ([BumpSDK_cycles]), whoami shows no credentials
      ([WhoAmI_hides_credentials]), the recorder is transparent and panics are
      answered ([middleware_transparent]), queues send where they should
      ([NewWithResponses_sends]), and replicas give values the master had
      ([reads_are_master_states]).
    - Routes: whatever a request is, an endpoint of the API runs only after the
      request was authenticated by its own headers, an admin endpoint only with the
      token ([requests_reach_endpoints]).
    - Tables: inserted objects are found again as they are in memory, up to the form
      in which [jsonb] and time columns store a value ([insert_find_roundtrip]), updates write what they should and nothing else
      ([update_infer_writes], [update_whitelist_writes]), deletes remove
      ([delete_removes]), statement caches change nothing
      ([statement_caches_transparent]), relations are loaded as the keys say
      ([users_loaded_with_servers]), unique keys stay unique ([pg_run_unique]); drafts
      need their column listed ([draft_needs_greylist]).
    - Blobs and audit: a split file has all its blobs on disk and nothing else changed
      ([Split_writes_blobs], [Split_then_Upload]); payments are on record
      ([LogQuery_records]).
    - Asset links: claim searches with an array of items get the links the resolver
      knows and keep the others ([claim_search_thumbnails]); parameters added to a link are found in it
      ([appendParams_query]).
    - Errors and encodings: codes and messages of written errors, the address a
      request is attributed to, byte orders, file locations, media types.

    Several theorems describe behaviour that is probably not intended; they are
    stated as the code behaves: [reverseBytes_spec], [RandomizeEndpoint_spec],
    [CloneWithoutHook_hooks], [oauth_update_drops_assignment],
    [runInvalidator_spec], [recommit_is_noop], [DetectMediaType_by_header],
    [status_after_result], [playback_values_kept], [admin_admits_token], and the
    examples at the end of most files, each of which runs the model on a concrete
    input.

    ** Bounds and fuel

    Nothing is truncated by fuel.  Loops over lists are structural; [SendQuery]
    makes three attempts because the source does ([walletLoadRetries]); the cache
    getter makes as many as the configuration says; [chunks] of [Hashes.v] gets
    the length of the message, which is at least the number of blocks.  The JSON
    parser gets the length of its input as fuel, which [print_parse] and the lemmas on
    fuel in [Json.v] show to be enough, and refuses more than 10000 levels of nesting
    as Go does.  Integers
    are [Z]; where the source converts between widths ([int32(u.ID)], signed
    bit sizes of parsed numbers) the conversion is written out.

    ** What is not modelled

    Command lines and process start-up ([cmd], [main.go], the commands of the upload
    service and of watchman beyond their servers), signals, profiling handlers, helpers
    for tests, and code that nothing calls ([app/publish/stream.go], the download
    helper of [app/geopublish/http.go]).  Log lines are modelled where they are
    written and masked ([Logging.v]), not at each call of a logger.  Floating-point
    numbers appear by their literals.  Third-party code (OIDC, ECDSA, JWT, the SDK,
    Redis, asynq, tusd, ClickHouse, mux, chi, CORS, viper, zap, Prometheus,
    sql-migrate, the AWS SDK, SQLBoiler's runtime, the token bucket of the limiter) is
    a parameter: a class or an argument, with laws only where its documentation states
    them, and an instance that meets them where a theorem uses them.  The JSON codec is
    modelled in [Json.v]; the components before it take encoded values as parameters. *)

From stdpp Require Export prelude gmap strings pretty.
From Stdlib Require Export ZArith.

(** ** Hint databases *)

Create HintDb go discriminated.
Create Rewrite HintDb gostr.

(** ** Outcomes of a Go call

    A Go function that returns [(T, error)] ends in one of three ways: with a
    value, with a non-nil error, or by panicking.  The error type is a
    parameter here; [Errors.v] supplies the one the code base uses. *)

Inductive result (E A : Type) : Type :=
| ROk (a : A)
| RErr (e : E)
| RPanic (why : string).

Arguments ROk {E A} a.
Arguments RErr {E A} e.
Arguments RPanic {E A} why.

(** Computations over a mutable state [S]: explicit state passing, with errors
    and panics keeping the state reached so far. *)
Definition GoM (S E A : Type) : Type := S → result E A * S.

Declare Scope go_scope.
Delimit Scope go_scope with go.

Section monad.
Context {S E : Type}.

Definition ret {A} (a : A) : GoM S E A := λ s, (ROk a, s).
Definition fail {A} (e : E) : GoM S E A := λ s, (RErr e, s).
Definition gopanic {A} (why : string) : GoM S E A := λ s, (RPanic why, s).

Definition bind {A B} (c : GoM S E A) (k : A → GoM S E B) : GoM S E B :=
  λ s, match c s with
       | (ROk a, s') => k a s'
       | (RErr e, s') => (RErr e, s')
       | (RPanic w, s') => (RPanic w, s')
       end.

(** [res, err := c] without an immediate [return err]: the error becomes a
    value, a panic still unwinds. *)
Definition try {A} (c : GoM S E A) : GoM S E (E + A) :=
  λ s, match c s with
       | (ROk a, s') => (ROk (inr a), s')
       | (RErr e, s') => (ROk (inl e), s')
       | (RPanic w, s') => (RPanic w, s')
       end.

Definition get_state : GoM S E S := λ s, (ROk s, s).
Definition gets {A} (f : S → A) : GoM S E A := λ s, (ROk (f s), s).
Definition modify (f : S → S) : GoM S E unit := λ s, (ROk tt, f s).

(** [defer cleanup()]: it runs on every way out of the body, a panic included;
    what it returns is dropped. *)
Definition deferred {A B} (cleanup : GoM S E B) (body : GoM S E A) : GoM S E A :=
  λ s, let '(r, s1) := body s in (r, (cleanup s1).2).

(** A pure [result] as a computation. *)
Definition lift {A} (r : result E A) : GoM S E A := λ s, (r, s).
End monad.

(** A computation on one part of a pair of states. *)
Definition on_fst {S T E A} (c : GoM S E A) : GoM (S * T) E A :=
  λ '(s, t), let '(r, s') := c s in (r, (s', t)).
Definition on_snd {S T E A} (c : GoM T E A) : GoM (S * T) E A :=
  λ '(s, t), let '(r, t') := c t in (r, (s, t')).

Notation "'let!' x ':=' c 'in' k" := (bind c (λ x, k))
  (at level 10, x pattern, c at level 100, k at level 200,
   format "'[v' 'let!'  x  ':='  '[' c ']'  'in'  '/' k ']'") : go_scope.
Notation "c ';;!' k" := (bind c (λ _, k))
  (at level 100, k at level 200, right associativity) : go_scope.

Open Scope go_scope.

(** ** Reasoning about computations *)

Section monad_laws.
Context {S E : Type}.

Lemma bind_ret_l {A B} (a : A) (k : A → GoM S E B) s : bind (ret a) k s = k a s.
Proof. done. Qed.

Lemma bind_ok {A B} (c : GoM S E A) (k : A → GoM S E B) s a s' :
  c s = (ROk a, s') → bind c k s = k a s'.
Proof. unfold bind. by intros ->. Qed.

Lemma bind_err {A B} (c : GoM S E A) (k : A → GoM S E B) s e s' :
  c s = (RErr e, s') → bind c k s = (RErr e, s').
Proof. unfold bind. by intros ->. Qed.

Lemma bind_panic {A B} (c : GoM S E A) (k : A → GoM S E B) s w s' :
  c s = (RPanic w, s') → bind c k s = (RPanic w, s').
Proof. unfold bind. by intros ->. Qed.

(** Inversion of a sequence that ended normally. *)
Lemma bind_ok_inv {A B} (c : GoM S E A) (k : A → GoM S E B) s b s2 :
  bind c k s = (ROk b, s2) →
  ∃ a s1, c s = (ROk a, s1) ∧ k a s1 = (ROk b, s2).
Proof.
  unfold bind. destruct (c s) as [[a|e|w] s1] eqn:Hc; intros H; [|done..].
  by exists a, s1.
Qed.

Lemma try_ok {A} (c : GoM S E A) s a s' : c s = (ROk a, s') → try c s = (ROk (inr a), s').
Proof. unfold try. by intros ->. Qed.

Lemma try_err {A} (c : GoM S E A) s e s' : c s = (RErr e, s') → try c s = (ROk (inl e), s').
Proof. unfold try. by intros ->. Qed.

Lemma try_ok_inv {A} (c : GoM S E A) s r s1 :
  try c s = (ROk r, s1) →
  (∃ a, r = inr a ∧ c s = (ROk a, s1)) ∨ (∃ e, r = inl e ∧ c s = (RErr e, s1)).
Proof.
  unfold try. destruct (c s) as [[a|e|w] s'] eqn:Hc; intros [=]; subst; eauto.
Qed.

Lemma lift_ok {A} (r : result E A) (s : S) a s' : lift r s = (ROk a, s') → r = ROk a ∧ s' = s.
Proof. by intros [= -> ->]. Qed.
End monad_laws.

(** *** Two-state properties

    [extends R c]: whatever the outcome, running [c] relates the initial state
    to the final one by [R].  For a preorder [R] this is closed under the
    monad's operations, which is how frame, monotonicity and trace-growth
    facts of a handler are assembled from those of its calls. *)
Definition extends {S E A} (R : relation S) (c : GoM S E A) : Prop :=
  ∀ s, R s (c s).2.

(** [nopanic c]: the computation never unwinds. *)
Definition nopanic {S E A} (c : GoM S E A) : Prop :=
  ∀ s w s', c s ≠ (RPanic w, s').

Section extends.
Context {S E : Type} (R : relation S) `{!PreOrder R}.

Lemma extends_ret {A} (a : A) : extends R (ret a : GoM S E A).
Proof. intros s. done. Qed.
Lemma extends_fail {A} (e : E) : extends R (fail e : GoM S E A).
Proof. intros s. done. Qed.
Lemma extends_gopanic {A} w : extends R (gopanic w : GoM S E A).
Proof. intros s. done. Qed.
Lemma extends_gets {A} (f : S → A) : extends R (gets f : GoM S E A).
Proof. intros s. done. Qed.
Lemma extends_get_state : extends R (get_state : GoM S E S).
Proof. intros s. done. Qed.
Lemma extends_lift {A} (r : result E A) : extends R (lift r : GoM S E A).
Proof. intros s. done. Qed.
Lemma extends_modify (f : S → S) :
  (∀ s, R s (f s)) → extends R (modify f : GoM S E unit).
Proof. intros Hf s. apply Hf. Qed.

Lemma extends_bind {A B} (c : GoM S E A) (k : A → GoM S E B) :
  extends R c → (∀ a, extends R (k a)) → extends R (bind c k).
Proof.
  intros Hc Hk s. specialize (Hc s). unfold bind.
  destruct (c s) as [[a|e|w] s1]; simpl in *; [|done..].
  etrans; [exact Hc|apply Hk].
Qed.

Lemma extends_try {A} (c : GoM S E A) : extends R c → extends R (try c).
Proof.
  intros Hc s. specialize (Hc s). unfold try.
  destruct (c s) as [[a|e|w] s1]; done.
Qed.

Lemma extends_deferred {A B} (cl : GoM S E B) (c : GoM S E A) :
  extends R cl → extends R c → extends R (deferred cl c).
Proof.
  intros Hcl Hc s. specialize (Hc s). unfold deferred.
  destruct (c s) as [r s1]. etrans; [exact Hc|apply Hcl].
Qed.
End extends.

Section nopanic.
Context {S E : Type}.

Lemma nopanic_ret {A} (a : A) : nopanic (ret a : GoM S E A).
Proof. by intros s w s'. Qed.
Lemma nopanic_fail {A} (e : E) : nopanic (fail e : GoM S E A).
Proof. by intros s w s'. Qed.
Lemma nopanic_gets {A} (f : S → A) : nopanic (gets f : GoM S E A).
Proof. by intros s w s'. Qed.
Lemma nopanic_get_state : nopanic (get_state : GoM S E S).
Proof. by intros s w s'. Qed.
Lemma nopanic_modify (f : S → S) : nopanic (modify f : GoM S E unit).
Proof. by intros s w s'. Qed.

Lemma nopanic_bind {A B} (c : GoM S E A) (k : A → GoM S E B) :
  nopanic c → (∀ a, nopanic (k a)) → nopanic (bind c k).
Proof.
  intros Hc Hk s w s'. unfold bind.
  destruct (c s) as [[a|e|w'] s1] eqn:Heq; [apply Hk|done|].
  by specialize (Hc s w' s1).
Qed.

Lemma nopanic_try {A} (c : GoM S E A) : nopanic c → nopanic (try c).
Proof.
  intros Hc s w s'. unfold try.
  destruct (c s) as [[a|e|w'] s1] eqn:Heq; [done..|].
  by specialize (Hc s w' s1).
Qed.
End nopanic.

(** [yields P c]: a value returned by [c] satisfies [P]. *)
Definition yields {S E A} (P : A → Prop) (c : GoM S E A) : Prop :=
  ∀ s a s', c s = (ROk a, s') → P a.

Section yields.
Context {S E A : Type} (P : A → Prop).

Lemma yields_ret (a : A) : P a → yields P (ret a : GoM S E A).
Proof. by intros Ha s b s' [= <- <-]. Qed.
Lemma yields_fail e : yields P (fail e : GoM S E A).
Proof. by intros s b s'. Qed.
Lemma yields_gopanic w : yields P (gopanic w : GoM S E A).
Proof. by intros s b s'. Qed.
Lemma yields_bind {B} (c : GoM S E B) (k : B → GoM S E A) : (∀ b, yields P (k b)) → yields P (bind c k).
Proof. intros Hk s a s' (b & s1 & _ & H)%bind_ok_inv. by eapply Hk. Qed.
Lemma yields_deferred {B} (cl : GoM S E B) (c : GoM S E A) : yields P c → yields P (deferred cl c).
Proof. intros Hc s a s'. unfold deferred. destruct (c s) as [r s1] eqn:E1. intros [= -> <-]. by eapply Hc. Qed.
End yields.

(** [noerr c]: the computation never returns an error. *)
Definition noerr {S E A} (c : GoM S E A) : Prop := ∀ s e s', c s ≠ (RErr e, s').

Section noerr.
Context {S E : Type}.

Lemma noerr_ret {A} (a : A) : noerr (ret a : GoM S E A).
Proof. by intros s e s'. Qed.
Lemma noerr_gopanic {A} w : noerr (gopanic w : GoM S E A).
Proof. by intros s e s'. Qed.
Lemma noerr_try {A} (c : GoM S E A) : noerr (try c).
Proof. intros s e s'. unfold try. by destruct (c s) as [[] ?]. Qed.
Lemma noerr_bind {A B} (c : GoM S E A) (k : A → GoM S E B) : noerr c → (∀ a, noerr (k a)) → noerr (bind c k).
Proof.
  intros Hc Hk s e s'. unfold bind. destruct (c s) as [[a|e'|w] s1] eqn:Hs; [apply Hk| |done].
  by destruct (Hc s e' s1).
Qed.
Lemma noerr_deferred {A B} (cl : GoM S E B) (c : GoM S E A) : noerr c → noerr (deferred cl c).
Proof.
  intros Hc s e s'. unfold deferred. destruct (c s) as [r s1] eqn:Hs. intros [= -> _]. by destruct (Hc s e s1).
Qed.
End noerr.

(** *** Outcomes

    [wp c Q s]: running [c] from [s] ends in an outcome and a state related by
    [Q].  The rules reduce a program to its calls. *)
Definition wp {S E A} (c : GoM S E A) (Q : result E A → S → Prop) (s : S) : Prop := Q (c s).1 (c s).2.

Section wp.
Context {S E : Type}.

Lemma wp_mono {A} (c : GoM S E A) (P Q : result E A → S → Prop) s :
  wp c P s → (∀ r s', P r s' → Q r s') → wp c Q s.
Proof. unfold wp. auto. Qed.

Lemma wp_bind {A B} (c : GoM S E A) (k : A → GoM S E B) Q s :
  wp c (λ r s', match r with
                | ROk a => wp (k a) Q s'
                | RErr e => Q (RErr e) s'
                | RPanic w => Q (RPanic w) s'
                end) s → wp (bind c k) Q s.
Proof. unfold wp, bind. by destruct (c s) as [[] s']. Qed.

Lemma wp_try {A} (c : GoM S E A) Q s :
  wp c (λ r s', match r with
                | ROk a => Q (ROk (inr a)) s'
                | RErr e => Q (ROk (inl e)) s'
                | RPanic w => Q (RPanic w) s'
                end) s → wp (try c) Q s.
Proof. unfold wp, try. by destruct (c s) as [[] s']. Qed.

Lemma wp_deferred {A B} (cl : GoM S E B) (c : GoM S E A) Q s :
  wp c (λ r s', wp cl (λ _ s'', Q r s'') s') s → wp (deferred cl c) Q s.
Proof. unfold wp, deferred. by destruct (c s) as [r s']. Qed.

Lemma wp_ret {A} (a : A) (Q : result E A → S → Prop) s : Q (ROk a) s → wp (ret a) Q s.
Proof. done. Qed.
Lemma wp_fail {A} e (Q : result E A → S → Prop) s : Q (RErr e) s → wp (fail e) Q s.
Proof. done. Qed.
Lemma wp_gopanic {A} w (Q : result E A → S → Prop) s : Q (RPanic w) s → wp (gopanic w) Q s.
Proof. done. Qed.
Lemma wp_gets {A} (f : S → A) (Q : result E A → S → Prop) s : Q (ROk (f s)) s → wp (gets f) Q s.
Proof. done. Qed.
Lemma wp_modify (f : S → S) (Q : result E unit → S → Prop) s : Q (ROk tt) (f s) → wp (modify f) Q s.
Proof. done. Qed.

(** From a computation to a goal about its outcome. *)
Lemma wp_run {A} (c : GoM S E A) (Q : result E A → S → Prop) s r s' : wp c Q s → c s = (r, s') → Q r s'.
Proof. unfold wp. by intros H Heq; rewrite Heq in H. Qed.
End wp.

(** ** Tactics *)

(** Split a hypothesis [... s = (ROk _, _)] about a sequence into one
    hypothesis per call. *)
Ltac go_inv H :=
  let a := fresh "a" in
  let s := fresh "s" in
  let H1 := fresh "Hc" in
  apply bind_ok_inv in H as (a & s & H1 & H).

(** Case analysis on the scrutinee of the first match of the goal or of a
    hypothesis, keeping the equation. *)
Ltac case_on t := let E := fresh "E" in destruct t eqn:E.

Ltac split_match :=
  match goal with
  | |- context [match ?t with _ => _ end] => case_on t
  end.

Ltac split_match_in H :=
  match type of H with
  | context [match ?t with _ => _ end] => case_on t
  end.

(** The same for outcomes: the rules of [wp], with one goal per path. *)
Ltac go_wp_step :=
  match goal with
  | |- wp (bind _ _) _ _ => apply wp_bind
  | |- wp (try _) _ _ => apply wp_try
  | |- wp (deferred _ _) _ _ => apply wp_deferred
  | |- wp (ret _) _ _ => apply wp_ret
  | |- wp (fail _) _ _ => apply wp_fail
  | |- wp (gopanic _) _ _ => apply wp_gopanic
  | |- wp (gets _) _ _ => apply wp_gets
  | |- wp (modify _) _ _ => apply wp_modify
  | |- wp (if ?t then _ else _) _ _ => case_on t
  | |- wp (match ?t with _ => _ end) _ _ => case_on t
  end; cbv beta iota.

Ltac go_wp := repeat go_wp_step.

(** Every path of a program of the monad: one goal per call that the [go]
    database and the context do not settle. *)
Ltac go_paths :=
  repeat match goal with
    | |- extends _ (bind _ _) => refine (extends_bind _ _ _ _ (λ _, _))
    | |- extends _ (try _) => refine (extends_try _ _ _)
    | |- extends _ (deferred _ _) => refine (extends_deferred _ _ _ _ _)
    | |- extends _ (ret _) => refine (extends_ret _ _)
    | |- extends _ (fail _) => refine (extends_fail _ _)
    | |- extends _ (gopanic _) => refine (extends_gopanic _ _)
    | |- extends _ (gets _) => refine (extends_gets _ _)
    | |- extends _ get_state => refine (extends_get_state _)
    | |- extends _ (lift _) => refine (extends_lift _ _)
    | |- nopanic (bind _ _) => refine (nopanic_bind _ _ _ (λ _, _))
    | |- nopanic (try _) => refine (nopanic_try _ _)
    | |- nopanic (ret _) => apply nopanic_ret
    | |- nopanic (fail _) => apply nopanic_fail
    | |- nopanic (gets _) => apply nopanic_gets
    | |- nopanic get_state => apply nopanic_get_state
    | |- nopanic (modify _) => apply nopanic_modify
    | |- noerr (bind _ _) => refine (noerr_bind _ _ _ (λ _, _))
    | |- noerr (deferred _ _) => refine (noerr_deferred _ _ _)
    | |- noerr (try _) => apply noerr_try
    | |- noerr (ret _) => apply noerr_ret
    | |- noerr (gopanic _) => apply noerr_gopanic
    | |- noerr (match ?t with _ => _ end) => destruct t
    | |- noerr _ => solve [eauto with go]
    | |- yields _ (bind _ _) => refine (yields_bind _ _ _ (λ _, _))
    | |- yields _ (deferred _ _) => refine (yields_deferred _ _ _ _)
    | |- yields _ (fail _) => apply yields_fail
    | |- yields _ (gopanic _) => apply yields_gopanic
    | |- yields _ (ret _) => apply yields_ret
    | |- yields _ (match ?t with _ => _ end) => destruct t
    | |- extends _ (match ?t with _ => _ end) => destruct t
    | |- nopanic (match ?t with _ => _ end) => destruct t
    | |- extends _ _ => solve [eauto with go]
    | |- nopanic _ => solve [eauto with go]
    end.
