(* ===== verification/GoLib.v ===== *)
(** * The parts of Go's standard library the sources use

    Strings are Go strings restricted to what the code does with them: byte
    sequences, with [strings.HasPrefix], [TrimPrefix], [Contains], [Split],
    [Join], [TrimSpace] and [ToLower] on ASCII; [strconv.Itoa] and [ParseInt]
    in base 10; [encoding/hex]; slices as lists.  Each function comes with the
    lemmas the component files use. *)

From S2P Require Import Prelude.
From Stdlib Require Import Ascii String.

Local Open Scope string_scope.
Local Open Scope Z_scope.

(** ** [strings] *)

Fixpoint HasPrefix (s p : string) : bool :=
  match p, s with
  | "", _ => true
  | String a p', String b s' => Ascii.eqb a b && HasPrefix s' p'
  | String _ _, "" => false
  end.

Fixpoint drop_str (n : nat) (s : string) : string :=
  match n, s with
  | 0%nat, _ => s
  | S n', String _ s' => drop_str n' s'
  | S _, "" => ""
  end.

Definition TrimPrefix (s p : string) : string :=
  if HasPrefix s p then drop_str (String.length p) s else s.

Fixpoint HasSuffix (s p : string) : bool :=
  String.eqb s p ||
  match s with
  | "" => false
  | String _ s' => HasSuffix s' p
  end.

Fixpoint Contains (s sub : string) : bool :=
  HasPrefix s sub ||
  match s with
  | "" => false
  | String _ s' => Contains s' sub
  end.

(** [strings.Split(s, sep)] for a one-byte separator: always at least one
    piece. *)
Fixpoint Split (s : string) (sep : ascii) : list string :=
  match s with
  | "" => [""]
  | String a s' =>
      if Ascii.eqb a sep then "" :: Split s' sep
      else match Split s' sep with
           | [] => [String a ""]
           | w :: ws => String a w :: ws
           end
  end.

Fixpoint Join (ws : list string) (sep : string) : string :=
  match ws with
  | [] => ""
  | [w] => w
  | w :: ws' => w +:+ sep +:+ Join ws' sep
  end.

(** The ASCII part of [unicode.IsSpace]. *)
Definition is_space (a : ascii) : bool :=
  match Ascii.N_of_ascii a with
  | 9%N | 10%N | 11%N | 12%N | 13%N | 32%N => true
  | _ => false
  end.

Fixpoint TrimLeft (s : string) : string :=
  match s with
  | String a s' => if is_space a then TrimLeft s' else s
  | "" => ""
  end.

Fixpoint TrimRight (s : string) : string :=
  match s with
  | String a s' =>
      match TrimRight s' with
      | "" => if is_space a then "" else String a ""
      | r => String a r
      end
  | "" => ""
  end.

Definition TrimSpace (s : string) : string := TrimRight (TrimLeft s).

Definition lower (a : ascii) : ascii :=
  let n := Ascii.N_of_ascii a in
  if (65 <=? n)%N && (n <=? 90)%N then Ascii.ascii_of_N (n + 32) else a.

Fixpoint ToLower (s : string) : string :=
  match s with
  | String a s' => String (lower a) (ToLower s')
  | "" => ""
  end.

(** ** [strconv] *)

Definition Itoa (z : Z) : string := pretty z.

Definition digit (a : ascii) : option Z :=
  let n := Z.of_N (Ascii.N_of_ascii a) in
  if (48 <=? n) && (n <=? 57) then Some (n - 48) else None.

Fixpoint digits (acc : Z) (s : string) : option Z :=
  match s with
  | "" => Some acc
  | String a s' => match digit a with
                   | Some d => digits (10 * acc + d) s'
                   | None => None
                   end
  end.

(** [strconv.ParseInt(s, 10, bits)]: optional sign, at least one digit, and the
    value must fit the signed width. *)
Definition ParseInt (s : string) (bits : Z) : option Z :=
  let '(neg, body) :=
    match s with
    | String "+" s' => (false, s')
    | String "-" s' => (true, s')
    | _ => (false, s)
    end in
  match body with
  | "" => None
  | _ => match digits 0 body with
         | Some n =>
             let v := if neg then - n else n in
             if (- 2 ^ (bits - 1) <=? v) && (v <? 2 ^ (bits - 1)) then Some v else None
         | None => None
         end
  end.

(** Conversion to a signed integer of [bits] bits: Go keeps the low bits. *)
Definition to_signed (bits z : Z) : Z :=
  (z + 2 ^ (bits - 1)) `mod` 2 ^ bits - 2 ^ (bits - 1).
Definition to_unsigned (bits z : Z) : Z := z `mod` 2 ^ bits.

(** ** [encoding/hex], on byte slices *)

Abbreviation byte := ascii (only parsing).
Abbreviation zero_byte := (Ascii.zero) (only parsing).

Definition nibble (n : N) : ascii :=
  Ascii.ascii_of_N (if (n <? 10)%N then n + 48 else n + 87)%N.

Fixpoint hex_encode (bs : list byte) : string :=
  match bs with
  | [] => ""
  | b :: bs' =>
      let n := Ascii.N_of_ascii b in
      String (nibble (n / 16)) (String (nibble (n `mod` 16)) (hex_encode bs'))
  end.

Definition hex_digit (a : ascii) : option N :=
  let n := Ascii.N_of_ascii a in
  if ((48 <=? n) && (n <=? 57))%N then Some (n - 48)%N
  else if ((97 <=? n) && (n <=? 102))%N then Some (n - 87)%N
  else if ((65 <=? n) && (n <=? 70))%N then Some (n - 55)%N
  else None.

Fixpoint hex_decode (s : string) : option (list byte) :=
  match s with
  | "" => Some []
  | String a (String b s') =>
      match hex_digit a, hex_digit b, hex_decode s' with
      | Some x, Some y, Some r => Some (Ascii.ascii_of_N (16 * x + y) :: r)
      | _, _, _ => None
      end
  | String _ "" => None
  end.

Fixpoint bytes_of (s : string) : list byte :=
  match s with
  | "" => []
  | String a s' => a :: bytes_of s'
  end.

Fixpoint string_of (bs : list byte) : string :=
  match bs with
  | [] => ""
  | a :: bs' => String a (string_of bs')
  end.

(** ** Slices *)

(** [slices.Contains]-style membership on strings. *)
Definition mem (x : string) (l : list string) : bool := existsb (String.eqb x) l.

(** ** Lemmas *)

(** Every character of a string. *)
Fixpoint all_chars (p : ascii → bool) (s : string) : bool :=
  match s with
  | EmptyString => true
  | String a s' => p a && all_chars p s'
  end.

#[local] Arguments String.append : simpl nomatch.

Lemma all_chars_app p s t : all_chars p (s +:+ t) = all_chars p s && all_chars p t.
Proof. induction s as [|a s IH]; [done|]. cbn. by rewrite IH, andb_assoc. Qed.

Lemma all_chars_impl (p q : ascii → bool) s : (∀ a, p a = true → q a = true) → all_chars p s = true → all_chars q s = true.
Proof.
  intros H. induction s as [|a s IH]; [done|]. cbn. rewrite !andb_true_iff. intros [? ?]. auto.
Qed.

(** All 256 characters, by computation. *)
Definition all_ascii : list ascii := map ascii_of_nat (List.seq 0 256).
Lemma ascii_check (p : ascii → bool) : forallb p all_ascii = true → ∀ a, p a = true.
Proof.
  intros H a. rewrite <-(ascii_nat_embedding a). rewrite forallb_forall in H. apply H. unfold all_ascii.
  apply in_map, in_seq. pose proof (nat_ascii_bounded a). lia.
Qed.

Lemma app_empty_r (s : string) : s +:+ "" = s.
Proof. induction s as [|a s IH]; [done|]. cbn. by f_equal. Qed.

Lemma app_assoc_str (s1 s2 s3 : string) : s1 +:+ (s2 +:+ s3) = (s1 +:+ s2) +:+ s3.
Proof. induction s1 as [|a s IH]; [done|]. cbn. by f_equal. Qed.

Lemma app_inj_l (p s1 s2 : string) : p +:+ s1 = p +:+ s2 → s1 = s2.
Proof. induction p as [|a p IH]; [done|]. cbn. intros [=]. by apply IH. Qed.

Lemma length_app_str (s1 s2 : string) :
  String.length (s1 +:+ s2) = (String.length s1 + String.length s2)%nat.
Proof. induction s1 as [|a s IH]; [done|]. cbn. by rewrite IH. Qed.

Lemma app_inj_r (p s1 s2 : string) : s1 +:+ p = s2 +:+ p → s1 = s2.
Proof.
  revert s2. induction s1 as [|a s1 IH]; intros [|b s2]; [done|..].
  - intros H. apply (f_equal String.length) in H.
    rewrite !length_app_str in H. simpl in H. lia.
  - intros H. apply (f_equal String.length) in H.
    rewrite !length_app_str in H. simpl in H. lia.
  - cbn. intros [= -> H]. f_equal. by apply IH.
Qed.

Lemma HasPrefix_app (p s : string) : HasPrefix (p +:+ s) p = true.
Proof.
  induction p as [|a p IH]; [by destruct s|]. cbn. by rewrite Ascii.eqb_refl, IH.
Qed.

Lemma HasPrefix_refl (s : string) : HasPrefix s s = true.
Proof. rewrite <-(app_empty_r s) at 1. apply HasPrefix_app. Qed.

Lemma HasPrefix_true (s p : string) :
  HasPrefix s p = true ↔ ∃ r, s = p +:+ r.
Proof.
  split.
  - revert s. induction p as [|a p IH]; intros s; [by exists s|].
    destruct s as [|b s]; [done|]. cbn. intros [->%Ascii.eqb_eq Hp]%andb_true_iff.
    destruct (IH s Hp) as [r ->]. by exists r.
  - intros [r ->]. apply HasPrefix_app.
Qed.

Lemma drop_str_app (p s : string) : drop_str (String.length p) (p +:+ s) = s.
Proof. by induction p. Qed.

Lemma TrimPrefix_app (p s : string) : TrimPrefix (p +:+ s) p = s.
Proof. unfold TrimPrefix. by rewrite HasPrefix_app, drop_str_app. Qed.

Lemma TrimPrefix_none (p s : string) : HasPrefix s p = false → TrimPrefix s p = s.
Proof. unfold TrimPrefix. by intros ->. Qed.

Lemma mem_true x l : mem x l = true ↔ x ∈ l.
Proof.
  unfold mem. rewrite existsb_exists, list_elem_of_In. split.
  - intros (y & Hy & ->%String.eqb_eq). done.
  - intros H. exists x. by rewrite String.eqb_refl.
Qed.

Lemma mem_false x l : mem x l = false ↔ x ∉ l.
Proof. rewrite <-mem_true. by destruct (mem x l). Qed.

Lemma Split_nonempty s sep : Split s sep ≠ [].
Proof.
  destruct s as [|a s]; cbn; [done|].
  destruct (Ascii.eqb a sep); [done|]. by destruct (Split s sep).
Qed.

(** Splitting and joining with the same separator is the identity. *)
Lemma Join_Split s sep : Join (Split s sep) (String sep "") = s.
Proof.
  induction s as [|a s IH]; [done|]. cbn.
  destruct (Ascii.eqb_spec a sep) as [->|Hne].
  - pose proof (Split_nonempty s sep).
    destruct (Split s sep) as [|w ws]; [done|]. cbn in *. by rewrite IH.
  - destruct (Split s sep) as [|w [|w' ws]]; cbn in *; [by rewrite <-IH|by rewrite IH|].
    by rewrite IH.
Qed.

Lemma Itoa_inj z1 z2 : Itoa z1 = Itoa z2 → z1 = z2.
Proof. apply pretty_Z_inj. Qed.

Lemma hex_encode_length bs : String.length (hex_encode bs) = (2 * List.length bs)%nat.
Proof. induction bs as [|b bs IH]; [done|]. cbn -[Nat.mul]. rewrite IH. simpl. lia. Qed.

Lemma hex_digit_nibble n : (n < 16)%N → hex_digit (nibble n) = Some n.
Proof.
  intros Hn. destruct n as [|p]; [reflexivity|].
  do 4 (destruct p as [p|p|]; try reflexivity); lia.
Qed.

(** [hex.DecodeString] inverts [hex.EncodeToString]. *)
Lemma hex_decode_encode bs : hex_decode (hex_encode bs) = Some bs.
Proof.
  induction bs as [|b bs IH]; [done|].
  assert (Ascii.N_of_ascii b < 256)%N as Hb by apply Ascii.N_ascii_bounded.
  cbn -[N.div N.modulo hex_digit nibble].
  rewrite !hex_digit_nibble, IH.
  - rewrite <-N.div_mod by done. by rewrite Ascii.ascii_N_embedding.
  - apply N.mod_upper_bound. done.
  - apply N.Div0.div_lt_upper_bound. lia.
Qed.

Lemma hex_decode_length s bs :
  hex_decode s = Some bs → String.length s = (2 * List.length bs)%nat.
Proof.
  revert bs. enough (∀ n s bs, (String.length s < n)%nat →
    hex_decode s = Some bs → String.length s = (2 * List.length bs)%nat) as H by eauto.
  clear s. induction n as [|n IH]; intros s bs Hn; [lia|].
  destruct s as [|a [|b s]]; cbn -[hex_digit Nat.mul]; [by intros [= <-]|done|].
  destruct (hex_digit a), (hex_digit b), (hex_decode s) as [r|] eqn:Hr; try done.
  intros [= <-]. simpl in Hn. rewrite (IH s r); [|lia|done]. simpl. lia.
Qed.

Lemma string_of_bytes_of s : string_of (bytes_of s) = s.
Proof. induction s as [|a s IH]; [done|]. cbn. by rewrite IH. Qed.

Lemma bytes_of_string_of bs : bytes_of (string_of bs) = bs.
Proof. induction bs as [|a bs IH]; [done|]. cbn. by rewrite IH. Qed.

#[export] Hint Rewrite app_empty_r HasPrefix_app HasPrefix_refl drop_str_app
  TrimPrefix_app hex_decode_encode string_of_bytes_of bytes_of_string_of : gostr.

(** ** Examples *)

Example split_ex : Split "1.1.1.1, 10.0.0.1" "," = ["1.1.1.1"; " 10.0.0.1"].
Proof. reflexivity. Qed.
Example trim_ex : TrimSpace "  a b	" = "a b".
Proof. reflexivity. Qed.
Example parse_ex : ParseInt "-2147483648" 32 = Some (-2147483648) ∧ ParseInt "2147483648" 32 = None.
Proof. split; reflexivity. Qed.
Example hex_ex : hex_encode (bytes_of "az") = "617a".
Proof. reflexivity. Qed.

Lemma ParseInt_range s bits z : ParseInt s bits = Some z → - 2 ^ (bits - 1) <= z < 2 ^ (bits - 1).
Proof.
  unfold ParseInt. destruct (match s with "" => _ | _ => _ end) as [neg body].
  destruct body; [done|]. destruct (digits 0 _) as [n|]; [|done].
  destruct (_ && _) eqn:E; [|done]. intros [= <-]. apply andb_true_iff in E as [?%Z.leb_le ?%Z.ltb_lt]. lia.
Qed.

Lemma to_signed_small bits z : 0 < bits → - 2 ^ (bits - 1) <= z < 2 ^ (bits - 1) → to_signed bits z = z.
Proof.
  intros Hb Hz. unfold to_signed.
  replace (2 ^ bits) with (2 * 2 ^ (bits - 1)) by (rewrite <-Z.pow_succ_r by lia; f_equal; lia).
  rewrite Z.mod_small; lia.
Qed.
