(* ===== verification/Rpc.v ===== *)
(** * JSON-RPC data

    Values of Go's [any] as the sources build and inspect them, and the
    request, response and error records of [github.com/ybbus/jsonrpc/v2] that
    every component exchanges.  The dynamic type matters: a slice decoded from
    JSON is [[]interface{}] ([VList]) while one the code builds is [[]string]
    ([VStrs]), and the type switches of the sources tell them apart. *)

From S2P Require Import Prelude GoLib.

#[warnings="-register-all"]
Inductive value : Type :=
| VNil
| VBool (b : bool)
| VInt (z : Z)                      (* int, int64, uint64, ... *)
| VNum (lit : string)               (* float64 or json.Number, by its JSON literal *)
| VStr (s : string)
| VStrs (l : list string)           (* []string *)
| VList (l : list value)            (* []interface{} *)
| VMap (m : gmap string value)      (* map[string]interface{} *)
| VStruct (name : string) (m : gmap string value). (* pointer to a Go struct *)

Record RPCRequest := mkRequest {
  Method : string;
  Params : value;                   (* [VNil] when absent *)
  ID : Z;
  JSONRPC : string;
}.

Record RPCError := mkRPCError {
  Code : Z;
  Message : string;
  Data : value;
}.

Record RPCResponse := mkResponse {
  resp_JSONRPC : string;
  Result : value;
  resp_Error : option RPCError;
  resp_ID : Z;
}.

Definition set_Params (r : RPCRequest) (p : value) : RPCRequest :=
  {| Method := Method r; Params := p; ID := ID r; JSONRPC := JSONRPC r |}.
Definition set_Method (r : RPCRequest) (m : string) : RPCRequest :=
  {| Method := m; Params := Params r; ID := ID r; JSONRPC := JSONRPC r |}.
Definition set_Result (r : RPCResponse) (v : value) : RPCResponse :=
  {| resp_JSONRPC := resp_JSONRPC r; Result := v; resp_Error := resp_Error r; resp_ID := resp_ID r |}.

(** [jsonrpc.NewRequest(method, params)]: version 2.0, id 0. *)
Definition NewRequest (m : string) (p : gmap string value) : RPCRequest :=
  {| Method := m; Params := VMap p; ID := 0; JSONRPC := "2.0" |}.

(** Type assertions [v.(T)] of the two-result form. *)
Definition as_string (v : value) : option string :=
  match v with VStr s => Some s | _ => None end.
Definition as_map (v : value) : option (gmap string value) :=
  match v with VMap m => Some m | _ => None end.
Definition as_bool (v : value) : option bool :=
  match v with VBool b => Some b | _ => None end.

(** Reading a missing key of a Go map gives the zero value, here [nil]. *)
Definition map_get (m : gmap string value) (k : string) : value := default VNil (m !! k).

Lemma map_get_insert m k v : map_get (<[k:=v]> m) k = v.
Proof. unfold map_get. by rewrite lookup_insert_eq. Qed.
Lemma map_get_insert_ne m k k' v : k ≠ k' → map_get (<[k:=v]> m) k' = map_get m k'.
Proof. intros. unfold map_get. by rewrite lookup_insert_ne. Qed.
