(* ===== verification/Errors.v ===== *)
(** * Go errors: identity, wrapping and codes

    Models [internal/errors] (traced errors, [Err], [wrap], [Prefix], [Is],
    [As], [Recover]), [pkg/rpcerrors] (JSON-RPC errors with codes) and
    [internal/lbrynet/errors.go] (wallet errors).  Stack traces are left out:
    nothing but log output reads them. *)

From S2P Require Import Prelude GoLib Rpc.

Local Open Scope Z_scope.

(** An error value.  Go compares errors by identity; the values that the code
    compares against are package-level variables, here [ENamed] with the
    variable's name as identity.  Every other error is created where it is
    returned and equals no sentinel. *)
#[warnings="-register-all"]
Inductive error : Type :=
| ENamed (id msg : string) (istraced : bool)
| EText (msg : string)                              (* errors.New, fmt.Errorf without %w *)
| EWrapf (pre : string) (inner : error) (post : string) (* fmt.Errorf with %w *)
| ETraced (prefix : string) (inner : error)         (* *traced *)
| ERPC (code : Z) (inner : option error)            (* rpcerrors.RPCError *)
| EWallet (inner : error)                           (* lbrynet.WalletError *)
| EPq (code msg : string)                           (* *pq.Error *)
| ESDK (name msg : string)                          (* ljsonrpc.Error *)
| EStoreNotFound (msg : string).                    (* *store.NotFound *)

Abbreviation Go S := (GoM S error).

(** ** [Error()] and [Unwrap()] *)

Fixpoint Error (e : error) : string :=
  match e with
  | ENamed _ m _ | EText m | EPq _ m | EStoreNotFound m => m
  | ESDK _ m => m
  | EWrapf pre i post => pre +:+ Error i +:+ post
  | ETraced p i => if decide (p = "") then Error i else p +:+ ": " +:+ Error i
  | ERPC _ (Some i) => Error i
  | ERPC _ None => "no wrapped error"
  | EWallet i => Error i
  end.

Definition Unwrap (e : error) : option error :=
  match e with
  | ENamed _ m true => Some (EText m)
  | EWrapf _ i _ | ETraced _ i | EWallet i => Some i
  | ERPC _ i => i
  | _ => None
  end.

(** [errors.Is(err, target)] for a package-level [target]. *)
Fixpoint Is (e : error) (target : string) : bool :=
  match e with
  | ENamed id _ _ => bool_decide (id = target)
  | EWrapf _ i _ | ETraced _ i | ERPC _ (Some i) | EWallet i => Is i target
  | _ => false
  end.

(** [errors.As(err, &rpcErr)]: the outermost [RPCError] of the chain. *)
Fixpoint AsRPC (e : error) : option (Z * option error) :=
  match e with
  | ERPC c i => Some (c, i)
  | EWrapf _ i _ | ETraced _ i | EWallet i => AsRPC i
  | _ => None
  end.

(** [errors.As(err, &pgErr)]. *)
Fixpoint AsPq (e : error) : option string :=
  match e with
  | EPq c _ => Some c
  | EWrapf _ i _ | ETraced _ i | ERPC _ (Some i) | EWallet i => AsPq i
  | _ => None
  end.

(** [errors.Is(err, &store.NotFound{})]: [NotFound.Is] holds of any other
    [NotFound]. *)
Fixpoint IsStoreNotFound (e : error) : bool :=
  match e with
  | EStoreNotFound _ => true
  | EWrapf _ i _ | ETraced _ i | ERPC _ (Some i) | EWallet i => IsStoreNotFound i
  | _ => false
  end.

(** ** [internal/errors] *)

Definition is_traced (e : error) : bool :=
  match e with ENamed _ _ t => t | ETraced _ _ => true | _ => false end.

(** [wrap] on an error: a [*traced] is returned as it is. *)
Definition wrap (e : error) : error := if is_traced e then e else ETraced "" e.

(** [errors.Err(e)] on an error, and [errors.Err(msg)] on a string without
    format arguments. *)
Definition Err (e : error) : error := wrap e.
Definition Errs (msg : string) : error := ETraced "" (EText msg).

(** [errors.Err(err)] where [err] may be nil. *)
Definition ErrOpt (e : option error) : option error := Err <$> e.

(** [errors.Prefix(prefix, err)] *)
Definition Prefix (prefix : string) (err : option error) : option error :=
  match err with
  | None => None
  | Some e =>
      match wrap e with
      | ETraced p i => Some (ETraced (if decide (p = "") then prefix else prefix +:+ ": " +:+ p) i)
      | ENamed id m t => Some (ENamed id (prefix +:+ ": " +:+ m) t)
      | e' => Some e'
      end
  end.

(** [errors.Base(msg)] *)
Definition Base (msg : string) : error := EText msg.

Definition HasTrace (e : error) : bool := is_traced e.

(** [defer errors.Recover(&e)]: the error a panic is turned into. *)
Definition Recover (panic_value : string) : error := ETraced "panic" (EText panic_value).

(** ** [pkg/rpcerrors] *)

Definition rpcErrorCodeInternal : Z := -32080.
Definition rpcErrorCodeSDK : Z := -32603.
Definition rpcErrorCodeAuthRequired : Z := -32084.
Definition rpcErrorCodeForbidden : Z := -32085.
Definition rpcErrorCodeJSONParse : Z := -32700.
Definition rpcErrorCodeInvalidParams : Z := -32602.
Definition rpcErrorCodeMethodNotAllowed : Z := -32601.

Definition AuthRequiredErrorMessage : string := "authentication required".
Definition ErrAuthRequired : error :=
  ENamed "rpcerrors.ErrAuthRequired" AuthRequiredErrorMessage false.

(** The wrapped error may be nil: [errors.Err(nil)] is nil. *)
Definition newRPCErr (e : option error) (code : Z) : error := ERPC code (ErrOpt e).

Definition NewInternalError (e : option error) : error := newRPCErr e rpcErrorCodeInternal.
Definition NewJSONParseError (e : error) : error := newRPCErr (Some e) rpcErrorCodeJSONParse.
Definition NewMethodNotAllowedError (e : error) : error :=
  newRPCErr (Some e) rpcErrorCodeMethodNotAllowed.
Definition NewInvalidParamsError (e : error) : error :=
  newRPCErr (Some e) rpcErrorCodeInvalidParams.
Definition NewSDKError (e : error) : error := newRPCErr (Some e) rpcErrorCodeSDK.
Definition NewForbiddenError (e : error) : error := newRPCErr (Some e) rpcErrorCodeForbidden.
Definition NewAuthRequiredError : error := newRPCErr (Some ErrAuthRequired) rpcErrorCodeAuthRequired.

(** The response object that [RPCError.JSON] marshals, for an [RPCError] with
    the given code and wrapped error. *)
Definition JSON (code : Z) (inner : option error) : RPCResponse :=
  {| resp_JSONRPC := "2.0"; Result := VNil;
     resp_Error := Some {| Code := code; Message := Error (ERPC code inner); Data := VNil |};
     resp_ID := 0 |}.

Definition isJSONParseError (e : error) : bool :=
  match AsRPC e with
  | Some (c, _) => c =? rpcErrorCodeJSONParse
  | None => false
  end.

Definition ErrorToJSON (err : option error) : RPCResponse :=
  match err ≫= AsRPC with
  | Some (c, i) => JSON c i
  | None => JSON rpcErrorCodeInternal (ErrOpt err)
  end.

Definition ToJSON (err : option error) : RPCResponse :=
  match err ≫= AsRPC with
  | Some (c, i) => JSON c i
  | None => JSON rpcErrorCodeInternal (ErrOpt err)
  end.

(** [rpcerrors.Write(w, err)]: the object whose JSON is written to the body. *)
Definition Write (err : option error) : RPCResponse :=
  match err ≫= AsRPC with
  | Some (c, i) => JSON c i
  | None => JSON rpcErrorCodeInternal (ErrOpt err)
  end.

(** ** [internal/lbrynet/errors.go] *)

Definition ErrWalletNotFound := ENamed "lbrynet.ErrWalletNotFound" "wallet not found" false.
Definition ErrWalletExists := ENamed "lbrynet.ErrWalletExists" "wallet exists and is loaded" false.
Definition ErrWalletNotLoaded := ENamed "lbrynet.ErrWalletNotLoaded" "wallet is not loaded" false.
Definition ErrWalletAlreadyLoaded :=
  ENamed "lbrynet.ErrWalletAlreadyLoaded" "wallet is already loaded" false.

(** The part of [github.com/lbryio/lbry.go/v2/extras/jsonrpc] that classifies
    SDK errors: the names of the wallet errors, and the name [WrapError] reads
    off an error response. *)
Class Ljsonrpc := {
  ErrorWalletNotFound : string;
  ErrorWalletAlreadyExists : string;
  ErrorWalletNotLoaded : string;
  ErrorWalletAlreadyLoaded : string;
  WrapError_Name : RPCError → string;
  sdk_error_names_distinct :
    NoDup [ErrorWalletNotFound; ErrorWalletAlreadyExists; ErrorWalletNotLoaded; ErrorWalletAlreadyLoaded];
}.

Definition WrapError `{!Ljsonrpc} (e : RPCError) : error := ESDK (WrapError_Name e) (Message e).

Definition NewWalletError `{!Ljsonrpc} (e : error) : error :=
  match e with
  | ESDK name _ =>
      if decide (name = ErrorWalletNotFound) then EWallet ErrWalletNotFound
      else if decide (name = ErrorWalletAlreadyExists) then EWallet ErrWalletExists
      else if decide (name = ErrorWalletNotLoaded) then EWallet ErrWalletNotLoaded
      else if decide (name = ErrorWalletAlreadyLoaded) then EWallet ErrWalletAlreadyLoaded
      else EWallet e
  | _ => EWallet e
  end.

(** ** Other sentinels the components compare against *)

Definition sql_ErrNoRows := ENamed "sql.ErrNoRows" "sql: no rows in result set" false.
Definition asynq_SkipRetry := ENamed "asynq.SkipRetry" "skip retry for the task" false.

(** ** Lemmas *)

Lemma Is_wrap e t : Is (wrap e) t = Is e t.
Proof. unfold wrap. by destruct e as [? ? []| | | | | | | |]. Qed.

Lemma Is_Err e t : Is (Err e) t = Is e t.
Proof. apply Is_wrap. Qed.

Lemma Is_newRPCErr e c t : Is (newRPCErr (Some e) c) t = Is e t.
Proof. apply Is_wrap. Qed.

Lemma Error_wrap e : Error (wrap e) = Error e.
Proof. unfold wrap. by destruct e as [? ? []| | | | | | | |]. Qed.

Lemma AsRPC_wrap e : AsRPC (wrap e) = AsRPC e.
Proof. unfold wrap. by destruct e as [? ? []| | | | | | | |]. Qed.

Lemma wrap_idemp e : wrap (wrap e) = wrap e.
Proof. unfold wrap. by destruct e as [? ? []| | | | | | | |]. Qed.

#[export] Hint Rewrite Is_wrap Is_Err Is_newRPCErr Error_wrap AsRPC_wrap wrap_idemp : gostr.

(** The three writers of [rpcerrors] produce the same object. *)
Lemma writers_agree err : ErrorToJSON err = ToJSON err ∧ ToJSON err = Write err.
Proof. done. Qed.

(** The error code a response carries. *)
Definition response_code (r : RPCResponse) : option Z := Code <$> resp_Error r.
Definition response_message (r : RPCResponse) : option string := Message <$> resp_Error r.

(** what a client sees of an error: the code is that of the outermost
    [RPCError] of the chain, or the internal-error code when there is none,
    and the message is the error's own text. *)
Theorem written_code_and_message (e : error) :
  response_code (Write (Some e)) =
    Some (match AsRPC e with Some (c, _) => c | None => rpcErrorCodeInternal end) ∧
  (AsRPC e = None → response_message (Write (Some e)) = Some (Error e)).
Proof.
  unfold Write, response_code, response_message; simpl.
  destruct (AsRPC e) as [[c i]|] eqn:He; split; try done.
  intros _. simpl. by rewrite Error_wrap.
Qed.

(** [Prefix] puts the prefix in front of the message and keeps the error's
    identity. *)
Lemma Prefix_spec p e :
  p ≠ "" → ∃ e', Prefix p (Some e) = Some e' ∧ Error e' = p +:+ ": " +:+ Error e ∧
    ∀ t, Is e' t = Is e t.
Proof.
  intros Hp. unfold Prefix, wrap.
  destruct e as [id m []| | | q i | | | | |]; simpl;
    try (eexists; split; [done|]; simpl; rewrite ?decide_False by done; done).
  eexists; split; [done|]. simpl. split; [|done].
  destruct (decide (q = "")) as [->|Hq].
  - by rewrite decide_False by done.
  - rewrite decide_False; [by rewrite <-!app_assoc_str|].
    destruct p; [done|]. by cbn.
Qed.

Section wallet_errors.
Context `{!Ljsonrpc}.

(** Classification of SDK wallet errors: each sentinel stands for exactly one
    SDK error name. *)
Lemma NewWalletError_class name msg :
  (Is (NewWalletError (ESDK name msg)) "lbrynet.ErrWalletNotFound" = true ↔
     name = ErrorWalletNotFound) ∧
  (Is (NewWalletError (ESDK name msg)) "lbrynet.ErrWalletExists" = true ↔
     name = ErrorWalletAlreadyExists) ∧
  (Is (NewWalletError (ESDK name msg)) "lbrynet.ErrWalletNotLoaded" = true ↔
     name = ErrorWalletNotLoaded) ∧
  (Is (NewWalletError (ESDK name msg)) "lbrynet.ErrWalletAlreadyLoaded" = true ↔
     name = ErrorWalletAlreadyLoaded).
Proof.
  pose proof sdk_error_names_distinct as Hd.
  repeat setoid_rewrite NoDup_cons in Hd. repeat setoid_rewrite elem_of_cons in Hd.
  unfold NewWalletError. repeat case_decide; simpl; naive_solver.
Qed.

Lemma NewWalletError_other e t :
  (∀ name msg, e ≠ ESDK name msg) → Is (NewWalletError e) t = Is e t.
Proof. destruct e; naive_solver. Qed.
End wallet_errors.
