(* ===== verification/Query.v ===== *)
(** * JSON-RPC queries: method tables and [NewQuery]

    Models [app/query/const.go], [app/query/query.go] and
    [app/query/context.go]: which methods may be called, which need a wallet,
    and how a client request becomes a [Query] carrying the wallet of the
    authenticated user. *)

From S2P Require Import Prelude GoLib Rpc Errors.

Local Open Scope Z_scope.

(** ** Constants *)

Definition cacheResolveLongerThan : Z := 10.
Definition maxListSizeLogged : nat := 5.

Definition MethodAccountList : string := "account_list".
Definition MethodClaimSearch : string := "claim_search".
Definition MethodCommentReactList : string := "comment_react_list".
Definition MethodFileList : string := "file_list".
Definition MethodGet : string := "get".
Definition MethodPublish : string := "publish".
Definition MethodPurchaseCreate : string := "purchase_create".
Definition MethodResolve : string := "resolve".
Definition MethodStatus : string := "status".
Definition MethodStreamUpdate : string := "stream_update".
Definition MethodStreamCreate : string := "stream_create".
Definition MethodSyncApply : string := "sync_apply".
Definition MethodWalletBalance : string := "wallet_balance".
Definition MethodWalletSend : string := "wallet_send".
Definition MethodBlobAnnounce : string := "blob_announce".
Definition MethodTransactionShow : string := "transaction_show".
Definition MethodStreamCostEstimate : string := "stream_cost_estimate".
Definition MethodCommentList : string := "comment_list".
Definition MethodCollectionResolve : string := "collection_resolve".
Definition MethodVersion : string := "version".
Definition MethodRoutingTableGet : string := "routing_table_get".
Definition MethodAddressUnused : string := "address_unused".
Definition MethodAddressList : string := "address_list".
Definition MethodAddressIsMine : string := "address_is_mine".
Definition MethodAccountBalance : string := "account_balance".
Definition MethodAccountSend : string := "account_send".
Definition MethodAccountMaxAddressGap : string := "account_max_address_gap".
Definition MethodChannelAbandon : string := "channel_abandon".
Definition MethodChannelCreate : string := "channel_create".
Definition MethodChannelList : string := "channel_list".
Definition MethodChannelUpdate : string := "channel_update".
Definition MethodChannelExport : string := "channel_export".
Definition MethodChannelImport : string := "channel_import".
Definition MethodChannelSign : string := "channel_sign".
Definition MethodCollectionList : string := "collection_list".
Definition MethodCollectionCreate : string := "collection_create".
Definition MethodCollectionUpdate : string := "collection_update".
Definition MethodCollectionAbandon : string := "collection_abandon".
Definition MethodCommentAbandon : string := "comment_abandon".
Definition MethodCommentCreate : string := "comment_create".
Definition MethodCommentHide : string := "comment_hide".
Definition MethodCommentUpdate : string := "comment_update".
Definition MethodCommentReact : string := "comment_react".
Definition MethodCommentPin : string := "comment_pin".
Definition MethodClaimList : string := "claim_list".
Definition MethodStreamAbandon : string := "stream_abandon".
Definition MethodStreamRepost : string := "stream_repost".
Definition MethodStreamList : string := "stream_list".
Definition MethodSupportAbandon : string := "support_abandon".
Definition MethodSupportCreate : string := "support_create".
Definition MethodSupportList : string := "support_list".
Definition MethodSyncHash : string := "sync_hash".
Definition MethodPreferenceGet : string := "preference_get".
Definition MethodPreferenceSet : string := "preference_set".
Definition MethodPurchaseList : string := "purchase_list".
Definition MethodTransactionList : string := "transaction_list".
Definition MethodTxoList : string := "txo_list".
Definition MethodTxoSpend : string := "txo_spend".
Definition MethodTxoSum : string := "txo_sum".
Definition MethodTxoPlot : string := "txo_plot".
Definition MethodUtxoList : string := "utxo_list".
Definition MethodUtxoRelease : string := "utxo_release".
Definition MethodWalletList : string := "wallet_list".
Definition MethodWalletEncrypt : string := "wallet_encrypt".
Definition MethodWalletDecrypt : string := "wallet_decrypt".
Definition MethodWalletLock : string := "wallet_lock".
Definition MethodWalletUnlock : string := "wallet_unlock".
Definition MethodWalletStatus : string := "wallet_status".
Definition ParamMethod : string := "method".
Definition ParamAccountID : string := "account_id".
Definition ParamChannelID : string := "channel_id".
Definition ParamNewSDKServer : string := "new_sdk_server".
Definition ParamPurchaseReceipt : string := "purchase_receipt".
Definition ParamStreamingUrl : string := "streaming_url".
Definition ParamBaseStreamingUrl : string := "base_streaming_url".
Definition ParamUrls : string := "urls".
Definition ParamWalletID : string := "wallet_id".

Definition forbiddenParams : list string := [ParamAccountID; ParamNewSDKServer].

Definition relaxedMethods : list string :=
  [MethodBlobAnnounce; MethodStatus; MethodResolve; MethodGet; MethodTransactionShow;
   MethodStreamCostEstimate; MethodClaimSearch; MethodCommentList;
   MethodCollectionResolve; MethodCommentReactList; MethodVersion; MethodRoutingTableGet].

Definition walletSpecificMethods : list string :=
  [MethodGet; MethodPurchaseCreate; MethodResolve; MethodClaimSearch; MethodPublish;
   MethodAddressUnused; MethodAddressList; MethodAddressIsMine; MethodAccountList;
   MethodAccountBalance; MethodAccountSend; MethodAccountMaxAddressGap;
   MethodChannelAbandon; MethodChannelCreate; MethodChannelList; MethodChannelUpdate;
   MethodChannelExport; MethodChannelImport; MethodChannelSign; MethodCollectionList;
   MethodCollectionCreate; MethodCollectionUpdate; MethodCollectionAbandon;
   MethodCommentAbandon; MethodCommentCreate; MethodCommentHide; MethodCommentUpdate;
   MethodCommentReact; MethodCommentPin; MethodCommentReactList; MethodClaimList;
   MethodStreamAbandon; MethodStreamCreate; MethodStreamList; MethodStreamUpdate;
   MethodStreamRepost; MethodSupportAbandon; MethodSupportCreate; MethodSupportList;
   MethodSyncApply; MethodSyncHash; MethodPreferenceGet; MethodPreferenceSet;
   MethodPurchaseList; MethodTransactionList; MethodTxoList; MethodTxoSpend;
   MethodTxoSum; MethodTxoPlot; MethodUtxoList; MethodUtxoRelease; MethodWalletList;
   MethodWalletSend; MethodWalletBalance; MethodWalletEncrypt; MethodWalletDecrypt;
   MethodWalletLock; MethodWalletUnlock; MethodWalletStatus].

(** ** [Query] *)

Record Query := mkQuery {
  Request : RPCRequest;
  WalletID : string;
}.

Definition set_Request (q : Query) (r : RPCRequest) : Query :=
  {| Request := r; WalletID := WalletID q |}.

Fixpoint methodInList (method : string) (checkMethods : list string) : bool :=
  match checkMethods with
  | [] => false
  | m :: ms => if decide (m = method) then true else methodInList method ms
  end.

(** Both take the method only; the [params] argument of the first is unused. *)
Definition MethodRequiresWallet (method : string) : bool :=
  negb (methodInList method relaxedMethods).
Definition MethodAcceptsWallet (method : string) : bool :=
  methodInList method walletSpecificMethods.

Definition q_Method (q : Query) : string := Method (Request q).
Definition q_Params (q : Query) : value := Params (Request q).
Definition IsAuthenticated (q : Query) : bool := bool_decide (WalletID q ≠ "").

(** [nil] when the params are not an object. *)
Definition ParamsAsMap (q : Query) : option (gmap string value) := as_map (q_Params q).

(** A copy of the map holds the same entries: with maps as values, copying is
    the identity. *)
Definition CopyParamsAsMap (q : Query) : option (gmap string value) :=
  (λ m, map_fold (λ k v acc, <[k:=v]> acc) ∅ m) <$> as_map (q_Params q).

(** Writing back into the map shared with the request. *)
Definition put_params (q : Query) (p : gmap string value) : Query :=
  set_Request q (set_Params (Request q) (VMap p)).

Definition newResponse (q : Query) : RPCResponse :=
  {| resp_JSONRPC := JSONRPC (Request q); Result := VNil; resp_Error := None;
     resp_ID := ID (Request q) |}.

Fixpoint find_forbidden (ps : list string) (m : gmap string value) : option string :=
  match ps with
  | [] => None
  | p :: ps' => match m !! p with
                | Some _ => Some p
                | None => find_forbidden ps' m
                end
  end.

Definition NewQuery (req : RPCRequest) (walletID : string) : result error Query :=
  if decide (TrimSpace (Method req) = "") then RErr (Errs "no method in request") else
  let q := {| Request := req; WalletID := walletID |} in
  if negb (methodInList (q_Method q) relaxedMethods) &&
     negb (methodInList (q_Method q) walletSpecificMethods)
  then RErr (NewMethodNotAllowedError (Errs "forbidden method")) else
  match ParamsAsMap q ≫= find_forbidden forbiddenParams with
  | Some p =>
      RErr (NewInvalidParamsError (EText ("forbidden parameter supplied: " +:+ p)))
  | None =>
      if MethodAcceptsWallet (q_Method q) then
        if IsAuthenticated q then
          match ParamsAsMap q with
          | Some p => ROk (put_params q (<[ParamWalletID := VStr (WalletID q)]> p))
          | None => ROk (put_params q {[ParamWalletID := VStr (WalletID q)]})
          end
        else if MethodRequiresWallet (q_Method q) then RErr NewAuthRequiredError
        else ROk q
      else ROk q
  end.

(** ** Lemmas *)

#[global] Arguments relaxedMethods : simpl never.
#[global] Arguments walletSpecificMethods : simpl never.
#[global] Arguments forbiddenParams : simpl never.

Lemma methodInList_true m l : methodInList m l = true ↔ m ∈ l.
Proof.
  induction l as [|x l IH]; simpl; [by rewrite elem_of_nil|].
  rewrite elem_of_cons. case_decide; naive_solver.
Qed.

Lemma methodInList_false m l : methodInList m l = false ↔ m ∉ l.
Proof. rewrite <-methodInList_true. by destruct (methodInList m l). Qed.

Lemma find_forbidden_None ps m : find_forbidden ps m = None ↔ ∀ p, p ∈ ps → m !! p = None.
Proof.
  induction ps as [|p ps IH]; simpl.
  - split; [|done]. intros _ p Hp. by apply elem_of_nil in Hp.
  - destruct (m !! p) eqn:Hp; [split; [done|]|].
    + intros H. rewrite (H p) in Hp; [done|]. left.
    + rewrite IH. setoid_rewrite elem_of_cons. naive_solver.
Qed.

Lemma CopyParamsAsMap_eq q : CopyParamsAsMap q = ParamsAsMap q.
Proof.
  unfold CopyParamsAsMap, ParamsAsMap. destruct (as_map (q_Params q)) as [m|]; [|done].
  simpl. f_equal. induction m as [|k v m Hk Hm IH] using map_first_key_ind; [done|].
  rewrite map_fold_insert_first_key; [|done..]. by rewrite IH.
Qed.

(** Membership in the closed method tables, decided by computation. *)
Lemma relaxed_and_wallet_methods :
  filter (λ m, m ∈ walletSpecificMethods) relaxedMethods =
    [MethodResolve; MethodGet; MethodClaimSearch; MethodCommentReactList].
Proof. vm_compute. reflexivity. Qed.

Lemma known_methods_trimmed :
  Forall (λ m, TrimSpace m = m ∧ m ≠ "") (relaxedMethods ++ walletSpecificMethods).
Proof. by repeat (constructor; [by vm_compute|]). Qed.

(** The parameters a request carries, absent ones reading as [nil]. *)
Definition param (r : RPCRequest) (k : string) : option value :=
  match Params r with VMap m => m !! k | _ => None end.

Lemma allowed_method_trim m :
  m ∈ relaxedMethods ∨ m ∈ walletSpecificMethods → TrimSpace m ≠ "".
Proof.
  intros Hm. pose proof known_methods_trimmed as Hf. rewrite Forall_forall in Hf.
  destruct (Hf m) as [-> ?]; [|done]. by apply elem_of_app.
Qed.

Lemma forbidden_none req w :
  ParamsAsMap {| Request := req; WalletID := w |} ≫= find_forbidden forbiddenParams = None ↔
  ∀ p, p ∈ forbiddenParams → param req p = None.
Proof.
  unfold ParamsAsMap, q_Params, param; simpl.
  destruct (Params req); simpl; try done.
  apply (find_forbidden_None forbiddenParams).
Qed.

(** Inversion of a successful [NewQuery]. *)
Lemma NewQuery_ok_inv req w q :
  NewQuery req w = ROk q →
  (Method req ∈ relaxedMethods ∨ Method req ∈ walletSpecificMethods) ∧
  (∀ p, p ∈ forbiddenParams → param req p = None) ∧
  WalletID q = w ∧
  ((Method req ∈ walletSpecificMethods ∧ w ≠ "" ∧
    Request q = set_Params req (VMap (<[ParamWalletID := VStr w]>
      (default ∅ (as_map (Params req)))))) ∨
   (Request q = req ∧ Method req ∈ relaxedMethods ∧
     (Method req ∉ walletSpecificMethods ∨ w = ""))).
Proof.
  unfold NewQuery, MethodAcceptsWallet, MethodRequiresWallet, IsAuthenticated, q_Method, put_params.
  case_decide as Htrim; [done|]. cbn [Request WalletID].
  destruct (_ ≫= find_forbidden forbiddenParams) eqn:Hf; [by destruct (_ && _)|].
  pose proof (proj1 (forbidden_none req w) Hf) as Hfb; clear Hf.
  unfold ParamsAsMap, q_Params; cbn [Request WalletID].
  destruct (methodInList _ relaxedMethods) eqn:Hr, (methodInList _ walletSpecificMethods) eqn:Hw;
    simpl; rewrite ?methodInList_true, ?methodInList_false in *; try done;
    try (case_bool_decide as Ha; simpl);
    try (destruct (as_map (Params req)) as [p|] eqn:Hp); intros [= <-]; simpl;
    (repeat split; [by auto|done|]); (left; done) || (right; naive_solver).
Qed.

(** When a request is accepted. *)
Lemma NewQuery_ok_intro req w :
  (Method req ∈ relaxedMethods ∨ Method req ∈ walletSpecificMethods ∧ w ≠ "") →
  (∀ p, p ∈ forbiddenParams → param req p = None) →
  ∃ q, NewQuery req w = ROk q.
Proof.
  intros Hm Hf. unfold NewQuery.
  rewrite decide_False by (apply allowed_method_trim; naive_solver).
  rewrite (proj2 (forbidden_none req w) Hf).
  unfold MethodAcceptsWallet, MethodRequiresWallet, IsAuthenticated, q_Method; cbn [Request WalletID].
  destruct (methodInList _ relaxedMethods) eqn:Hr, (methodInList _ walletSpecificMethods) eqn:Hw;
    simpl; rewrite ?methodInList_true, ?methodInList_false in *; try naive_solver;
    case_bool_decide; try naive_solver; destruct (ParamsAsMap _); eauto.
Qed.

(** a request becomes a query exactly when its method is in one of the two
    method tables, it carries none of the forbidden parameters, and either the
    method is relaxed or the caller is authenticated. *)
Theorem NewQuery_accepts_iff (req : RPCRequest) (w : string) :
  (∃ q, NewQuery req w = ROk q) ↔
  (Method req ∈ relaxedMethods ∨ Method req ∈ walletSpecificMethods ∧ w ≠ "") ∧
  (∀ p, p ∈ forbiddenParams → param req p = None).
Proof.
  split.
  - intros [q Hq]. apply NewQuery_ok_inv in Hq. naive_solver.
  - intros [Hm Hf]. by apply NewQuery_ok_intro.
Qed.

(** an authenticated caller of a wallet method always acts on their own
    wallet: whatever [wallet_id] the client sent, the query carries the
    caller's, and every other parameter is passed on untouched. *)
Theorem NewQuery_binds_wallet (req : RPCRequest) (w : string) (q : Query)
  (Hok : NewQuery req w = ROk q) (Hw : w ≠ "")
  (Hm : Method req ∈ walletSpecificMethods) :
  param (Request q) ParamWalletID = Some (VStr w) ∧
  (∀ k, k ≠ ParamWalletID → param (Request q) k = param req k) ∧
  Method (Request q) = Method req ∧ ID (Request q) = ID req.
Proof.
  apply NewQuery_ok_inv in Hok as (_ & _ & _ & [(_ & _ & ->)|(_ & _ & [?|?])]); [|done..].
  unfold param; simpl. rewrite lookup_insert_eq. repeat split; [|done..].
  intros k Hk. rewrite lookup_insert_ne by done.
  destruct (Params req); simpl; by rewrite ?lookup_empty.
Qed.

(** without authentication nothing is added to or removed from the request,
    and only relaxed methods get through. *)
Theorem NewQuery_unauthenticated (req : RPCRequest) (q : Query)
  (Hok : NewQuery req "" = ROk q) :
  Request q = req ∧ Method req ∈ relaxedMethods ∧ IsAuthenticated q = false.
Proof.
  pose proof Hok as Hok'.
  apply NewQuery_ok_inv in Hok as (_ & _ & Hid & [(_ & ? & _)|(-> & ? & _)]); [done|].
  repeat split; [done|]. unfold IsAuthenticated. rewrite Hid. by case_bool_decide.
Qed.

(** ** Concrete requests *)

Definition ex_send : RPCRequest :=
  {| Method := MethodWalletSend; ID := 7; JSONRPC := "2.0";
     Params := VMap {[ "amount" := VStr "1.0"; ParamWalletID := VStr "someone else" ]} |}.

Lemma NewQuery_binds_wallet_witness :
  ∃ q, NewQuery ex_send "lbrytv-id.751365.wallet" = ROk q ∧
    param (Request q) ParamWalletID = Some (VStr "lbrytv-id.751365.wallet").
Proof.
  eexists. split; [vm_compute; reflexivity|].
  refine (proj1 (NewQuery_binds_wallet ex_send "lbrytv-id.751365.wallet" _ _ _ _)).
  - vm_compute; reflexivity.
  - done.
  - apply methodInList_true. vm_compute; reflexivity.
Defined.

Definition ex_resolve : RPCRequest :=
  {| Method := MethodResolve; ID := 1; JSONRPC := "2.0";
     Params := VMap {[ "urls" := VStr "what" ]} |}.

Lemma NewQuery_unauthenticated_witness :
  NewQuery ex_resolve "" = ROk {| Request := ex_resolve; WalletID := "" |} ∧
  Request {| Request := ex_resolve; WalletID := "" |} = ex_resolve.
Proof.
  assert (NewQuery ex_resolve "" = ROk {| Request := ex_resolve; WalletID := "" |}) as H
    by (vm_compute; reflexivity).
  split; [exact H|]. exact (proj1 (NewQuery_unauthenticated _ _ H)).
Defined.

Example NewQuery_forbidden_param :
  NewQuery {| Method := MethodWalletBalance; ID := 1; JSONRPC := "2.0";
              Params := VMap {[ ParamAccountID := VStr "a" ]} |} "w" =
  RErr (NewInvalidParamsError (EText "forbidden parameter supplied: account_id")).
Proof. vm_compute. reflexivity. Qed.
