(* ===== verification/Router.v ===== *)
(** * SDK router

    Models [app/sdkrouter/sdkrouter.go]: the list of SDK servers, its periodic
    reload from the database, the choice of the least loaded server, and the
    naming of user wallets.  The mutexes only serialise accesses to the two
    fields they guard; each operation below is one critical section or a
    sequence of them as in the source. *)

From S2P Require Import Prelude GoLib Rpc Errors.

Local Open Scope Z_scope.

(** ** Data *)

(** [models.LbrynetServer], the columns the code reads. *)
Record LbrynetServer := mkServer {
  srv_ID : Z;
  srv_Name : string;
  srv_Address : string;
  srv_Private : bool;
}.

#[export] Instance LbrynetServer_eq_dec : EqDecision LbrynetServer.
Proof. solve_decision. Defined.

(** [models.User]: [user_R] is the eagerly loaded relation struct, [None] when
    it was not loaded, [Some None] when the user has no server. *)
Record User := mkUser {
  user_ID : Z;
  user_LbrynetServerID : option Z;
  user_IdpID : option string;
  user_LastSeenAt : option Z;
  user_R : option (option LbrynetServer);
}.

#[export] Instance User_eq_dec : EqDecision User.
Proof. solve_decision. Defined.

Record Router := mkRouter {
  servers : list LbrynetServer;
  leastLoaded : option LbrynetServer;
  useDB : bool;
  lastLoaded : Z;   (* nanoseconds *)
}.

Definition set_servers (r : Router) (l : list LbrynetServer) : Router :=
  {| servers := l; leastLoaded := leastLoaded r; useDB := useDB r; lastLoaded := lastLoaded r |}.
Definition set_lastLoaded (r : Router) (t : Z) : Router :=
  {| servers := servers r; leastLoaded := leastLoaded r; useDB := useDB r; lastLoaded := t |}.
Definition set_leastLoaded (r : Router) (s : LbrynetServer) : Router :=
  {| servers := servers r; leastLoaded := Some s; useDB := useDB r; lastLoaded := lastLoaded r |}.

Definition reloadInterval : Z := 30 * 10 ^ 9.

(** ** Operations *)

Definition setServers (l : list LbrynetServer) (r : Router) : Router :=
  match l with
  | [] => r
  | _ => set_servers r l
  end.

(** What the outside world answers to one router call: the clock, the rows of
    the servers table, the random source, and the number of wallets each
    server reports. *)
Record RouterEnv := {
  env_now : Z;
  env_db : error + list LbrynetServer;
  env_rand : nat → nat;                                (* rand.Intn *)
  env_wallets : LbrynetServer → error + Z;             (* WalletList("", 1, 1).TotalPages *)
}.

Section ops.
Context (env : RouterEnv).

(** On a database error [AllG] returns a nil slice, which [setServers]
    ignores. *)
Definition reloadServersFromDB (r : Router) : Router :=
  if negb (useDB r) || (env_now env - lastLoaded r <? reloadInterval) then r
  else
    let r := set_lastLoaded r (env_now env) in
    match env_db env with
    | inl _ => setServers [] r
    | inr l => setServers l r
    end.

Definition GetAll (r : Router) : list LbrynetServer * Router :=
  let r := reloadServersFromDB r in (servers r, r).

(** [r.servers[rand.Intn(len(r.servers))]]: [rand.Intn(0)] panics. *)
Definition RandomServer (r : Router) : result error LbrynetServer * Router :=
  let r := reloadServersFromDB r in
  match length (servers r) with
  | O => (RPanic "invalid argument to Intn", r)
  | n => match servers r !! env_rand env n with
         | Some s => (ROk s, r)
         | None => (RPanic "index out of range", r)
         end
  end.

Definition GetAllAddresses (r : Router) : list string * Router :=
  let '(l, r) := GetAll r in (srv_Address <$> l, r).

(** The loop of [updateLoadAndMetrics] over the candidates seen so far. *)
Fixpoint pickBest (l : list LbrynetServer) (best : option LbrynetServer) (min : Z)
  : option LbrynetServer :=
  match l with
  | [] => best
  | server :: l' =>
      match env_wallets env server with
      | inl _ => pickBest l' best min
      | inr numWallets =>
          if (bool_decide (best = None) || (numWallets <? min)) && negb (srv_Private server)
          then pickBest l' (Some server) numWallets
          else pickBest l' best min
      end
  end.

Definition updateLoadAndMetrics (r : Router) : Router :=
  let '(l, r) := GetAll r in
  match pickBest l None 0 with
  | Some best => set_leastLoaded r best
  | None => r
  end.

Definition LeastLoaded (r : Router) : result error LbrynetServer * Router :=
  match leastLoaded r with
  | None => RandomServer r
  | Some s => (ROk s, r)
  end.

(** One turn of the loop of [WatchLoad]. *)
Definition watchLoadTick (r : Router) : Router :=
  updateLoadAndMetrics (reloadServersFromDB r).

Definition NewWithServers (l : list LbrynetServer) : Router :=
  setServers l {| servers := []; leastLoaded := None; useDB := false; lastLoaded := 0 |}.

(** [New(servers)]: the map is given by the order in which it is iterated;
    the zero [lastLoaded] lies arbitrarily far in the past. *)
Definition New (m : list (string * string)) (never : Z) : Router :=
  match m with
  | [] => reloadServersFromDB
            {| servers := []; leastLoaded := None; useDB := true; lastLoaded := never |}
  | _ => NewWithServers
           ((λ p, {| srv_ID := 0; srv_Name := p.1; srv_Address := p.2; srv_Private := false |}) <$> m)
  end.
End ops.

(** [WalletID(userID)] *)
Definition wallet_id_of (userID : Z) : string :=
  if userID <=? 0 then "" else "lbrytv-id." +:+ Itoa userID +:+ ".wallet".

Definition GetLbrynetServer (u : option User) : option LbrynetServer :=
  match u with
  | Some u => match user_R u with Some (Some s) => Some s | _ => None end
  | None => None
  end.

Definition GetSDKAddress (u : option User) : string :=
  match GetLbrynetServer u with
  | None => ""
  | Some s => srv_Address s
  end.

(** ** Properties *)

Lemma setServers_servers l r : l ≠ [] → servers (setServers l r) = l.
Proof. by destruct l. Qed.

Lemma setServers_nonempty l r : servers r ≠ [] → servers (setServers l r) ≠ [].
Proof. by destruct l. Qed.

Lemma reload_nonempty env r : servers r ≠ [] → servers (reloadServersFromDB env r) ≠ [].
Proof.
  intros H. unfold reloadServersFromDB. destruct (_ || _); [done|].
  destruct (env_db env); by apply setServers_nonempty.
Qed.

Lemma reload_leastLoaded env r : leastLoaded (reloadServersFromDB env r) = leastLoaded r.
Proof.
  unfold reloadServersFromDB. destruct (_ || _); [done|].
  by destruct (env_db env) as [|[]].
Qed.

(** [pickBest] from a current best: the result is a responsive public server
    at least as good as everything seen. *)
Definition load_le (env : RouterEnv) (b : LbrynetServer) (s : LbrynetServer) : Prop :=
  ∀ n, env_wallets env s = inr n → srv_Private s = false →
  ∃ m, env_wallets env b = inr m ∧ m ≤ n.

Definition candidate (env : RouterEnv) (l : list LbrynetServer) (b : LbrynetServer) : Prop :=
  b ∈ l ∧ srv_Private b = false ∧ ∃ m, env_wallets env b = inr m.

Lemma pickBest_spec env l : ∀ best min,
  (∀ b, best = Some b → env_wallets env b = inr min) →
  match pickBest env l best min with
  | None => best = None ∧ ∀ s, ¬ candidate env l s
  | Some b => (best = Some b ∨ candidate env l b) ∧
      (∀ s, s ∈ l → load_le env b s) ∧
      (∀ b0, best = Some b0 → ∃ m, env_wallets env b = inr m ∧ m ≤ min)
  end.
Proof.
  induction l as [|s l IH]; intros best min Hb; simpl.
  { destruct best as [b|].
    - repeat split; [by left|by intros ? ?%elem_of_nil|].
      intros b0 [= <-]. exists min. eauto with lia.
    - split; [done|]. by intros ? [?%elem_of_nil _]. }
  assert (∀ b, candidate env l b → candidate env (s :: l) b) as Hcand.
  { intros b (? & ? & ?). split; [by right|done]. }
  destruct (env_wallets env s) as [e|n] eqn:Hs.
  { specialize (IH best min Hb). destruct (pickBest env l best min) as [b|].
    - destruct IH as (Hin & Hle & Hmin). repeat split; [naive_solver| |done].
      intros s' [->|?]%elem_of_cons; [|by apply Hle]. intros n ?. congruence.
    - destruct IH as [-> Hno]. split; [done|].
      intros s' [[->|?]%elem_of_cons (? & ? & ?)]; [congruence|]. eapply Hno. repeat split; eauto. }
  destruct ((bool_decide (best = None) || (n <? min)) && negb (srv_Private s)) eqn:Hc.
  - apply andb_true_iff in Hc as [Hc Hp%negb_true_iff].
    assert (∀ b, Some s = Some b → env_wallets env b = inr n) as Hs' by naive_solver.
    specialize (IH (Some s) n Hs'). destruct (pickBest env l (Some s) n) as [b|];
      [|by destruct IH].
    destruct IH as (Hin & Hle & Hmin). destruct (Hmin s eq_refl) as (m & Hm & Hmn).
    repeat split.
    + right. destruct Hin as [[= ->]|?]; [|by apply Hcand].
      repeat split; [left|done|by eauto].
    + intros s' [->|?]%elem_of_cons; [|by apply Hle]. intros n' Hn' _.
      assert (n' = n) by congruence. subst. eauto.
    + intros b0 ->. exists m. split; [done|].
      apply orb_true_iff in Hc as [Hc|Hc%Z.ltb_lt]; [by apply bool_decide_eq_true_1 in Hc|lia].
  - specialize (IH best min Hb). destruct (pickBest env l best min) as [b|].
    + destruct IH as (Hin & Hle & Hmin). repeat split; [naive_solver| |done].
      intros s' [->|?]%elem_of_cons; [|by apply Hle]. intros n' Hn' Hpub.
      assert (n' = n) by congruence; subst n'. rewrite Hpub in Hc.
      destruct best as [b0|]; [|done].
      rewrite andb_true_r in Hc. simpl in Hc. apply Z.ltb_ge in Hc.
      destruct (Hmin b0 eq_refl) as (m & ? & ?). exists m. split; [done|lia].
    + destruct IH as [-> Hno]. split; [done|].
      intros s' [[->|?]%elem_of_cons (Hp & m & ?)]; [|by eapply Hno; repeat split; eauto].
      by rewrite Hp in Hc.
Qed.

Lemma updateLoad_servers env r :
  servers (updateLoadAndMetrics env r) = servers (reloadServersFromDB env r).
Proof. unfold updateLoadAndMetrics, GetAll. by destruct (pickBest _ _ _ _). Qed.

(** after a load update the least loaded server is a public server of the
    current list that answered, and no public server of the list that answered
    has fewer wallets; when no public server answered, the previous choice
    stands. *)
Theorem updateLoad_picks_minimum (env : RouterEnv) (r : Router) :
  let l := servers (reloadServersFromDB env r) in
  match leastLoaded (updateLoadAndMetrics env r) with
  | Some b => (candidate env l b ∧ ∀ s, s ∈ l → load_le env b s) ∨
              ((∀ s, ¬ candidate env l s) ∧ leastLoaded r = Some b)
  | None => (∀ s, ¬ candidate env l s) ∧ leastLoaded r = None
  end.
Proof.
  unfold updateLoadAndMetrics, GetAll. simpl.
  pose proof (pickBest_spec env (servers (reloadServersFromDB env r)) None 0 ltac:(done)) as H.
  destruct (pickBest _ _ _ _) as [b|]; simpl.
  - left. destruct H as ([?|?] & ? & _); done.
  - destruct H as [_ H]. rewrite reload_leastLoaded. destruct (leastLoaded r); auto.
Qed.

(** the server list never becomes empty once it is not: neither a failing
    nor an empty database answer replaces it, so picking a random server
    returns one of the listed servers and does not panic. *)
Theorem RandomServer_total (env : RouterEnv) (r : Router)
  (Hne : servers r ≠ [])
  (Hrand : ∀ n, (0 < n)%nat → (env_rand env n < n)%nat) :
  ∃ s r', RandomServer env r = (ROk s, r') ∧ s ∈ servers r' ∧ servers r' ≠ [].
Proof.
  pose proof (reload_nonempty env r Hne) as Hne'.
  unfold RandomServer. set (r' := reloadServersFromDB env r) in *.
  destruct (length (servers r')) as [|n] eqn:Hlen; [by apply nil_length_inv in Hlen|].
  destruct (servers r' !! env_rand env (S n)) as [s|] eqn:Hs.
  - exists s, r'. repeat split; [|done]. by eapply list_elem_of_lookup_2.
  - apply lookup_ge_None in Hs. specialize (Hrand (S n) ltac:(lia)). lia.
Qed.

(** wallet names: distinct users never share a wallet, and only
    non-positive ids give the empty, unauthenticated name. *)
Theorem wallet_id_of_inj (u1 u2 : Z) (H1 : 0 < u1) (H : wallet_id_of u1 = wallet_id_of u2) :
  u1 = u2 ∧ wallet_id_of u1 ≠ "".
Proof.
  unfold wallet_id_of in *. destruct (Z.leb_spec u1 0), (Z.leb_spec u2 0); try lia; try done.
  split; [|done]. apply app_inj_l in H. apply app_inj_r in H. by apply Itoa_inj.
Qed.

(** ** Concrete routers *)

Definition ex_servers : list LbrynetServer :=
  [ {| srv_ID := 1; srv_Name := "a"; srv_Address := "http://a"; srv_Private := false |};
    {| srv_ID := 2; srv_Name := "p"; srv_Address := "http://p"; srv_Private := true |};
    {| srv_ID := 3; srv_Name := "b"; srv_Address := "http://b"; srv_Private := false |};
    {| srv_ID := 4; srv_Name := "c"; srv_Address := "http://c"; srv_Private := false |} ].

Definition ex_env : RouterEnv :=
  {| env_now := 10 ^ 12; env_db := inl (EText "db down"); env_rand := λ n, (n - 1)%nat;
     env_wallets := λ s, if decide (srv_ID s = 1) then inr 9
                         else if decide (srv_ID s = 2) then inr 0
                         else if decide (srv_ID s = 3) then inl (EText "refused")
                         else inr 4 |}.

Example updateLoad_skips_private_and_silent :
  srv_Name <$> leastLoaded (updateLoadAndMetrics ex_env (NewWithServers ex_servers)) = Some "c".
Proof. vm_compute. reflexivity. Qed.

Lemma RandomServer_total_witness :
  ∃ s r', RandomServer ex_env (NewWithServers ex_servers) = (ROk s, r') ∧ s ∈ servers r' ∧
    servers r' ≠ [].
Proof. apply RandomServer_total; [done|]. simpl. lia. Defined.

Lemma wallet_id_of_inj_witness : 751365 = 751365 ∧ wallet_id_of 751365 ≠ "".
Proof. apply (wallet_id_of_inj 751365 751365); [lia|vm_compute; reflexivity]. Defined.

Example wallet_id_of_ex : wallet_id_of 751365 = "lbrytv-id.751365.wallet" ∧ wallet_id_of 0 = "".
Proof. split; vm_compute; reflexivity. Qed.
