(* ===== verification/Iapi.v ===== *)
(** * Internal-api client

    Models [pkg/iapi/iapi.go] and the response types of
    [pkg/iapi/responses.go]: client options, [Clone], parameter preparation and
    the classification of replies by [Call].  The HTTP transport and JSON
    decoding are parameters. *)

From S2P Require Import Prelude GoLib Rpc Errors.

Local Open Scope Z_scope.

Definition EnvironLive : string := "live".
Definition EnvironTest : string := "test".
Definition ParamEnviron : string := "environment".
Definition headerForwardedFor : string := "X-Forwarded-For".
Definition headerOauthToken : string := "Authorization".
Definition paramLegacyToken : string := "auth_token".

Definition APIError : error := ENamed "iapi.APIError" "internal-api error" false.

(** [Client] with its [clientOptions]; the HTTP client is not data. *)
Record Client := mkClient {
  cl_server : string;
  extraHeaders : gmap string string;
  extraParams : gmap string string;
}.

Definition Option := Client → Client.

Definition WithServer (s : string) : Option :=
  λ o, {| cl_server := s; extraHeaders := extraHeaders o; extraParams := extraParams o |}.
Definition WithExtraHeader (k v : string) : Option :=
  λ o, {| cl_server := cl_server o; extraHeaders := <[k:=v]> (extraHeaders o);
          extraParams := extraParams o |}.
Definition WithExtraParam (k v : string) : Option :=
  λ o, {| cl_server := cl_server o; extraHeaders := extraHeaders o;
          extraParams := <[k:=v]> (extraParams o) |}.
Definition WithLegacyToken (t : string) : Option := WithExtraParam paramLegacyToken t.
Definition WithOAuthToken (t : string) : Option := WithExtraHeader headerOauthToken ("Bearer " +:+ t).
Definition WithRemoteIP (ip : string) : Option := WithExtraHeader headerForwardedFor ip.
Definition WithEnvironment (n : string) : Option := WithExtraParam ParamEnviron n.

Definition defaultClient : Client :=
  {| cl_server := "https://api.odysee.com"; extraHeaders := ∅;
     extraParams := {[ParamEnviron := EnvironLive]} |}.

Definition NewClient (opts : list Option) : result error Client :=
  let o := foldl (λ o f, f o) defaultClient opts in
  if bool_decide (default "" (extraHeaders o !! headerOauthToken) = "") &&
     bool_decide (default "" (extraParams o !! paramLegacyToken) = "")
  then RErr (EText "either legacy or oauth token required")
  else ROk o.

(** The maps are copied, so the options of the clone do not touch the original. *)
Definition Clone (c : Client) (opts : list Option) : Client := foldl (λ o f, f o) c opts.

(** [url.Values]: [Add] appends, so a parameter given both by the client and by
    the call is sent twice, the client's value first. *)
Definition prepareParams (c : Client) (params : gmap string string) : gmap string (list string) :=
  merge (λ a b, match a, b with
                | None, None => None
                | Some x, None => Some [x]
                | None, Some y => Some [y]
                | Some x, Some y => Some [x; y]
                end) (extraParams c) params.

(** Reply of the server: status code and body; a body that is not valid JSON
    is [None]. *)
Record HTTPReply := mkReply { reply_status : Z; reply_body : option value }.

Class IAPITransport (W : Type) := {
  iapi_Do : Client → string → gmap string (list string) → Go W HTTPReply;
}.

(** [BaseResponse]: the [success] flag and the [error] pointer of a body, as
    [json.Unmarshal] fills them; [None] is a type mismatch. *)
Record BaseResponse := { Success : bool; base_Error : option string }.

Definition json_bool (v : value) : option bool :=
  match v with VBool b => Some b | VNil => Some false | _ => None end.
Definition json_opt_string (v : value) : option (option string) :=
  match v with VStr s => Some (Some s) | VNil => Some None | _ => None end.

Definition decodeBase (body : value) : option BaseResponse :=
  match body with
  | VMap m =>
      match json_bool (map_get m "success"), json_opt_string (map_get m "error") with
      | Some b, Some e => Some {| Success := b; base_Error := e |}
      | _, _ => None
      end
  | VNil => Some {| Success := false; base_Error := None |}
  | _ => None
  end.

(** The rows of [CustomerListResponse.Data] and the fields of the other
    responses that the code reads. [ValidThrough] is in nanoseconds since
    the epoch. *)
Record CustomerEntry := mkCustomer {
  cust_Status : string;
  cust_Type : string;
  cust_ValidThrough : Z;
}.

(** [json.Unmarshal(body, target)] for the target types of the callers. *)
Class IAPIDecoders := {
  decode_CustomerList : value → option (list CustomerEntry);
  decode_UserMe : value → option (bool * bool);            (* Success, Data.GlobalMod *)
  decode_PerkCheck : value → option bool;                  (* Data.HasAccess *)
  decode_HasVerifiedEmail : value → option (Z * bool);     (* Data.UserID, Data.HasVerifiedEmail *)
}.

Section call.
Context {W : Type} `{!IAPITransport W}.

(** [Client.Call(ctx, path, params, target)]: the value is the decoded
    target. A reply with [success] false and no [error] text dereferences a
    nil pointer. *)
Definition Call {A} (c : Client) (path : string) (params : gmap string string)
    (decode : value → option A) : Go W A :=
  let! resp := iapi_Do c path (prepareParams c params) in
  if 500 <=? reply_status resp then
    fail (EText ("server returned non-OK status: " +:+ Itoa (reply_status resp)))
  else
    match reply_body resp with
    | None => fail (EText "json: cannot unmarshal")
    | Some body =>
        match decode body with
        | None => fail (EText "json: cannot unmarshal")
        | Some target =>
            match decodeBase body with
            | None => fail (EText "json: cannot unmarshal")
            | Some b =>
                if Success b then ret target
                else match base_Error b with
                     | None => gopanic "nil pointer dereference"
                     | Some m => fail (EWrapf "" APIError (": " +:+ m))
                     end
            end
        end
    end.
End call.

(** ** Lemmas *)

Lemma Clone_environment c :
  extraParams (Clone c [WithEnvironment EnvironTest]) !! ParamEnviron = Some EnvironTest ∧
  extraHeaders (Clone c [WithEnvironment EnvironTest]) = extraHeaders c.
Proof. split; [|done]. simpl. apply lookup_insert_eq. Qed.

(** A client always carries a credential. *)
Lemma NewClient_has_token opts c :
  NewClient opts = ROk c →
  (∃ t, extraHeaders c !! headerOauthToken = Some t ∧ t ≠ "") ∨
  (∃ t, extraParams c !! paramLegacyToken = Some t ∧ t ≠ "").
Proof.
  unfold NewClient. set (o := foldl _ _ _).
  destruct (bool_decide _ && bool_decide _) eqn:Hb; [done|]. intros [= <-].
  apply andb_false_iff in Hb as [Hb|Hb]; apply bool_decide_eq_false in Hb; [left|right];
    match type of Hb with default _ ?x ≠ _ => destruct x as [t|] eqn:Ht; [|done] end;
    exists t; by rewrite ?Ht.
Qed.

(** The call succeeds exactly on a reply below 500 whose body decodes and is
    flagged successful. *)
Lemma Call_ok_iff {W : Type} `{!IAPITransport W} {A} c path params (decode : value → option A) w a w' :
  Call c path params decode w = (ROk a, w') ↔
  ∃ rep body b, iapi_Do c path (prepareParams c params) w = (ROk rep, w') ∧
    reply_status rep < 500 ∧ reply_body rep = Some body ∧ decode body = Some a ∧
    decodeBase body = Some b ∧ Success b = true.
Proof.
  unfold Call, bind. split.
  - destruct (iapi_Do _ _ _ w) as [[rep|e|p] w1]; [|done..].
    destruct (Z.leb_spec 500 (reply_status rep)); [done|].
    destruct (reply_body rep) as [body|] eqn:Hbody; [|done].
    destruct (decode body) as [x|] eqn:Hd; [|done].
    destruct (decodeBase body) as [b|] eqn:Hb; [|done].
    destruct (Success b) eqn:Hs; [|by destruct (base_Error b)].
    intros [= -> <-]. exists rep, body, b. done.
  - intros (rep & body & b & -> & Hlt & -> & -> & -> & ->).
    destruct (Z.leb_spec 500 (reply_status rep)); [lia|done].
Qed.
