(* ===== verification/Services.v ===== *)
(** * External services and the oracle world

    The query components talk to the SDK over HTTP, to the wallet package, to
    internal-api, to the cache store, to Sentry and to the clock.  Each of
    these is a class over the state [W] of the world, and the component files
    are written against the classes.

    The second half gives one instance that is as general as a deterministic
    environment can be: the world is the list of interactions that happened so
    far, and an [Oracle] answers each new interaction by an arbitrary function
    of that history.  Statements about which calls are made, how often and in
    which order are statements about the history. *)

From S2P Require Import Prelude GoLib Rpc Errors Router Iapi.

Local Open Scope Z_scope.

(** ** Interfaces *)

(** [client.CallRaw(req)] against an endpoint; an error is a transport
    failure. *)
Class SDKClient (W : Type) := CallRaw : string → RPCRequest → Go W RPCResponse.

(** [app/wallet], as far as the caller uses it. *)
Class WalletService (W : Type) := {
  LoadWallet : string → Z → Go W unit;
  DeleteUser : Z → Go W unit;
}.

(** [math/rand/v2.IntN] for a positive argument. *)
Class Random (W : Type) := rand_IntN : nat → Go W nat.

(** [internal/monitor.ErrorToSentry] and [internal/audit.LogQuery]. *)
Class Monitor (W : Type) := {
  ErrorToSentry : option error → Go W unit;
  LogQuery : Z → string → string → string → Go W unit;
}.

(** [app/arweave]. *)
Class Arweave (W : Type) := {
  ReplaceAssetUrls : string → value → string → string → Go W value;
  ReplaceAssetUrl : string → value → string → Go W value;
  GetClaimUrl : string → string → Go W string;
}.

(** The entry a [for k, v := range m] loop visits last. Go leaves the order
    open; any entry of the map is possible. *)
Class MapOrder := {
  range_last : gmap string value → option (string * value);
  range_last_None m : range_last m = None ↔ m = ∅;
  range_last_Some m k v : range_last m = Some (k, v) → m !! k = Some v;
}.

(** The settings of [apps/lbrytv/config] that the query package reads. *)
Record Config := {
  ArfleetEnabled : bool;
  ArfleetCDN : string;
  CacheGetterRetries : nat;
  RPCTimeouts : gmap string Z;              (* nanoseconds *)
  StreamsV6 : gmap string string;
  PaidContentURL : string;
}.


(** [time.Now()], in nanoseconds since the epoch; [Unix()] truncates. *)
Class Clock (W : Type) := Now : Go W Z.
Definition NowUnix {W} `{!Clock W} : Go W Z := let! t := Now in ret (t / 10 ^ 9).

(** [paid.CreateToken(stream, txid, size, _)] of the player server. *)
Class PaidTokens (W : Type) := CreateToken : string → string → Z → Go W string.

(** [query.CachedResponse]. *)
Record CachedResponse := mkCached {
  cr_Result : value;
  cr_Error : option RPCError;
}.

(** The cache store behind [marshaler.Marshaler]: keys are the strings
    [GetCacheKey] computes; a missing key is a [store.NotFound] error. *)
Class CacheStore (W : Type) := {
  store_Get : string → Go W (option CachedResponse);
  store_Set : string → CachedResponse → Z → list string → Go W unit;
  store_Invalidate : list string → Go W unit;
}.

(** ** The oracle world *)

Inductive event :=
| EvCall (ep : string) (req : RPCRequest) (r : error + RPCResponse)
| EvLoad (ep : string) (uid : Z) (r : error + unit)
| EvDelete (uid : Z) (r : error + unit)
| EvSentry (e : option error)
| EvAudit (uid : Z) (ip method body : string)
| EvRand (n i : nat)
| EvAssets (v : value) (r : error + value)
| EvClaimUrl (claim : string) (r : error + string)
| EvNow (t : Z)
| EvIapi (c : Client) (path : string) (r : error + HTTPReply)
| EvToken (stream txid : string) (size : Z) (r : error + string)
| EvGet (key : string) (r : error + option CachedResponse)
| EvSet (key : string) (v : CachedResponse) (ttl : Z) (tags : list string) (r : error + unit)
| EvInvalidate (tags : list string) (r : error + unit).

Abbreviation history := (list event).

Record Oracle := {
  o_call : history → string → RPCRequest → error + RPCResponse;
  o_load : history → string → Z → error + unit;
  o_delete : history → Z → error + unit;
  o_rand : history → nat → nat;
  o_assets : history → value → error + value;
  o_claimurl : history → string → error + string;
  o_now : history → Z;
  o_iapi : history → Client → string → gmap string (list string) → error + HTTPReply;
  o_token : history → string → string → Z → error + string;
  o_get : history → string → error + option CachedResponse;
  o_set : history → string → CachedResponse → error + unit;
  o_invalidate : history → list string → error + unit;
}.

(** One interaction: the answer is computed from the history and recorded. *)
Definition interact {A} (answer : history → error + A) (ev : error + A → event) : Go history A :=
  λ h, let r := answer h in
       (match r with inl e => RErr e | inr a => ROk a end, h ++ [ev r]).

Section oracle.
Context (o : Oracle).

#[local] Instance oracle_SDK : SDKClient history :=
  λ ep req, interact (λ h, o_call o h ep req) (EvCall ep req).
#[local] Instance oracle_wallet : WalletService history :=
  {| LoadWallet ep uid := interact (λ h, o_load o h ep uid) (EvLoad ep uid);
     DeleteUser uid := interact (λ h, o_delete o h uid) (EvDelete uid) |}.
(** [rand.IntN(n)] is below [n]. *)
#[local] Instance oracle_random : Random history :=
  λ n h, let i := (o_rand o h n `mod` n)%nat in (ROk i, h ++ [EvRand n i]).
#[local] Instance oracle_monitor : Monitor history :=
  {| ErrorToSentry e h := (ROk tt, h ++ [EvSentry e]);
     LogQuery uid ip m b h := (ROk tt, h ++ [EvAudit uid ip m b]) |}.
#[local] Instance oracle_arweave : Arweave history :=
  {| ReplaceAssetUrls base v coll item := interact (λ h, o_assets o h v) (EvAssets v);
     ReplaceAssetUrl base v path := interact (λ h, o_assets o h v) (EvAssets v);
     GetClaimUrl base claim := interact (λ h, o_claimurl o h claim) (EvClaimUrl claim) |}.
#[local] Instance oracle_clock : Clock history :=
  λ h, (ROk (o_now o h), h ++ [EvNow (o_now o h)]).
#[local] Instance oracle_iapi : IAPITransport history :=
  {| iapi_Do c path params := interact (λ h, o_iapi o h c path params) (EvIapi c path) |}.
#[local] Instance oracle_tokens : PaidTokens history :=
  λ stream txid size, interact (λ h, o_token o h stream txid size) (EvToken stream txid size).
#[local] Instance oracle_cache : CacheStore history :=
  {| store_Get k := interact (λ h, o_get o h k) (EvGet k);
     store_Set k v ttl tags := interact (λ h, o_set o h k v) (EvSet k v ttl tags);
     store_Invalidate tags := interact (λ h, o_invalidate o h tags) (EvInvalidate tags) |}.
End oracle.

(** The instances of an oracle, for files that [Import] this module. *)
Module OracleInstances.
#[export] Hint Extern 0 (SDKClient history) => (apply oracle_SDK; assumption) : typeclass_instances.
#[export] Hint Extern 0 (WalletService history) => (apply oracle_wallet; assumption) : typeclass_instances.
#[export] Hint Extern 0 (Random history) => (apply oracle_random; assumption) : typeclass_instances.
#[export] Hint Extern 0 (Monitor history) => (apply oracle_monitor; assumption) : typeclass_instances.
#[export] Hint Extern 0 (Arweave history) => (apply oracle_arweave; assumption) : typeclass_instances.
#[export] Hint Extern 0 (Clock history) => (apply oracle_clock; assumption) : typeclass_instances.
#[export] Hint Extern 0 (IAPITransport history) => (apply oracle_iapi; assumption) : typeclass_instances.
#[export] Hint Extern 0 (PaidTokens history) => (apply oracle_tokens; assumption) : typeclass_instances.
#[export] Hint Extern 0 (CacheStore history) => (apply oracle_cache; assumption) : typeclass_instances.
End OracleInstances.

(** ** Facts about histories *)

Definition grows : relation history := prefix.
#[export] Instance grows_preorder : PreOrder grows.
Proof. unfold grows. apply _. Qed.

Lemma interact_grows {A} (answer : history → error + A) ev : extends grows (interact answer ev).
Proof. intros h. unfold interact. simpl. by exists [ev (answer h)]. Qed.

Lemma interact_nopanic {A} (answer : history → error + A) ev : nopanic (interact answer ev).
Proof. intros h w s'. unfold interact. destruct (answer h); congruence. Qed.

Lemma interact_ok {A} (answer : history → error + A) ev h a :
  answer h = inr a → interact answer ev h = (ROk a, h ++ [ev (inr a)]).
Proof. unfold interact. by intros ->. Qed.

Lemma interact_err {A} (answer : history → error + A) ev h e :
  answer h = inl e → interact answer ev h = (RErr e, h ++ [ev (inl e)]).
Proof. unfold interact. by intros ->. Qed.

(** Step through the next call of a program, knowing the oracle's answer. *)
Ltac oracle_step H :=
  first
    [ erewrite bind_ok by (apply try_ok, interact_ok; exact H)
    | erewrite bind_ok by (apply try_err, interact_err; exact H)
    | erewrite bind_ok by (apply interact_ok; exact H)
    | erewrite bind_err by (apply interact_err; exact H) ].

#[export] Hint Resolve interact_grows interact_nopanic : go.

(** Counting interactions of a kind. *)
Definition is_call (e : event) : bool := match e with EvCall _ _ _ => true | _ => false end.
Definition is_load (e : event) : bool := match e with EvLoad _ _ _ => true | _ => false end.
Definition is_delete (e : event) : bool := match e with EvDelete _ _ => true | _ => false end.

Definition count (p : event → bool) (h : history) : nat := length (filter (λ e, Is_true (p e)) h).

Lemma count_app p h1 h2 : count p (h1 ++ h2) = (count p h1 + count p h2)%nat.
Proof. unfold count. by rewrite filter_app, length_app. Qed.

Lemma count_nil p : count p [] = 0%nat.
Proof. done. Qed.

Lemma count_cons p e h : count p (e :: h) = ((if p e then 1 else 0) + count p h)%nat.
Proof.
  unfold count. rewrite filter_cons. case_decide as Hp; destruct (p e); done.
Qed.

Create Rewrite HintDb hist.
#[export] Hint Rewrite count_app count_nil count_cons : hist.
