(* ===== verification/Http.v ===== *)
(** * HTTP requests and responses

    The part of [net/http] the handlers use: headers with canonical names,
    the request context values attached by middleware, and a response writer
    whose status is fixed by the first [WriteHeader] or [Write]. *)

From S2P Require Import Prelude GoLib Rpc.

Local Open Scope Z_scope.

(** [http.Header]: canonical name to values. *)
Abbreviation Header := (gmap string (list string)).

(** [Header.Get]: the first value, or the empty string. *)
Definition Header_Get (h : Header) (k : string) : string :=
  match h !! k with
  | Some (v :: _) => v
  | _ => ""
  end.

(** What is written to a response body. *)
Inductive chunk :=
| CText (s : string)
| CJSON (r : RPCResponse)
| CValue (v : value).

(** [http.ResponseWriter]. *)
Record Writer := mkWriter {
  w_status : option Z;
  w_header : Header;
  w_body : list chunk;
}.

Definition newWriter : Writer := {| w_status := None; w_header := ∅; w_body := [] |}.

(** The first status written wins; later calls are superfluous. *)
Definition WriteHeader (code : Z) (w : Writer) : Writer :=
  match w_status w with
  | Some _ => w
  | None => {| w_status := Some code; w_header := w_header w; w_body := w_body w |}
  end.

(** [Write] on a response without status sends 200. *)
Definition WriteBody (c : chunk) (w : Writer) : Writer :=
  let w := WriteHeader 200 w in
  {| w_status := w_status w; w_header := w_header w; w_body := w_body w ++ [c] |}.

Definition SetHeader (k v : string) (w : Writer) : Writer :=
  {| w_status := w_status w; w_header := <[k := [v]]> (w_header w); w_body := w_body w |}.

(** The status the client receives. *)
Definition sent_status (w : Writer) : Z := default 200 (w_status w).

Lemma WriteHeader_fresh c w : w_status w = None → w_status (WriteHeader c w) = Some c.
Proof. unfold WriteHeader. by intros ->. Qed.

Lemma WriteHeader_twice c1 c2 w : WriteHeader c2 (WriteHeader c1 w) = WriteHeader c1 w.
Proof. unfold WriteHeader at 2 3. destruct (w_status w) eqn:Hs; unfold WriteHeader; simpl; by rewrite ?Hs. Qed.
