(* ===== verification/Ip.v ===== *)
(** * Client IP addresses

    Models [internal/ip/ip.go] and [internal/ip/middleware.go]: which address a
    request is attributed to, given the proxy headers.  [net.ParseIP] and the
    address classes of [net.IP] are written out; an address is the 128-bit
    number of its 16-byte form, so [bytes.Compare] is the order of [Z]. *)

From Stdlib Require Import Ascii.
From S2P Require Import Prelude GoLib Http.

Local Open Scope Z_scope.

Definition CloudflareIPHeader : string := "Cf-Connecting-Ip".

(** ** [net.ParseIP] *)

(** A decimal octet: one to three digits, no leading zero, at most 255. *)
Definition parseOctet (s : string) : option Z :=
  match s with
  | "" => None
  | String "0"%char (String _ _) => None
  | _ => match digits 0 s with
         | Some n => if (n <=? 255) then Some n else None
         | None => None
         end
  end.

Definition v4 (a b c d : Z) : Z := ((a * 256 + b) * 256 + c) * 256 + d.
Definition v4_prefix : Z := 65535 * 2 ^ 32.

Definition parseIPv4 (s : string) : option Z :=
  match Split s "." with
  | [a; b; c; d] =>
      match parseOctet a, parseOctet b, parseOctet c, parseOctet d with
      | Some a, Some b, Some c, Some d => Some (v4 a b c d)
      | _, _, _, _ => None
      end
  | _ => None
  end.

(** A group of one to four hexadecimal digits. *)
Fixpoint hexval (acc : Z) (s : string) : option Z :=
  match s with
  | "" => Some acc
  | String a s' => match hex_digit a with
                   | Some d => hexval (acc * 16 + Z.of_N d) s'
                   | None => None
                   end
  end.

Definition parseGroup (s : string) : option Z :=
  if (String.length s =? 0)%nat || (4 <? String.length s)%nat then None else hexval 0 s.

(** Groups separated by colons; the last may be an IPv4 address when [tail4]. *)
Fixpoint parseGroups (gs : list string) (tail4 : bool) : option (list Z) :=
  match gs with
  | [] => Some []
  | [g] =>
      match parseGroup g with
      | Some n => Some [n]
      | None => if tail4 then
                  match parseIPv4 g with
                  | Some n => Some [n / 65536; n `mod` 65536]
                  | None => None
                  end
                else None
      end
  | g :: gs' =>
      match parseGroup g, parseGroups gs' tail4 with
      | Some n, Some ns => Some (n :: ns)
      | _, _ => None
      end
  end.

(** The text before and after the first ["::"]. *)
Fixpoint cutEllipsis (s : string) : option (string * string) :=
  match s with
  | String ":"%char (String ":"%char r) => Some ("", r)
  | String a s' => match cutEllipsis s' with
                   | Some (l, r) => Some (String a l, r)
                   | None => None
                   end
  | "" => None
  end.

Definition parseSide (s : string) (tail4 : bool) : option (list Z) :=
  if bool_decide (s = "") then Some [] else parseGroups (Split s ":") tail4.

Definition of_groups (gs : list Z) : Z := foldl (λ acc g, acc * 65536 + g) 0 gs.

Definition parseIPv6 (s : string) : option Z :=
  match cutEllipsis s with
  | None =>
      match parseGroups (Split s ":") true with
      | Some gs => if (length gs =? 8)%nat then Some (of_groups gs) else None
      | None => None
      end
  | Some (l, r) =>
      match parseSide l false, parseSide r true with
      | Some ls, Some rs =>
          if (length ls + length rs <=? 7)%nat then
            Some (of_groups (ls ++ replicate (8 - length ls - length rs) 0 ++ rs))
          else None
      | _, _ => None
      end
  end.

(** The first of [.], [:] and [%] decides the family. *)
Fixpoint ip_family (s : string) : option ascii :=
  match s with
  | "" => None
  | String a s' => if bool_decide (a ∈ ["."; ":"; "%"]%char) then Some a else ip_family s'
  end.

Definition ParseIP (s : string) : option Z :=
  match ip_family s with
  | Some "."%char => (λ n, v4_prefix + n) <$> parseIPv4 s
  | Some ":"%char => parseIPv6 s
  | _ => None
  end.

(** ** Address classes *)

Definition To4 (ip : Z) : option Z :=
  if ip / 2 ^ 32 =? 65535 then Some (ip `mod` 2 ^ 32) else None.

Definition IsUnspecified (ip : Z) : bool := (ip =? v4_prefix) || (ip =? 0).
Definition IsLoopback (ip : Z) : bool :=
  match To4 ip with Some n => n / 2 ^ 24 =? 127 | None => ip =? 1 end.
Definition IsMulticast (ip : Z) : bool :=
  match To4 ip with Some n => Z.land (n / 2 ^ 24) 0xf0 =? 0xe0 | None => ip / 2 ^ 120 =? 0xff end.
Definition IsLinkLocalUnicast (ip : Z) : bool :=
  match To4 ip with
  | Some n => n / 2 ^ 16 =? 169 * 256 + 254
  | None => (ip / 2 ^ 120 =? 0xfe) && (Z.land ((ip / 2 ^ 112) `mod` 256) 0xc0 =? 0x80)
  end.

(** A nil address, the result of a failed parse, is not global unicast. *)
Definition IsGlobalUnicast (ip : option Z) : bool :=
  match ip with
  | None => false
  | Some ip => negb (ip =? v4_prefix + v4 255 255 255 255) && negb (IsUnspecified ip) &&
               negb (IsLoopback ip) && negb (IsMulticast ip) && negb (IsLinkLocalUnicast ip)
  end.

(** ** [ipRange] *)

Record ipRange := mkRange { rg_start : Z; rg_end : Z }.

(** [ipRange.Contains] *)
Definition range_Contains (r : ipRange) (ip : Z) : bool := (rg_start r <=? ip) && (ip <? rg_end r).

Definition range4 (a b : Z) : ipRange := mkRange (v4_prefix + a) (v4_prefix + b).

Definition privateRanges : list ipRange :=
  [range4 (v4 10 0 0 0) (v4 10 255 255 255);
   range4 (v4 100 64 0 0) (v4 100 127 255 255);
   range4 (v4 127 0 0 1) (v4 127 255 255 255);
   range4 (v4 172 16 0 0) (v4 172 31 255 255);
   range4 (v4 192 0 0 0) (v4 192 0 0 255);
   range4 (v4 192 168 0 0) (v4 192 168 255 255);
   range4 (v4 198 18 0 0) (v4 198 19 255 255)].

Definition IsPrivateSubnet (ip : Z) : bool :=
  match To4 ip with
  | Some _ => existsb (λ r, range_Contains r ip) privateRanges
  | None => false
  end.

(** ** [ForRequest] *)

(** [!realIP.IsGlobalUnicast() || IsPrivateSubnet(realIP)], negated. *)
Definition is_public (addr : string) : bool :=
  IsGlobalUnicast (ParseIP addr) &&
  negb (match ParseIP addr with Some ip => IsPrivateSubnet ip | None => false end).

(** The loop from the last address to the first, over the reversed list. *)
Fixpoint scanRight (rev_addresses : list string) : option string :=
  match rev_addresses with
  | [] => None
  | a :: rest => let addr := TrimSpace a in
                 if is_public addr then Some addr else scanRight rest
  end.

Definition scanHeader (headers : Header) (h : string) : option string :=
  scanRight (reverse (Split (Header_Get headers h) ",")).

Definition remoteHost (remoteAddr : string) : string :=
  let ipParts := Split remoteAddr ":" in
  let addr := Join (take (length ipParts - 1) ipParts) ":" in
  if bool_decide (addr = "[::1]") then "127.0.0.1" else addr.

Definition ForRequest (headers : Header) (remoteAddr : string) : string :=
  let cf := Header_Get headers CloudflareIPHeader in
  if negb (bool_decide (cf = "")) then cf
  else match scanHeader headers "X-Forwarded-For" with
       | Some addr => addr
       | None => match scanHeader headers "X-Real-Ip" with
                 | Some addr => addr
                 | None => remoteHost remoteAddr
                 end
       end.

(** [ip.Middleware] attaches the address; [FromRequest] reads it back. *)
Definition ip_Middleware (headers : Header) (remoteAddr : string) : option string :=
  Some (ForRequest headers remoteAddr).
Definition FromRequest (ctx_ip : option string) : string := default "" ctx_ip.

(** ** Examples *)

Example parse_v4 : ParseIP "192.168.1.20" = Some (v4_prefix + v4 192 168 1 20).
Proof. reflexivity. Qed.
Example parse_v6 : ParseIP "2001:db8::1" = Some (0x20010db8000000000000000000000001).
Proof. reflexivity. Qed.
Example parse_mapped : ParseIP "::ffff:10.0.0.1" = ParseIP "10.0.0.1".
Proof. reflexivity. Qed.
Example parse_bad : ParseIP "10.0.0.01" = None ∧ ParseIP "1::2::3" = None ∧ ParseIP "fe80::1%eth0" = None.
Proof. done. Qed.

(** ** Properties *)

Lemma scanRight_app l1 l2 :
  scanRight (l1 ++ l2) = match scanRight l1 with Some a => Some a | None => scanRight l2 end.
Proof. induction l1 as [|a l1 IH]; simpl; [done|]. by destruct (is_public _). Qed.

(** The address found is public, and nothing to its right is. *)
Lemma scanRight_Some l a :
  scanRight l = Some a ↔
  ∃ l1 x l2, l = l1 ++ x :: l2 ∧ a = TrimSpace x ∧ is_public a = true ∧
    Forall (λ y, is_public (TrimSpace y) = false) l1.
Proof.
  induction l as [|y l IH]; simpl.
  - split; [done|]. intros ([|] & ? & ? & ? & _); simplify_eq.
  - destruct (is_public (TrimSpace y)) eqn:Hy; split.
    + intros [= <-]. exists [], y, l. repeat split; [done|constructor].
    + intros ([|z l1] & x & l2 & Heq & -> & Hp & Hf); simplify_eq/=; [done|].
      apply Forall_cons in Hf as [Hz _]. congruence.
    + intros (l1 & x & l2 & -> & -> & Hp & Hf)%IH. exists (y :: l1), x, l2. auto.
    + intros ([|z l1] & x & l2 & Heq & -> & Hp & Hf); simplify_eq/=; [congruence|].
      apply Forall_cons in Hf as [_ Hf]. apply IH. eauto 8.
Qed.

Lemma Split_app_sep s1 s2 sep : Split (s1 +:+ String sep s2) sep = Split s1 sep ++ Split s2 sep.
Proof.
  induction s1 as [|a s1 IH]; simpl.
  - by rewrite Ascii.eqb_refl.
  - change (String a s1 +:+ String sep s2) with (String a (s1 +:+ String sep s2)). simpl.
    rewrite IH. destruct (Ascii.eqb a sep); [done|].
    destruct (Split s1 sep) as [|w ws] eqn:Hs; [by apply Split_nonempty in Hs|done].
Qed.

Lemma scanRight_None l : scanRight l = None ↔ Forall (λ y, is_public (TrimSpace y) = false) l.
Proof.
  induction l as [|y l IH]; simpl; [done|]. rewrite Forall_cons.
  destruct (is_public _); naive_solver.
Qed.

Lemma scanHeader_None hdrs h :
  scanHeader hdrs h = None ↔
  Forall (λ y, is_public (TrimSpace y) = false) (Split (Header_Get hdrs h) ",").
Proof. unfold scanHeader. by rewrite scanRight_None, Forall_reverse. Qed.

Lemma scanHeader_Some hdrs h a :
  scanHeader hdrs h = Some a →
  ∃ l1 x l2, Split (Header_Get hdrs h) "," = l1 ++ x :: l2 ∧ a = TrimSpace x ∧
    is_public a = true ∧ Forall (λ y, is_public (TrimSpace y) = false) l2.
Proof.
  unfold scanHeader. rewrite scanRight_Some. intros (l1 & x & l2 & Heq & ? & ? & ?).
  exists (reverse l2), x, (reverse l1). rewrite Forall_reverse. repeat split; [|done..].
  rewrite <-(reverse_involutive (Split _ _)), Heq, reverse_app, reverse_cons, <-app_assoc. done.
Qed.

Lemma scanHeader_prepend hdrs hdrs' h junk :
  Header_Get hdrs' h = junk +:+ "," +:+ Header_Get hdrs h →
  is_Some (scanHeader hdrs h) → scanHeader hdrs' h = scanHeader hdrs h.
Proof.
  unfold scanHeader. intros -> [a Ha].
  change ("," +:+ Header_Get hdrs h) with (String "," (Header_Get hdrs h)).
  by rewrite Split_app_sep, reverse_app, scanRight_app, Ha.
Qed.

(** A client cannot spoof its address by sending its own
    [X-Forwarded-For]: proxies append to the header, and as soon as the part
    they added contains a public address, whatever the client put in front of
    it does not change the result. *)
Theorem ForRequest_ignores_client_prefix hdrs hdrs' remote junk :
  Header_Get hdrs' CloudflareIPHeader = Header_Get hdrs CloudflareIPHeader →
  Header_Get hdrs' "X-Forwarded-For" = junk +:+ "," +:+ Header_Get hdrs "X-Forwarded-For" →
  is_Some (scanHeader hdrs "X-Forwarded-For") →
  ForRequest hdrs' remote = ForRequest hdrs remote.
Proof.
  intros Hcf Hx Hpub. unfold ForRequest. rewrite Hcf, (scanHeader_prepend hdrs hdrs' _ junk) by done.
  destruct (negb _); [done|]. by destruct Hpub as [a ->].
Qed.

Lemma ForRequest_ignores_client_prefix_witness :
  ForRequest {["X-Forwarded-For" := ["8.8.8.8,203.0.113.9, 10.0.0.2"]]} "10.0.0.1:443" =
  ForRequest {["X-Forwarded-For" := ["203.0.113.9, 10.0.0.2"]]} "10.0.0.1:443".
Proof.
  apply (ForRequest_ignores_client_prefix _ _ _ "8.8.8.8"); [reflexivity..|].
  exists "203.0.113.9". vm_compute. reflexivity.
Defined.

(** Without a Cloudflare header the address is the rightmost public address
    of [X-Forwarded-For], else of [X-Real-Ip], else the host of the
    connection. *)
Theorem ForRequest_rightmost_public hdrs remote :
  Header_Get hdrs CloudflareIPHeader = "" →
  (∃ h l1 x l2, h ∈ ["X-Forwarded-For"; "X-Real-Ip"] ∧
     Split (Header_Get hdrs h) "," = l1 ++ x :: l2 ∧
     ForRequest hdrs remote = TrimSpace x ∧ is_public (TrimSpace x) = true ∧
     Forall (λ y, is_public (TrimSpace y) = false) l2 ∧
     (h = "X-Real-Ip" → Forall (λ y, is_public (TrimSpace y) = false)
                          (Split (Header_Get hdrs "X-Forwarded-For") ","))) ∨
  (ForRequest hdrs remote = remoteHost remote ∧
   ∀ h, h ∈ ["X-Forwarded-For"; "X-Real-Ip"] →
     Forall (λ y, is_public (TrimSpace y) = false) (Split (Header_Get hdrs h) ",")).
Proof.
  intros Hcf. unfold ForRequest. rewrite Hcf. simpl.
  destruct (scanHeader hdrs "X-Forwarded-For") as [a|] eqn:Hx.
  { apply scanHeader_Some in Hx as (l1 & x & l2 & ? & -> & ? & ?). left.
    exists "X-Forwarded-For", l1, x, l2. repeat split; [set_solver|done..]. }
  apply scanHeader_None in Hx.
  destruct (scanHeader hdrs "X-Real-Ip") as [a|] eqn:Hr.
  - apply scanHeader_Some in Hr as (l1 & x & l2 & ? & -> & ? & ?). left.
    exists "X-Real-Ip", l1, x, l2. repeat split; [set_solver|done..].
  - apply scanHeader_None in Hr. right. split; [done|]. intros h. rewrite !elem_of_cons.
    set_solver.
Qed.
