(* ===== verification/Wallet.v ===== *)
(** * Users, wallets and authentication against the database

    Models [app/wallet/wallet.go], [cache.go], [remote.go], [oauth.go] and
    [app/wallet/tracker/tracker.go].  The users table, the SDK's wallet
    commands, the token cache, the OIDC verifier and internal-api are classes
    over the world [W]; [WalletDB.v] gives the Postgres semantics the code
    relies on and proves the properties.

    A Go function that returns a pointer and an error, and whose callers look
    at the pointer even when the error is set, returns the pair here. *)

From S2P Require Import Prelude GoLib Rpc Errors Router Iapi Http Services.

Local Open Scope Z_scope.

Definition ErrNoAuthInfo : error := ENamed "wallet.ErrNoAuthInfo" "authentication token missing" false.

Definition LegacyTokenHeader : string := "X-Lbry-Auth-Token".
Definition AuthorizationHeader : string := "Authorization".
Definition TokenPrefix : string := "Bearer ".
Definition pgUniqueConstraintViolation : string := "23505".
Definition pgAbortedTransactionViolation : string := "25P02".
Definition txMaxRetries : nat := 2.

(** ** Interfaces *)

Inductive userBy := ByID (id : Z) | ByIDPID (idpID : string).
Inductive executor := ExTx | ExGlobal.

(** The statements the package runs against the users and servers tables. *)
Class UsersDB (W : Type) := {
  db_BeginTx : Go W unit;
  db_Commit : Go W unit;
  db_Rollback : Go W unit;
  Users_One : executor → userBy → Go W User;              (* with LbrynetServer loaded *)
  User_Insert : executor → User → Go W unit;
  User_UpdateG : User → Go W unit;                        (* every column but the key *)
  User_Delete : executor → Z → Go W unit;
  User_AssignServer : executor → Z → Z → Go W Z;          (* UPDATE .. WHERE id and server IS NULL *)
  User_ReloadG : Z → Go W User;
  User_Server : executor → User → Go W LbrynetServer;     (* user.LbrynetServer().One *)
  User_Touch : Z → Z → Go W unit;
  Users_SeenBefore : Z → Go W (list User);
  User_MarkUnloaded : Z → option Z → Go W unit;           (* .. WHERE id = $1 AND last_seen_at = $2 *)
}.

(** The wallet commands of [ljsonrpc.NewClient(addr)]. *)
Class SDKWallets (W : Type) := {
  WalletCreate : string → string → Go W unit;
  WalletAdd : string → string → Go W unit;
  WalletRemove : string → string → Go W unit;
}.

Class SDKRouter (W : Type) := rt_LeastLoaded : Go W LbrynetServer.

(** [ristretto]: a cached entry is a user or the nil of an unverified one. *)
Class TokenStore (W : Type) := {
  cache_Get : string → Go W (option (option User));
  cache_SetWithTTL : string → option User → Z → Go W unit;
}.

(** [rand.Int63n], and the clock of the tracker. *)
Class WalletEnv (W : Type) := {
  rand_Int63n : Z → Go W Z;
  TimeNow : Go W Z;
}.

Record UserInfo := { Sub : string; Aud : list string }.

(** [oidc.IDTokenVerifier.Verify] followed by [Claims]. *)
Class OIDC (W : Type) := oidc_Claims : string → Go W UserInfo.

(** The error of a call kept as a value, as [err := f()] does. *)
Definition err_of {A} (r : error + A) : option error :=
  match r with inl e => Some e | inr _ => None end.

Section wallet.
Context {W : Type} `{!Ljsonrpc, !UsersDB W, !SDKWallets W, !SDKRouter W, !TokenStore W,
  !WalletEnv W, !IAPITransport W, !IAPIDecoders, !OIDC W}.

(** ** Wallet commands *)

Definition createWallet (addr : string) (uid : Z) : Go W unit :=
  let! r := try (WalletCreate addr (wallet_id_of uid)) in
  match r with inl e => fail (NewWalletError e) | inr _ => ret tt end.

Definition LoadWallet (addr : string) (uid : Z) : Go W unit :=
  let! r := try (WalletAdd addr (wallet_id_of uid)) in
  match r with inl e => fail (NewWalletError e) | inr _ => ret tt end.

Definition UnloadWallet (addr : string) (uid : Z) : Go W unit :=
  let! r := try (WalletRemove addr (wallet_id_of uid)) in
  match r with inl e => fail (NewWalletError e) | inr _ => ret tt end.

Definition Create (addr : string) (uid : Z) : Go W unit :=
  let! r := try (createWallet addr uid) in
  match r with
  | inr _ => ret tt
  | inl err =>
      if Is err "lbrynet.ErrWalletAlreadyLoaded" then ret tt
      else if Is err "lbrynet.ErrWalletExists" then ret tt
      else if Is err "lbrynet.ErrWalletNotLoaded" then
        let! l := try (LoadWallet addr uid) in
        match l with
        | inl err => if Is err "lbrynet.ErrWalletAlreadyLoaded" then ret tt else fail err
        | inr _ => ret tt
        end
      else fail err
  end.

(** ** Users *)

Definition getDBUser (exec : executor) (by_ : userBy) : Go W User :=
  let! r := try (Users_One exec by_) in
  match r with inl e => fail (Err e) | inr u => ret u end.

Definition createUser (exec : executor) (user : User) : Go W User :=
  let! r := try (User_Insert exec user) in
  match r with
  | inr _ => ret user
  | inl err =>
      if bool_decide (AsPq err = Some pgUniqueConstraintViolation) then
        match user_IdpID user with
        | Some idp => getDBUser exec (ByIDPID idp)
        | None => getDBUser exec (ByID (user_ID user))
        end
      else fail err
  end.

Definition getOrCreateLocalUser (exec : executor) (user : User) : Go W User :=
  let by_ := match user_IdpID user with
             | Some idp => ByIDPID idp
             | None => ByID (user_ID user)
             end in
  let! r := try (getDBUser exec by_) in
  match r with
  | inr u => ret u
  | inl err => if Is err "sql.ErrNoRows" then createUser exec user else fail err
  end.

Definition deleteDBUser (exec : executor) (uid : Z) : Go W unit :=
  let! r := try (getDBUser exec (ByID uid)) in
  match r with
  | inl e => fail (Err e)
  | inr u => let! d := try (User_Delete exec (user_ID u)) in
             match d with inl e => fail (Err e) | inr _ => ret tt end
  end.

Definition wallet_DeleteUser (uid : Z) : Go W unit := deleteDBUser ExGlobal uid.

(** The first query is run for its metrics only. *)
Definition GetDBUserG (by_ : userBy) : Go W User :=
  try (getDBUser ExGlobal by_) ;;! getDBUser ExGlobal by_.

Definition set_ServerID (u : User) (sid : Z) : User :=
  {| user_ID := user_ID u; user_LbrynetServerID := Some sid; user_IdpID := user_IdpID u;
     user_LastSeenAt := user_LastSeenAt u; user_R := user_R u |}.
Definition set_R (u : User) (srv : LbrynetServer) : User :=
  {| user_ID := user_ID u; user_LbrynetServerID := user_LbrynetServerID u;
     user_IdpID := user_IdpID u; user_LastSeenAt := user_LastSeenAt u; user_R := Some (Some srv) |}.
Definition set_IdpID (u : User) (idp : string) : User :=
  {| user_ID := user_ID u; user_LbrynetServerID := user_LbrynetServerID u;
     user_IdpID := Some idp; user_LastSeenAt := user_LastSeenAt u; user_R := user_R u |}.

(** The user is modified in place: it comes back with the error. *)
Definition assignSDKServerToUser (exec : executor) (user : User) (server : LbrynetServer)
  : Go W (User * option error) :=
  if user_ID user =? 0 then ret (user, Some (Errs "user must already exist in db")) else
  if bool_decide (is_Some (user_LbrynetServerID user)) then
    ret (user, Some (Errs "user already has an sdk assigned")) else
  if srv_ID server =? 0 then
    let! r := try (Create (srv_Address server) (user_ID user)) in ret (user, err_of r) else
  let! r := try (User_AssignServer exec (srv_ID server) (user_ID user)) in
  match r with
  | inl e => ret (user, Some (Err e))
  | inr count =>
      let! r := (if count =? 0 then try (User_ReloadG (user_ID user))
                 else ret (inr (set_ServerID user (srv_ID server)))) in
      match r with
      | inl e => ret (user, Some (Err e))
      | inr user =>
          let! r := try (User_Server exec user) in
          match r with
          | inl e => ret (user, Some (Err e))
          | inr srv =>
              let user := set_R user srv in
              if count =? 0 then ret (user, None)
              else let! r := try (Create (srv_Address server) (user_ID user)) in
                   ret (user, err_of r)
          end
      end
  end.

(** ** Transactions *)

(** [f] assigns the variable [localUser] of the enclosing function. *)
Fixpoint inTx_loop (n : nat) (f : Go W (option User * option error))
    (localUser : option User) (err : option error) : Go W (option User * option error) :=
  match n with
  | O => ret (localUser, err)
  | S n' =>
      let! b := try db_BeginTx in
      match b with
      | inl e => ret (localUser, Some e)
      | inr _ =>
          let! r := f in
          match r with
          | (u, None) => let! c := try db_Commit in ret (u, err_of c)
          | (u, Some e) =>
              try db_Rollback ;;!
              if bool_decide (AsPq e = Some pgAbortedTransactionViolation)
              then inTx_loop n' f u (Some e) else ret (u, Some e)
          end
      end
  end.

Definition inTx (f : Go W (option User * option error)) : Go W (option User * option error) :=
  inTx_loop txMaxRetries f None None.

(** The closure both authentication paths run in a transaction. *)
Definition provision (user : User) : Go W (option User * option error) :=
  let! r := try (getOrCreateLocalUser ExTx user) in
  match r with
  | inl e => ret (None, Some e)
  | inr u =>
      if bool_decide (user_LbrynetServerID u = None) then
        let! server := rt_LeastLoaded in
        let! r := assignSDKServerToUser ExTx u server in
        ret (Some r.1, r.2)
      else ret (Some u, None)
  end.

(** ** Remote users *)

Record remoteUser := { ru_ID : Z; ru_HasVerifiedEmail : bool }.

Definition hasVerifiedEmail (opts : list Option) : Go W remoteUser :=
  let! iac := lift (NewClient opts) in
  let! d := Call iac "user/has_verified_email" ∅ decode_HasVerifiedEmail in
  ret {| ru_ID := d.1; ru_HasVerifiedEmail := d.2 |}.

Definition GetRemoteUserLegacy (server token remoteIP : string) : Go W remoteUser :=
  hasVerifiedEmail [WithLegacyToken token; WithRemoteIP remoteIP; WithServer server].

(** A static token source of [oauth2] has type Bearer. *)
Definition GetRemoteUser (token remoteIP : string) : Go W remoteUser :=
  hasVerifiedEmail [WithOAuthToken (TrimPrefix token TokenPrefix); WithRemoteIP remoteIP].

(** ** The token cache *)

Definition ttlUnconfirmed : Z := 15 * 10 ^ 9.
Definition ttlConfirmed : Z := 15 * 60 * 10 ^ 9.

Definition cache_get (token : string) (retriever : Go W (option User)) : Go W (option User) :=
  let! c := cache_Get token in
  match c with
  | Some u => ret u
  | None =>
      let! cachedUser := retriever in
      let baseTTL := match cachedUser with None => ttlUnconfirmed | Some _ => ttlConfirmed end in
      let! r := rand_Int63n baseTTL in
      cache_SetWithTTL token cachedUser (baseTTL + r) ;;!
      ret cachedUser
  end.

Definition newUser (id : Z) (idp : option string) : User :=
  {| user_ID := id; user_LbrynetServerID := None; user_IdpID := idp; user_LastSeenAt := None;
     user_R := None |}.

Definition retrieveLegacy (internalAPIHost token metaRemoteIP : string) : Go W (option User) :=
  let! remote := GetRemoteUserLegacy internalAPIHost token metaRemoteIP in
  if negb (ru_HasVerifiedEmail remote) then ret None else
  let! r := inTx (provision (newUser (ru_ID remote) None)) in
  match r with
  | (u, None) => ret u
  | (_, Some e) => fail e
  end.

Definition GetUserWithSDKServer (internalAPIHost token metaRemoteIP : string) : Go W (option User) :=
  cache_get token (retrieveLegacy internalAPIHost token metaRemoteIP).

(** ** OAuth *)

Definition checkAuthorization (clientID : string) (info : UserInfo) : result error unit :=
  if existsb (String.eqb clientID) (Aud info) then ROk tt
  else RErr (Errs "this token is not meant for Odysee APIs").

Definition extractUserInfo (token : string) : Go W UserInfo :=
  let! r := try (oidc_Claims token) in
  match r with inl e => fail (Err e) | inr i => ret i end.

(** A missing row is not an error for [Authenticate]. *)
Definition lookupUser (by_ : userBy) : Go W (option User) :=
  let! r := try (GetDBUserG by_) in
  match r with
  | inr u => ret (Some u)
  | inl e => if Is e "sql.ErrNoRows" then ret None else fail e
  end.

Definition authenticateInfo (info : UserInfo) (tokenString metaRemoteIP : string)
  : Go W (option User * option error) :=
  let! u := lookupUser (ByIDPID (Sub info)) in
  match u with
  | Some u => ret (Some u, None)
  | None =>
      let! remote := GetRemoteUser tokenString metaRemoteIP in
      let! u := lookupUser (ByID (ru_ID remote)) in
      match u with
      | Some u =>
          let u := set_IdpID u (Sub info) in
          let! r := try (User_UpdateG u) in
          match r with
          | inl e => fail (Err e)
          | inr _ => ret (Some u, None)
          end
      | None => inTx (provision (newUser (ru_ID remote) (Some (Sub info))))
      end
  end.

Definition Authenticate (clientID tokenString metaRemoteIP : string)
  : Go W (option User * option error) :=
  if negb (HasPrefix tokenString TokenPrefix) then
    ret (None, Some (Errs "token passed must be Bearer token")) else
  let tokenString := TrimPrefix tokenString TokenPrefix in
  let! r := try (
    let! userInfo := extractUserInfo tokenString in
    lift (checkAuthorization clientID userInfo) ;;!
    authenticateInfo userInfo tokenString metaRemoteIP) in
  match r with
  | inl e => ret (None, Some e)
  | inr p => ret p
  end.

(** An [Authorization] key without values cannot occur in a parsed request;
    indexing it would panic. *)
Definition GetTokenFromRequest (h : Header) : result error string :=
  match h !! AuthorizationHeader with
  | Some (t :: _) => ROk t
  | Some [] => RPanic "index out of range"
  | None => RErr ErrNoAuthInfo
  end.

(** ** Wallet access tracker *)

Definition Touch (uid : Z) : Go W unit :=
  let! now := TimeNow in
  let! r := try (User_Touch now uid) in
  match r with inl e => fail (Err e) | inr _ => ret tt end.

Fixpoint unloadUsers (cutoff : Z) (users : list User) : Go W unit :=
  match users with
  | [] => ret tt
  | user :: users' =>
      match GetLbrynetServer (Some user) with
      | None => unloadUsers cutoff users'
      | Some srv =>
          if negb (match user_LastSeenAt user with Some t => t <? cutoff | None => true end) then
            unloadUsers cutoff users'
          else
            let! r := try (UnloadWallet (srv_Address srv) (user_ID user)) in
            (match r with
             | inl _ => ret tt
             | inr _ => try (User_MarkUnloaded (user_ID user) (user_LastSeenAt user)) ;;! ret tt
             end) ;;!
            unloadUsers cutoff users'
      end
  end.

Definition Unload (olderThan : Z) : Go W nat :=
  let! now := TimeNow in
  let cutoffTime := now - olderThan in
  let! r := try (Users_SeenBefore cutoffTime) in
  match r with
  | inl e => fail (Err e)
  | inr users => unloadUsers cutoffTime users ;;! ret (length users)
  end.
End wallet.
