(* ===== verification/WalletDB.v ===== *)
(** * The users table under concurrent requests

    The Postgres behaviour that [app/wallet] relies on, and the properties of
    the package against it.

    The world holds the committed users table, the pending writes of this
    request's transaction, and a count of the interactions so far.  Before each
    statement other requests may change the committed table in an arbitrary way
    ([pe_other]), and any statement may fail ([pe_fault]); rows that the
    transaction has written are locked against others.  A failed statement
    aborts the transaction: from then on every statement of it fails with code
    25P02 until it is rolled back. *)

From S2P Require Import Prelude GoLib Rpc Errors Router Iapi Http Services Wallet.

Local Open Scope Z_scope.

(** ** The database *)

Record Row := mkRow {
  row_server : option Z;      (* lbrynet_server_id *)
  row_idp : option string;    (* idp_id *)
  row_seen : option Z;        (* last_seen_at *)
}.

#[export] Instance Row_eq_dec : EqDecision Row.
Proof. solve_decision. Defined.

Abbreviation table := (gmap Z Row).

Record Tx := mkTx { tx_writes : table; tx_aborted : bool }.

Inductive sdkOp :=
| SdkCreate (addr wid : string)
| SdkAdd (addr wid : string)
| SdkRemove (addr wid : string).

Record PG := mkPG {
  pg_users : table;                       (* committed *)
  pg_servers : gmap Z LbrynetServer;
  pg_tx : option Tx;
  pg_n : nat;                             (* interactions so far *)
  pg_sdk : list (sdkOp * (error + unit)); (* wallet commands sent *)
  pg_cache : gmap string (option User);   (* token cache *)
}.

(** The rest of the world, as functions of the interaction count. *)
Record PgEnv := {
  pe_other : nat → gset Z → table → table;
  pe_fault : nat → option error;
  pe_sdk : nat → sdkOp → error + unit;
  pe_pick : nat → nat;                    (* which of several rows comes first *)
  pe_least : nat → LbrynetServer;
  pe_rand : nat → Z → Z;
  pe_now : nat → Z;
  pe_kept : nat → string → bool;          (* the cache still holds an entry *)
  pe_iapi : nat → Client → string → gmap string (list string) → error + HTTPReply;
  pe_claims : string → error + UserInfo;
}.

Definition pg_aborted : error := EPq "25P02" "current transaction is aborted".
Definition pg_conflict : error := EPq "23505" "duplicate key value violates unique constraint".

Definition with_users (s : PG) (t : table) : PG :=
  {| pg_users := t; pg_servers := pg_servers s; pg_tx := pg_tx s; pg_n := pg_n s;
     pg_sdk := pg_sdk s; pg_cache := pg_cache s |}.
Definition with_tx (s : PG) (tx : option Tx) : PG :=
  {| pg_users := pg_users s; pg_servers := pg_servers s; pg_tx := tx; pg_n := pg_n s;
     pg_sdk := pg_sdk s; pg_cache := pg_cache s |}.
Definition with_n (s : PG) (n : nat) : PG :=
  {| pg_users := pg_users s; pg_servers := pg_servers s; pg_tx := pg_tx s; pg_n := n;
     pg_sdk := pg_sdk s; pg_cache := pg_cache s |}.
Definition with_sdk (s : PG) (l : list (sdkOp * (error + unit))) : PG :=
  {| pg_users := pg_users s; pg_servers := pg_servers s; pg_tx := pg_tx s; pg_n := pg_n s;
     pg_sdk := l; pg_cache := pg_cache s |}.
Definition with_cache (s : PG) (c : gmap string (option User)) : PG :=
  {| pg_users := pg_users s; pg_servers := pg_servers s; pg_tx := pg_tx s; pg_n := pg_n s;
     pg_sdk := pg_sdk s; pg_cache := c |}.

Definition tx_table (s : PG) : table :=
  match pg_tx s with Some tx => tx_writes tx | None => ∅ end.
Definition locked (s : PG) : gset Z := dom (tx_table s).

(** What a statement of the executor sees: read committed, with the
    transaction's own writes on top. *)
Definition view (ex : executor) (s : PG) : table :=
  match ex with ExTx => tx_table s ∪ pg_users s | ExGlobal => pg_users s end.

Definition to_user (s : PG) (id : Z) (r : Row) : User :=
  {| user_ID := id; user_LbrynetServerID := row_server r; user_IdpID := row_idp r;
     user_LastSeenAt := row_seen r;
     user_R := Some (row_server r ≫= λ sid, pg_servers s !! sid) |}.

Definition to_row (u : User) : Row :=
  {| row_server := user_LbrynetServerID u; row_idp := user_IdpID u; row_seen := user_LastSeenAt u |}.

Definition seen_before (cutoff : Z) (r : Row) : bool :=
  match row_seen r with Some t => t <? cutoff | None => false end.

Section instances.
Context (env : PgEnv).

(** Other requests run before each interaction. *)
Definition interfere (s : PG) : PG :=
  with_n (with_users s (pe_other env (pg_n s) (locked s) (pg_users s))) (S (pg_n s)).

Definition abort (ex : executor) (s : PG) : PG :=
  match ex, pg_tx s with
  | ExTx, Some tx => with_tx s (Some (mkTx (tx_writes tx) true))
  | _, _ => s
  end.

(** One statement: the world moves, then the statement fails for a reason of
    its own, or because its transaction was aborted, or is executed. *)
Definition statement {A} (ex : executor) (c : Go PG A) : Go PG A := λ s,
  let s1 := interfere s in
  match ex, pg_tx s1 with
  | ExTx, Some (mkTx _ true) => (RErr pg_aborted, s1)
  | _, _ =>
      match pe_fault env (pg_n s) with
      | Some e => (RErr e, abort ex s1)
      | None => match c s1 with
                | (RErr e, s2) =>
                    (* an empty result is not a server error *)
                    if Is e "sql.ErrNoRows" then (RErr e, s2) else (RErr e, abort ex s2)
                | r => r
                end
      end
  end.

(** A write of the executor. *)
Definition put (ex : executor) (id : Z) (r : Row) : Go PG unit := modify (λ s,
  match ex, pg_tx s with
  | ExTx, Some tx => with_tx s (Some (mkTx (<[id:=r]> (tx_writes tx)) (tx_aborted tx)))
  | _, _ => with_users s (<[id:=r]> (pg_users s))
  end).

Definition select (ex : executor) (by_ : userBy) : Go PG User := λ s,
  let rows := map_to_list (view ex s) in
  let found := match by_ with
               | ByID id => filter (λ p, p.1 = id) rows
               | ByIDPID idp => filter (λ p, row_idp p.2 = Some idp) rows
               end in
  match found !! (pe_pick env (pg_n s) `mod` length found)%nat with
  | Some (id, r) => (ROk (to_user s id r), s)
  | None => (RErr sql_ErrNoRows, s)
  end.

(** Update one row if it is there and satisfies the condition; the number of
    rows affected. *)
Definition update_where (ex : executor) (id : Z) (cond : Row → bool) (f : Row → Row) : Go PG Z :=
  let! s := get_state in
  match view ex s !! id with
  | Some r => if cond r then put ex id (f r) ;;! ret 1 else ret 0
  | None => ret 0
  end.

#[local] Instance pg_UsersDB : UsersDB PG := {|
  db_BeginTx := statement ExGlobal (modify (λ s, with_tx s (Some (mkTx ∅ false))));
  db_Commit := statement ExTx (modify (λ s, with_tx (with_users s (tx_table s ∪ pg_users s)) None));
  db_Rollback := λ s, let s := interfere s in (ROk tt, with_tx s None);
  Users_One ex by_ := statement ex (select ex by_);
  User_Insert ex u := statement ex (
    let! s := get_state in
    match view ex s !! user_ID u with
    | Some _ => fail pg_conflict
    | None => put ex (user_ID u) (to_row u)
    end);
  User_UpdateG u := statement ExGlobal (
    update_where ExGlobal (user_ID u) (λ _, true) (λ _, to_row u) ;;! ret tt);
  User_Delete ex id := statement ex (modify (λ s, with_users s (delete id (pg_users s))));
  User_AssignServer ex sid id := statement ex (
    update_where ex id (λ r, bool_decide (row_server r = None))
      (λ r, mkRow (Some sid) (row_idp r) (row_seen r)));
  User_ReloadG id := statement ExGlobal (λ s,
    match pg_users s !! id with
    | Some r => (ROk {| user_ID := id; user_LbrynetServerID := row_server r;
                        user_IdpID := row_idp r; user_LastSeenAt := row_seen r;
                        user_R := None |}, s)
    | None => (RErr sql_ErrNoRows, s)
    end);
  User_Server ex u := statement ex (λ s,
    match user_LbrynetServerID u ≫= λ sid, pg_servers s !! sid with
    | Some srv => (ROk srv, s)
    | None => (RErr sql_ErrNoRows, s)
    end);
  User_Touch now id := statement ExGlobal (
    update_where ExGlobal id (λ _, true) (λ r, mkRow (row_server r) (row_idp r) (Some now)) ;;!
    ret tt);
  Users_SeenBefore cutoff := statement ExGlobal (λ s,
    (ROk ((λ p, to_user s p.1 p.2) <$>
       filter (λ p, Is_true (seen_before cutoff p.2)) (map_to_list (pg_users s))), s));
  User_MarkUnloaded id seen := statement ExGlobal (
    update_where ExGlobal id (λ r, bool_decide (row_seen r = seen ∧ seen ≠ None))
      (λ r, mkRow (row_server r) (row_idp r) None) ;;! ret tt);
|}.

(** The SDK, internal-api, the clock and the rest: answers of the
    environment, with the wallet commands recorded; other requests run while a
    wallet command is carried out. *)
Definition sdk_command (op : sdkOp) : Go PG unit := λ s,
  let r := pe_sdk env (pg_n s) op in
  (match r with inl e => RErr e | inr _ => ROk tt end,
   with_sdk (interfere s) (pg_sdk s ++ [(op, r)])).

Definition answer {A} (f : nat → error + A) : Go PG A := λ s,
  (match f (pg_n s) with inl e => RErr e | inr a => ROk a end, with_n s (S (pg_n s))).

#[local] Instance pg_SDK : SDKWallets PG := {|
  WalletCreate addr w := sdk_command (SdkCreate addr w);
  WalletAdd addr w := sdk_command (SdkAdd addr w);
  WalletRemove addr w := sdk_command (SdkRemove addr w) |}.
#[local] Instance pg_Router : SDKRouter PG := answer (λ n, inr (pe_least env n)).
#[local] Instance pg_Env : WalletEnv PG := {|
  rand_Int63n k := answer (λ n, inr (pe_rand env n k `mod` k));
  TimeNow := answer (λ n, inr (pe_now env n)) |}.
#[local] Instance pg_iapi : IAPITransport PG :=
  {| iapi_Do c p ps := answer (λ n, pe_iapi env n c p ps) |}.
#[local] Instance pg_oidc : OIDC PG := λ t, answer (λ _, pe_claims env t).
(** An entry that was stored may be evicted or expire, and is otherwise
    returned as it was stored. *)
#[local] Instance pg_store : TokenStore PG := {|
  cache_Get t := λ s, (ROk (if pe_kept env (pg_n s) t then pg_cache s !! t else None), with_n s (S (pg_n s)));
  cache_SetWithTTL t u ttl := modify (λ s, with_cache s (<[t:=u]> (pg_cache s))) |}.
End instances.

Module PgInstances.
#[export] Hint Extern 0 (UsersDB PG) => (apply pg_UsersDB; assumption) : typeclass_instances.
#[export] Hint Extern 0 (SDKWallets PG) => (apply pg_SDK; assumption) : typeclass_instances.
#[export] Hint Extern 0 (SDKRouter PG) => (apply pg_Router; assumption) : typeclass_instances.
#[export] Hint Extern 0 (WalletEnv PG) => (apply pg_Env; assumption) : typeclass_instances.
#[export] Hint Extern 0 (IAPITransport PG) => (apply pg_iapi; assumption) : typeclass_instances.
#[export] Hint Extern 0 (OIDC PG) => (apply pg_oidc; assumption) : typeclass_instances.
#[export] Hint Extern 0 (TokenStore PG) => (apply pg_store; assumption) : typeclass_instances.
End PgInstances.

(** ** Rely and guarantee: a server assignment is permanent *)

Definition row_keeps (r r' : Row) : Prop := ∀ sid, row_server r = Some sid → row_server r' = Some sid.

(** Users stay, and a user with a server keeps it. *)
Definition keeps (t t' : table) : Prop :=
  ∀ id r, t !! id = Some r → ∃ r', t' !! id = Some r' ∧ row_keeps r r'.

#[export] Instance keeps_preorder : PreOrder keeps.
Proof.
  split.
  - intros t id r Hr. exists r. by split; [|intros ?].
  - intros t1 t2 t3 H12 H23 id r (r2 & Hr2 & K2)%H12. apply H23 in Hr2 as (r3 & ? & K3).
    exists r3. split; [done|]. intros sid ?. auto.
Qed.

(** Other requests keep assignments and leave locked rows alone. *)
Definition rely (env : PgEnv) : Prop :=
  ∀ n l t, keeps t (pe_other env n l t) ∧ ∀ id, id ∈ l → pe_other env n l t !! id = t !! id.

(** The pending writes keep assignments too. *)
Definition tx_ok (s : PG) : Prop :=
  ∀ id w r, tx_table s !! id = Some w → pg_users s !! id = Some r → row_keeps r w.

(** What every statement guarantees: assignments are kept in the committed
    table and in the transaction's view of it. *)
Definition progress : relation PG := λ s s',
  tx_ok s → tx_ok s' ∧ keeps (pg_users s) (pg_users s') ∧ keeps (view ExTx s) (view ExTx s') ∧
    pg_servers s' = pg_servers s.

(** What a whole request guarantees; a rollback takes the view back. *)
Definition guarantee : relation PG := λ s s',
  tx_ok s → tx_ok s' ∧ keeps (pg_users s) (pg_users s') ∧ pg_servers s' = pg_servers s.

#[export] Instance progress_preorder : PreOrder progress.
Proof.
  split; [done|]. intros s1 s2 s3 H12 H23 H1. destruct (H12 H1) as (H2 & K12 & V12 & S12).
  destruct (H23 H2) as (H3 & K23 & V23 & S23). split; [done|].
  split; [by etrans|]. split; [by etrans|congruence].
Qed.

#[export] Instance guarantee_preorder : PreOrder guarantee.
Proof.
  split; [done|]. intros s1 s2 s3 H12 H23 H1. destruct (H12 H1) as (H2 & K12 & S12).
  destruct (H23 H2) as (H3 & K23 & S23). split; [done|]. split; [by etrans|congruence].
Qed.

Lemma progress_guarantee s s' : progress s s' → guarantee s s'.
Proof. intros H Hok. by destruct (H Hok) as (? & ? & ? & ?). Qed.

Lemma extends_guarantee {A} (c : Go PG A) : extends progress c → extends guarantee c.
Proof. intros Hc s. apply progress_guarantee, Hc. Qed.

Lemma row_keeps_trans r1 r2 r3 : row_keeps r1 r2 → row_keeps r2 r3 → row_keeps r1 r3.
Proof. intros H1 H2 sid ?. auto. Qed.

Lemma row_keeps_refl r : row_keeps r r.
Proof. by intros sid. Qed.

Lemma view_committed s id r : tx_ok s → pg_users s !! id = Some r →
  ∃ w, view ExTx s !! id = Some w ∧ row_keeps r w.
Proof.
  intros Hok Hr. simpl. destruct (tx_table s !! id) as [w|] eqn:Hw.
  - exists w. split; [by apply lookup_union_Some_l|eauto].
  - exists r. split; [by rewrite lookup_union_r|apply row_keeps_refl].
Qed.

Lemma keeps_insert t id r : (∀ r0, t !! id = Some r0 → row_keeps r0 r) → keeps t (<[id:=r]> t).
Proof.
  intros Hr i r0 Hi. destruct (decide (i = id)) as [->|Hne].
  - exists r. rewrite lookup_insert_eq. auto.
  - exists r0. rewrite lookup_insert_ne by done. split; [done|apply row_keeps_refl].
Qed.

Lemma no_writes_ok s : tx_table s = ∅ → tx_ok s.
Proof. intros He id w r. rewrite He. by intros ?%lookup_empty_Some. Qed.

Section guarantee.
Import PgInstances.
Context (env : PgEnv) `{!Ljsonrpc, !IAPIDecoders} (Hrely : rely env).

Lemma progress_same s s' :
  pg_users s' = pg_users s → tx_table s' = tx_table s → pg_servers s' = pg_servers s →
  progress s s'.
Proof. intros Hu Ht Hs Hok. unfold tx_ok, view in *. by rewrite Hu, Ht. Qed.

Lemma interfere_progress s : progress s (interfere env s).
Proof using Hrely.
  intros Hok. destruct (Hrely (pg_n s) (locked s) (pg_users s)) as [Hk Hl].
  split_and!; [|done| |done].
  - intros id w r Hw. cbn. change (tx_table s !! id = Some w) in Hw.
    rewrite Hl by (by eapply elem_of_dom_2). eauto.
  - intros id r. change (view ExTx (interfere env s))
      with (tx_table s ∪ pe_other env (pg_n s) (locked s) (pg_users s)).
    intros [Hw|[Hn Hr]]%lookup_union_Some_raw.
    + exists r. split; [by apply lookup_union_Some_l|apply row_keeps_refl].
    + apply Hk in Hr as (r' & Hr' & ?). exists r'. split; [by rewrite lookup_union_r|done].
Qed.

Lemma abort_progress ex s : progress s (abort ex s).
Proof.
  apply progress_same; destruct ex; unfold abort, tx_table;
    destruct (pg_tx s) eqn:E; simpl; rewrite ?E; try done.
Qed.

(** A statement keeps assignments if what it executes does. *)
Lemma statement_progress {A} ex (c : Go PG A) :
  extends progress c → extends progress (statement env ex c).
Proof using Hrely.
  intros Hc s. pose proof (interfere_progress s) as Hi. unfold statement.
  set (s1 := interfere env s) in *.
  assert (progress s (match pe_fault env (pg_n s) with
    | Some e => (RErr e : result error A, abort ex s1)
    | None => match c s1 with
              | (RErr e, s2) => if Is e "sql.ErrNoRows" then (RErr e, s2) else (RErr e, abort ex s2)
              | r => r end end).2) as Hrun.
  { destruct (pe_fault env (pg_n s)); [etrans; [exact Hi|apply abort_progress]|].
    specialize (Hc s1). destruct (c s1) as [[a|e|w] s2]; simpl in *; [by etrans| |by etrans].
    destruct (Is e _); simpl; [by etrans|]. etrans; [exact Hi|]. etrans; [exact Hc|apply abort_progress]. }
  destruct ex; [|done]. destruct (pg_tx s1) as [[? []]|]; done.
Qed.

(** A statement that succeeds ran after the interference, and nothing else
    changed. *)
Lemma statement_ok {A} ex (c : Go PG A) s a s' :
  statement env ex c s = (ROk a, s') → c (interfere env s) = (ROk a, s').
Proof.
  unfold statement. destruct ex; [destruct (pg_tx _) as [[? []]|]; [done|..]|];
    (destruct (pe_fault env (pg_n s)); [done|]);
    destruct (c _) as [[x|e|w] s2]; try congruence; by destruct (Is e _).
Qed.

#[local] Ltac as_statement H :=
  cbn [Users_One User_Insert User_AssignServer User_ReloadG User_Server db_Commit pg_UsersDB] in H;
  apply statement_ok in H.

(** Writing, in a transaction, a row that keeps the assignment of the one it
    replaces. *)
Lemma put_view id r s : view ExTx (put ExTx id r s).2 = <[id:=r]> (view ExTx s).
Proof.
  unfold put, modify, view, tx_table. simpl. destruct (pg_tx s) as [tx|] eqn:Htx; simpl.
  - by rewrite insert_union_l.
  - by rewrite Htx, !(left_id_L ∅ (∪)).
Qed.

Lemma put_progress id r s :
  (∀ r0, view ExTx s !! id = Some r0 → row_keeps r0 r) → progress s (put ExTx id r s).2.
Proof.
  intros Hr Hok. rewrite put_view.
  assert (∀ r0, pg_users s !! id = Some r0 → row_keeps r0 r) as Hr'.
  { intros r0 (w & Hw & ?)%view_committed; [|done]. eapply row_keeps_trans; eauto. }
  unfold put, modify, tx_ok, tx_table in *. simpl.
  destruct (pg_tx s) as [tx|] eqn:Htx; simpl; split_and!; try done.
  - intros i w r0 [[-> ->]|[Hne Hw]]%lookup_insert_Some; eauto.
  - by apply keeps_insert.
  - rewrite Htx. by intros ??? ?%lookup_empty_Some.
  - by apply keeps_insert.
  - by apply keeps_insert.
Qed.

Lemma extends_any {A} (c : Go PG A) : (∀ s, (c s).2 = s) → extends progress c.
Proof. intros Hc s. by rewrite Hc. Qed.

Lemma begin_guarantee : extends guarantee db_BeginTx.
Proof using Hrely.
  intros s. etrans; [apply progress_guarantee, interfere_progress|]. cbn. unfold statement.
  destruct (pe_fault env (pg_n s)); [done|]. intros _. split; [|done]. by apply no_writes_ok.
Qed.

Lemma commit_progress : extends progress db_Commit.
Proof using Hrely.
  apply statement_progress. intros s Hok. unfold modify. simpl.
  split_and!; [by apply no_writes_ok|intros id r Hr; by apply view_committed| |done].
  change (tx_table (with_tx _ None)) with (∅ : table). by rewrite (left_id_L ∅ (∪)).
Qed.

Lemma rollback_guarantee : extends guarantee db_Rollback.
Proof using Hrely.
  intros s. etrans; [apply progress_guarantee, interfere_progress|]. intros _.
  split; [|done]. by apply no_writes_ok.
Qed.

Lemma select_same ex by_ s : (select env ex by_ s).2 = s.
Proof. unfold select. by destruct (_ !! _) as [[]|]. Qed.

Lemma one_progress ex by_ : extends progress (Users_One ex by_).
Proof using Hrely. apply statement_progress, extends_any, select_same. Qed.

Lemma insert_progress u : extends progress (User_Insert ExTx u).
Proof using Hrely.
  apply statement_progress. intros s. unfold bind, get_state.
  destruct (view ExTx s !! user_ID u) eqn:Hv; [done|]. apply put_progress. congruence.
Qed.

Lemma assign_progress sid id : extends progress (User_AssignServer ExTx sid id).
Proof using Hrely.
  apply statement_progress. intros s. unfold update_where, bind at 1, get_state.
  destruct (view ExTx s !! id) as [r|] eqn:Hv; [|done].
  case_bool_decide as Hnone; [|done].
  change (progress s (put ExTx id (mkRow (Some sid) (row_idp r) (row_seen r)) s).2).
  apply put_progress. rewrite Hv. intros r0 [= <-] sid' Hsid'. congruence.
Qed.

Lemma reload_progress id : extends progress (User_ReloadG id).
Proof using Hrely. apply statement_progress, extends_any. intros s. by destruct (_ !! _). Qed.

Lemma server_progress ex u : extends progress (User_Server ex u).
Proof using Hrely. apply statement_progress, extends_any. intros s. by destruct (_ ≫= _). Qed.

Lemma sdk_progress op : extends progress (sdk_command env op).
Proof using Hrely. intros s. etrans; [apply interfere_progress|]. by apply progress_same. Qed.
Lemma answer_progress {A} (f : nat → error + A) : extends progress (answer f).
Proof. intros s. by apply progress_same. Qed.
Lemma cache_progress t : extends progress (cache_Get (W:=PG) t).
Proof. intros s. by apply progress_same. Qed.
Lemma store_progress t u ttl : extends progress (cache_SetWithTTL (W:=PG) t u ttl).
Proof. intros s. by apply progress_same. Qed.

#[local] Hint Resolve commit_progress one_progress insert_progress assign_progress
  reload_progress server_progress sdk_progress answer_progress cache_progress
  store_progress : go.

Lemma Create_progress addr uid : extends progress (Create (W:=PG) addr uid).
Proof using Hrely. unfold Create, createWallet, LoadWallet; go_paths; apply sdk_progress. Qed.
#[local] Hint Resolve Create_progress : go.

Lemma getDBUser_progress ex by_ : extends progress (getDBUser (W:=PG) ex by_).
Proof using Hrely. unfold getDBUser; go_paths. Qed.
#[local] Hint Resolve getDBUser_progress : go.

Lemma createUser_progress u : extends progress (createUser (W:=PG) ExTx u).
Proof using Hrely. unfold createUser; go_paths. Qed.
#[local] Hint Resolve createUser_progress : go.

Lemma getOrCreate_progress u : extends progress (getOrCreateLocalUser (W:=PG) ExTx u).
Proof using Hrely. unfold getOrCreateLocalUser; go_paths. Qed.
#[local] Hint Resolve getOrCreate_progress : go.

Lemma assignSDK_progress u srv : extends progress (assignSDKServerToUser (W:=PG) ExTx u srv).
Proof using Hrely. unfold assignSDKServerToUser; go_paths. Qed.
#[local] Hint Resolve assignSDK_progress : go.

Lemma provision_progress u : extends progress (provision (W:=PG) u).
Proof using Hrely. unfold provision, rt_LeastLoaded, pg_Router; go_paths. Qed.

#[local] Hint Resolve begin_guarantee rollback_guarantee : go.
#[local] Hint Resolve extends_guarantee | 5 : go.

Lemma inTx_guarantee (f : Go PG (option User * option error)) :
  extends guarantee f → extends guarantee (inTx f).
Proof using Hrely.
  intros Hf. unfold inTx. generalize (None : option User) (None : option error).
  induction txMaxRetries as [|n IH]; intros u e; cbn [inTx_loop]; go_paths.
Qed.

Lemma remote_guarantee host token ip :
  extends guarantee (GetRemoteUserLegacy (W:=PG) host token ip).
Proof.
  unfold GetRemoteUserLegacy, hasVerifiedEmail, Call; go_paths.
  apply extends_guarantee, answer_progress.
Qed.
#[local] Hint Resolve remote_guarantee : go.

Lemma GetUserWithSDKServer_guarantee host token ip :
  extends guarantee (GetUserWithSDKServer (W:=PG) host token ip).
Proof using Hrely.
  unfold GetUserWithSDKServer, cache_get, retrieveLegacy; go_paths.
  all: try by apply extends_guarantee, answer_progress.
  apply inTx_guarantee, extends_guarantee, provision_progress.
Qed.

(** ** Provisioning a user *)

(** The user's record agrees with a row of the table: a server it shows is
    the one in the row. *)
Definition backed (u : User) (t : table) : Prop :=
  ∃ r, t !! user_ID u = Some r ∧ row_keeps (to_row u) r.

(** The eagerly loaded server is the row of the assigned id. *)
Definition loaded (u : User) (s : PG) : Prop :=
  user_R u = Some (user_LbrynetServerID u ≫= λ sid, pg_servers s !! sid).

Definition matches (by_ : userBy) (u : User) : Prop :=
  match by_ with ByID id => user_ID u = id | ByIDPID idp => user_IdpID u = Some idp end.

Lemma backed_keeps u t t' : keeps t t' → backed u t → backed u t'.
Proof.
  intros Hk (r & (r' & Hr' & ?)%Hk & ?). exists r'. split; [done|]. by eapply row_keeps_trans.
Qed.

Lemma progress_view {A} (c : Go PG A) s a s' :
  extends progress c → c s = (ROk a, s') → tx_ok s →
  tx_ok s' ∧ keeps (view ExTx s) (view ExTx s') ∧ pg_servers s' = pg_servers s.
Proof.
  intros Hc Heq Hok. specialize (Hc s). rewrite Heq in Hc. by destruct (Hc Hok) as (? & ? & ? & ?).
Qed.

Lemma select_ok by_ s u s' :
  select env ExTx by_ s = (ROk u, s') → s' = s ∧ backed u (view ExTx s) ∧ loaded u s ∧ matches by_ u.
Proof.
  unfold select. destruct (_ !! _) as [[id r]|] eqn:Hl; [|done]. intros [= <- <-].
  apply list_elem_of_lookup_2 in Hl. split; [done|].
  assert (view ExTx s !! id = Some r ∧ matches by_ (to_user s id r)) as [Hv Hm].
  { destruct by_; apply list_elem_of_filter in Hl as [? ?%elem_of_map_to_list]; done. }
  split; [|done]. exists r. split; [done|]. by intros sid.
Qed.

Lemma getDBUser_ok by_ s u s' :
  getDBUser ExTx by_ s = (ROk u, s') → backed u (view ExTx s') ∧ loaded u s' ∧ matches by_ u.
Proof.
  intros Hrun. unfold getDBUser in Hrun. go_inv Hrun.
  apply try_ok_inv in Hc as [(u' & -> & Hc)|(e & -> & Hc)]; [|done].
  injection Hrun as <- <-. as_statement Hc. apply select_ok in Hc as (-> & ? & ? & ?). done.
Qed.

Lemma insert_ok u s s' :
  User_Insert ExTx u s = (ROk tt, s') → backed u (view ExTx s').
Proof.
  intros Hi. as_statement Hi. unfold bind, get_state in Hi.
  destruct (view ExTx _ !! user_ID u) eqn:Hv; [done|].
  exists (to_row u). split; [|by intros sid].
  change s' with (ROk (E:=error) tt, s').2. rewrite <-Hi, put_view. apply lookup_insert_eq.
Qed.

Lemma createUser_ok u0 s u s' :
  createUser ExTx u0 s = (ROk u, s') →
  backed u (view ExTx s') ∧ (u = u0 ∨ loaded u s') ∧
  (user_IdpID u0 = None → user_ID u = user_ID u0).
Proof.
  intros Hrun. unfold createUser in Hrun. go_inv Hrun.
  apply try_ok_inv in Hc as [([] & -> & Hc)|(e & -> & Hc)].
  - injection Hrun as <- <-. split; [by eapply insert_ok|]. auto.
  - case_bool_decide; [|done]. destruct (user_IdpID u0) as [idp|];
      apply getDBUser_ok in Hrun as (? & ? & Hm); split_and!; auto; done.
Qed.

Lemma getOrCreate_ok u0 s u s' :
  getOrCreateLocalUser ExTx u0 s = (ROk u, s') →
  backed u (view ExTx s') ∧ (u = u0 ∨ loaded u s') ∧
  (user_IdpID u0 = None → user_ID u = user_ID u0).
Proof.
  intros Hrun. unfold getOrCreateLocalUser in Hrun. go_inv Hrun.
  apply try_ok_inv in Hc as [(u' & -> & Hc)|(e & -> & Hc)].
  - injection Hrun as <- <-. apply getDBUser_ok in Hc as (? & ? & Hm). split; [done|].
    split; [by right|]. intros Hn. by rewrite Hn in Hm.
  - destruct (Is e _); [|done]. by eapply createUser_ok.
Qed.

Lemma count_of_assign sid id s n s' :
  User_AssignServer ExTx sid id s = (ROk n, s') →
  n = 0 ∨ ∃ r, view ExTx s' !! id = Some r ∧ row_server r = Some sid.
Proof.
  intros Ha. as_statement Ha. unfold update_where, bind at 1, get_state in Ha.
  destruct (view ExTx _ !! id) as [r|]; [|left; injection Ha; by intros].
  case_bool_decide; [|left; injection Ha; by intros]. right.
  exists (mkRow (Some sid) (row_idp r) (row_seen r)). split; [|done].
  go_inv Ha. injection Ha as _ <-.
  change s0 with (ROk (E:=error) a, s0).2. rewrite <-Hc, put_view. apply lookup_insert_eq.
Qed.

Lemma reload_ok id s u s' :
  User_ReloadG id s = (ROk u, s') → tx_ok s' → user_ID u = id ∧ backed u (view ExTx s').
Proof.
  intros Hr Hok. as_statement Hr.
  destruct (pg_users _ !! id) as [r|] eqn:Hu; [|done]. injection Hr as <- <-.
  split; [done|]. destruct (view_committed _ _ _ Hok Hu) as (w & ? & ?). by exists w.
Qed.

Lemma server_ok u s srv s' :
  User_Server ExTx u s = (ROk srv, s') →
  (user_LbrynetServerID u ≫= λ sid, pg_servers s' !! sid) = Some srv.
Proof. intros Hr. as_statement Hr. by destruct (_ ≫= _) eqn:E; [injection Hr as <- <-|]. Qed.

(** What a successful assignment returns. *)
Definition assigned (u u' : User) (server : LbrynetServer) (s' : PG) : Prop :=
  user_ID u' = user_ID u ∧ backed u' (view ExTx s') ∧
  (srv_ID server ≠ 0 → is_Some (user_LbrynetServerID u') ∧ loaded u' s').

(** The last steps of an assignment: the server is loaded and, for a first
    assignment, the wallet created. *)
Lemma assign_finish u u1 server s1 srv s2 count u' s' :
  user_ID u1 = user_ID u → backed u1 (view ExTx s1) → tx_ok s1 →
  User_Server ExTx u1 s1 = (ROk srv, s2) →
  (if count =? 0 then ret (set_R u1 srv, None)
   else let! r := try (Create (srv_Address server) (user_ID (set_R u1 srv))) in
        ret (set_R u1 srv, err_of r)) s2 = (ROk (u', None), s') →
  assigned u u' server s'.
Proof using Hrely.
  intros Hid Hb Hok Hs Hfin. pose proof (server_ok _ _ _ _ Hs) as Hsrv.
  apply progress_view in Hs as (Hok2 & Hv & Hpg); [|by auto with go..].
  apply (backed_keeps _ _ _ Hv) in Hb.
  assert (u' = set_R u1 srv ∧ keeps (view ExTx s2) (view ExTx s') ∧ pg_servers s' = pg_servers s2)
    as (-> & Hv' & Hpg').
  { destruct (count =? 0); [by injection Hfin as <- <-|]. go_inv Hfin.
    apply progress_view in Hc as (_ & ? & ?); [by injection Hfin as <- _ <-| |done].
    apply extends_try, Create_progress. }
  split; [done|]. split; [by eapply backed_keeps|]. intros _. unfold loaded; simpl.
  rewrite Hpg', Hsrv. split; [|done]. by destruct (user_LbrynetServerID u1).
Qed.

Lemma assignSDK_ok u server s u' s' :
  assignSDKServerToUser ExTx u server s = (ROk (u', None), s') →
  tx_ok s → backed u (view ExTx s) → assigned u u' server s'.
Proof using Hrely.
  intros Hrun Hok Hb. unfold assignSDKServerToUser in Hrun.
  destruct (user_ID u =? 0); [done|]. case_bool_decide; [done|].
  destruct (Z.eqb_spec (srv_ID server) 0).
  { go_inv Hrun. apply progress_view in Hc as (_ & Hv & _);
      [|apply extends_try, Create_progress|done].
    injection Hrun as <- _ <-. split_and!; [done|by eapply backed_keeps|done]. }
  go_inv Hrun. apply try_ok_inv in Hc as [(count & -> & Hc)|(e & -> & Hc)]; [|done].
  pose proof (count_of_assign _ _ _ _ _ Hc) as Hcount.
  apply progress_view in Hc as (Hok1 & Hv1 & _); [|by auto with go..].
  go_inv Hrun. destruct a as [e|u1]; [done|].
  assert (user_ID u1 = user_ID u ∧ backed u1 (view ExTx s1) ∧ tx_ok s1) as (Hid & Hb1 & Hok2).
  { destruct (Z.eqb_spec count 0).
    - apply try_ok_inv in Hc as [(u2 & [= <-] & Hc)|(e2 & ? & Hc)]; [|done].
      pose proof Hc as Hp. apply progress_view in Hp as (? & _ & _); [|by auto with go..].
      by destruct (reload_ok _ _ _ _ Hc).
    - injection Hc as <- <-. split_and!; [done| |done].
      destruct Hcount as [?|(r & Hr & Hsid)]; [done|]. exists r. by split; [|intros sid [= <-]]. }
  go_inv Hrun. apply try_ok_inv in Hc0 as [(srv & -> & Hs)|(e & -> & Hs)]; [|done].
  by eapply assign_finish.
Qed.

Lemma provision_ok u0 s u s' :
  user_IdpID u0 = None → (∀ n, srv_ID (pe_least env n) ≠ 0) → tx_ok s →
  provision u0 s = (ROk (u, None), s') →
  ∃ u', u = Some u' ∧ user_ID u' = user_ID u0 ∧ backed u' (view ExTx s') ∧
    is_Some (user_LbrynetServerID u') ∧ (user_LbrynetServerID u0 = None → loaded u' s').
Proof using Hrely.
  intros Hidp Hleast Hok Hrun. unfold provision in Hrun. go_inv Hrun.
  apply try_ok_inv in Hc as [(u1 & -> & Hc)|(e & -> & Hc)]; [|done].
  pose proof (getOrCreate_ok _ _ _ _ Hc) as (Hb & Hl & Hid). specialize (Hid Hidp).
  apply progress_view in Hc as (Hok1 & _ & _); [|by auto with go..].
  case_bool_decide as Hn.
  - go_inv Hrun. go_inv Hrun. destruct a0 as [u2 e]. injection Hrun as <- -> <-.
    injection Hc as <- <-.
    apply assignSDK_ok in Hc0 as (Hid2 & Hb2 & Hs2); [|done..].
    destruct Hs2 as [? ?]; [apply Hleast|]. exists u2. rewrite Hid2. done.
  - injection Hrun as <- <-. exists u1. split_and!; [done..| |].
    + by destruct (user_LbrynetServerID u1); [|].
    + intros Hn0. destruct Hl as [->|]; done.
Qed.

Lemma commit_ok s s' : db_Commit s = (ROk tt, s') → tx_ok s →
  keeps (view ExTx s) (pg_users s') ∧ pg_servers s' = pg_servers s.
Proof using Hrely.
  intros Hc Hok. pose proof Hc as Hp.
  apply progress_view in Hp as (_ & Hv & Hs); [|by auto with go..].
  split; [|done]. as_statement Hc. injection Hc as <-.
  change (keeps (view ExTx s) (∅ ∪ (view ExTx (interfere env s)))) in Hv.
  by rewrite (left_id_L ∅ (∪)) in Hv.
Qed.
End guarantee.

(** ** Provisioning whatever others do *)

(** The servers table is not changed by this code. *)
Definition servers_kept : relation PG := λ s s', pg_servers s' = pg_servers s.
#[export] Instance servers_kept_preorder : PreOrder servers_kept.
Proof. split; [done|]. intros s1 s2 s3 H12 H23. unfold servers_kept in *. congruence. Qed.

Section shows.
Import PgInstances.
Context (env : PgEnv) `{!Ljsonrpc, !IAPIDecoders}.

Lemma statement_servers {A} ex (c : Go PG A) :
  extends servers_kept c → extends servers_kept (statement env ex c).
Proof.
  intros Hc s. unfold statement.
  assert (∀ s2, servers_kept s s2 → servers_kept s (abort ex s2)) as Hab.
  { intros s2 H2. unfold servers_kept, abort in *. by destruct ex, (pg_tx s2). }
  specialize (Hc (interfere env s)). change (servers_kept s (c (interfere env s)).2) in Hc.
  assert (servers_kept s (interfere env s)) as Hi by done.
  assert (servers_kept s (match pe_fault env (pg_n s) with
    | Some e => (RErr e : result error A, abort ex (interfere env s))
    | None => match c (interfere env s) with
              | (RErr e, s2) => if Is e "sql.ErrNoRows" then (RErr e, s2) else (RErr e, abort ex s2)
              | r => r end end).2) as Hrun.
  { destruct (pe_fault env (pg_n s)); [by apply Hab|].
    destruct (c _) as [[a|e|w] s2]; simpl in *; [done| |done]. destruct (Is e _); [done|by apply Hab]. }
  destruct ex; [|done]. destruct (pg_tx (interfere env s)) as [[? []]|]; done.
Qed.

Lemma put_servers ex id r : extends servers_kept (put ex id r).
Proof. intros s. unfold put, modify. simpl. by destruct ex, (pg_tx s). Qed.
Lemma update_servers ex id c f : extends servers_kept (update_where ex id c f).
Proof.
  intros s. unfold update_where, bind at 1, get_state. destruct (view ex s !! id) as [r|]; [|done].
  destruct (c r); [|done]. exact (put_servers ex id (f r) s).
Qed.

Lemma begin_servers : extends servers_kept db_BeginTx.
Proof. apply statement_servers. by intros s. Qed.
Lemma commit_servers : extends servers_kept db_Commit.
Proof. apply statement_servers. by intros s. Qed.
Lemma rollback_servers : extends servers_kept db_Rollback.
Proof. by intros s. Qed.
Lemma one_servers ex by_ : extends servers_kept (Users_One ex by_).
Proof. apply statement_servers. intros s. by rewrite select_same. Qed.
Lemma insert_servers ex u : extends servers_kept (User_Insert ex u).
Proof.
  apply statement_servers. intros s. unfold bind, get_state.
  destruct (view ex s !! user_ID u); [done|]. apply put_servers.
Qed.
Lemma assign_servers ex sid id : extends servers_kept (User_AssignServer ex sid id).
Proof. apply statement_servers, update_servers. Qed.
Lemma reload_servers id : extends servers_kept (User_ReloadG id).
Proof. apply statement_servers. intros s. by destruct (_ !! _). Qed.
Lemma server_servers ex u : extends servers_kept (User_Server ex u).
Proof. apply statement_servers. intros s. by destruct (_ ≫= _). Qed.
Lemma sdk_servers op : extends servers_kept (sdk_command env op).
Proof. by intros s. Qed.
Lemma answer_servers {A} (f : nat → error + A) : extends servers_kept (answer f).
Proof. by intros s. Qed.
#[local] Hint Resolve begin_servers commit_servers rollback_servers one_servers insert_servers assign_servers
  reload_servers server_servers sdk_servers answer_servers : go.

Lemma Create_servers addr uid : extends servers_kept (Create (W:=PG) addr uid).
Proof. unfold Create, createWallet, LoadWallet; go_paths; apply sdk_servers. Qed.
#[local] Hint Resolve Create_servers : go.

Lemma provision_servers u : extends servers_kept (provision (W:=PG) u).
Proof.
  unfold provision, rt_LeastLoaded, pg_Router, getOrCreateLocalUser, createUser, getDBUser, assignSDKServerToUser.
  go_paths.
Qed.

Lemma remote_servers host token ip : extends servers_kept (GetRemoteUserLegacy (W:=PG) host token ip).
Proof. unfold GetRemoteUserLegacy, hasVerifiedEmail, Call; go_paths. Qed.

(** Assigning a server gives a user that shows the server it has. *)
Lemma assignSDK_shows u server s u' s' :
  assignSDKServerToUser (W:=PG) ExTx u server s = (ROk (u', None), s') → srv_ID server ≠ 0 →
  user_ID u' = user_ID u ∧ is_Some (user_LbrynetServerID u') ∧ loaded u' s'.
Proof.
  intros Hrun Hid. unfold assignSDKServerToUser in Hrun.
  destruct (user_ID u =? 0); [done|]. case_bool_decide; [done|].
  destruct (Z.eqb_spec (srv_ID server) 0); [done|].
  go_inv Hrun. apply try_ok_inv in Hc as [(count & -> & Hc)|(e & -> & Hc)]; [|done].
  go_inv Hrun. destruct a as [e|u1]; [done|].
  assert (user_ID u1 = user_ID u) as Hu1.
  { destruct (Z.eqb_spec count 0).
    - apply try_ok_inv in Hc0 as [(u2 & [= <-] & Hr)|(e2 & ? & Hr)]; [|done].
      cbn [User_ReloadG pg_UsersDB] in Hr. apply statement_ok in Hr. destruct (_ !! _); [|done]. by injection Hr as <- _.
    - by injection Hc0 as <- _. }
  go_inv Hrun. apply try_ok_inv in Hc1 as [(srv & -> & Hs)|(e & -> & Hs)]; [|done].
  pose proof (server_ok env _ _ _ _ Hs) as Hsrv.
  assert (u' = set_R u1 srv ∧ pg_servers s' = pg_servers s2) as [-> Hpg].
  { destruct (count =? 0); [by injection Hrun as <- <-|]. go_inv Hrun. injection Hrun as <- _ <-.
    split; [done|]. pose proof (extends_try _ _ (Create_servers (srv_Address server) (user_ID (set_R u1 srv))) s2) as Hk.
    rewrite Hc1 in Hk. exact Hk. }
  split; [done|]. unfold loaded; simpl. rewrite Hpg, Hsrv. split; [|done].
  by destruct (user_LbrynetServerID u1).
Qed.

Lemma provision_shows u0 s u s' :
  user_IdpID u0 = None → user_LbrynetServerID u0 = None → (∀ n, srv_ID (pe_least env n) ≠ 0) →
  provision (W:=PG) u0 s = (ROk (u, None), s') →
  ∃ u', u = Some u' ∧ user_ID u' = user_ID u0 ∧ is_Some (user_LbrynetServerID u') ∧ loaded u' s'.
Proof.
  intros Hidp Hn0 Hleast Hrun. unfold provision in Hrun. go_inv Hrun.
  apply try_ok_inv in Hc as [(u1 & -> & Hc)|(e & -> & Hc)]; [|done].
  pose proof (getOrCreate_ok env _ _ _ _ Hc) as (_ & Hl & Hid). specialize (Hid Hidp).
  case_bool_decide as Hn.
  - go_inv Hrun. go_inv Hrun. destruct a0 as [u2 e]. injection Hrun as <- -> <-.
    injection Hc0 as <- <-. apply assignSDK_shows in Hc1 as (Hid2 & ? & ?); [|apply Hleast].
    exists u2. rewrite Hid2. done.
  - injection Hrun as <- <-. exists u1. split_and!; [done..| |].
    + by destruct (user_LbrynetServerID u1).
    + destruct Hl as [->|]; done.
Qed.

(** A transaction that succeeds ends in a run of its body that succeeded and
    a commit; earlier runs were rolled back. *)
Lemma inTx_loop_ok (R : relation PG) `{!PreOrder R} n f u0 e0 s u s' :
  extends R (db_BeginTx : Go PG unit) → extends R (db_Rollback : Go PG unit) → extends R f → (n = O → e0 ≠ None) →
  inTx_loop (W:=PG) n f u0 e0 s = (ROk (u, None), s') →
  ∃ s1 s2, R s s1 ∧ f s1 = (ROk (u, None), s2) ∧ db_Commit s2 = (ROk tt, s').
Proof.
  intros HB HR Hf. revert u0 e0 s. induction n as [|n IH]; intros u0 e0 s He; cbn [inTx_loop].
  { intros [= <- -> <-]. by destruct He. }
  intros Hrun. go_inv Hrun. pose proof (extends_try _ _ HB s) as Hg.
  rewrite Hc in Hg. simpl in Hg. destruct a as [e|[]]; [done|].
  go_inv Hrun. destruct a as [u1 [e|]].
  - go_inv Hrun. case_bool_decide; [|done].
    apply IH in Hrun as (s3 & s4 & Hg' & ? & ?); [|done]. exists s3, s4. split; [|done].
    pose proof (Hf s0) as Hf0. rewrite Hc0 in Hf0.
    pose proof (extends_try _ _ HR s1) as Hr. rewrite Hc1 in Hr.
    etrans; [exact Hg|]. etrans; [exact Hf0|]. by etrans.
  - go_inv Hrun. apply try_ok_inv in Hc1 as [([] & -> & Hc1)|(e & -> & Hc1)]; [|done].
    injection Hrun as <- <-. by exists s0, s1.
Qed.

End shows.

(** ** Theorems *)

Section theorems.
Import PgInstances.
Context (env : PgEnv) `{!Ljsonrpc, !IAPIDecoders}.

(** Authenticating with a legacy token never takes a user's SDK server
    away or replaces it, whatever statements fail and whatever other requests
    do to the table meanwhile, as long as they keep assignments
    themselves. *)
Theorem legacy_auth_keeps_assignments host token ip s :
  rely env → pg_tx s = None →
  keeps (pg_users s) (pg_users (GetUserWithSDKServer (W:=PG) host token ip s).2).
Proof.
  intros Hrely Htx. apply (GetUserWithSDKServer_guarantee env Hrely host token ip s).
  apply no_writes_ok. unfold tx_table. by rewrite Htx.
Qed.

(** C24: A user that a legacy authentication returns after a cache miss, when the
    SDK servers come from the database (their ids are not zero): whatever statements
    fail and whatever other requests do to the users table meanwhile, it is the
    verified user that internal-api named, has an SDK server and shows the record of
    that server; and if other requests respect the row locks, delete no users and take
    no server away while it runs, its row is committed with this server.  (The
    repository's own OAuth update, [DeleteUser] and the administrator's reassignment
    do not obey this condition.) *)
Theorem legacy_auth_provisions host token ip s u s' :
  pg_tx s = None → (∀ n, srv_ID (pe_least env n) ≠ 0) →
  retrieveLegacy (W:=PG) host token ip s = (ROk (Some u), s') →
  ∃ sid, user_LbrynetServerID u = Some sid ∧ GetLbrynetServer (Some u) = pg_servers s' !! sid ∧
    (∃ s1 remote, GetRemoteUserLegacy (W:=PG) host token ip s = (ROk remote, s1) ∧
      ru_HasVerifiedEmail remote = true ∧ ru_ID remote = user_ID u) ∧
    (rely env → ∃ r, pg_users s' !! user_ID u = Some r ∧ row_server r = Some sid).
Proof.
  intros Htx Hleast Hrun. unfold retrieveLegacy in Hrun. go_inv Hrun.
  destruct (ru_HasVerifiedEmail a) eqn:Hver; [|done]. cbn [negb] in Hrun. go_inv Hrun.
  destruct a0 as [u1 [e|]]; [done|]. injection Hrun as -> <-.
  pose proof Hc0 as Htxn. unfold inTx in Htxn.
  apply (inTx_loop_ok env servers_kept) in Htxn as (s2 & s3 & _ & Hp & Hcm);
    [|apply begin_servers|apply rollback_servers|apply provision_servers|done].
  apply provision_shows in Hp as (u' & [= <-] & Hid & [sid Hsid] & Hl); [|done..].
  assert (pg_servers s1 = pg_servers s3) as Hpg.
  { pose proof (commit_servers env s3) as Hk. rewrite Hcm in Hk. exact Hk. }
  exists sid. split_and!; [done| |by eauto 8|].
  - unfold GetLbrynetServer. rewrite Hl, Hsid, Hpg. simpl. by destruct (pg_servers s3 !! sid).
  - intros Hrely. assert (tx_ok s0) as Hok0.
    { assert (guarantee s s0) as Hg0.
      { change s0 with (ROk (E:=error) a, s0).2. rewrite <-Hc. apply remote_guarantee. }
      apply Hg0, no_writes_ok. unfold tx_table. by rewrite Htx. }
    apply (inTx_loop_ok env guarantee) in Hc0 as (s4 & s5 & Hg1 & Hp & Hcm');
      [|by apply begin_guarantee|by apply rollback_guarantee|by apply extends_guarantee, provision_progress|done].
    assert (tx_ok s4) as Hok4 by (by apply Hg1).
    pose proof (provision_progress env Hrely (newUser (ru_ID a) None) s4) as Hpp. rewrite Hp in Hpp.
    destruct (Hpp Hok4) as (Hok5 & _).
    apply provision_ok in Hp as (u' & [= <-] & _ & Hb & _ & _); [|done..].
    apply commit_ok in Hcm' as [Hk _]; [|done..].
    apply (backed_keeps _ _ _ Hk) in Hb as (r & Hr & Hkr). exists r. split; [done|by apply Hkr].
Qed.
End theorems.

(** ** Wallet creation and authorization, for any world *)

Section generic.
Context {W : Type} `{!Ljsonrpc, !UsersDB W, !SDKWallets W, !SDKRouter W, !TokenStore W,
  !WalletEnv W, !IAPITransport W, !IAPIDecoders, !OIDC W}.

(** C33: OAuth authentication yields a user without an error only for a Bearer
    token whose verified claims name this service in their audience. *)
Theorem Authenticate_checks_audience clientID token ip w u w' :
  Authenticate (W:=W) clientID token ip w = (ROk (u, None), w') →
  ∃ t info w1, token = TokenPrefix +:+ t ∧ oidc_Claims t w = (ROk info, w1) ∧
    clientID ∈ Aud info.
Proof.
  unfold Authenticate. destruct (HasPrefix token TokenPrefix) eqn:Hp; [|done]. simpl negb. cbv iota.
  apply HasPrefix_true in Hp as [t ->]. rewrite TrimPrefix_app. intros Hrun. go_inv Hrun.
  apply try_ok_inv in Hc as [(p & -> & Hc)|(e & -> & Hc)]; [|done].
  go_inv Hc. go_inv Hc. unfold extractUserInfo in Hc0. go_inv Hc0.
  apply try_ok_inv in Hc2 as [(i & -> & Hi)|(e & -> & Hi)]; [|done].
  injection Hc0 as -> ->. exists t, a, s0. split_and!; [done..|].
  unfold lift, checkAuthorization in Hc1. destruct (existsb _ _) eqn:He; [|done].
  apply existsb_exists in He as (x & Hx & ->%String.eqb_eq). by apply list_elem_of_In.
Qed.

(** The SDK errors after which [Create] still reports success. *)
Definition already (e : error) : bool :=
  Is (NewWalletError e) "lbrynet.ErrWalletAlreadyLoaded" || Is (NewWalletError e) "lbrynet.ErrWalletExists".

(** [Create] returns without error exactly when the wallet was created, or
    already existed or was loaded, or existed unloaded and then was loaded
    (by this call or concurrently). *)
Theorem Create_ok_iff addr uid w w' :
  Create (W:=W) addr uid w = (ROk tt, w') ↔
  let '(r, w1) := WalletCreate addr (wallet_id_of uid) w in
  match r with
  | ROk _ => w' = w1
  | RErr e =>
      (already e = true ∧ w' = w1) ∨
      (already e = false ∧ Is (NewWalletError e) "lbrynet.ErrWalletNotLoaded" = true ∧
       let '(l, w2) := WalletAdd addr (wallet_id_of uid) w1 in
       w' = w2 ∧ match l with
                 | ROk _ => True
                 | RErr e' => Is (NewWalletError e') "lbrynet.ErrWalletAlreadyLoaded" = true
                 | RPanic _ => False
                 end)
  | RPanic _ => False
  end.
Proof.
  unfold Create, createWallet, LoadWallet, already, bind, try, ret, fail.
  destruct (WalletCreate addr (wallet_id_of uid) w) as [[[]|e|p] w1]; [by split; intros; simplify_eq| |done].
  destruct (Is (NewWalletError e) "lbrynet.ErrWalletAlreadyLoaded"),
    (Is (NewWalletError e) "lbrynet.ErrWalletExists"); simpl; try (intuition congruence).
  destruct (Is (NewWalletError e) "lbrynet.ErrWalletNotLoaded"); [|intuition congruence].
  destruct (WalletAdd addr (wallet_id_of uid) w1) as [[[]|e'|p] w2]; try (intuition congruence).
  destruct (Is (NewWalletError e') "lbrynet.ErrWalletAlreadyLoaded"); intuition congruence.
Qed.
End generic.

(** ** Concrete environments *)

Module Concrete.
#[export] Instance names : Ljsonrpc := {|
  ErrorWalletNotFound := "WalletNotFoundError";
  ErrorWalletAlreadyExists := "WalletAlreadyExistsError";
  ErrorWalletNotLoaded := "WalletNotLoadedError";
  ErrorWalletAlreadyLoaded := "WalletAlreadyLoadedError";
  WrapError_Name e := match as_map (Data e) with
                      | Some d => default "" (as_string (map_get d "name"))
                      | None => ""
                      end;
  sdk_error_names_distinct := ltac:(eapply bool_decide_unpack; vm_compute; exact I) |}.

#[export] Instance decoders : IAPIDecoders := {|
  decode_CustomerList _ := Some [];
  decode_UserMe v := match v with
                     | VMap m => Some (true, default false (as_bool (map_get m "global_mod")))
                     | _ => None end;
  decode_PerkCheck _ := Some false;
  decode_HasVerifiedEmail v := match v with
                               | VMap m => match map_get m "user_id" with
                                           | VInt z => Some (z, true)
                                           | _ => None end
                               | _ => None end |}.

Definition sdk7 : LbrynetServer := mkServer 7 "sdk7" "http://sdk7:5279" false.

(** Internal-api names user 751365; before interaction [k], other requests
    apply [f] to its row unless it is locked. *)
Definition world (k : nat) (f : option Row → option Row) : PgEnv := {|
  pe_other n l t := if bool_decide (n = k ∧ 751365 ∉ l) then partial_alter f 751365 t else t;
  pe_fault _ := None;
  pe_sdk _ _ := inr tt;
  pe_pick _ := 0%nat;
  pe_least _ := sdk7;
  pe_rand _ _ := 0;
  pe_now _ := 0;
  pe_kept _ _ := true;
  pe_iapi _ _ _ _ := inr (mkReply 200 (Some (VMap (<["success" := VBool true]> {["user_id" := VInt 751365]}))));
  pe_claims t := inr {| Sub := "idp-1"; Aud := ["odysee-apis"] |} |}.

Definition start (t : table) : PG :=
  {| pg_users := t; pg_servers := {[7 := sdk7]}; pg_tx := None; pg_n := 0; pg_sdk := []; pg_cache := ∅ |}.

Definition one_user : table := {[5 := mkRow (Some 7) None None]}.

Lemma world_rely k f :
  (∀ r, ∃ r', f (Some r) = Some r' ∧ row_keeps r r') → rely (world k f).
Proof.
  intros Hf n l t. cbn. case_bool_decide as Hb; [|split; [|done]; reflexivity].
  destruct Hb as [_ Hl]. split.
  - intros id r Hr. destruct (decide (id = 751365)) as [->|Hne].
    + destruct (Hf r) as (r' & Hr' & ?). exists r'. by rewrite lookup_partial_alter_eq, Hr.
    + exists r. rewrite lookup_partial_alter_ne by done. split; [done|apply row_keeps_refl].
  - intros id Hid. rewrite lookup_partial_alter_ne; [done|set_solver].
Qed.

(** Another request creates the user and assigns it a server. *)
Definition create_row (o : option Row) : option Row :=
  match o with None => Some (mkRow (Some 7) None None) | Some r => Some r end.
(** Another request assigns a server to the existing user. *)
Definition assign_row (o : option Row) : option Row :=
  match o with
  | Some (mkRow None idp seen) => Some (mkRow (Some 7) idp seen)
  | o => o
  end.

Lemma create_row_rely k : rely (world k create_row).
Proof. apply world_rely. intros r. exists r. split; [done|apply row_keeps_refl]. Qed.
Lemma assign_row_rely k : rely (world k assign_row).
Proof. apply world_rely. intros [[sid|] idp seen]; eexists; (split; [done|]); by intros ?. Qed.
End Concrete.

Section witnesses.
Import PgInstances Concrete.

(** The insert of a new user collides with a concurrent one, the transaction is
  retried, and the other request's record is returned. *)
Lemma legacy_auth_provisions_witness :
  let env := Concrete.world 3 Concrete.create_row in
  let u := {| user_ID := 751365; user_LbrynetServerID := Some 7; user_IdpID := None;
            user_LastSeenAt := None; user_R := Some (Some Concrete.sdk7) |} in
  ∃ s', retrieveLegacy (W:=PG)
    "https://api" "token" "203.0.113.9" (Concrete.start ∅) = (ROk (Some u), s') ∧
  ∃ sid r, user_LbrynetServerID u = Some sid ∧ pg_users s' !! user_ID u = Some r ∧ row_server r = Some sid.
Proof.
  intros env u. eexists. split; [vm_compute; reflexivity|].
  edestruct (legacy_auth_provisions env "https://api" "token" "203.0.113.9" (Concrete.start ∅) u)
    as (sid & H1 & _ & _ & H2);
    [reflexivity|intros n; discriminate|vm_compute; reflexivity|].
  destruct (H2 (Concrete.create_row_rely 3)) as (r & H3 & H4).
  exists sid, r. split; [exact H1|]. split; [exact H3|exact H4].
Defined.

Lemma legacy_auth_keeps_assignments_witness :
  let env := Concrete.world 3 Concrete.create_row in
  keeps (pg_users (start one_user))
  (pg_users (GetUserWithSDKServer (W:=PG)
    "https://api" "token" "203.0.113.9" (start one_user)).2).
Proof.
  intros env.
  apply (legacy_auth_keeps_assignments env "https://api" "token" "203.0.113.9"
    (start one_user)); [apply Concrete.create_row_rely|reflexivity].
Defined.

(** OAuth authentication can undo a concurrent server assignment: for a
  user known only by its id, the whole record as read earlier is written back
  to store the [idp_id], and a server assigned in between is lost. *)
Theorem oauth_update_drops_assignment :
  ∃ env s, rely env ∧ pg_users s !! 751365 = Some (mkRow None None None) ∧
  (∃ n, pe_other env n ∅ (pg_users s) !! 751365 = Some (mkRow (Some 7) None None)) ∧
  let '(r, s') := Authenticate (W:=PG)
    "odysee-apis" "Bearer abc" "203.0.113.9" s in
  (∃ u, r = ROk (Some u, None)) ∧ pg_users s' !! 751365 = Some (mkRow None (Some "idp-1") None).
Proof.
  exists (Concrete.world 6 Concrete.assign_row), (Concrete.start {[751365 := mkRow None None None]}).
  split; [apply Concrete.assign_row_rely|]. split; [vm_compute; reflexivity|]. split.
  - exists 6%nat. vm_compute. reflexivity.
  - vm_compute. split; [eauto|reflexivity].
Qed.

Lemma Authenticate_checks_audience_witness :
  let env := world 0 assign_row in
  ∃ u w', Authenticate (W:=PG) "odysee-apis" "Bearer abc" "203.0.113.9"
          (start {[751365 := mkRow (Some 7) None None]}) = (ROk (u, None), w') ∧
  ∃ t info w1, "Bearer abc" = TokenPrefix +:+ t ∧
    oidc_Claims (W:=PG) t (start {[751365 := mkRow (Some 7) None None]}) = (ROk info, w1) ∧
    "odysee-apis" ∈ Aud info.
Proof.
  intros env. eexists _, _. split; [vm_compute; reflexivity|].
  eapply (Authenticate_checks_audience (W:=PG) "odysee-apis" "Bearer abc" "203.0.113.9").
  vm_compute. reflexivity.
Defined.

End witnesses.

(** ** The wallet tracker *)

(** A wallet in use since the cutoff. *)
Definition fresh_at (cutoff id : Z) (t : table) : Prop :=
  ∃ r v, t !! id = Some r ∧ row_seen r = Some v ∧ cutoff ≤ v.

(** A wallet in use since the cutoff stays recorded as such. *)
Definition stays_fresh (cutoff : Z) (t t' : table) : Prop := ∀ id, fresh_at cutoff id t → fresh_at cutoff id t'.

(** Another request records an access to the wallet of [id] just before, or
    during, interaction [k]. *)
Definition accessed (env : PgEnv) (cutoff id : Z) (k : nat) : Prop :=
  ∀ t, fresh_at cutoff id (pe_other env k ∅ t).

(** A stretch of a run outside of transactions: a wallet in use at its beginning, or
    accessed during one of its interactions, is recorded as in use at its end. *)
Definition fresh_users (env : PgEnv) (cutoff : Z) : relation PG := λ s s', pg_tx s = None → pg_tx s' = None ∧
  ∀ id, fresh_at cutoff id (pg_users s) ∨ (∃ k, (pg_n s <= k < pg_n s')%nat ∧ accessed env cutoff id k) →
  fresh_at cutoff id (pg_users s').

#[export] Instance fresh_users_preorder env cutoff : PreOrder (fresh_users env cutoff).
Proof.
  split.
  - intros s Ht. split; [done|]. intros id [?|(k & ? & _)]; [done|lia].
  - intros s1 s2 s3 H12' H23' Ht. destruct (H12' Ht) as [Ht2 H12]. destruct (H23' Ht2) as [Ht3 H23].
    split; [done|]. intros id [Hf|(k & Hk & Ha)]; [by apply H23; left; apply H12; left|].
    destruct (decide (k < pg_n s2)%nat).
    + apply H23. left. apply H12. right. exists k. split; [lia|done].
    + apply H23. right. exists k. split; [lia|done].
Qed.

Section tracker.
Import PgInstances.
Context (env : PgEnv) `{!Ljsonrpc} (cutoff : Z).
Context (Hothers : ∀ n l t, stays_fresh cutoff t (pe_other env n l t)).

Lemma fresh_step s s' :
  pg_n s' = pg_n s → pg_tx s' = pg_tx s → stays_fresh cutoff (pg_users s) (pg_users s') → fresh_users env cutoff s s'.
Proof. intros Hn Htx Hs Ht. split; [congruence|]. intros id [?|(k & ? & _)]; [auto|lia]. Qed.

Lemma fresh_same s s' :
  pg_n s' = pg_n s → pg_tx s' = pg_tx s → pg_users s' = pg_users s → fresh_users env cutoff s s'.
Proof. intros Hn Ht Hu. apply fresh_step; [done..|]. rewrite Hu. by intros id. Qed.

(** Before each statement, and during each wallet command, the accesses of that
    interaction are recorded. *)
Lemma interfere_fresh s : fresh_users env cutoff s (interfere env s).
Proof using Hothers.
  intros Ht. split; [done|]. intros id [Hf|(k & Hk & Ha)]; simpl in *; [by apply Hothers|].
  assert (k = pg_n s) as -> by lia. unfold locked, tx_table. rewrite Ht, dom_empty_L. apply Ha.
Qed.

Lemma statement_fresh {A} (c : Go PG A) :
  extends (fresh_users env cutoff) c → extends (fresh_users env cutoff) (statement env ExGlobal c).
Proof using Hothers.
  intros Hc s. etrans; [apply interfere_fresh|]. unfold statement.
  destruct (pe_fault env (pg_n s)); [by apply fresh_same|].
  specialize (Hc (interfere env s)). destruct (c _) as [[a|e|w] s2]; simpl in *; [done| |done].
  by destruct (Is e _).
Qed.

(** Clearing a time stamp that is before the cutoff: a row whose time stamp has
    changed since it was read is left alone. *)
Lemma mark_fresh id seen : (∀ v, seen = Some v → v < cutoff) →
  extends (fresh_users env cutoff) (User_MarkUnloaded id seen).
Proof using Hothers.
  intros Hseen. apply statement_fresh. intros s.
  unfold update_where, bind at 1 2, get_state, view.
  destruct (pg_users s !! id) as [r|] eqn:Hr; [|by apply fresh_same].
  case_bool_decide as Hb; [|by apply fresh_same]. destruct Hb as [Hs _].
  apply fresh_step; [done..|]. intros i (r0 & v & Hi & Hv & Hle). simpl. destruct (decide (i = id)) as [->|Hne].
  - exfalso. rewrite Hr in Hi. injection Hi as <-. rewrite Hs in Hv. specialize (Hseen v Hv). lia.
  - exists r0, v. by rewrite lookup_insert_ne by done.
Qed.

Lemma unloadWallet_fresh addr uid : extends (fresh_users env cutoff) (UnloadWallet (W:=PG) addr uid).
Proof using Hothers.
  unfold UnloadWallet. go_paths. intros s. etrans; [apply interfere_fresh|]. by apply fresh_same.
Qed.

Lemma unloadUsers_fresh users : extends (fresh_users env cutoff) (unloadUsers (W:=PG) cutoff users).
Proof using Hothers.
  induction users as [|u users IH]; cbn [unloadUsers]; [go_paths|].
  destruct (GetLbrynetServer _); [|done].
  destruct (user_LastSeenAt u) as [v|] eqn:Hv; [destruct (Z.ltb_spec v cutoff)|];
    cbn [negb]; [|done|]; go_paths; try apply unloadWallet_fresh; apply mark_fresh; naive_solver.
Qed.

Lemma seenBefore_fresh c : extends (fresh_users env cutoff) (Users_SeenBefore c).
Proof using Hothers. apply statement_fresh. intros s. by apply fresh_same. Qed.
End tracker.

(** C34: Unloading idle wallets never erases an access that happened after the
    cutoff, as long as no other request erases one (or deletes the user): a user
    seen since then when it begins is recorded as such when it ends, and so is a user
    whose wallet another request accesses at any interaction of the run with the
    database or an SDK after it read the clock, be it between the selection of the idle users and the statement
    that marks this very user's wallet as unloaded. *)
Theorem Unload_keeps_recent_access `{!Ljsonrpc} (env : PgEnv) olderThan s :
  let cutoff := pe_now env (pg_n s) - olderThan in
  let s' := (Unload (W:=PG) (UsersDB0:=pg_UsersDB env) (SDKWallets0:=pg_SDK env)
       (WalletEnv0:=pg_Env env) olderThan s).2 in
  pg_tx s = None → (∀ n l t, stays_fresh cutoff t (pe_other env n l t)) →
  stays_fresh cutoff (pg_users s) (pg_users s') ∧
  ∀ id k, (pg_n s < k < pg_n s')%nat → accessed env cutoff id k → fresh_at cutoff id (pg_users s').
Proof.
  intros cutoff s' Htx Ho. set (s1 := with_n s (S (pg_n s))).
  assert (fresh_users env cutoff s1 s') as Hf.
  { unfold s', Unload. rewrite (bind_ok _ _ _ (pe_now env (pg_n s)) s1) by done.
    match goal with |- fresh_users _ _ _ (?c s1).2 => cut (extends (fresh_users env cutoff) c); [by intros Hc|] end.
    go_paths; [by apply seenBefore_fresh|by apply unloadUsers_fresh]. }
  destruct (Hf Htx) as [_ Hend]. split.
  - intros id Hid. apply Hend. by left.
  - intros id k Hk Ha. apply Hend. right. exists k. split; [simpl; lia|done].
Qed.

(** The wallet is accessed after it was selected as idle and before it is marked. *)
Lemma Unload_keeps_recent_access_witness :
  let env := Concrete.world 3 (λ o, match o with
    | Some r => Some (mkRow (row_server r) (row_idp r) (Some 5)) | None => Some (mkRow None None (Some 5)) end) in
  let s := Concrete.start {[751365 := mkRow (Some 7) None (Some (-10))]} in
  let s' := (Unload (W:=PG) (H:=Concrete.names) (UsersDB0:=pg_UsersDB env) (SDKWallets0:=pg_SDK env)
       (WalletEnv0:=pg_Env env) 0 s).2 in
  pg_users s' !! 751365 = Some (mkRow (Some 7) None (Some 5)) ∧ fresh_at 0 751365 (pg_users s').
Proof.
  intros env s. assert (∀ n l t, stays_fresh 0 t (pe_other env n l t)) as Ho.
  { intros n l t id (r & v & Hr & Hv & Hle). cbn. case_bool_decide; [|by exists r, v].
    destruct (decide (id = 751365)) as [->|Hne].
    - unfold fresh_at. rewrite lookup_partial_alter_eq, Hr. do 2 eexists. split; [reflexivity|]. split; [reflexivity|lia].
    - unfold fresh_at. rewrite lookup_partial_alter_ne by done. by exists r, v. }
  intros s'. split; [vm_compute; reflexivity|].
  apply (proj2 (Unload_keeps_recent_access (H:=Concrete.names) env 0 s eq_refl Ho) 751365 3%nat).
  - assert (pg_n s' = 4%nat) as Hn by (vm_compute; reflexivity).
    split; [simpl; lia|]. apply (Nat.lt_le_trans _ 4); [lia|]. by apply Nat.eq_le_incl.
  - intros t. cbn. rewrite bool_decide_eq_true_2 by set_solver. unfold fresh_at. rewrite lookup_partial_alter_eq.
    destruct (t !! 751365); do 2 eexists; (split; [reflexivity|]); split; [reflexivity|simpl; lia|reflexivity|simpl; lia].
Defined.
