(* ===== verification/Auth.v ===== *)
(** * Authentication of requests

    Models [app/auth] ([auth.go], [middleware.go], [usergetter.go]) and the
    middleware of [app/wallet/tracker]: how the OAuth and the legacy token of a
    request become the [CurrentUser] attached to its context.  Handlers are
    wrapped by continuations; what a middleware passes to the next handler is
    its result here. *)

From S2P Require Import Prelude GoLib Rpc Errors Router Iapi Http Ip Services Wallet.

Local Open Scope Z_scope.

(** ** [CurrentUser] *)

Record CurrentUser := mkCU {
  cu_ipAddr : string;
  cu_iac : option Client;
  cu_user : option User;
  cu_err : option error;
}.

(** The value under [userContextKey]: absent, or a pointer that may be nil. *)
Definition userCtx := option (option CurrentUser).

Definition AttachCurrentUser (cu : option CurrentUser) : userCtx := Some cu.

Definition NewCurrentUser (u : option User) (ip : string) (iac : option Client) (e : option error)
  : CurrentUser := {| cu_ipAddr := ip; cu_iac := iac; cu_user := u; cu_err := e |}.

Definition GetCurrentUserData (ctx : userCtx) : result error CurrentUser :=
  match ctx with
  | None => RErr (Errs "auth middleware is required")
  | Some None => RErr (EText "<nil> is not CurrentUser")
  | Some (Some cu) => ROk cu
  end.

(** [auth.FromRequest]: both results of the Go function. *)
Definition FromRequest (ctx : userCtx) : option User * option error :=
  match GetCurrentUserData ctx with
  | ROk cu => (cu_user cu, cu_err cu)
  | RErr e => (None, Some e)
  | RPanic _ => (None, None)
  end.

(** ** Interfaces *)

Record Authenticator (W : Type) := {
  au_Authenticate : string → string → Go W (option User * option error);
  au_GetTokenFromRequest : Header → result error string;
}.
Arguments au_Authenticate {W}. Arguments au_GetTokenFromRequest {W}.

Definition Provider (W : Type) := string → string → Go W (option User * option error).

Definition nilProvider {W} : Provider W := λ _ _, ret (None, None).

(** A call whose error is returned beside a nil pointer. *)
Definition both {W A} (c : Go W (option A)) : Go W (option A * option error) :=
  let! r := try c in
  match r with
  | inl e => ret (None, Some e)
  | inr u => ret (u, None)
  end.

Definition to_option {A} (r : result error A) : option A :=
  match r with ROk a => Some a | _ => None end.

Section middleware.
Context {W : Type}.

Definition Middleware (auther : Authenticator W) (h : Header) (ctx_ip : option string)
  : Go W userCtx :=
  let ipAddr := Ip.FromRequest ctx_ip in
  match au_GetTokenFromRequest auther h with
  | RPanic w => gopanic w
  | RErr err => ret (Some (Some {| cu_ipAddr := ""; cu_iac := None; cu_user := None; cu_err := Some err |}))
  | ROk token =>
      let! r := au_Authenticate auther token ipAddr in
      let '(user, err) := r in
      let iac := match user with
                 | None => None
                 | Some _ => to_option (NewClient
                     [WithOAuthToken (TrimPrefix token TokenPrefix); WithRemoteIP ipAddr])
                 end in
      ret (AttachCurrentUser (Some (NewCurrentUser user ipAddr iac err)))
  end.

Definition LegacyMiddleware (provider : Provider W) (h : Header) (ctx_ip : option string)
    (ctx : userCtx) : Go W userCtx :=
  let ipAddr := Ip.FromRequest ctx_ip in
  match FromRequest ctx with
  | (_, None) => ret ctx
  | (user, Some _) =>
      let token := Header_Get h LegacyTokenHeader in
      let! r := (if negb (bool_decide (token = "")) then provider token ipAddr
                 else ret (user, Some ErrNoAuthInfo)) in
      let '(user, err) := r in
      let iac := match user with
                 | None => None
                 | Some _ => to_option (NewClient [WithLegacyToken token; WithRemoteIP ipAddr])
                 end in
      ret (AttachCurrentUser (Some (NewCurrentUser user ipAddr iac err)))
  end.

Definition UniversalFromRequest (auther : Authenticator W) (provider : Provider W)
    (h : Header) (remoteAddr : string) : Go W User :=
  let checkUser (r : option User * option error) : Go W User :=
    match r with
    | (_, Some e) => fail e
    | (None, None) => fail ErrNoAuthInfo
    | (Some u, None) => ret u
    end in
  match au_GetTokenFromRequest auther h with
  | RPanic w => gopanic w
  | RErr err =>
      if Is err "wallet.ErrNoAuthInfo" then
        match h !! LegacyTokenHeader with
        | Some (t :: _) => let! r := provider t (ForRequest h remoteAddr) in checkUser r
        | Some [] => gopanic "index out of range"
        | None => fail (Err ErrNoAuthInfo)
        end
      else fail err
  | ROk token => let! r := au_Authenticate auther token (ForRequest h remoteAddr) in checkUser r
  end.
End middleware.

Section providers.
Context {W : Type} `{!Ljsonrpc, !UsersDB W, !SDKWallets W, !SDKRouter W, !TokenStore W,
  !WalletEnv W, !IAPITransport W, !IAPIDecoders, !OIDC W, !Monitor W}.

Definition NewIAPIProvider (internalAPIHost : string) : Provider W :=
  λ token ip, both (GetUserWithSDKServer internalAPIHost token ip).

Definition OauthAuthenticator (clientID : string) : Authenticator W := {|
  au_Authenticate := Authenticate clientID;
  au_GetTokenFromRequest := GetTokenFromRequest |}.

Definition MiddlewareWithProvider (internalAPIHost : string) :=
  LegacyMiddleware (NewIAPIProvider internalAPIHost).

(** [tracker.Middleware], after the wrapped handler has run. *)
Definition tracker_Middleware (ctx : userCtx) : Go W unit :=
  let '(user, err) := FromRequest ctx in
  if match err with Some e => negb (Is e "wallet.ErrNoAuthInfo") | None => false end then ret tt
  else match user with
       | None => ret tt
       | Some u => let! r := try (Touch (user_ID u)) in
                   match r with
                   | inl e => ErrorToSentry (Some e)
                   | inr _ => ret tt
                   end
       end.
End providers.

(** ** Properties *)

Section properties.
Context {W : Type}.

(** The chain of [api/routes.go]: OAuth first, then the legacy token. *)
Definition authChain (auther : Authenticator W) (provider : Provider W) (h : Header)
    (ctx_ip : option string) : Go W userCtx :=
  let! ctx := Middleware auther h ctx_ip in LegacyMiddleware provider h ctx_ip ctx.

(** A client for internal-api that acts with one token and no other: the OAuth
    token in its header and no legacy parameter, or the legacy token in its
    parameter and no authorization header; it forwards the caller's address. *)
Definition client_acts_with (legacy : bool) (token ip : string) (c : Client) : Prop :=
  extraHeaders c !! headerForwardedFor = Some ip ∧
  if legacy then
    extraParams c !! paramLegacyToken = Some token ∧ extraHeaders c !! headerOauthToken = None
  else
    extraHeaders c !! headerOauthToken = Some ("Bearer " +:+ TrimPrefix token TokenPrefix) ∧
    extraParams c !! paramLegacyToken = None.

(** The client attached beside a user: none without a user. *)
Definition iac_for (legacy : bool) (token ip : string) (user : option User) (iac : option Client) : Prop :=
  match user with
  | None => iac = None
  | Some _ => ∃ c, iac = Some c ∧ client_acts_with legacy token ip c
  end.

Lemma oauth_iac token ip (user : option User) :
  iac_for false token ip user
    (match user with
     | None => None
     | Some _ => to_option (NewClient [WithOAuthToken (TrimPrefix token TokenPrefix); WithRemoteIP ip])
     end).
Proof.
  destruct user as [u|]; [|done]. unfold NewClient; simpl.
  rewrite lookup_insert_ne by done. rewrite lookup_insert_eq. simpl.
  eexists. split; [done|]. unfold client_acts_with; simpl.
  rewrite lookup_insert_eq, lookup_insert_ne by done. by rewrite lookup_insert_eq.
Qed.

Lemma legacy_iac token ip (user : option User) :
  token ≠ "" →
  iac_for true token ip user
    (match user with
     | None => None
     | Some _ => to_option (NewClient [WithLegacyToken token; WithRemoteIP ip])
     end).
Proof.
  intros Ht. destruct user as [u|]; [|done]. unfold NewClient; simpl.
  rewrite lookup_insert_eq. simpl. rewrite (bool_decide_eq_false_2 (token = "")) by done.
  rewrite andb_false_r. eexists. split; [done|]. unfold client_acts_with; simpl.
  rewrite lookup_insert_eq. split; [done|]. by rewrite lookup_insert_eq.
Qed.

Lemma no_legacy_client ip : to_option (NewClient [WithLegacyToken ""; WithRemoteIP ip]) = None.
Proof. unfold NewClient; simpl. by rewrite lookup_insert_eq. Qed.

(** The OAuth attempt that failed: there was no usable token, or the
    authenticator refused it, perhaps with a user beside the error. *)
Definition oauth_refused (auther : Authenticator W) (h : Header) (ip : string) (w : W)
    (user : option User) (w1 : W) : Prop :=
  (∃ e, au_GetTokenFromRequest auther h = RErr e ∧ user = None ∧ w1 = w) ∨
  (∃ t e, au_GetTokenFromRequest auther h = ROk t ∧
     au_Authenticate auther t ip w = (ROk (user, Some e), w1)).

(** What the middlewares may attach: the answer of the authenticator to the
    OAuth token of the request; or, only after that failed, the answer of the
    provider to its legacy token, each with a client that acts with exactly
    the token that was answered; or, with neither, [ErrNoAuthInfo] and no
    client. *)
Inductive attached (auther : Authenticator W) (provider : Provider W) (h : Header)
    (ip : string) (w : W) : CurrentUser → W → Prop :=
| attached_oauth t user iac w1 :
    au_GetTokenFromRequest auther h = ROk t →
    au_Authenticate auther t ip w = (ROk (user, None), w1) →
    iac_for false t ip user iac →
    attached auther provider h ip w (mkCU ip iac user None) w1
| attached_legacy user0 w1 user err iac w2 :
    oauth_refused auther h ip w user0 w1 →
    Header_Get h LegacyTokenHeader ≠ "" →
    provider (Header_Get h LegacyTokenHeader) ip w1 = (ROk (user, err), w2) →
    iac_for true (Header_Get h LegacyTokenHeader) ip user iac →
    attached auther provider h ip w (mkCU ip iac user err) w2
| attached_nothing user0 w1 :
    oauth_refused auther h ip w user0 w1 →
    Header_Get h LegacyTokenHeader = "" →
    attached auther provider h ip w (mkCU ip None user0 (Some ErrNoAuthInfo)) w1.

Lemma LegacyMiddleware_attached auther provider h ctx_ip w cu w1 ctx w' :
  oauth_refused auther h (Ip.FromRequest ctx_ip) w (cu_user cu) w1 →
  is_Some (cu_err cu) →
  LegacyMiddleware provider h ctx_ip (Some (Some cu)) w1 = (ROk ctx, w') →
  ∃ cu', ctx = Some (Some cu') ∧ attached auther provider h (Ip.FromRequest ctx_ip) w cu' w'.
Proof.
  intros Hr [e He] Hrun. unfold LegacyMiddleware in Hrun. simpl in Hrun. rewrite He in Hrun.
  go_inv Hrun. destruct a as [user err]. injection Hrun as <- <-. eexists. split; [done|].
  unfold NewCurrentUser. case_bool_decide as Ht; simpl in Hc.
  - injection Hc as <- <- <-. rewrite Ht, no_legacy_client.
    destruct (cu_user cu); by apply attached_nothing.
  - eapply attached_legacy; eauto using legacy_iac.
Qed.

Lemma authChain_attached auther provider h ctx_ip w ctx w' :
  authChain auther provider h ctx_ip w = (ROk ctx, w') →
  ∃ cu, ctx = Some (Some cu) ∧ attached auther provider h (Ip.FromRequest ctx_ip) w cu w'.
Proof.
  intros Hrun. unfold authChain in Hrun. go_inv Hrun. unfold Middleware in Hc.
  destruct (au_GetTokenFromRequest auther h) as [t|e|p] eqn:Ht; [| |done].
  - go_inv Hc. destruct a0 as [user [e|]]; injection Hc as <- <-.
    + eapply LegacyMiddleware_attached; [| |exact Hrun]; [|done]. right. eauto.
    + injection Hrun as <- <-. eexists. split; [done|].
      eapply attached_oauth; eauto using oauth_iac.
  - injection Hc as <- <-.
    eapply LegacyMiddleware_attached; [| |exact Hrun]; [|done]. left. eauto.
Qed.

(** Where an identity came from: the OAuth token or the legacy header of this
    very request, answered by the respective backend for the caller's
    address, with the error (if any) beside the user. *)
Definition provenance (auther : Authenticator W) (provider : Provider W) (h : Header)
    (ip : string) (w : W) (user : option User) (err : option error) : Prop :=
  (∃ t w1, au_GetTokenFromRequest auther h = ROk t ∧
     au_Authenticate auther t ip w = (ROk (user, err), w1)) ∨
  (∃ w0 w1, Header_Get h LegacyTokenHeader ≠ "" ∧
     provider (Header_Get h LegacyTokenHeader) ip w0 = (ROk (user, err), w1)).

(** A user, trusted or not, was named by a backend that was given a token of
    the request; a user without an error was named without an error. *)
Definition user_named (auther : Authenticator W) (provider : Provider W) (h : Header)
    (ip : string) (w : W) (cu : CurrentUser) : Prop :=
  (cu_err cu = None → provenance auther provider h ip w (cu_user cu) None) ∧
  (∀ u, cu_user cu = Some u → ∃ err, provenance auther provider h ip w (Some u) err).

Lemma oauth_refused_named auther provider h ip w u w1 :
  oauth_refused auther h ip w (Some u) w1 → ∃ err, provenance auther provider h ip w (Some u) err.
Proof. intros [(e & _ & ? & _)|(t & e & ? & ?)]; [done|]. exists (Some e). left. eauto. Qed.

Lemma attached_named auther provider h ip w cu w' :
  attached auther provider h ip w cu w' → user_named auther provider h ip w cu.
Proof.
  intros []; split; simpl.
  - intros _. left. eauto.
  - intros u ->. exists None. left. eauto.
  - intros ->. right. eauto.
  - intros u ->. exists err. right. eauto.
  - done.
  - intros u ->. by eapply oauth_refused_named.
Qed.

Lemma authChain_cu auther provider h ctx_ip w ctx w' :
  authChain auther provider h ctx_ip w = (ROk ctx, w') →
  ∃ cu, ctx = Some (Some cu) ∧ user_named auther provider h (Ip.FromRequest ctx_ip) w cu.
Proof.
  intros (cu & -> & Ha)%authChain_attached. eauto using attached_named.
Qed.

(** C26: What the authentication middlewares attach to a request: the answer,
    user and error, of the authenticator to the request's OAuth token; only
    when that failed, the answer of the provider to the request's legacy
    token; with neither, [ErrNoAuthInfo].  Beside a user the internal-api
    client that later access checks use acts with the very token that was
    answered and carries no other token; without a user, or without a token
    that was answered last, there is no client. *)
Theorem authChain_identity auther provider h ctx_ip w ctx w' :
  authChain auther provider h ctx_ip w = (ROk ctx, w') →
  ∃ cu, ctx = Some (Some cu) ∧ attached auther provider h (Ip.FromRequest ctx_ip) w cu w'.
Proof. apply authChain_attached. Qed.

(** A handler that authenticates through the universal getter never gets a
    nil user without an error. *)
Lemma UniversalFromRequest_ok (auther : Authenticator W) (provider : Provider W) h remote w u w' :
  UniversalFromRequest auther provider h remote w = (ROk u, w') →
  (∃ t, au_GetTokenFromRequest auther h = ROk t ∧
     au_Authenticate auther t (ForRequest h remote) w = (ROk (Some u, None), w')) ∨
  (∃ t ts e, h !! LegacyTokenHeader = Some (t :: ts) ∧
     au_GetTokenFromRequest auther h = RErr e ∧ Is e "wallet.ErrNoAuthInfo" = true ∧
     provider t (ForRequest h remote) w = (ROk (Some u, None), w')).
Proof.
  unfold UniversalFromRequest. destruct (au_GetTokenFromRequest auther h) as [t|e|p] eqn:Ht; [| |done].
  - intros Hrun. go_inv Hrun. destruct a as [[u'|] [e|]]; simplify_eq/=.
    injection Hrun as -> ->. eauto.
  - destruct (Is e _) eqn:He; [|done]. destruct (h !! LegacyTokenHeader) as [[|t ts]|] eqn:Hh; [done| |done].
    intros Hrun. go_inv Hrun. destruct a as [[u'|] [e'|]]; simplify_eq/=.
    injection Hrun as -> ->. right. eauto 10.
Qed.
End properties.

(** A legacy token beside an OAuth token that failed to verify. *)
Lemma authChain_identity_witness :
  let u := {| user_ID := 7; user_LbrynetServerID := Some 1; user_IdpID := None;
              user_LastSeenAt := None; user_R := None |} in
  let auther := {| au_Authenticate _ _ := ret (None, Some (Errs "token expired"));
                   au_GetTokenFromRequest := GetTokenFromRequest |} : Authenticator unit in
  let provider : Provider unit := λ t _, ret (if bool_decide (t = "secret") then Some u else None, None) in
  let h : Header := <[AuthorizationHeader := ["Bearer x"]]> {[LegacyTokenHeader := ["secret"]]} in
  ∃ ctx, authChain auther provider h (Some "203.0.113.9") tt = (ROk ctx, tt) ∧
    FromRequest ctx = (Some u, None) ∧
    ∃ cu, ctx = Some (Some cu) ∧ attached auther provider h "203.0.113.9" tt cu tt.
Proof.
  intros u auther provider h. eexists. split; [vm_compute; reflexivity|]. split; [reflexivity|].
  eapply (authChain_identity auther provider h (Some "203.0.113.9") tt). vm_compute. reflexivity.
Defined.
