(* ===== verification/Hashes.v ===== *)
(** * Hash functions and encodings of Go's standard library

    [crypto/md5], [crypto/sha256] and [encoding/base64] (standard alphabet, with
    padding), written on byte lists with 32-bit words as integers below [2^32].
    Link signing uses MD5 and base64, signature validation SHA-256.  Test
    vectors of the respective RFCs are checked by evaluation. *)

From S2P Require Import Prelude GoLib.
From Stdlib Require Import Ascii.

Local Open Scope Z_scope.

(** ** Words *)

Definition w32 (x : Z) : Z := x `mod` 2 ^ 32.
Definition rotl (x n : Z) : Z := Z.lor (w32 (Z.shiftl x n)) (Z.shiftr x (32 - n)).
Definition rotr (x n : Z) : Z := rotl x (32 - n).
Definition not32 (x : Z) : Z := 2 ^ 32 - 1 - x.

Definition byte_val (b : byte) : Z := Z.of_N (N_of_ascii b).
Definition val_byte (z : Z) : byte := ascii_of_N (Z.to_N (z `mod` 256)).

Definition be_bytes (n : nat) (z : Z) : list Z :=
  (λ i, Z.shiftr z (8 * (Z.of_nat n - 1 - Z.of_nat i)) `mod` 256) <$> seq 0 n.
Definition le_bytes (n : nat) (z : Z) : list Z := reverse (be_bytes n z).
Definition be_val (bs : list Z) : Z := foldl (λ acc b, acc * 256 + b) 0 bs.
Definition le_val (bs : list Z) : Z := be_val (reverse bs).

Fixpoint chunks (fuel n : nat) (l : list Z) : list (list Z) :=
  match fuel, l with
  | _, [] => []
  | O, _ => []
  | S f, _ => take n l :: chunks f n (drop n l)
  end.

(** The message, a one bit, zeros and the length in bits, to whole blocks of 64
    bytes. *)
Definition padded (length_bytes : nat → Z → list Z) (m : list Z) : list Z :=
  let n := Z.of_nat (length m) in
  m ++ [0x80] ++ replicate (Z.to_nat ((55 - n) `mod` 64)) 0 ++ length_bytes 8%nat (8 * n).

Definition blocks (m : list Z) : list (list Z) := chunks (length m) 64 m.

(** ** MD5 *)

Definition md5_K : list Z :=
  [0xd76aa478; 0xe8c7b756; 0x242070db; 0xc1bdceee; 0xf57c0faf; 0x4787c62a; 0xa8304613;
   0xfd469501; 0x698098d8; 0x8b44f7af; 0xffff5bb1; 0x895cd7be; 0x6b901122; 0xfd987193;
   0xa679438e; 0x49b40821; 0xf61e2562; 0xc040b340; 0x265e5a51; 0xe9b6c7aa; 0xd62f105d; 0x2441453;
   0xd8a1e681; 0xe7d3fbc8; 0x21e1cde6; 0xc33707d6; 0xf4d50d87; 0x455a14ed; 0xa9e3e905;
   0xfcefa3f8; 0x676f02d9; 0x8d2a4c8a; 0xfffa3942; 0x8771f681; 0x6d9d6122; 0xfde5380c;
   0xa4beea44; 0x4bdecfa9; 0xf6bb4b60; 0xbebfbc70; 0x289b7ec6; 0xeaa127fa; 0xd4ef3085; 0x4881d05;
   0xd9d4d039; 0xe6db99e5; 0x1fa27cf8; 0xc4ac5665; 0xf4292244; 0x432aff97; 0xab9423a7;
   0xfc93a039; 0x655b59c3; 0x8f0ccc92; 0xffeff47d; 0x85845dd1; 0x6fa87e4f; 0xfe2ce6e0;
   0xa3014314; 0x4e0811a1; 0xf7537e82; 0xbd3af235; 0x2ad7d2bb; 0xeb86d391].
Definition md5_s : list Z :=
  [7; 12; 17; 22; 7; 12; 17; 22; 7; 12; 17; 22; 7; 12; 17; 22; 5; 9; 14; 20; 5; 9; 14; 20; 5; 9; 14; 20; 5; 9; 14; 20; 4; 11; 16; 23; 4; 11; 16; 23; 4; 11; 16; 23; 4; 11; 16; 23; 6; 10; 15; 21; 6; 10; 15; 21; 6; 10; 15; 21; 6; 10; 15; 21].

Definition md5_round (x : list Z) (st : Z * Z * Z * Z) (i : nat) : Z * Z * Z * Z :=
  let '(a, b, c, d) := st in
  let '(f, g) :=
    if (i <? 16)%nat then (Z.lor (Z.land b c) (Z.land (not32 b) d), i)
    else if (i <? 32)%nat then (Z.lor (Z.land d b) (Z.land (not32 d) c), ((5 * i + 1) `mod` 16)%nat)
    else if (i <? 48)%nat then (Z.lxor b (Z.lxor c d), ((3 * i + 5) `mod` 16)%nat)
    else (Z.lxor c (Z.lor b (not32 d)), ((7 * i) `mod` 16)%nat) in
  let f := w32 (f + a + nth i md5_K 0 + nth g x 0) in
  (d, w32 (b + rotl f (nth i md5_s 0)), b, c).

Definition md5_block (st : Z * Z * Z * Z) (blk : list Z) : Z * Z * Z * Z :=
  let x := le_val <$> chunks 16 4 blk in
  let '(a, b, c, d) := st in
  let '(a', b', c', d') := foldl (md5_round x) st (seq 0 64) in
  (w32 (a + a'), w32 (b + b'), w32 (c + c'), w32 (d + d')).

Definition md5_bytes (m : list Z) : list Z :=
  let '(a, b, c, d) := foldl md5_block (0x67452301, 0xefcdab89, 0x98badcfe, 0x10325476)
                         (blocks (padded le_bytes m)) in
  le_bytes 4 a ++ le_bytes 4 b ++ le_bytes 4 c ++ le_bytes 4 d.

(** [md5.Sum]. *)
Definition md5_Sum (m : list byte) : list byte := val_byte <$> md5_bytes (byte_val <$> m).

(** ** SHA-256 *)

(** The constants as FIPS 180-4 defines them: the first 32 bits of the
    fractional parts of the cube roots of the first 64 primes, and of the square
    roots of the first 8.  [root k n bits] is the largest [r < 2^bits] with
    [r^k <= n]. *)
Fixpoint root (k n : Z) (bits : nat) (r : Z) : Z :=
  match bits with
  | O => r
  | S b =>
      let r' := r + 2 ^ Z.of_nat b in
      root k n b (if r' ^ k <=? n then r' else r)
  end.
Definition root_fraction (k p : Z) : Z := w32 (root k (p * 2 ^ (32 * k)) 40 0).
Definition is_prime (n : Z) : bool :=
  forallb (λ d, negb (n `mod` d =? 0)) (Z.of_nat <$> seq 2 (Z.to_nat (Z.sqrt n) - 1)).
Definition primes : list Z :=
  Eval vm_compute in filter (λ n, is_prime n = true) (Z.of_nat <$> seq 2 310).
Definition sha_K : list Z := Eval vm_compute in root_fraction 3 <$> primes.
Definition sha_H : list Z := Eval vm_compute in root_fraction 2 <$> take 8 primes.

Fixpoint sha_extend (n : nat) (w : list Z) : list Z :=
  match n with
  | O => w
  | S n' =>
      let i := length w in
      let w15 := nth (i - 15) w 0 in
      let w2 := nth (i - 2) w 0 in
      let s0 := Z.lxor (rotr w15 7) (Z.lxor (rotr w15 18) (Z.shiftr w15 3)) in
      let s1 := Z.lxor (rotr w2 17) (Z.lxor (rotr w2 19) (Z.shiftr w2 10)) in
      sha_extend n' (w ++ [w32 (nth (i - 16) w 0 + s0 + nth (i - 7) w 0 + s1)])
  end.

Definition sha_round (st : list Z) (kw : Z * Z) : list Z :=
  match st with
  | [a; b; c; d; e; f; g; h] =>
      let S1 := Z.lxor (rotr e 6) (Z.lxor (rotr e 11) (rotr e 25)) in
      let ch := Z.lxor (Z.land e f) (Z.land (not32 e) g) in
      let t1 := w32 (h + S1 + ch + kw.1 + kw.2) in
      let S0 := Z.lxor (rotr a 2) (Z.lxor (rotr a 13) (rotr a 22)) in
      let maj := Z.lxor (Z.land a b) (Z.lxor (Z.land a c) (Z.land b c)) in
      [w32 (t1 + S0 + maj); a; b; c; w32 (d + t1); e; f; g]
  | _ => st
  end.

Definition sha_block (st blk : list Z) : list Z :=
  let w := sha_extend 48 (be_val <$> chunks 16 4 blk) in
  zip_with (λ x y, w32 (x + y)) st (foldl sha_round st (zip sha_K w)).

Definition sha256_bytes (m : list Z) : list Z :=
  foldl sha_block sha_H (blocks (padded be_bytes m)) ≫= be_bytes 4.

(** [sha256.Sum256]. *)
Definition sha256_Sum (m : list byte) : list byte := val_byte <$> sha256_bytes (byte_val <$> m).

(** ** Base64 *)

Definition b64_alphabet : string :=
  "ABCDEFGHIJKLMNOPQRSTUVWXYZabcdefghijklmnopqrstuvwxyz0123456789+/".
Definition b64_char (n : Z) : ascii := default "A"%char (String.get (Z.to_nat n) b64_alphabet).

Fixpoint b64_encode (bs : list Z) : string :=
  match bs with
  | [] => ""
  | [a] => String (b64_char (a / 4)) (String (b64_char ((a `mod` 4) * 16)) "==")
  | [a; b] =>
      String (b64_char (a / 4)) (String (b64_char ((a `mod` 4) * 16 + b / 16))
        (String (b64_char ((b `mod` 16) * 4)) "="))
  | a :: b :: c :: bs' =>
      String (b64_char (a / 4)) (String (b64_char ((a `mod` 4) * 16 + b / 16))
        (String (b64_char ((b `mod` 16) * 4 + c / 64)) (String (b64_char (c `mod` 64)) (b64_encode bs'))))
  end.

(** [base64.StdEncoding.EncodeToString]. *)
Definition StdEncoding_EncodeToString (bs : list byte) : string := b64_encode (byte_val <$> bs).

(** ** Test vectors *)

Example md5_empty : hex_encode (md5_Sum []) = "d41d8cd98f00b204e9800998ecf8427e".
Proof. vm_compute. reflexivity. Qed.
Example md5_digits :
  hex_encode (md5_Sum (bytes_of
    "12345678901234567890123456789012345678901234567890123456789012345678901234567890")) =
  "57edf4a22be3c955ac49da2e2107b67a".
Proof. vm_compute. reflexivity. Qed.
Example sha256_abc :
  hex_encode (sha256_Sum (bytes_of "abc")) =
  "ba7816bf8f01cfea414140de5dae2223b00361a396177a9cb410ff61f20015ad".
Proof. vm_compute. reflexivity. Qed.
Example base64_vectors :
  StdEncoding_EncodeToString (bytes_of "foobar") = "Zm9vYmFy" ∧
  StdEncoding_EncodeToString (bytes_of "foob") = "Zm9vYg==".
Proof. vm_compute. done. Qed.
