(* ===== verification/Paid.v ===== *)
(** * Signed stream links and channel signatures

    Models [app/query/paid.go] ([signStreamURL77], with [path.Dir]) and
    [app/query/validation.go] (digests, byte reversal, signature validation).
    Elliptic-curve verification and key parsing come from [btcec] and
    [lbry.go] and are parameters. *)

From S2P Require Import Prelude GoLib Errors Hashes.
From Stdlib Require Import Ascii.

Local Open Scope Z_scope.

(** ** [path.Dir] *)

(** The part up to and including the last slash. *)
Fixpoint dirPart (s : string) : string :=
  match s with
  | "" => ""
  | String a s' =>
      let d := dirPart s' in
      if bool_decide (d = "") && negb (Ascii.eqb a "/") then "" else String a d
  end.

(** [path.Clean] on the components: [..] removes the last kept one. *)
Fixpoint cleanParts (rooted : bool) (kept : list string) (parts : list string) : list string :=
  match parts with
  | [] => reverse kept
  | p :: ps =>
      if bool_decide (p = "" ∨ p = ".") then cleanParts rooted kept ps
      else if bool_decide (p = "..") then
        match kept with
        | [] => cleanParts rooted (if rooted then [] else [".."]) ps
        | k :: kept' => if bool_decide (k = "..") then cleanParts rooted (".." :: kept) ps
                        else cleanParts rooted kept' ps
        end
      else cleanParts rooted (p :: kept) ps
  end.

Definition path_Clean (s : string) : string :=
  let rooted := HasPrefix s "/" in
  let out := (if rooted then "/" else "") +:+ Join (cleanParts rooted [] (Split s "/")) "/" in
  if bool_decide (out = "") then "." else out.

Definition path_Dir (s : string) : string := path_Clean (dirPart s).

(** ** [signStreamURL77] *)

(** [strings.NewReplacer("+", "-", "/", "_")] *)
Fixpoint url_safe (s : string) : string :=
  match s with
  | "" => ""
  | String a s' =>
      String (if Ascii.eqb a "+" then "-"%char else if Ascii.eqb a "/" then "_"%char else a) (url_safe s')
  end.

Definition signStreamURL77 (host filePath secureToken : string) (expiryTimestamp : Z) : string :=
  let strippedPath := path_Dir filePath in
  let hash := strippedPath +:+ secureToken in
  let hash := if 0 <? expiryTimestamp then Itoa expiryTimestamp +:+ hash else hash in
  let finalHash := md5_Sum (bytes_of hash) in
  let encodedFinalHash := url_safe (StdEncoding_EncodeToString finalHash) in
  if 0 <? expiryTimestamp then encodedFinalHash +:+ "," +:+ Itoa expiryTimestamp
  else encodedFinalHash.

(** The vector of the repository's own test. *)
Example signStreamURL77_vector :
  signStreamURL77 "player.odycdn.com"
    ("/api/v4/streams/tc/all-the-times-we-nearly-blew-up-the" +:+
     "/ac809d68d201e2f58dcd241b5aaeefe817634dda" +:+
     "/2f562bd1dd318db726014d255c3c7f4e5cae3e746f77647e00ad7e9b272d193bcad634b515bf0a2bc471719cfdde0c00" +:+
     "/master.m3u8")
    "aiphaechiSietee3heiKaezosaitip0i" 1695977338 = "Syc1EWOyivHWw9L4aquM1g==,1695977338".
Proof. vm_compute. reflexivity. Qed.

(** ** Channel signatures *)

Definition createDigest (pieces : list (list byte)) : list byte := foldl (λ d p, d ++ p) [] pieces.

(** The loop of [reverseBytes] writes both ends of a zeroed slice while
    [left < right]; [fuel] bounds the iterations. *)
Fixpoint reverseLoop (fuel left right : nat) (b r : list byte) : list byte :=
  match fuel with
  | O => r
  | S f =>
      if (left <? right)%nat then
        reverseLoop f (S left) (right - 1) b
          (<[right := nth left b zero_byte]> (<[left := nth right b zero_byte]> r))
      else r
  end.

Definition reverseBytes (b : list byte) : list byte :=
  reverseLoop (length b) 0 (length b - 1) b (replicate (length b) zero_byte).

(** A claim id that is not hexadecimal gives an empty slice. *)
Definition unhelixifyAndReverse (claimID : string) : list byte :=
  match hex_decode claimID with
  | Some b => reverseBytes b
  | None => []
  end.

(** [copy(signatureBytes[:], sig)] into a [[64]byte]. *)
Definition signature64 (sig : list byte) : list byte :=
  take 64 sig ++ replicate (64 - length sig) zero_byte.

Definition big_SetBytes (bs : list byte) : Z := be_val (byte_val <$> bs).

(** [keys.GetPublicKeyFromBytes] and [ecdsa.Verify]. *)
Class ECDSA := {
  PublicKey : Type;
  GetPublicKeyFromBytes : list byte → error + PublicKey;
  ecdsa_Verify : PublicKey → list byte → Z → Z → bool;
}.

Section validation.
Context `{!ECDSA}.

Definition isSignatureValid (signature : list byte) (publicKey : PublicKey) (injest : list byte) : bool :=
  ecdsa_Verify publicKey injest (big_SetBytes (take 32 signature)) (big_SetBytes (drop 32 signature)).

Definition validateSignature (channelClaimID signature signingTS data : string)
    (publicKey : PublicKey) : option error :=
  let injest := sha256_Sum (createDigest
    [bytes_of signingTS; unhelixifyAndReverse channelClaimID; bytes_of data]) in
  match hex_decode signature with
  | None => Some (Err (EText "encoding/hex: invalid"))
  | Some sig =>
      if isSignatureValid (signature64 sig) publicKey injest then None
      else Some (Errs "could not validate the signature")
  end.
End validation.

(** ** Properties *)

Lemma createDigest_concat pieces : createDigest pieces = concat pieces.
Proof.
  unfold createDigest. change (concat pieces) with ([] ++ concat pieces). generalize (@nil byte).
  induction pieces as [|p ps IH]; intros acc; simpl; [by rewrite app_nil_r|].
  by rewrite IH, app_assoc.
Qed.

Lemma reverseLoop_lookup b : ∀ fuel left right r i,
  length r = length b → (left + right = length b - 1)%nat → (right - left <= 2 * fuel)%nat →
  (i < length b)%nat →
  reverseLoop fuel left right b r !! i =
    if decide ((left <= i <= right)%nat ∧ left + right ≠ 2 * i)%nat then b !! (length b - 1 - i)%nat else r !! i.
Proof.
  induction fuel as [|fuel IH]; intros left right r i Hr Hsum Hf Hi; simpl.
  { rewrite decide_False; [done|lia]. }
  destruct (Nat.ltb_spec left right) as [Hlt|Hge]; [|rewrite decide_False by lia; done].
  rewrite IH; [|by rewrite !length_insert|lia..].
  destruct (decide (i = left)) as [->|Hl]; [|destruct (decide (i = right)) as [->|Hr']].
  - rewrite decide_False by lia. rewrite decide_True by lia.
    rewrite list_lookup_insert_ne by lia. rewrite list_lookup_insert_eq by lia.
    replace (length b - 1 - left)%nat with right by lia.
    destruct (lookup_lt_is_Some_2 b right) as [x Hx]; [lia|]. by rewrite Hx, (nth_lookup_Some _ _ _ _ Hx).
  - rewrite decide_False by lia. rewrite decide_True by lia.
    rewrite list_lookup_insert_eq by (rewrite length_insert; lia).
    replace (length b - 1 - right)%nat with left by lia.
    destruct (lookup_lt_is_Some_2 b left) as [x Hx]; [lia|]. by rewrite Hx, (nth_lookup_Some _ _ _ _ Hx).
  - rewrite !list_lookup_insert_ne by lia.
    destruct (decide _); [rewrite decide_True by lia|rewrite decide_False by lia]; done.
Qed.

Lemma reverseLoop_length fuel : ∀ left right b r,
  length (reverseLoop fuel left right b r) = length r.
Proof.
  induction fuel as [|fuel IH]; intros; simpl; [done|].
  destruct (_ <? _)%nat; [|done]. by rewrite IH, !length_insert.
Qed.

Lemma reverseBytes_length b : length (reverseBytes b) = length b.
Proof. unfold reverseBytes. by rewrite reverseLoop_length, length_replicate. Qed.

Lemma reverseBytes_lookup b i : (i < length b)%nat →
  reverseBytes b !! i =
    if decide (2 * i = length b - 1)%nat then Some zero_byte else b !! (length b - 1 - i)%nat.
Proof.
  intros Hi. unfold reverseBytes.
  rewrite reverseLoop_lookup by (rewrite ?length_replicate; lia).
  destruct (decide (2 * i = length b - 1)%nat) as [He|Hne].
  - rewrite decide_False by lia. by apply lookup_replicate_2.
  - by rewrite decide_True by lia.
Qed.

Lemma reverseBytes_even b : Nat.Even (length b) → reverseBytes b = reverse b.
Proof.
  intros [k Hk]. apply list_eq. intros i.
  destruct (decide (i < length b)%nat) as [Hi|Hi].
  - rewrite reverseBytes_lookup by done. rewrite decide_False by lia.
    rewrite reverse_lookup by done. f_equal. lia.
  - rewrite !lookup_ge_None_2; [done|rewrite length_reverse; lia|rewrite reverseBytes_length; lia].
Qed.

(** [reverseBytes] keeps the length and puts byte [i] of the input at the
    mirrored position, except for the middle byte of an input of odd length,
    which comes out as zero; on inputs of even length, such as claim ids, it
    is reversal. *)
Theorem reverseBytes_spec b :
  length (reverseBytes b) = length b ∧
  (∀ i, (i < length b)%nat →
     reverseBytes b !! i =
       if decide (2 * i = length b - 1)%nat then Some zero_byte else b !! (length b - 1 - i)%nat) ∧
  (Nat.Even (length b) → reverseBytes b = reverse b).
Proof.
  split_and!; [apply reverseBytes_length|intros; by apply reverseBytes_lookup|apply reverseBytes_even].
Qed.

(** LBRY claim ids have 40 hexadecimal digits, that is, 20 bytes. *)
Lemma unhelixifyAndReverse_claim_id s b :
  hex_decode s = Some b → String.length s = 40%nat → unhelixifyAndReverse s = reverse b.
Proof.
  intros Hd Hl. unfold unhelixifyAndReverse. rewrite Hd.
  apply hex_decode_length in Hd. apply reverseBytes_even. exists 10%nat. lia.
Qed.

Section signatures.
Context `{!ECDSA}.

(** A signature is accepted exactly when it is hexadecimal and the curve
    library verifies its first 64 bytes, zero-padded, against the SHA-256 of
    the time stamp, the reversed channel id and the data, in this order. *)
Theorem validateSignature_ok_iff channel b signature ts data key :
  hex_decode channel = Some b → String.length channel = 40%nat →
  validateSignature channel signature ts data key = None ↔
  ∃ sig, hex_decode signature = Some sig ∧
    ecdsa_Verify key (sha256_Sum (bytes_of ts ++ reverse b ++ bytes_of data))
      (big_SetBytes (take 32 (signature64 sig))) (big_SetBytes (drop 32 (signature64 sig))) = true.
Proof.
  intros Hb Hl. unfold validateSignature, isSignatureValid.
  rewrite createDigest_concat, (unhelixifyAndReverse_claim_id _ _ Hb Hl). simpl. rewrite app_nil_r.
  destruct (hex_decode signature) as [sig|]; [|split; [done|by intros (? & ? & _)]].
  split.
  - destruct (ecdsa_Verify _ _ _ _) eqn:Hv; [by eauto|done].
  - by intros (sig' & [= <-] & ->).
Qed.
End signatures.

(** A curve library that accepts one signature. *)
Definition ex_ECDSA : ECDSA :=
  {| PublicKey := unit; GetPublicKeyFromBytes _ := inr tt;
     ecdsa_Verify _ d r s := (length d =? 32)%nat && (r =? 1) && (s =? 2) |}.

Lemma validateSignature_ok_iff_witness :
  let channel := "00112233445566778899aabbccddeeff00112233" in
  let signature := "0000000000000000000000000000000000000000000000000000000000000001" +:+
                   "0000000000000000000000000000000000000000000000000000000000000002" in
  ∃ b, hex_decode channel = Some b ∧
    @validateSignature ex_ECDSA channel signature "1695977338" "claim" tt = None.
Proof.
  intros channel signature. eexists. split; [vm_compute; reflexivity|].
  eapply (@validateSignature_ok_iff ex_ECDSA channel _ signature "1695977338" "claim" tt);
    [vm_compute; reflexivity..|].
  eexists. split; vm_compute; reflexivity.
Defined.
