(* ===== verification/Caller.v ===== *)
(** * The SDK caller: hooks, endpoints and [SendQuery]

    Models [app/query/caller.go] up to the dispatch of preflight hooks (which
    is in [Call.v]) and the postflight hooks of [app/query/processors.go].  A
    hook is a Go closure; the ones the code base registers are the constructors
    of [preHook] and [postHook], and [run_post] interprets the latter.

    The caller is mutable (its endpoint is re-drawn while a cache miss is
    retried), so computations run over [Caller * W], where [W] is the world of
    the external services behind the classes of [Services.v].  Log lines, metrics and
    call durations are not modelled; reports to Sentry are. *)

From S2P Require Import Prelude GoLib Rpc Errors Query Router Iapi Services.

Local Open Scope Z_scope.

(** ** Caller *)

Inductive preHook :=
| HStatus                     (* getStatusResponse *)
| HGet                        (* preflightHookGet *)
| HClaimSearch                (* preflightHookClaimSearch *)
| HCache                      (* preflightCacheHook *)
| HSetFilePath (f : string).  (* publish.getCaller *)

Inductive postHook :=
| PClaimSearchThumbs          (* postClaimSearchArfleetThumbs *)
| PResolveThumbs              (* postResolveArfleetThumbs *)
| PLogField                   (* proxy.Handle: remote_ip log field *)
| PAuditSend (userID : Z) (ip body : string). (* proxy.Handle: audit log *)

Record hookEntry (H : Type) := mkHook {
  hk_method : string;
  hk_function : H;
  hk_name : string;
}.
Arguments mkHook {H}. Arguments hk_method {H}. Arguments hk_function {H}. Arguments hk_name {H}.

Record Caller := mkCaller {
  preflightHooks : list (hookEntry preHook);
  postflightHooks : list (hookEntry postHook);
  HasCache : bool;
  userID : Z;
  endpoint : string;
  backupEndpoints : list string;
}.

Definition walletLoadRetries : nat := 3.
Definition builtinHookName : string := "builtin".
Definition AllMethodsHook : string := "".
Definition defaultRPCTimeout : Z := 240 * 10 ^ 9.

Definition AddPreflightHook (m : string) (h : preHook) (n : string) (c : Caller) : Caller :=
  {| preflightHooks := preflightHooks c ++ [mkHook m h n]; postflightHooks := postflightHooks c;
     HasCache := HasCache c; userID := userID c; endpoint := endpoint c;
     backupEndpoints := backupEndpoints c |}.

Definition AddPostflightHook (m : string) (h : postHook) (n : string) (c : Caller) : Caller :=
  {| preflightHooks := preflightHooks c; postflightHooks := postflightHooks c ++ [mkHook m h n];
     HasCache := HasCache c; userID := userID c; endpoint := endpoint c;
     backupEndpoints := backupEndpoints c |}.

Definition AddBackupEndpoints (es : list string) (c : Caller) : Caller :=
  {| preflightHooks := preflightHooks c; postflightHooks := postflightHooks c;
     HasCache := HasCache c; userID := userID c; endpoint := endpoint c; backupEndpoints := es |}.

Definition set_Cache (b : bool) (c : Caller) : Caller :=
  {| preflightHooks := preflightHooks c; postflightHooks := postflightHooks c;
     HasCache := b; userID := userID c; endpoint := endpoint c;
     backupEndpoints := backupEndpoints c |}.

Definition set_endpoint (e : string) (c : Caller) : Caller :=
  {| preflightHooks := preflightHooks c; postflightHooks := postflightHooks c;
     HasCache := HasCache c; userID := userID c; endpoint := e;
     backupEndpoints := backupEndpoints c |}.

Definition addDefaultHooks (cfg : Config) (c : Caller) : Caller :=
  let c := AddPreflightHook MethodStatus HStatus builtinHookName c in
  let c := AddPreflightHook MethodGet HGet builtinHookName c in
  let c := AddPreflightHook MethodClaimSearch HClaimSearch builtinHookName c in
  let c := if ArfleetEnabled cfg then
             AddPostflightHook MethodResolve PResolveThumbs builtinHookName
               (AddPostflightHook MethodClaimSearch PClaimSearchThumbs builtinHookName c)
           else c in
  let c := AddPreflightHook MethodResolve HCache "cache" c in
  AddPreflightHook MethodClaimSearch HCache "cache" c.

Definition NewCaller (cfg : Config) (ep : string) (uid : Z) : Caller :=
  addDefaultHooks cfg
    {| preflightHooks := []; postflightHooks := []; HasCache := false; userID := uid;
       endpoint := ep; backupEndpoints := [] |}.

Definition keep_hook {H} (m n : string) (h : hookEntry H) : bool :=
  negb (bool_decide (hk_method h = m) && bool_decide (hk_name h = n)).

Definition CloneWithoutHook (cfg : Config) (c : Caller) (ep m n : string) : Caller :=
  let cc := NewCaller cfg ep (userID c) in
  let cc := foldl (λ cc h, if keep_hook m n h then
                     AddPostflightHook (hk_method h) (hk_function h) (hk_name h) cc else cc)
              cc (postflightHooks c) in
  foldl (λ cc h, if keep_hook m n h then
           AddPreflightHook (hk_method h) (hk_function h) (hk_name h) cc else cc)
    cc (preflightHooks c).

Definition isMatchingHook {H} (m : string) (h : hookEntry H) : bool :=
  bool_decide (hk_method h = "") || bool_decide (hk_method h = m) || HasPrefix m (hk_method h).

Definition getRPCTimeout (cfg : Config) (m : string) : Z :=
  default defaultRPCTimeout (RPCTimeouts cfg !! m).

(** Timeout of the HTTP client [newRPCClient] builds. *)
Definition sdkrouter_RPCTimeout : Z := 420 * 10 ^ 9.
Definition newRPCClient_Timeout (timeout : Z) : Z := sdkrouter_RPCTimeout + timeout.

(** ** Error classification of SDK responses *)

Section classify.
Context `{!Ljsonrpc}.

Definition convertToError (r : RPCResponse) : option error :=
  match resp_Error r with
  | None => None
  | Some e =>
      let named := match as_map (Data e) with
                   | Some d => bool_decide (is_Some (as_string (map_get d "name")))
                   | None => true
                   end in
      if named then Some (NewWalletError (WrapError e)) else None
  end.

Definition isErrWalletNotLoaded (r : RPCResponse) : bool :=
  match convertToError r with
  | None => false
  | Some e => Is e "lbrynet.ErrWalletNotLoaded"
  end.

Definition isErrWalletAlreadyLoaded (r : RPCResponse) : bool :=
  match convertToError r with
  | None => false
  | Some e => Is e "lbrynet.ErrWalletAlreadyLoaded"
  end.
End classify.

(** ** Log trimming *)

Definition cutSublist (num : nat) (v : value) : value :=
  match v with
  | VList l =>
      let amountSkipped := Z.of_nat (length l) - Z.of_nat num in
      if amountSkipped <=? 0 then v
      else VList (take num l ++ [VStr ("... (" +:+ Itoa amountSkipped +:+ " skipped)")])
  | _ => v
  end.

Definition cutSublistsToSize (m : gmap string value) (num : nat) : gmap string value :=
  cutSublist num <$> m.

(** ** Computations over the caller and the world *)

Section caller.
Context {W : Type} `{!Ljsonrpc, !MapOrder, !SDKClient W, !WalletService W, !Random W,
  !Monitor W, !Arweave W}.
Context (cfg : Config).

Definition inW {A} (c : Go W A) : Go (Caller * W) A :=
  λ '(cl, w), let '(r, w') := c w in (r, (cl, w')).

(** The caller lives for one request. *)
Definition run_caller {A} (c : Caller) (m : Go (Caller * W) A) : Go W A :=
  λ w, let '(r, (_, w')) := m (c, w) in (r, w').

Definition the_caller : Go (Caller * W) Caller := gets fst.

Definition RandomizeEndpoint : Go (Caller * W) unit :=
  let! c := the_caller in
  if negb (userID c =? 0) || bool_decide (backupEndpoints c = []) then ret tt else
  let exEndpoints := filter (λ e, e ≠ endpoint c) (backupEndpoints c) in
  match exEndpoints with
  | [] => gopanic "invalid argument to IntN"
  | _ =>
      let! i := inW (rand_IntN (length exEndpoints)) in
      match exEndpoints !! i with
      | Some e => modify (λ '(c, w), (set_endpoint e c, w))
      | None => gopanic "index out of range"
      end
  end.

(** *** Postflight hooks: the response returned is the one attached to the
    context, modified in place. *)
Definition postClaimSearchArfleetThumbs (r : RPCResponse) : Go W (option RPCResponse) :=
  let! p := try (ReplaceAssetUrls (ArfleetCDN cfg) (Result r) "items" "value.thumbnail.url") in
  match p with
  | inl _ => ret (Some r)
  | inr pRes => ret (Some (set_Result r pRes))
  end.

Definition postResolveArfleetThumbs (r : RPCResponse) : Go W (option RPCResponse) :=
  let claims := default ∅ (as_map (Result r)) in
  let '(claimUrl, claim) := default ("", VNil) (range_last claims) in
  let! p := try (ReplaceAssetUrl (ArfleetCDN cfg) claim "value.thumbnail.url") in
  match p with
  | inl _ => ret (Some r)
  | inr pClaim => ret (Some (set_Result r (VMap {[claimUrl := pClaim]})))
  end.

Definition run_post (h : postHook) (r : RPCResponse) : Go W (option RPCResponse) :=
  match h with
  | PClaimSearchThumbs => postClaimSearchArfleetThumbs r
  | PResolveThumbs => postResolveArfleetThumbs r
  | PLogField => ret None
  | PAuditSend uid ip body => LogQuery uid ip MethodWalletSend body ;;! ret None
  end.

Fixpoint applyPostflight (hs : list (hookEntry postHook)) (m : string) (r : RPCResponse)
  : Go W RPCResponse :=
  match hs with
  | [] => ret r
  | h :: hs' =>
      if isMatchingHook m h then
        let! res := try (run_post (hk_function h) r) in
        match res with
        | inl e => fail (NewSDKError e)
        | inr None => applyPostflight hs' m r
        | inr (Some r') => applyPostflight hs' m r'
        end
      else applyPostflight hs' m r
  end.

(** *** [SendQuery] *)

(** The user is removed and Sentry alerted when the wallet could not be
    loaded on the last attempt. *)
Definition giveUpOnWallet (uid : Z) : Go W unit :=
  let! d := try (DeleteUser uid) in
  match d with
  | inl e => ErrorToSentry (Prefix "failed to delete db user with missing wallet" (Some e))
  | inr _ => ErrorToSentry (Prefix "resorted to deleting db user with missing wallet" None)
  end.

(** The loop, [left] iterations to go and [i] done; [r] is the last
    response. *)
Fixpoint sendAttempts (left i : nat) (ep : string) (uid : Z) (q : Query) (r : option RPCResponse)
  : Go W (option RPCResponse) :=
  match left with
  | O => ret r
  | S left' =>
      let! res := try (CallRaw ep (Request q)) in
      match res with
      | inl e => fail (Err e)
      | inr r =>
          if isErrWalletNotLoaded r then
            let! err := try (LoadWallet ep uid) in
            (match err with
             | inl _ => if (walletLoadRetries - 1 <=? i)%nat then giveUpOnWallet uid else ret tt
             | inr _ => ret tt
             end) ;;!
            sendAttempts left' (S i) ep uid q (Some r)
          else if isErrWalletAlreadyLoaded r then
            sendAttempts left' (S i) ep uid q (Some r)
          else ret (Some r)
      end
  end.

Definition SendQuery (q : Query) : Go (Caller * W) RPCResponse :=
  let! c := the_caller in
  let! r := inW (sendAttempts walletLoadRetries 0 (endpoint c) (userID c) q None) in
  match r with
  | None => gopanic "nil pointer dereference"
  | Some r => inW (applyPostflight (postflightHooks c) (q_Method q) r)
  end.
End caller.

(** ** Properties *)

(** *** Hook matching *)

Definition default_hook_methods : list string :=
  [MethodStatus; MethodGet; MethodClaimSearch; MethodResolve].

(** On the methods a query can have, the prefix rule of [isMatchingHook] adds
    nothing: the built-in hooks fire on exactly the method they name. *)
Lemma default_hooks_match_exactly {H} (m k : string) (f : H) n :
  m ∈ relaxedMethods ++ walletSpecificMethods → k ∈ default_hook_methods →
  isMatchingHook m (mkHook k f n) = bool_decide (k = m).
Proof.
  intros Hm Hk.
  assert (Forall (λ m, Forall (λ k,
    HasPrefix m k = bool_decide (k = m) ∧ k ≠ "") default_hook_methods)
    (relaxedMethods ++ walletSpecificMethods)) as Hall.
  { eapply (bool_decide_unpack _). vm_compute. exact I. }
  rewrite Forall_forall in Hall. specialize (Hall m Hm).
  rewrite Forall_forall in Hall. destruct (Hall k Hk) as [Hp Hne].
  unfold isMatchingHook; simpl. rewrite Hp, bool_decide_false by done. simpl.
  by destruct (bool_decide (k = m)).
Qed.

(** *** [SendQuery] against an arbitrary environment *)

(** The answers of the SDK calls of a history, in order. *)
Definition call_results (h : history) : list (error + RPCResponse) :=
  omap (λ e, match e with EvCall _ _ r => Some r | _ => None end) h.

Lemma call_results_app h1 h2 : call_results (h1 ++ h2) = call_results h1 ++ call_results h2.
Proof. apply omap_app. Qed.

Section send.
Import OracleInstances.
Context (o : Oracle) `{!Ljsonrpc, !MapOrder} (cfg : Config).

(** A response after which [SendQuery] tries again. *)
Definition unsettled (r : RPCResponse) : bool :=
  isErrWalletNotLoaded r || isErrWalletAlreadyLoaded r.

(** The alert after the deletion of the user, [d] its result: [Prefix] of a nil
    error is nil, so a successful deletion reports nothing. *)
Definition deletion_alert (d : error + unit) : option error :=
  match d with
  | inl e => Prefix "failed to delete db user with missing wallet" (Some e)
  | inr _ => None
  end.

Lemma giveUpOnWallet_spec uid h :
  ∃ d, giveUpOnWallet uid h = (ROk tt, h ++ [EvDelete uid d; EvSentry (deletion_alert d)]).
Proof.
  unfold giveUpOnWallet, bind, try. simpl. unfold interact. exists (o_delete o h uid).
  destruct (o_delete o h uid) as [e|[]]; simpl; by rewrite <-app_assoc.
Qed.

(** What follows an answer [r] that is not final: nothing if the wallet is
    already loaded; one attempt to load a missing wallet, and, if that fails
    on the last of the attempts, the deletion of the user and the alert. *)
Definition reload (ep : string) (uid : Z) (last : bool) (r : RPCResponse) (evs : history) : Prop :=
  if isErrWalletNotLoaded r then
    evs = [EvLoad ep uid (inr tt)] ∨
    ∃ e, if last then ∃ d, evs = [EvLoad ep uid (inl e); EvDelete uid d; EvSentry (deletion_alert d)]
         else evs = [EvLoad ep uid (inl e)]
  else evs = [].

(** The events of sending a request with [n] attempts left, and the result:
    a transport error and a settled answer end it; an unsettled answer is
    followed by [reload] and, unless it was the last attempt, by the next
    one. *)
Inductive sending (ep : string) (uid : Z) (rq : RPCRequest)
  : nat → result error RPCResponse → history → Prop :=
| sending_transport n e :
    sending ep uid rq (S n) (RErr (Err e)) [EvCall ep rq (inl e)]
| sending_settled n r :
    unsettled r = false → sending ep uid rq (S n) (ROk r) [EvCall ep rq (inr r)]
| sending_again n r evs res rest :
    unsettled r = true → reload ep uid false r evs → sending ep uid rq (S n) res rest →
    sending ep uid rq (S (S n)) res ((EvCall ep rq (inr r) :: evs) ++ rest)
| sending_exhausted r evs :
    unsettled r = true → reload ep uid true r evs →
    sending ep uid rq 1 (ROk r) (EvCall ep rq (inr r) :: evs).

Lemma reload_calls ep uid last r evs : reload ep uid last r evs → call_results evs = [].
Proof.
  unfold reload. destruct (isErrWalletNotLoaded r); [|by intros ->].
  intros [->|[e He]]; [done|]. destruct last; [destruct He as [d ->]|rewrite He]; done.
Qed.

Lemma sending_calls ep uid rq n res evs :
  sending ep uid rq n res evs → (length (call_results evs) <= n)%nat.
Proof.
  induction 1 as [| |n r evs res rest _ Hr _ IH|r evs _ Hr]; simpl; [lia..| |].
  - rewrite call_results_app, (reload_calls _ _ _ _ _ Hr). simpl. lia.
  - rewrite (reload_calls _ _ _ _ _ Hr). simpl. lia.
Qed.

Lemma sendAttempts_step left i ep uid q r0 h :
  (∃ e, sendAttempts (S left) i ep uid q r0 h =
          (RErr (Err e), h ++ [EvCall ep (Request q) (inl e)])) ∨
  (∃ r, unsettled r = false ∧ sendAttempts (S left) i ep uid q r0 h =
          (ROk (Some r), h ++ [EvCall ep (Request q) (inr r)])) ∨
  (∃ r evs, unsettled r = true ∧ reload ep uid (walletLoadRetries - 1 <=? i)%nat r evs ∧
     sendAttempts (S left) i ep uid q r0 h =
       sendAttempts left (S i) ep uid q (Some r) (h ++ EvCall ep (Request q) (inr r) :: evs)).
Proof.
  cbn [sendAttempts]. unfold reload.
  destruct (o_call o h ep (Request q)) as [e|r] eqn:Hc; oracle_step Hc; [by left; exists e|right].
  set (h1 := h ++ _). destruct (isErrWalletNotLoaded r) eqn:Hn.
  - right. exists r. unfold unsettled. rewrite Hn.
    destruct (o_load o h1 ep uid) as [e|[]] eqn:Hl; oracle_step Hl.
    + destruct (Nat.leb_spec (walletLoadRetries - 1) i) as [Hi|Hi].
      * destruct (giveUpOnWallet_spec uid (h1 ++ [EvLoad ep uid (inl e)])) as (d & Hg).
        exists [EvLoad ep uid (inl e); EvDelete uid d; EvSentry (deletion_alert d)].
        erewrite bind_ok by exact Hg. unfold h1. rewrite <-!app_assoc. eauto 8.
      * exists [EvLoad ep uid (inl e)]. unfold h1. rewrite bind_ret_l, <-!app_assoc. eauto 8.
    + exists [EvLoad ep uid (inr tt)]. unfold h1. rewrite bind_ret_l, <-!app_assoc. eauto 8.
  - destruct (isErrWalletAlreadyLoaded r) eqn:Ha; unfold unsettled.
    + right. exists r, []. by rewrite Hn, Ha.
    + left. exists r. by rewrite Hn, Ha.
Qed.

Lemma sendAttempts_spec left i ep uid q r0 h :
  (S left + i = walletLoadRetries)%nat →
  ∃ res evs, sending ep uid (Request q) (S left) res evs ∧ (∀ w, res ≠ RPanic w) ∧
    sendAttempts (S left) i ep uid q r0 h =
      (match res with ROk r => ROk (Some r) | RErr e => RErr e | RPanic w => RPanic w end, h ++ evs).
Proof.
  revert i r0 h. induction left as [|left IH]; intros i r0 h Hi;
    [pose proof (sendAttempts_step 0 i ep uid q r0 h) as Hstep
    |pose proof (sendAttempts_step (S left) i ep uid q r0 h) as Hstep];
    destruct Hstep as [[e ->]|[(r & Hr & ->)|(r & evs & Hr & Hre & ->)]].
  1, 4: eexists (RErr _), _; split; [constructor|done].
  1, 3: eexists (ROk _), _; split; [by constructor|done].
  - eexists (ROk r), _. split; [|by split].
    apply sending_exhausted; [done|]. by replace (walletLoadRetries - 1 <=? i)%nat with true in Hre
      by (symmetry; apply Nat.leb_le; lia).
  - destruct (IH (S i) (Some r) (h ++ EvCall ep (Request q) (inr r) :: evs) ltac:(lia))
      as (res & rest & Hs & Hp & ->).
    exists res. eexists. split; [|split; [exact Hp|by rewrite <-app_assoc]].
    apply sending_again; [done| |done]. replace (walletLoadRetries - 1 <=? i)%nat with false in Hre; [done|].
    symmetry. apply Nat.leb_gt. unfold walletLoadRetries in *. lia.
Qed.

(** *** Postflight hooks make no SDK call and delete no user *)

Definition quiet : relation history := λ h h',
  ∃ evs, h' = h ++ evs ∧ call_results evs = [] ∧ ∀ u d, EvDelete u d ∉ evs.

#[local] Instance quiet_preorder : PreOrder quiet.
Proof.
  split.
  - intros h. exists []. rewrite app_nil_r. repeat split; set_solver.
  - intros h1 h2 h3 (e1 & -> & Hc1 & Hd1) (e2 & -> & Hc2 & Hd2). exists (e1 ++ e2).
    rewrite app_assoc, call_results_app, Hc1, Hc2. repeat split; set_solver.
Qed.

Lemma quiet_one e h : (∀ ep rq r, e ≠ EvCall ep rq r) → (∀ u d, e ≠ EvDelete u d) → quiet h (h ++ [e]).
Proof.
  intros Hc Hd. exists [e]. repeat split; [|intros u d Hin; set_solver].
  destruct e; try done. by edestruct Hc.
Qed.

Lemma quiet_assets v : extends quiet (interact (λ h, o_assets o h v) (EvAssets v)).
Proof. intros h. unfold interact. by apply quiet_one. Qed.
Lemma quiet_urls b v c i : extends quiet (ReplaceAssetUrls b v c i : Go history value).
Proof. apply quiet_assets. Qed.
Lemma quiet_url b v p : extends quiet (ReplaceAssetUrl b v p : Go history value).
Proof. apply quiet_assets. Qed.
Lemma quiet_audit uid ip m b : extends quiet (LogQuery uid ip m b : Go history unit).
Proof. intros h. by apply quiet_one. Qed.
#[local] Hint Resolve quiet_urls quiet_url quiet_audit : go.

Lemma nopanic_urls b v c i : nopanic (ReplaceAssetUrls b v c i : Go history value).
Proof. apply interact_nopanic. Qed.
Lemma nopanic_url b v p : nopanic (ReplaceAssetUrl b v p : Go history value).
Proof. apply interact_nopanic. Qed.
Lemma nopanic_audit uid ip m b : nopanic (LogQuery uid ip m b : Go history unit).
Proof. by intros h w s. Qed.
#[local] Hint Resolve nopanic_urls nopanic_url nopanic_audit : go.

Lemma run_post_quiet hk r : extends quiet (run_post cfg hk r).
Proof.
  destruct hk; cbn [run_post]; unfold postClaimSearchArfleetThumbs, postResolveArfleetThumbs;
    go_paths.
Qed.

Lemma run_post_nopanic hk r : nopanic (run_post (W:=history) cfg hk r).
Proof.
  destruct hk; cbn [run_post]; unfold postClaimSearchArfleetThumbs, postResolveArfleetThumbs;
    go_paths.
Qed.
#[local] Hint Resolve run_post_quiet run_post_nopanic : go.

Lemma applyPostflight_quiet hs m r : extends quiet (applyPostflight (W:=history) cfg hs m r).
Proof. revert r. induction hs as [|hk hs IH]; intros r; cbn [applyPostflight]; go_paths. Qed.

Lemma applyPostflight_nopanic hs m r : nopanic (applyPostflight (W:=history) cfg hs m r).
Proof. revert r. induction hs as [|hk hs IH]; intros r; cbn [applyPostflight]; go_paths. Qed.

Lemma applyPostflight_none hs m r h :
  Forall (λ hk, isMatchingHook m hk = false) hs → applyPostflight (W:=history) cfg hs m r h = (ROk r, h).
Proof. induction 1 as [|hk hs Hm _ IH]; simpl; [done|]. by rewrite Hm. Qed.

Lemma inW_run {A} (m : Go history A) c h : inW m (c, h) = ((m h).1, (c, (m h).2)).
Proof. unfold inW. by destruct (m h). Qed.

(** What [SendQuery] does, seen from outside: the events of sending, and then
    the postflight hooks on the last answer; a transport error runs no hook. *)
Definition send_outcome (c : Caller) (q : Query) (h : history) (res : result error RPCResponse)
    (h' : history) : Prop :=
  ∃ last evs, sending (endpoint c) (userID c) (Request q) walletLoadRetries last evs ∧
    match last with
    | RErr e => res = RErr e ∧ h' = h ++ evs
    | ROk r =>
        (res, h') = applyPostflight cfg (postflightHooks c) (q_Method q) r (h ++ evs) ∧
        quiet (h ++ evs) h' ∧ (∀ w, res ≠ RPanic w) ∧
        (Forall (λ hk, isMatchingHook (q_Method q) hk = false) (postflightHooks c) →
          res = ROk r ∧ h' = h ++ evs)
    | RPanic _ => False
    end.

Lemma SendQuery_outcome c q h :
  let '(res, (c', h')) := SendQuery (W:=history) cfg q (c, h) in
  c' = c ∧ send_outcome c q h res h'.
Proof.
  destruct (sendAttempts_spec 2 0 (endpoint c) (userID c) q None h eq_refl) as (last & evs & Hs & Hp & Hrun).
  unfold SendQuery. rewrite (bind_ok _ _ _ c (c, h)) by done. unfold bind.
  rewrite inW_run. change (walletLoadRetries) with 3%nat. rewrite Hrun. simpl fst. simpl snd.
  destruct last as [r|e|w]; [rewrite inW_run|..]; simpl.
  - split; [done|]. exists (ROk r), evs. split; [done|]. split; [by rewrite <-surjective_pairing|].
    split; [apply applyPostflight_quiet|]. split.
    + intros w Hw. eapply (applyPostflight_nopanic _ _ _ _ w). by rewrite <-Hw, <-surjective_pairing.
    + intros Hnone. by rewrite applyPostflight_none.
  - split; [done|]. by exists (RErr e), evs.
  - by destruct (Hp w).
Qed.

(** The SDK calls of a query. *)
Lemma SendQuery_calls c q h :
  ∃ evs, (SendQuery (W:=history) cfg q (c, h)).2 = (c, h ++ evs) ∧
    (length (call_results evs) <= walletLoadRetries)%nat.
Proof.
  pose proof (SendQuery_outcome c q h) as Hout.
  destruct (SendQuery _ _ _) as [res [c' h']]. destruct Hout as (-> & last & evs & Hs & Hl). simpl.
  apply sending_calls in Hs. destruct last as [r|e|w]; [|destruct Hl as [_ ->]; by exists evs|done].
  destruct Hl as (_ & (evs' & -> & Hc & _) & _). exists (evs ++ evs'). rewrite app_assoc.
  split; [done|]. by rewrite call_results_app, Hc, app_nil_r.
Qed.

(** C5: [SendQuery] sends the request to the caller's endpoint up to three
    times.  It ends with the first transport error, which it returns, or with
    the first answer that reports neither a missing nor an already loaded
    wallet; after each missing-wallet answer, the third included, it tries to load the wallet once,
    and only if the load after the third answer fails it deletes the caller's
    user and alerts; no other event happens in between.  The result is what the
    matching postflight hooks make of the last answer, the answer itself if
    none matches; the hooks send nothing to the SDK and delete nobody.
    [SendQuery] never panics and leaves the caller's endpoint, user and hooks
    as they were. *)
Theorem SendQuery_protocol c q h :
  let '(res, (c', h')) := SendQuery (W:=history) cfg q (c, h) in
  c' = c ∧ send_outcome c q h res h'.
Proof. apply SendQuery_outcome. Qed.
End send.

(** *** Endpoints, clones and log trimming *)

Section endpoints.
Import OracleInstances.
Context (o : Oracle).

Lemma filter_ne_nil (e : string) l : filter (λ x, x ≠ e) l = [] ↔ Forall (λ x, x = e) l.
Proof.
  rewrite Forall_forall. split.
  - intros Hf x Hx. destruct (decide (x = e)) as [|Hne]; [done|].
    assert (x ∈ filter (λ x, x ≠ e) l) as Hin by (by apply list_elem_of_filter). rewrite Hf in Hin. set_solver.
  - intros Hall. destruct (filter _ l) as [|x l'] eqn:Hf; [done|].
    assert (x ∈ filter (λ x, x ≠ e) l) as [? ?]%list_elem_of_filter by (rewrite Hf; set_solver).
    naive_solver.
Qed.

(** [RandomizeEndpoint] does nothing for an authenticated caller or one
    without backups; otherwise it moves the caller to a backup endpoint that
    differs from the current one, and it panics exactly when there is no such
    backup. *)
Theorem RandomizeEndpoint_spec c h :
  let '(res, (c', _)) := RandomizeEndpoint (W:=history) (c, h) in
  match res with
  | ROk _ =>
      if negb (userID c =? 0) || bool_decide (backupEndpoints c = []) then c' = c
      else c' = set_endpoint (endpoint c') c ∧ endpoint c' ∈ backupEndpoints c ∧
           endpoint c' ≠ endpoint c
  | RErr _ => False
  | RPanic _ => userID c = 0 ∧ backupEndpoints c ≠ [] ∧
                Forall (λ e, e = endpoint c) (backupEndpoints c)
  end.
Proof.
  unfold RandomizeEndpoint. rewrite (bind_ok _ _ _ c (c, h)) by done.
  destruct (userID c =? 0) eqn:Hu; simpl; [|done]. apply Z.eqb_eq in Hu.
  case_bool_decide as Hb; simpl; [done|].
  destruct (filter _ _) as [|e0 ex] eqn:Hf; simpl; [by apply filter_ne_nil in Hf|].
  unfold bind. rewrite inW_run. cbn [rand_IntN oracle_random fst snd].
  set (i := (_ `mod` _)%nat). assert (i < length (e0 :: ex))%nat as Hi by (apply Nat.mod_upper_bound; simpl; lia).
  destruct (lookup_lt_is_Some_2 _ _ Hi) as [e He]. rewrite He. simpl.
  assert (e ∈ filter (λ x, x ≠ endpoint c) (backupEndpoints c)) as [Hne Hin]%list_elem_of_filter
    by (rewrite Hf; by eapply list_elem_of_lookup_2).
  done.
Qed.
End endpoints.

Lemma foldl_pre_hooks m n hs c :
  let c' := foldl (λ cc h, if keep_hook m n h then
              AddPreflightHook (hk_method h) (hk_function h) (hk_name h) cc else cc) c hs in
  preflightHooks c' = preflightHooks c ++ filter (λ h, keep_hook m n h = true) hs ∧
  postflightHooks c' = postflightHooks c.
Proof.
  revert c. induction hs as [|[k f nm] hs IH]; intros c; simpl; [by rewrite app_nil_r|].
  rewrite filter_cons. destruct (keep_hook m n _) eqn:Hk.
  - rewrite decide_True by done. destruct (IH (AddPreflightHook k f nm c)) as [-> ->].
    simpl. by rewrite <-app_assoc.
  - rewrite decide_False by done. apply IH.
Qed.

Lemma foldl_post_hooks m n hs c :
  let c' := foldl (λ cc h, if keep_hook m n h then
              AddPostflightHook (hk_method h) (hk_function h) (hk_name h) cc else cc) c hs in
  postflightHooks c' = postflightHooks c ++ filter (λ h, keep_hook m n h = true) hs ∧
  preflightHooks c' = preflightHooks c.
Proof.
  revert c. induction hs as [|[k f nm] hs IH]; intros c; simpl; [by rewrite app_nil_r|].
  rewrite filter_cons. destruct (keep_hook m n _) eqn:Hk.
  - rewrite decide_True by done. destruct (IH (AddPostflightHook k f nm c)) as [-> ->].
    simpl. by rewrite <-app_assoc.
  - rewrite decide_False by done. apply IH.
Qed.

(** The hooks of a clone are the built-in hooks of a new caller followed by
    the hooks of the original that do not carry the given method and name: a
    hook that was added to the original can be left out, a built-in one
    cannot. *)
Theorem CloneWithoutHook_hooks cfg c ep m n :
  let c' := CloneWithoutHook cfg c ep m n in
  preflightHooks c' = preflightHooks (NewCaller cfg ep (userID c)) ++
    filter (λ h, keep_hook m n h = true) (preflightHooks c) ∧
  postflightHooks c' = postflightHooks (NewCaller cfg ep (userID c)) ++
    filter (λ h, keep_hook m n h = true) (postflightHooks c).
Proof.
  unfold CloneWithoutHook. cbv zeta.
  destruct (foldl_pre_hooks m n (preflightHooks c)
    (foldl (λ cc h, if keep_hook m n h then
       AddPostflightHook (hk_method h) (hk_function h) (hk_name h) cc else cc)
       (NewCaller cfg ep (userID c)) (postflightHooks c))) as [-> ->].
  destruct (foldl_post_hooks m n (postflightHooks c) (NewCaller cfg ep (userID c))) as [-> ->].
  done.
Qed.

(** Trimmed parameters keep their keys, and no list is longer than the limit
    plus the marker. *)
Lemma cutSublistsToSize_bounds m num k v :
  cutSublistsToSize m num !! k = Some v →
  ∃ v0, m !! k = Some v0 ∧
    match v with VList l => (length l <= S num)%nat | _ => v = v0 end.
Proof.
  unfold cutSublistsToSize. rewrite lookup_fmap, fmap_Some. intros (v0 & Hm & ->).
  exists v0. split; [done|]. destruct v0; simpl; try done.
  destruct (_ <=? 0) eqn:Hle; [apply Z.leb_le in Hle; lia|].
  rewrite length_app, length_take. simpl. lia.
Qed.
