(* ===== verification/Access.v ===== *)
(** * Access to streams: the built-in preflight hooks

    Models the preflight hooks of [app/query/processors.go]: access control for
    [get] (tags, ownership, moderators, purchases, rentals, memberships,
    signatures of unlisted claims), signed and tokenised stream links, the
    parameters added to [claim_search], and the canned [status] response, with
    [ValidateSignatureFromClaim] of [validation.go].

    Parameters: decoding of SDK results into claims ([ljsonrpc.Decode]),
    [mapstructure] decoding of search parameters, [url.Parse], and the services
    of [Services.v].  Format strings from the configuration are interpreted for
    the verbs that take a string. *)

From S2P Require Import Prelude GoLib Rpc Errors Query Router Iapi Http Services Wallet Auth Hashes Paid Caller.
From Stdlib Require Import Ascii.

Local Open Scope Z_scope.

Definition ClaimTagPrivate : string := "c:private".
Definition ClaimTagUnlisted : string := "c:unlisted".
Definition ClaimTagScheduledShow : string := "c:scheduled:show".
Definition ClaimTagScheduledHide : string := "c:scheduled:hide".

Definition accessTypePurchase : string := "purchase".
Definition accessTypeRental : string := "rental".
Definition accessTypeMemberOnly : string := "memberonly".
Definition accessTypeUnlisted : string := "unlisted".
Definition accessTypeScheduled : string := "scheduled".
Definition accessTypeFree : string := "".

Definition iapiTypeMembershipVod : string := "Exclusive content".
Definition iapiTypeMembershipLiveStream : string := "Exclusive livestreams".
Definition releaseTimeRoundDownSec : Z := 300.
Definition paramHash77 : string := "hash77".

Definition ErrClaimNotFound : error := ENamed "query.ErrClaimNotFound" "couldn't find claim" true.
Definition errNeedSignedUrl : error := ENamed "query.errNeedSignedUrl" "need signed url" true.
Definition errNeedSignedLivestreamUrl : error :=
  ENamed "query.errNeedSignedLivestreamUrl" "need signed url" true.

(** ** Claims, as far as the hooks read them *)

Record Source := { SdHash : list byte; src_Size : Z }.
Record Stream := { ReleaseTime : Z; FeeAmount : Z; stream_Source : option Source }.
Record PurchaseReceipt := { Txid : string; receipt_fields : gmap string value }.

(** [SigningChannel]: its claim id and, when its value is a channel, the key. *)
Record Channel := { ch_ClaimID : string; ch_PublicKey : option (list byte) }.

Record Claim := {
  ClaimID : string;
  claim_Name : string;
  Tags : list string;
  GetStream : option Stream;
  IsMyOutput : bool;
  claim_Receipt : option PurchaseReceipt;
  SigningChannel : option Channel;
}.

(** [ljsonrpc.Decode] into a [ResolveResponse]. *)
Class ClaimDecoder := decode_Resolve : value → error + gmap string Claim.

(** [url.Parse]: host and path. *)
Class URLParser := url_Parse : string → option (string * string).

Record ClaimSearchParams := {
  HasSource : option bool;
  OrderBy : list string;
  sp_ReleaseTime : list string;
  AnyTags : list string;
  NotTags : list string;
}.

(** [decode] with [mapstructure]; a nil map decodes like an empty one. *)
Class SearchDecoder := decode_Search : option (gmap string value) → error + ClaimSearchParams.

Record CustomerPurchase := { cp_Status : string; cp_Type : string; cp_ValidThrough : Z }.

(** ** Small helpers of the file *)

Definition sliceContains (cont items : list string) : bool :=
  existsb (λ t, existsb (String.eqb t) items) cont.

Definition AnyTagsContains (p : ClaimSearchParams) (tags : list string) : bool :=
  sliceContains (AnyTags p) tags.
Definition NotTagsContains (p : ClaimSearchParams) (tags : list string) : bool :=
  sliceContains (NotTags p) tags.

(** On [int64]: the remainder has the sign of [n], the sum wraps. *)
Definition roundUp (n s : Z) : Z :=
  let r := Z.rem n s in
  if r =? 0 then n else to_signed 64 (n + s - r).

(** [fmt.Sprintf(format, args...)] with string arguments and verbs without
    flags. *)
Definition extra_args (args : list string) : string :=
  match args with
  | [] => ""
  | _ => "%!(EXTRA " +:+ Join ((λ a, "string=" +:+ a) <$> args) ", " +:+ ")"
  end.

Fixpoint Sprintf_go (format : string) (args : list string) : string :=
  match format with
  | "" => extra_args args
  | String "%"%char "" => "%!(NOVERB)" +:+ extra_args args
  | String "%"%char (String c f') =>
      if Ascii.eqb c "%" then String "%" (Sprintf_go f' args)
      else match args with
           | [] => "%!" +:+ String c "(MISSING)" +:+ Sprintf_go f' []
           | a :: args' =>
               (if Ascii.eqb c "s" || Ascii.eqb c "v" then a
                else "%!" +:+ String c ("(string=" +:+ a +:+ ")")) +:+ Sprintf_go f' args'
           end
  | String c f' => String c (Sprintf_go f' args)
  end.

Definition lookup_default (m : gmap string string) (k : string) : string := default "" (m !! k).

(** A [map[string]any] read, nil maps included. *)
Definition param_of (p : option (gmap string value)) (k : string) : option value := p ≫= (!!) k.

(** The result of an assertion [x.(string)] that panics otherwise. *)
Definition must_string {S} (v : value) : Go S string :=
  match as_string v with Some s => ret s | None => gopanic "interface conversion" end.

(** ** Access checks *)

Section access.
Context {W : Type} `{!IAPITransport W, !IAPIDecoders, !Clock W, !ECDSA}.

Definition IAPIClient (cu : CurrentUser) (environ : string) : option Client :=
  match cu_iac cu with
  | None => None
  | Some iac => Some (if bool_decide (environ = EnvironTest)
                      then Clone iac [WithEnvironment EnvironTest] else iac)
  end.

Definition checkCustomerListPurchase (ctx : userCtx) (claimID environ : string)
  : Go W (option CustomerPurchase) :=
  let! cu := lift (GetCurrentUserData ctx) in
  match IAPIClient cu environ with
  | None => fail (Errs "authentication required")
  | Some iac =>
      let! data := Call iac "customer/list" {["claim_id_filter" := claimID]} decode_CustomerList in
      match data with
      | [] => ret None
      | purchase :: _ =>
          if negb (bool_decide (cust_Status purchase = "confirmed")) &&
             negb (bool_decide (cust_Status purchase = "submitted"))
          then ret None
          else ret (Some {| cp_Status := cust_Status purchase; cp_Type := cust_Type purchase;
                            cp_ValidThrough := cust_ValidThrough purchase |})
      end
  end.

Definition isUserAMod (ctx : userCtx) (environ : string) : Go W bool :=
  match GetCurrentUserData ctx with
  | ROk cu =>
      match IAPIClient cu environ with
      | None => ret false
      | Some iac =>
          let! r := try (Call iac "user/me" ∅ decode_UserMe) in
          match r with
          | inl _ => ret false
          | inr (success, globalMod) => ret (success && globalMod)
          end
      end
  | _ => ret false
  end.

(** A claim without a signing channel dereferences a nil pointer. *)
Definition ValidateSignatureFromClaim (claim : Claim) (signature signingTS data : string)
  : Go W (option error) :=
  match SigningChannel claim with
  | None => gopanic "nil pointer dereference"
  | Some ch =>
      match ch_PublicKey ch with
      | None => ret (Some (Errs "no channel for public key"))
      | Some key =>
          match GetPublicKeyFromBytes key with
          | inl e => ret (Some (Err e))
          | inr pubKey => ret (validateSignature (ch_ClaimID ch) signature signingTS data pubKey)
          end
      end
  end.

(** The tag loop; a scheduled tag reads the release time of the stream, which
    is a nil dereference for other claims. *)
Fixpoint tagLoop (claim : Claim) (tags : list string) : Go W string :=
  match tags with
  | [] => ret accessTypeFree
  | t :: tags' =>
      let! scheduled :=
        (if bool_decide (t = "c:scheduled:hide" ∨ t = "c:scheduled:show") then
           match GetStream claim with
           | None => gopanic "nil pointer dereference"
           | Some st => let! now := NowUnix in ret (now <? ReleaseTime st)
           end
         else ret false) in
      if (scheduled : bool) then ret accessTypeScheduled
      else if HasPrefix t "purchase:" || bool_decide (t = "c:purchase") then ret accessTypePurchase
      else if HasPrefix t "rental:" || bool_decide (t = "c:rental") then ret accessTypeRental
      else if bool_decide (t = "c:members-only") then ret accessTypeMemberOnly
      else if bool_decide (t = ClaimTagUnlisted) then ret accessTypeUnlisted
      else tagLoop claim tags'
  end.

Definition isLivestream (params : option (gmap string value)) : bool :=
  bool_decide (is_Some (param_of params "base_streaming_url")).

Definition environ_of (params : option (gmap string value)) : string :=
  default "" (param_of params ParamEnviron ≫= as_string).

Definition signErr_of (params : option (gmap string value)) : error :=
  if isLivestream params then errNeedSignedLivestreamUrl else errNeedSignedUrl.

Definition checkPurchase (ctx : userCtx) (claim : Claim) (accessType environ : string) (signErr : error)
  : Go W (bool * option error) :=
  let! r := try (checkCustomerListPurchase ctx (ClaimID claim) environ) in
  match r with
  | inl e => ret (false, Some e)
  | inr None => ret (false, Some (Errs "no access to paid content"))
  | inr (Some purchase) =>
      if bool_decide (accessType = accessTypeRental) then
        if negb (bool_decide (cp_Type purchase = "rental")) then
          ret (false, Some (Errs "incorrect purchase type"))
        else let! now := Now in
             if cp_ValidThrough purchase <? now then ret (false, Some (Errs "rental expired"))
             else ret (true, Some signErr)
      else ret (true, Some signErr)
  end.

Definition checkMembership (ctx : userCtx) (claim : Claim) (environ : string) (livestream : bool)
    (signErr : error) : Go W (bool * option error) :=
  match GetCurrentUserData ctx with
  | RErr err => ret (false, Some (ETraced "" (EWrapf "no user data in context: " err "")))
  | RPanic w => gopanic w
  | ROk cu =>
      match IAPIClient cu environ with
      | None => ret (false, Some (Errs "authentication required"))
      | Some iac =>
          let perkType := if livestream then iapiTypeMembershipLiveStream else iapiTypeMembershipVod in
          let! r := try (Call iac "membership_perk/check"
                           (<["claim_id" := ClaimID claim]> {["type" := perkType]}) decode_PerkCheck) in
          match r with
          | inl e => ret (false, Some e)
          | inr hasAccess =>
              if (hasAccess : bool) then ret (true, Some signErr)
              else ret (false, Some (Errs "no access to members-only content"))
          end
      end
  end.

Definition checkSignature (params : option (gmap string value)) (claim : Claim) (signErr : error)
  : Go W (bool * option error) :=
  match param_of params "signature", param_of params "signature_ts" with
  | None, _ => ret (false, Some (Errs "missing required signature param"))
  | Some _, None => ret (false, Some (Errs "missing required signature_ts param"))
  | Some signature, Some signatureTS =>
      let! sig := must_string signature in
      let! ts := must_string signatureTS in
      let! validateErr := ValidateSignatureFromClaim claim sig ts (ClaimID claim) in
      match validateErr with
      | Some e => ret (false, Some e)
      | None => ret (true, Some signErr)
      end
  end.

Definition checkStreamAccess (ctx : userCtx) (params : option (gmap string value)) (claim : Claim)
  : Go W (bool * option error) :=
  let environ := environ_of params in
  let! accessType := tagLoop claim (Tags claim) in
  if bool_decide (accessType = accessTypeFree) then ret (true, None) else
  let signErr := signErr_of params in
  if IsMyOutput claim then ret (true, Some signErr) else
  let! isMod := isUserAMod ctx environ in
  if (isMod : bool) then ret (true, Some signErr) else
  if bool_decide (accessType = accessTypeUnlisted) then checkSignature params claim signErr
  else if bool_decide (accessType = accessTypeScheduled) then
    ret (false, Some (Errs "claim release time is in the future, not ready to be viewed yet"))
  else if bool_decide (accessType = accessTypePurchase ∨ accessType = accessTypeRental) then
    checkPurchase ctx claim accessType environ signErr
  else if bool_decide (accessType = accessTypeMemberOnly) then
    checkMembership ctx claim environ (isLivestream params) signErr
  else ret (false, Some (Errs "unknown access type")).
End access.

(** ** The [get] hook *)

Section get.
Context {W : Type} `{!Ljsonrpc, !MapOrder, !SDKClient W, !WalletService W, !Random W, !Monitor W,
  !Arweave W, !IAPITransport W, !IAPIDecoders, !Clock W, !ECDSA, !PaidTokens W,
  !ClaimDecoder, !URLParser, !SearchDecoder}.
Context (cfg : Config).

Definition resolve (q : Query) (url : string) : Go (Caller * W) Claim :=
  let! resolveQuery := lift (NewQuery (NewRequest MethodResolve
    (<["urls" := VStr url]> (<["include_purchase_receipt" := VBool true]>
      (<["include_protobuf" := VBool true]> {["include_is_my_output" := VBool true]}))))
    (WalletID q)) in
  let! rawResolveResponse := SendQuery cfg resolveQuery in
  match decode_Resolve (Result rawResolveResponse) with
  | inl e => fail e
  | inr resolveResponse =>
      match resolveResponse !! url with
      | None => fail (Errs "could not find a corresponding entry in the resolve response")
      | Some claim => if bool_decide (ClaimID claim = "") then fail ErrClaimNotFound else ret claim
      end
  end.

Definition startpath (claim : Claim) (sdHash : string) : string :=
  Sprintf_go (lookup_default (StreamsV6 cfg) "startpath") [ClaimID claim; sdHash].

Definition expiry : Go (Caller * W) Z := let! now := inW Now in ret ((now + 24 * 3600 * 10 ^ 9) / 10 ^ 9).

Definition signedStream (claim : Claim) : Go (Caller * W) (gmap string value) :=
  match GetStream claim ≫= stream_Source with
  | None => fail (Errs "paid content doesn't have source data")
  | Some src =>
      let sdHash := hex_encode (SdHash src) in
      let host := lookup_default (StreamsV6 cfg) "paidhost" in
      let path := startpath claim sdHash in
      let! t := expiry in
      let hash := signStreamURL77 host path (lookup_default (StreamsV6 cfg) "token") t in
      let signedUrl := "https://" +:+ host +:+ "/" +:+ hash +:+ path in
      ret {[ParamStreamingUrl := VStr (signedUrl +:+ "?" +:+ paramHash77 +:+ "=" +:+ hash)]}
  end.

Definition signedLivestream (params : option (gmap string value)) : Go (Caller * W) (gmap string value) :=
  match param_of params "base_streaming_url" ≫= as_string with
  | None => fail (Errs "invalid base_streaming_url supplied")
  | Some baseUrl =>
      match url_Parse baseUrl with
      | None => fail (Errs "invalid base_streaming_url supplied")
      | Some (host, path) =>
          let! t := expiry in
          let hash := signStreamURL77 host path (lookup_default (StreamsV6 cfg) "token") t in
          ret {[ParamStreamingUrl := VStr ("https://" +:+ host +:+ "/" +:+ hash +:+ path)]}
      end
  end.

Definition reAlreadyPurchased (msg : string) : bool := Contains (ToLower msg) "you already have a purchase".
Definition rePurchaseFree (msg : string) : bool := Contains (ToLower msg) "does not have a purchase price".

(** [purchase_create] as the last resort: the claim to use from here on, the
    transaction id, and whether the stream counts as paid. *)
Definition purchaseCreate (q : Query) (lbryUrl : string) (claim : Claim)
  : Go (Caller * W) (Claim * string * bool) :=
  let! purchaseQuery := lift (NewQuery (NewRequest MethodPurchaseCreate
    (<["url" := VStr lbryUrl]> {["blocking" := VBool true]})) (WalletID q)) in
  let! purchaseRes := SendQuery cfg purchaseQuery in
  match resp_Error purchaseRes with
  | Some e =>
      if reAlreadyPurchased (Message e) then
        fail (Errs "couldn't find purchase receipt for paid stream")
      else if rePurchaseFree (Message e) then ret (claim, "", false)
      else fail (EText ("purchase error: " +:+ Message e))
  | None =>
      let! claim := resolve q lbryUrl in
      match claim_Receipt claim with
      | None => fail (Errs "couldn't find purchase receipt for paid stream")
      | Some receipt => ret (claim, Txid receipt, true)
      end
  end.

(** The LBC purchase logic, for a stream with a fee. *)
Definition findPurchase (ctx : userCtx) (q : Query) (lbryUrl : string) (claim : Claim)
  : Go (Caller * W) (Claim * string * bool) :=
  if IsMyOutput claim then ret (claim, "owner", true) else
  let! txid :=
    (match claim_Receipt claim with
     | Some receipt => ret (Txid receipt)
     | None =>
         let environ := default "" (param_of (ParamsAsMap q) ParamEnviron ≫= as_string) in
         let! r := try (inW (checkCustomerListPurchase ctx (ClaimID claim) environ)) in
         match r with
         | inr (Some _) => ret "customer_list_confirmed"
         | _ => ret ""
         end
     end) in
  match claim_Receipt claim with
  | Some _ => ret (claim, txid, true)
  | None => if bool_decide (txid = "") then purchaseCreate q lbryUrl claim else ret (claim, txid, true)
  end.

Definition receipt_value (r : option PurchaseReceipt) : value :=
  match r with
  | None => VNil
  | Some p => VStruct "PurchaseReceipt" (<["txid" := VStr (Txid p)]> (receipt_fields p))
  end.

(** The link of a stream that needs no signature. [stream] is that of the
    first [resolve], [claim] may be from the second. *)
Definition plainStream (stream : option Stream) (claim : Claim) (txid : string) (isPaid : bool)
  : Go (Caller * W) (gmap string value) :=
  match stream ≫= stream_Source with
  | None => fail (Errs "stream doesn't have source data")
  | Some src =>
      if (length (SdHash src) <? 3)%nat then gopanic "slice bounds out of range" else
      let sdHash := hex_encode (take 3 (SdHash src)) in
      let! p :=
        (if (isPaid : bool) then
           let! token := inW (CreateToken (claim_Name claim +:+ "/" +:+ ClaimID claim) txid (src_Size src)) in
           ret (PaidContentURL cfg +:+ claim_Name claim +:+ "/" +:+ ClaimID claim +:+ "/" +:+ sdHash +:+
                "/" +:+ token,
                {[ParamPurchaseReceipt := receipt_value (claim_Receipt claim)]} : gmap string value)
         else ret ("https://" +:+ lookup_default (StreamsV6 cfg) "host" +:+ startpath claim sdHash, ∅)) in
      let '(contentURL, responseResult) := p in
      let! url :=
        (if ArfleetEnabled cfg then
           let! r := try (inW (GetClaimUrl (ArfleetCDN cfg) (ClaimID claim))) in
           match r with
           | inl _ => ret contentURL
           | inr arUrl => ret (if bool_decide (arUrl = "") then contentURL else arUrl)
           end
         else ret contentURL) in
      ret (<[ParamStreamingUrl := VStr url]> responseResult)
  end.

Definition preflightHookGet (ctx : userCtx) (q : Query) : Go (Caller * W) (option RPCResponse) :=
  let paramsMap := ParamsAsMap q in
  let respond (responseResult : gmap string value) : Go (Caller * W) (option RPCResponse) :=
    ret (Some (set_Result (newResponse q) (VMap responseResult))) in
  match param_of paramsMap "uri" with
  | None => fail (Errs "missing uri parameter for 'get' method")
  | Some uri =>
      let! lbryUrl := must_string uri in
      let! claim := resolve q lbryUrl in
      let stream := GetStream claim in
      let! access := inW (checkStreamAccess ctx paramsMap claim) in
      let '(hasAccess, err) := access in
      if negb hasAccess then match err with Some e => fail e | None => ret None end
      else if match err with Some e => Is e "query.errNeedSignedUrl" | None => false end then
        let! r := signedStream claim in respond r
      else if match err with Some e => Is e "query.errNeedSignedLivestreamUrl" | None => false end then
        let! r := signedLivestream paramsMap in respond r
      else
        let! p := (if 0 <? from_option FeeAmount 0 stream then findPurchase ctx q lbryUrl claim
                   else ret (claim, "", false)) in
        let '(claim, txid, isPaid) := p in
        let! r := plainStream stream claim txid isPaid in respond r
  end.

(** ** The [claim_search] hook *)

(** Writing to a nil map panics. *)
Definition map_put (m : option (gmap string value)) (k : string) (v : value)
  : Go (Caller * W) (option (gmap string value)) :=
  match m with
  | None => gopanic "assignment to entry in nil map"
  | Some m => ret (Some (<[k := v]> m))
  end.

Definition excludeHidden (p : ClaimSearchParams) : list string :=
  let nt := if negb (NotTagsContains p [ClaimTagPrivate]) then NotTags p ++ [ClaimTagPrivate] else NotTags p in
  if negb (sliceContains nt [ClaimTagUnlisted]) then nt ++ [ClaimTagUnlisted] else nt.

(** The parameters added for a search of claims with a source. *)
Definition restrictSearch (params : ClaimSearchParams) (origParams : option (gmap string value))
  : Go (Caller * W) (option (gmap string value)) :=
  if bool_decide (HasSource params = Some true) then
    let! m := (if negb (AnyTagsContains params [ClaimTagPrivate; ClaimTagUnlisted])
               then map_put origParams "not_tags" (VStrs (excludeHidden params))
               else ret origParams) in
    if negb (AnyTagsContains params [ClaimTagScheduledShow; ClaimTagScheduledHide]) then
      let! now := inW NowUnix in
      let t := roundUp now releaseTimeRoundDownSec in
      map_put m "release_time" (VStrs (sp_ReleaseTime params ++ ["<" +:+ Itoa t]))
    else ret m
  else ret origParams.

(** The query comes back with the parameter map the hook wrote to. *)
Definition preflightHookClaimSearch (q : Query) : Go (Caller * W) Query :=
  let origParams := ParamsAsMap q in
  match decode_Search origParams with
  | inl e => fail (EWrapf "cannot decode query params: " e "")
  | inr params =>
      let! m1 := restrictSearch params origParams in
      let m2 :=
        if bool_decide (OrderBy params = []) &&
           bool_decide (default "" (param_of m1 "text" ≫= as_string) = "")
        then Some (<["order_by" := VStrs ["trending_score"; "release_time"]]> (default ∅ m1))
        else m1 in
      ret (match m2 with Some m => put_params q m | None => q end)
  end.

(** ** The [status] response *)

Definition statusResult : value :=
  let obj (l : list (string * value)) := VMap (list_to_map l) in
  let n := VNum in
  obj [("blob_manager", obj [
         ("connections", obj [("incoming_bps", obj []); ("outgoing_bps", obj []); ("time", n "0.0");
           ("total_incoming_mbs", n "0.0"); ("total_outgoing_mbs", n "0.0")]);
         ("finished_blobs", n "0")]);
       ("connection_status", obj [("code", VStr "connected");
         ("message", VStr "No connection problems detected")]);
       ("installation_id", VStr "692EAWhtoqDuAfQ6KHMXxFxt8tkhmt7sfprEMHWKjy5hf6PwZcHDV542VHqRnFnTCD");
       ("is_running", VBool true);
       ("skipped_components", VList [VStr "hash_announcer"; VStr "blob_server"; VStr "dht"]);
       ("startup_status", obj [("blob_manager", VBool true); ("blockchain_headers", VBool true);
         ("database", VBool true); ("exchange_rate_manager", VBool true);
         ("peer_protocol_server", VBool true); ("stream_manager", VBool true); ("upnp", VBool true);
         ("wallet", VBool true)]);
       ("stream_manager", obj [("managed_files", n "1")]);
       ("upnp", obj [("aioupnp_version", VStr "0.0.13"); ("dht_redirect_set", VBool false);
         ("external_ip", VStr "127.0.0.1"); ("gateway", VStr "No gateway found");
         ("peer_redirect_set", VBool false); ("redirects", obj [])]);
       ("wallet", obj [
         ("best_blockhash", VStr "3d77791b9d87609a004b398e638bcdc91650247ee4448a2b30bf8474668d0ad3");
         ("blocks", n "0"); ("blocks_behind", n "0"); ("is_encrypted", VBool false);
         ("is_locked", VBool false)])].

Definition getStatusResponse (q : Query) : RPCResponse := set_Result (newResponse q) statusResult.
End get.
