(* ===== verification/AccessSpec.v ===== *)
(** * Properties of the stream access hooks

    Who is granted access to a restricted stream, stated with the tags of the
    claim and not with the loop that reads them; that restricted content is
    only handed out by signed link; when a stream with a fee counts as paid; and
    that searches hide unlisted and unreleased claims. *)

From S2P Require Import Prelude GoLib Rpc Errors Query Router Iapi Http Services Wallet WalletDB Auth Hashes Paid Caller Access.

Local Open Scope Z_scope.

(** ** Access decisions *)

Section access.
Context {W : Type} `{!IAPITransport W, !IAPIDecoders, !Clock W, !ECDSA}.

(** The signature parameters of a request verify under the key of the
    claim's channel. *)
Definition signed_by_channel (params : option (gmap string value)) (claim : Claim) : Prop :=
  ∃ sig ts ch key pk,
    param_of params "signature" = Some (VStr sig) ∧ param_of params "signature_ts" = Some (VStr ts) ∧
    SigningChannel claim = Some ch ∧ ch_PublicKey ch = Some key ∧
    GetPublicKeyFromBytes key = inr pk ∧
    validateSignature (ch_ClaimID ch) sig ts (ClaimID claim) pk = None.

(** Why a request that is neither the owner's nor a moderator's may see a
    restricted stream. *)
Definition entitled (ctx : userCtx) (params : option (gmap string value)) (claim : Claim)
    (ty : string) (w : W) : Prop :=
  let environ := environ_of params in
  (ty = accessTypeUnlisted ∧ signed_by_channel params claim) ∨
  ((ty = accessTypePurchase ∨ ty = accessTypeRental) ∧
     ∃ p w1, checkCustomerListPurchase ctx (ClaimID claim) environ w = (ROk (Some p), w1) ∧
       (ty = accessTypeRental → cp_Type p = "rental" ∧
          ∃ now w2, Now w1 = (ROk now, w2) ∧ now ≤ cp_ValidThrough p)) ∨
  (ty = accessTypeMemberOnly ∧
     ∃ cu iac w1, GetCurrentUserData ctx = ROk cu ∧ IAPIClient cu environ = Some iac ∧
       Call iac "membership_perk/check"
         (<["claim_id" := ClaimID claim]>
            {["type" := if isLivestream params then iapiTypeMembershipLiveStream
                        else iapiTypeMembershipVod]}) decode_PerkCheck w = (ROk true, w1)).

Lemma must_string_ok {S} v x (s s' : S) : must_string v s = (ROk x, s') → v = VStr x ∧ s' = s.
Proof. unfold must_string. destruct v; simpl; try done. by intros [= <- <-]. Qed.

Lemma checkSignature_true params claim e0 w e w' :
  checkSignature (W:=W) params claim e0 w = (ROk (true, e), w') → e = Some e0 ∧ signed_by_channel params claim.
Proof.
  unfold checkSignature. destruct (param_of params "signature") as [sg|] eqn:Hs; [|done].
  destruct (param_of params "signature_ts") as [ts|] eqn:Ht; [|done].
  intros Hrun. go_inv Hrun. apply must_string_ok in Hc as [-> ->].
  go_inv Hrun. apply must_string_ok in Hc as [-> ->]. go_inv Hrun.
  destruct a1 as [err|]; [done|]. injection Hrun as <- <-. split; [done|].
  unfold ValidateSignatureFromClaim in Hc.
  destruct (SigningChannel claim) as [ch|] eqn:Hch; [|done].
  destruct (ch_PublicKey ch) as [key|] eqn:Hk; [|done].
  destruct (GetPublicKeyFromBytes key) as [?|pk] eqn:Hpk; [done|].
  injection Hc as Hv _. by exists a, a0, ch, key, pk.
Qed.

Lemma checkPurchase_true ctx claim ty environ e0 w e w' :
  checkPurchase ctx claim ty environ e0 w = (ROk (true, e), w') →
  e = Some e0 ∧ ∃ p w1, checkCustomerListPurchase ctx (ClaimID claim) environ w = (ROk (Some p), w1) ∧
    (ty = accessTypeRental → cp_Type p = "rental" ∧
       ∃ now w2, Now w1 = (ROk now, w2) ∧ now ≤ cp_ValidThrough p).
Proof.
  unfold checkPurchase. intros Hrun. go_inv Hrun.
  apply try_ok_inv in Hc as [([p|] & -> & Hc)|(? & -> & _)]; [|done..].
  case_bool_decide as Hty.
  - case_bool_decide as Htype; [|done]. simpl in Hrun. go_inv Hrun.
    destruct (Z.ltb_spec (cp_ValidThrough p) a); [done|]. injection Hrun as <- _.
    split; [done|]. exists p, s. split; [done|]. intros _. split; [done|]. eauto.
  - injection Hrun as <- <-. split; [done|]. exists p, s. by split.
Qed.

Lemma checkMembership_true ctx claim environ live e0 w e w' :
  checkMembership ctx claim environ live e0 w = (ROk (true, e), w') →
  e = Some e0 ∧ ∃ cu iac w1, GetCurrentUserData ctx = ROk cu ∧ IAPIClient cu environ = Some iac ∧
    Call iac "membership_perk/check"
      (<["claim_id" := ClaimID claim]>
         {["type" := if live then iapiTypeMembershipLiveStream else iapiTypeMembershipVod]})
      decode_PerkCheck w = (ROk true, w1).
Proof.
  unfold checkMembership. destruct (GetCurrentUserData ctx) as [cu| |] eqn:Hcu; [|done..].
  destruct (IAPIClient cu environ) as [iac|] eqn:Hiac; [|done]. intros Hrun. go_inv Hrun.
  apply try_ok_inv in Hc as [([] & -> & Hc)|(? & -> & _)]; [|done..].
  injection Hrun as <- <-. split; [done|]. by exists cu, iac, s.
Qed.

(** The tags that restrict a claim, and the kind of access each one asks for. *)
Inductive tag_kind : string → string → Prop :=
| tag_purchase_price price : tag_kind ("purchase:" +:+ price) accessTypePurchase
| tag_purchase : tag_kind "c:purchase" accessTypePurchase
| tag_rental_price price : tag_kind ("rental:" +:+ price) accessTypeRental
| tag_rental : tag_kind "c:rental" accessTypeRental
| tag_members : tag_kind "c:members-only" accessTypeMemberOnly
| tag_unlisted : tag_kind "c:unlisted" accessTypeUnlisted.

Definition schedule_tag (t : string) : Prop := t = "c:scheduled:hide" ∨ t = "c:scheduled:show".

(** The clock was read, and its reading relates to the release time. *)
Definition release_checked (R : Z → Z → Prop) (claim : Claim) : Prop :=
  ∃ st (w : W) now w', GetStream claim = Some st ∧ NowUnix w = (ROk now, w') ∧ R (ReleaseTime st) now.

(** A tag without effect: it restricts nothing, or it delays a release that has
    happened. *)
Definition open_tag (claim : Claim) (t : string) : Prop :=
  (∀ k, ¬ tag_kind t k) ∧ (schedule_tag t → release_checked Z.le claim).

(** The kind of access a claim needs: free if all its tags are without effect,
    and otherwise what the first tag with effect asks for. *)
Definition needs (claim : Claim) (ty : string) : Prop :=
  (ty = accessTypeFree ∧ ∀ t, t ∈ Tags claim → open_tag claim t) ∨
  ∃ pre t post, Tags claim = pre ++ t :: post ∧ (∀ t', t' ∈ pre → open_tag claim t') ∧
    (tag_kind t ty ∨ (ty = accessTypeScheduled ∧ schedule_tag t ∧ release_checked Z.gt claim)).

Lemma no_kind t :
  HasPrefix t "purchase:" || bool_decide (t = "c:purchase") = false →
  HasPrefix t "rental:" || bool_decide (t = "c:rental") = false →
  t ≠ "c:members-only" → t ≠ "c:unlisted" → ∀ k, ¬ tag_kind t k.
Proof.
  intros H1 H2 H3 H4 k Hk. destruct Hk; try done.
  - by rewrite (HasPrefix_app "purchase:") in H1.
  - by rewrite (HasPrefix_app "rental:") in H2.
Qed.

Lemma purchase_kind t :
  HasPrefix t "purchase:" || bool_decide (t = "c:purchase") = true → tag_kind t accessTypePurchase.
Proof. intros [[r ->]%HasPrefix_true|Heq%bool_decide_eq_true]%orb_true_iff; [|subst t]; constructor. Qed.

Lemma rental_kind t :
  HasPrefix t "rental:" || bool_decide (t = "c:rental") = true → tag_kind t accessTypeRental.
Proof. intros [[r ->]%HasPrefix_true|Heq%bool_decide_eq_true]%orb_true_iff; [|subst t]; constructor. Qed.

Lemma tagLoop_needs claim w ty w1 :
  tagLoop (W:=W) claim (Tags claim) w = (ROk ty, w1) → needs claim ty.
Proof.
  unfold needs. set (tags := Tags claim) at 1 2.
  assert (∀ rest pre, (∀ t', t' ∈ pre → open_tag claim t') → tags = pre ++ rest →
    ∀ w, tagLoop (W:=W) claim rest w = (ROk ty, w1) →
    (ty = accessTypeFree ∧ ∀ t, t ∈ tags → open_tag claim t) ∨
    ∃ pre t post, tags = pre ++ t :: post ∧ (∀ t', t' ∈ pre → open_tag claim t') ∧
      (tag_kind t ty ∨ (ty = accessTypeScheduled ∧ schedule_tag t ∧ release_checked Z.gt claim))) as Hgen.
  2:{ intros Hrun. eapply (Hgen tags []); [by intros ? ?%not_elem_of_nil|done|exact Hrun]. }
  induction rest as [|t rest IH]; intros pre Hpre Htags w0 Hrun.
  { left. injection Hrun as <- _. rewrite Htags, app_nil_r. auto. }
  cbn [tagLoop] in Hrun. go_inv Hrun. rename a into scheduled.
  assert (scheduled = true → schedule_tag t ∧ release_checked Z.gt claim) as Hs1.
  { intros ->. case_bool_decide as Hst; [|done]. destruct (GetStream claim) as [st|] eqn:Hg; [|done].
    go_inv Hc. injection Hc as Hlt <-. apply Z.ltb_lt in Hlt. split; [done|].
    eexists st, w0, a, _. split_and!; [done|eassumption|lia]. }
  assert (scheduled = false → schedule_tag t → release_checked Z.le claim) as Hs2.
  { intros -> Hst. rewrite bool_decide_true in Hc by done. destruct (GetStream claim) as [st|] eqn:Hg; [|done].
    go_inv Hc. injection Hc as Hlt <-. apply Z.ltb_ge in Hlt. eexists st, w0, a, _.
    by split_and!; [..|eassumption|]. }
  destruct scheduled.
  { injection Hrun as <- _. right. exists pre, t, rest. split_and!; [done..|]. right. naive_solver. }
  assert (tag_kind t ty → needs claim ty) as Hkind by (right; exists pre, t, rest; auto).
  destruct (HasPrefix t "purchase:" || _) eqn:E1.
  { injection Hrun as <- _. apply Hkind. by apply purchase_kind. }
  destruct (HasPrefix t "rental:" || _) eqn:E2.
  { injection Hrun as <- _. apply Hkind. by apply rental_kind. }
  case_bool_decide as E3; [injection Hrun as <- _; apply Hkind; rewrite E3; constructor|].
  case_bool_decide as E4; [injection Hrun as <- _; apply Hkind; rewrite E4; constructor|].
  apply (IH (pre ++ [t])) with s; [|by rewrite <-app_assoc|done].
  intros t' [?|Ht'%list_elem_of_singleton]%elem_of_app; [auto|subst t']. split; [by apply no_kind|auto].
Qed.

(** The decision for a claim of the given kind. *)
Definition granted (ctx : userCtx) (params : option (gmap string value)) (claim : Claim)
    (ty : string) (w1 : W) (e : option error) : Prop :=
  (ty = accessTypeFree ∧ e = None) ∨
  (ty ≠ accessTypeFree ∧ e = Some (signErr_of params) ∧
     (IsMyOutput claim = true ∨
      ∃ isMod w2, isUserAMod ctx (environ_of params) w1 = (ROk isMod, w2) ∧
        (isMod = true ∨ entitled ctx params claim ty w2))).

Lemma checkStreamAccess_granted ctx params claim w e w' :
  checkStreamAccess ctx params claim w = (ROk (true, e), w') →
  ∃ ty w1, tagLoop claim (Tags claim) w = (ROk ty, w1) ∧ granted ctx params claim ty w1 e.
Proof.
  intros Hrun. unfold checkStreamAccess in Hrun. go_inv Hrun. exists a, s. split; [done|].
  case_bool_decide as Hfree; [injection Hrun as <- _; by left|]. right. split; [done|].
  destruct (IsMyOutput claim); [injection Hrun as <- _; auto|].
  go_inv Hrun. destruct a0; [injection Hrun as <- _; split; [done|]; eauto 8|].
  cut (e = Some (signErr_of params) ∧ entitled ctx params claim a s0);
    [intros [? ?]; split; [done|]; right; eauto 8|]. unfold entitled.
  case_bool_decide; [apply checkSignature_true in Hrun as [? ?]; by auto|].
  case_bool_decide; [done|].
  case_bool_decide; [apply checkPurchase_true in Hrun as [? ?]; by auto|].
  case_bool_decide; [apply checkMembership_true in Hrun as [? ?]; by eauto 8|done].
Qed.

(** C3: Access control of [get]. A stream is served without a signed link only
    if no restricting tag applies to it. Any other stream is served, by signed
    link, only to its owner, to a moderator, or to a request that is entitled:
    a valid channel signature for an unlisted claim, a confirmed or submitted
    purchase for purchasable content (for rentals, one of type rental that has
    not expired), a membership perk for members-only content. A scheduled claim
    is served to nobody else before its release. *)
Theorem checkStreamAccess_sound ctx params claim w e w' :
  checkStreamAccess ctx params claim w = (ROk (true, e), w') →
  ∃ ty w1, needs claim ty ∧ granted ctx params claim ty w1 e ∧
    (ty = accessTypeScheduled → IsMyOutput claim = true ∨
       ∃ w2, isUserAMod ctx (environ_of params) w1 = (ROk true, w2)).
Proof.
  intros (ty & w1 & Ht & Hg)%checkStreamAccess_granted. exists ty, w1. split_and!; [by eapply tagLoop_needs|done|].
  intros ->. destruct Hg as [[? _]|(_ & _ & [?|(isMod & w2 & Hm & [->|He])])]; [done|by left|eauto|].
  unfold entitled in He. by destruct He as [[? _]|[[[?|?] _]|[? _]]].
Qed.

(** A request without an internal-api client cannot be a moderator's, nor
    prove a purchase or a membership. *)
Lemma anonymous_not_entitled ctx params claim ty w :
  (∀ cu, GetCurrentUserData ctx = ROk cu → cu_iac cu = None) →
  ty ≠ accessTypeUnlisted → ¬ entitled ctx params claim ty w.
Proof.
  intros Hanon Hty [[? _]|[(_ & p & w1 & Hc & _)|(_ & cu & iac & w1 & Hcu & Hi & _)]]; [done|..].
  - unfold checkCustomerListPurchase, bind, lift in Hc.
    destruct (GetCurrentUserData ctx) as [cu| |]; [|done..].
    unfold IAPIClient in Hc. by rewrite (Hanon cu) in Hc.
  - unfold IAPIClient in Hi. by rewrite (Hanon cu) in Hi.
Qed.

Lemma anonymous_not_mod ctx environ w r w' :
  (∀ cu, GetCurrentUserData ctx = ROk cu → cu_iac cu = None) →
  isUserAMod ctx environ w = (ROk r, w') → r = false.
Proof.
  intros Hanon. unfold isUserAMod, IAPIClient.
  destruct (GetCurrentUserData ctx) as [cu| |]; [rewrite (Hanon cu) by done|..]; by intros [= <- <-].
Qed.

(** Without credentials, a claim of somebody else with a purchase, rental
    or members-only tag is never served, unless it is unlisted as well. *)
Theorem anonymous_denied ctx params claim w t k e w' :
  (∀ cu, GetCurrentUserData ctx = ROk cu → cu_iac cu = None) → IsMyOutput claim = false →
  t ∈ Tags claim → tag_kind t k → ClaimTagUnlisted ∉ Tags claim →
  checkStreamAccess ctx params claim w ≠ (ROk (true, e), w').
Proof.
  intros Hanon Hmine Hin Hk Hun Hrun. apply checkStreamAccess_granted in Hrun as (ty & w1 & Ht & Hg).
  apply tagLoop_needs in Ht. assert (ty ≠ accessTypeFree ∧ ty ≠ accessTypeUnlisted) as [Hfree Hunl].
  { destruct Ht as [[_ Hopen]|(pre & t' & post & Htags & _ & [Hk'|(-> & _)])]; [|split|done].
    - destruct (Hopen t Hin) as [Hno _]. by destruct (Hno k).
    - by destruct Hk'.
    - intros ->. inversion Hk'; subst. apply Hun. rewrite Htags, elem_of_app, elem_of_cons. auto. }
  destruct Hg as [[-> _]|(_ & _ & [?|(isMod & w2 & Hm & Hor)])]; [done|congruence|].
  apply anonymous_not_mod in Hm as ->; [|done]. destruct Hor as [?|He]; [done|].
  by apply anonymous_not_entitled in He.
Qed.
End access.

(** ** The [get] hook *)

Section get.
Context {W : Type} `{!Ljsonrpc, !MapOrder, !SDKClient W, !WalletService W, !Random W, !Monitor W,
  !Arweave W, !IAPITransport W, !IAPIDecoders, !Clock W, !ECDSA, !PaidTokens W,
  !ClaimDecoder, !URLParser, !SearchDecoder}.
Context (cfg : Config).

Lemma inW_ok {A} (m : Go W A) s a s' :
  inW m s = (ROk a, s') → m s.2 = (ROk a, s'.2) ∧ s'.1 = s.1.
Proof. destruct s as [c w], s' as [c' w']. unfold inW; simpl. destruct (m w) as [r w1]. by intros [= -> -> ->]. Qed.

#[local] Opaque signStreamURL77.

(** A link signed with the configured token: host, hash, path, and what is
    appended to it. *)
Definition signed_url (url : string) : Prop :=
  ∃ host path t suffix,
    url = "https://" +:+ host +:+ "/" +:+
            signStreamURL77 host path (lookup_default (StreamsV6 cfg) "token") t +:+ path +:+ suffix.

Definition signed_result (m : gmap string value) : Prop :=
  ∃ url, m = {[ParamStreamingUrl := VStr url]} ∧ signed_url url.

Lemma signedStream_ok claim s m s' : signedStream (W:=W) cfg claim s = (ROk m, s') → signed_result m.
Proof.
  unfold signedStream. destruct (_ ≫= stream_Source) as [src|]; [|done].
  intros Hrun. go_inv Hrun. injection Hrun as <- <-. eexists. split; [done|].
  set (host := lookup_default _ "paidhost"). set (path := startpath cfg claim _).
  set (hash := signStreamURL77 host path _ a).
  exists host, path, a, ("?" +:+ paramHash77 +:+ "=" +:+ hash). fold hash. by rewrite !app_assoc_str.
Qed.

Lemma signedLivestream_ok params s m s' :
  signedLivestream (W:=W) cfg params s = (ROk m, s') → signed_result m.
Proof.
  unfold signedLivestream. destruct (_ ≫= as_string) as [base|]; [|done].
  destruct (url_Parse base) as [[host path]|]; [|done].
  intros Hrun. go_inv Hrun. injection Hrun as <- <-. eexists. split; [done|].
  exists host, path, a, "". by rewrite app_empty_r.
Qed.

Lemma signErr_class params :
  Is (signErr_of params) "query.errNeedSignedUrl" = negb (isLivestream params) ∧
  Is (signErr_of params) "query.errNeedSignedLivestreamUrl" = isLivestream params.
Proof. unfold signErr_of. by destruct (isLivestream params). Qed.

(** What a response of [get] says about the claim it resolved. *)
Definition served (ctx : userCtx) (q : Query) (s : Caller * W) (r : RPCResponse) : Prop :=
  ∃ url claim s1 ty w1 e,
    param_of (ParamsAsMap q) "uri" = Some (VStr url) ∧
    resolve cfg q url s = (ROk claim, s1) ∧
    needs (W:=W) claim ty ∧ granted ctx (ParamsAsMap q) claim ty w1 e ∧
    (ty ≠ accessTypeFree → ∃ m, Result r = VMap m ∧ signed_result m).

(** C4: [get] answers only for claims to which the request has access, and it
    never hands out a plain link to restricted content: when a restricting
    tag applies to the resolved claim, the response consists of one link, and
    that link carries the CDN signature made with the configured token. *)
Theorem get_restricted_is_signed ctx q s r s' :
  preflightHookGet (W:=W) cfg ctx q s = (ROk (Some r), s') → served ctx q s r.
Proof.
  unfold preflightHookGet. destruct (param_of _ "uri") as [uri|] eqn:Huri; [|done].
  intros Hrun. go_inv Hrun. apply must_string_ok in Hc as [-> ->].
  go_inv Hrun. rename a0 into claim. go_inv Hrun. destruct a0 as [acc err].
  destruct acc; [|by destruct err]. apply inW_ok in Hc0 as [Hc0 _].
  apply checkStreamAccess_granted in Hc0 as (ty & w1 & Ht & Hg).
  exists a, claim, s0, ty, w1, err. split_and!; [done..|by eapply tagLoop_needs|done|].
  - intros Hne. destruct Hg as [[? _]|(_ & -> & _)]; [done|]. simpl negb in Hrun. cbv iota in Hrun.
    destruct (signErr_class (ParamsAsMap q)) as [H1' H2']. rewrite H1', H2' in Hrun.
    destruct (isLivestream (ParamsAsMap q)); simpl in Hrun; go_inv Hrun; injection Hrun as <- <-;
      eexists; (split; [done|]); [by eapply signedLivestream_ok|by eapply signedStream_ok].
Qed.

(** How a purchase of a stream with a fee was established. *)
Definition purchased (ctx : userCtx) (q : Query) (url : string) (claim claim' : Claim) (txid : string) : Prop :=
  (IsMyOutput claim = true ∧ claim' = claim ∧ txid = "owner") ∨
  (∃ rc, claim_Receipt claim = Some rc ∧ claim' = claim ∧ txid = Txid rc) ∨
  (claim' = claim ∧ txid = "customer_list_confirmed" ∧
     ∃ w p w', checkCustomerListPurchase ctx (ClaimID claim)
       (default "" (param_of (ParamsAsMap q) ParamEnviron ≫= as_string)) w = (ROk (Some p), w')) ∨
  (∃ pq res s1 s2 rc, Method (Request pq) = MethodPurchaseCreate ∧ WalletID pq = WalletID q ∧
     SendQuery cfg pq s1 = (ROk res, s2) ∧ resp_Error res = None ∧
     claim_Receipt claim' = Some rc ∧ txid = Txid rc).

Lemma NewQuery_keeps req w q : NewQuery req w = ROk q → Method (Request q) = Method req ∧ WalletID q = w.
Proof.
  intros Hok. apply NewQuery_ok_inv in Hok as (_ & _ & Hid & [(_ & _ & ->)|(-> & _)]); done.
Qed.

Lemma purchaseCreate_paid ctx q url claim s claim' txid s' :
  purchaseCreate (W:=W) cfg q url claim s = (ROk (claim', txid, true), s') →
  purchased ctx q url claim claim' txid.
Proof.
  unfold purchaseCreate. intros Hrun. go_inv Hrun. apply lift_ok in Hc as [Hq ->].
  go_inv Hrun. destruct (resp_Error a0) as [e|] eqn:He.
  { destruct (reAlreadyPurchased _); [done|]. by destruct (rePurchaseFree _). }
  go_inv Hrun. destruct (claim_Receipt a1) as [rc|] eqn:Hr; [|done]. injection Hrun as <- <- <-.
  apply NewQuery_keeps in Hq as [Hm Hw].
  right. right. right. exists a, a0, s, s0, rc. done.
Qed.

(** A stream with an LBC fee is treated as paid only after the purchase was
    established: it is the caller's own claim, or it carries a receipt, or the
    customer list holds a valid purchase, or a purchase made now with the
    caller's wallet went through and its receipt was resolved. *)
Theorem findPurchase_sound ctx q url claim s claim' txid s' :
  findPurchase (W:=W) cfg ctx q url claim s = (ROk (claim', txid, true), s') →
  purchased ctx q url claim claim' txid.
Proof.
  unfold findPurchase. destruct (IsMyOutput claim) eqn:Hm; [intros [= <- <- <-]; by left|].
  intros Hrun. go_inv Hrun. destruct (claim_Receipt claim) as [rc|] eqn:Hr.
  - injection Hc as <- <-. injection Hrun as <- <- <-. right. left. eauto.
  - case_bool_decide as Ht; [by eapply purchaseCreate_paid|]. injection Hrun as <- <- <-.
    go_inv Hc. destruct a0 as [?|[p|]]; injection Hc as <- <-; [done| |done].
    apply try_ok_inv in Hc0 as [(x & [= <-] & Hc0)|(? & ? & _)]; [|done].
    apply inW_ok in Hc0 as [Hc0 _]. right. right. left. split_and!; [done..|]. eauto.
Qed.
End get.

(** ** Search parameters *)

(** [roundUp n s] is the least multiple of [s] that is at least [n], for a
    non-negative [n] far enough from the end of [int64]. *)
Theorem roundUp_spec n s :
  0 <= n → 0 < s → n + s < 2 ^ 63 →
  n ≤ roundUp n s < n + s ∧ (s | roundUp n s) ∧ ∀ m, (s | m) → n ≤ m → roundUp n s ≤ m.
Proof.
  intros Hn Hs Hmax. unfold roundUp.
  rewrite Z.rem_mod_nonneg by lia. pose proof (Z.mod_pos_bound n s Hs) as Hr.
  pose proof (Z.div_mod n s ltac:(lia)) as Hdm. set (q := n / s) in *. set (r := n `mod` s) in *.
  destruct (Z.eqb_spec r 0) as [Hz|Hz].
  { split_and!; [lia|lia|exists q; lia|done]. }
  rewrite to_signed_small by lia. split_and!; [lia|lia|exists (q + 1); lia|].
  intros m [k ->] Hle. assert (q < k) by nia. nia.
Qed.

Lemma roundUp_spec_witness : 1699999999 ≤ roundUp 1699999999 300 < 1699999999 + 300.
Proof. apply (roundUp_spec 1699999999 300); lia. Defined.

Section search.
Context {W : Type} `{!Clock W, !SearchDecoder}.

Lemma sliceContains_true cont items :
  sliceContains cont items = true ↔ ∃ t, t ∈ cont ∧ t ∈ items.
Proof.
  unfold sliceContains. rewrite existsb_exists. setoid_rewrite existsb_exists.
  setoid_rewrite String.eqb_eq. setoid_rewrite list_elem_of_In. naive_solver.
Qed.

Lemma sliceContains_one l x : sliceContains l [x] = bool_decide (x ∈ l).
Proof.
  apply Bool.eq_iff_eq_true. rewrite sliceContains_true, bool_decide_eq_true.
  split; [intros (t & Ht & ->%list_elem_of_singleton); done|]. intros Hx. exists x. set_solver.
Qed.

Lemma excludeHidden_elem p t :
  t ∈ excludeHidden p ↔ t ∈ NotTags p ∨ t = ClaimTagPrivate ∨ t = ClaimTagUnlisted.
Proof.
  unfold excludeHidden, NotTagsContains. rewrite !sliceContains_one.
  repeat case_bool_decide; simpl in *; set_solver.
Qed.

Lemma map_put_ok m k v (s : Caller * W) m' s' :
  map_put m k v s = (ROk m', s') → ∃ m0, m = Some m0 ∧ m' = Some (<[k:=v]> m0) ∧ s' = s.
Proof. destruct m; [|done]. intros [= <- <-]. eauto. Qed.

(** The search parameters that leave the hook. *)
Definition out_param (q : Query) (k : string) : option value := param_of (ParamsAsMap q) k.

Definition hides (p : ClaimSearchParams) (q' : Query) : Prop :=
  sliceContains (AnyTags p) [ClaimTagPrivate; ClaimTagUnlisted] = false →
  ∃ l, out_param q' "not_tags" = Some (VStrs l) ∧ ClaimTagPrivate ∈ l ∧ ClaimTagUnlisted ∈ l ∧
    ∀ t, t ∈ NotTags p → t ∈ l.

Definition bounds_release (p : ClaimSearchParams) (q' : Query) (w : W) : Prop :=
  sliceContains (AnyTags p) [ClaimTagScheduledShow; ClaimTagScheduledHide] = false →
  ∃ now w1, NowUnix w = (ROk now, w1) ∧
    out_param q' "release_time" =
      Some (VStrs (sp_ReleaseTime p ++ ["<" +:+ Itoa (roundUp now releaseTimeRoundDownSec)])).

Definition hook_keys : list string := ["not_tags"; "release_time"; "order_by"].

Lemma restrictSearch_ok p orig c w m s' :
  restrictSearch (W:=W) p orig (c, w) = (ROk m, s') →
  (HasSource p = Some true →
     (sliceContains (AnyTags p) [ClaimTagPrivate; ClaimTagUnlisted] = false →
        param_of m "not_tags" = Some (VStrs (excludeHidden p))) ∧
     (sliceContains (AnyTags p) [ClaimTagScheduledShow; ClaimTagScheduledHide] = false →
        ∃ now w1, NowUnix w = (ROk now, w1) ∧ param_of m "release_time" =
          Some (VStrs (sp_ReleaseTime p ++ ["<" +:+ Itoa (roundUp now releaseTimeRoundDownSec)])))) ∧
  (∀ k, k ∉ hook_keys → param_of m k = param_of orig k) ∧ (m = None → orig = None).
Proof.
  unfold restrictSearch, AnyTagsContains. case_bool_decide as Hs; [|by intros [= <- <-]].
  intros Hrun. go_inv Hrun.
  assert (s = (c, w) ∧ (sliceContains (AnyTags p) [ClaimTagPrivate; ClaimTagUnlisted] = false →
      param_of a "not_tags" = Some (VStrs (excludeHidden p))) ∧
    (∀ k, k ∉ hook_keys → param_of a k = param_of orig k) ∧ (a = None → orig = None))
    as (-> & Hnt & Hk & Hnone).
  { destruct (sliceContains _ _); simpl in Hc; [by injection Hc as <- <-|].
    apply map_put_ok in Hc as (m0 & -> & -> & ->). split_and!; [done| | |done].
    - intros _. apply lookup_insert_eq.
    - intros k Hk. apply lookup_insert_ne. unfold hook_keys in Hk. set_solver. }
  destruct (sliceContains (AnyTags p) [ClaimTagScheduledShow; _]); simpl in Hrun; [by injection Hrun as <- <-|].
  go_inv Hrun. apply inW_ok in Hc0 as [Hnow _]. apply map_put_ok in Hrun as (m0 & -> & -> & ->).
  split_and!; [|intros k Hk'; rewrite <-Hk by done; apply lookup_insert_ne; unfold hook_keys in Hk'; set_solver|done].
  intros _. split; [intros Hpr; rewrite <-(Hnt Hpr); by apply lookup_insert_ne|].
  intros _. eexists _, _. split; [exact Hnow|]. apply lookup_insert_eq.
Qed.

(** C29: A search for claims with a source cannot list private or unlisted
    claims unless it asks for such a tag, and cannot list claims that are
    released later than five minutes from now unless it asks for scheduled
    ones; the client's own exclusions and bounds are kept. A search without
    an order and without a text is ordered by trending score and release
    time; every other parameter is passed on as it was. *)
Theorem claim_search_hides_unreleased q c w q' s' p :
  decode_Search (ParamsAsMap q) = inr p →
  preflightHookClaimSearch (W:=W) q (c, w) = (ROk q', s') →
  (HasSource p = Some true → hides p q' ∧ bounds_release p q' w) ∧
  (OrderBy p = [] → (∀ t, out_param q "text" = Some (VStr t) → t = "") →
     out_param q' "order_by" = Some (VStrs ["trending_score"; "release_time"])) ∧
  (∀ k, k ∉ hook_keys → out_param q' k = out_param q k).
Proof.
  intros Hdec. unfold preflightHookClaimSearch. rewrite Hdec. intros Hrun. go_inv Hrun.
  apply restrictSearch_ok in Hc as (Hsrc & Hk & Hnone). injection Hrun as Hq' _.
  set (cond := bool_decide (OrderBy p = []) && _) in Hq'.
  assert (∀ k, out_param q' k = if cond && bool_decide (k = "order_by")
                                then Some (VStrs ["trending_score"; "release_time"]) else param_of a k) as Hout.
  { intros k. subst q'. destruct cond; simpl.
    - unfold out_param, ParamsAsMap; simpl. case_bool_decide as Hko; [subst; apply lookup_insert_eq|].
      rewrite lookup_insert_ne by done. by destruct a.
    - destruct a; [done|]. unfold out_param. by rewrite Hnone. }
  split_and!.
  - intros Hs. destruct (Hsrc Hs) as [Hn Hr]. split.
    + intros Hp. exists (excludeHidden p). rewrite Hout, andb_comm. split; [by apply Hn|].
      rewrite !excludeHidden_elem. split_and!; auto. intros t Ht. rewrite excludeHidden_elem. auto.
    + intros Hp. destruct (Hr Hp) as (now & w1 & Hnow & Hrel). exists now, w1. split; [done|].
      by rewrite Hout, andb_comm.
  - intros Ho Htext. rewrite Hout, bool_decide_true, andb_true_r by done.
    replace cond with true; [done|]. symmetry. unfold cond. rewrite bool_decide_true by done. simpl.
    apply bool_decide_eq_true_2. rewrite Hk by (unfold hook_keys; set_solver).
    specialize (Htext). unfold out_param in Htext. destruct (param_of (ParamsAsMap q) "text") as [[]|]; simpl; try done.
    eapply Htext; reflexivity.
  - intros k Hkk. rewrite Hout, bool_decide_false, andb_false_r; [by apply Hk|].
    unfold hook_keys in Hkk. set_solver.
Qed.
End search.

(** ** Concrete runs *)

Module Ex.
Definition free_oracle : Oracle := {|
  o_call _ _ _ := inr (mkResponse "2.0" (VMap ∅) None 0);
  o_load _ _ _ := inr tt; o_delete _ _ := inr tt; o_rand _ _ := 0%nat;
  o_assets _ v := inr v; o_claimurl _ _ := inr ""; o_now _ := 1700000000 * 10 ^ 9;
  o_iapi _ _ path _ := inr (mkReply 200 (Some (VMap
    (<["success" := VBool true]> {["global_mod" := VBool true]}))));
  o_token _ _ _ _ := inr "token"; o_get _ _ := inr None; o_set _ _ _ := inr tt;
  o_invalidate _ _ := inr tt |}.

Definition claim : Claim := {|
  ClaimID := "6c2dd4d5ae4bf4e2a3ad1e3c2d5b8a0a1b2c3d4e"; claim_Name := "secret";
  Tags := ["news"; "c:members-only"];
  GetStream := Some {| ReleaseTime := 0; FeeAmount := 0;
    stream_Source := Some {| SdHash := bytes_of "abcdef"; src_Size := 100 |} |};
  IsMyOutput := false; claim_Receipt := None; SigningChannel := None |}.

Definition client : Client := Clone defaultClient [WithOAuthToken "t"].
Definition moderator : userCtx := Some (Some (NewCurrentUser None "203.0.113.9" (Some client) None)).
Definition anonymous : userCtx := Some (Some (NewCurrentUser None "203.0.113.9" None None)).

Definition cfg : Config := {|
  ArfleetEnabled := false; ArfleetCDN := ""; CacheGetterRetries := 3; RPCTimeouts := ∅;
  StreamsV6 := list_to_map [("paidhost", "secure.example"); ("host", "example");
    ("startpath", "/v6/streams/%s/%s.mp4"); ("token", "t0ken")];
  PaidContentURL := "https://paid.example/" |}.

Definition get_query : Query := mkQuery
  (mkRequest MethodGet (VMap {["uri" := VStr "lbry://secret"]}) 1 "2.0") "".
Definition caller : Caller := NewCaller cfg "http://sdk" 0.

#[export] Instance ex_order : MapOrder.
Proof.
  refine {| range_last m := last (map_to_list m) |}.
  - intros m. rewrite last_None. apply map_to_list_empty_iff.
  - intros m k v Hl. apply elem_of_map_to_list. by apply last_Some_elem_of.
Defined.
#[export] Instance claims : ClaimDecoder := λ _, inr {["lbry://secret" := claim]}.
#[export] Instance urls : URLParser := λ _, Some ("live.example", "/x/master.m3u8").
#[export] Instance search : SearchDecoder := λ m,
  inr {| HasSource := m ≫= (λ m, as_bool (map_get m "has_source"));
         OrderBy := []; sp_ReleaseTime := []; AnyTags := []; NotTags := ["a"] |}.
#[export] Instance curve : ECDSA := ex_ECDSA.
End Ex.

Section witnesses.
Import OracleInstances Concrete Ex.

Lemma checkStreamAccess_sound_witness :
  let o := free_oracle in
  ∃ e w', checkStreamAccess (W:=history) moderator None claim [] = (ROk (true, e), w') ∧
  ∃ ty w1, needs (W:=history) claim ty ∧ granted (W:=history) moderator None claim ty w1 e.
Proof.
  intros o. eexists _, _. split; [vm_compute; reflexivity|].
  edestruct (checkStreamAccess_sound (W:=history) moderator None claim []) as (ty & w1 & H1 & H2 & _);
    [vm_compute; reflexivity|].
  exists ty, w1. split; [exact H1|exact H2].
Defined.

Lemma anonymous_denied_witness :
  let o := free_oracle in
  checkStreamAccess (W:=history) anonymous None claim [] ≠ (ROk (true, None), []).
Proof.
  intros o. eapply (anonymous_denied (W:=history) anonymous None claim [] "c:members-only").
  - intros cu [= <-]. reflexivity.
  - reflexivity.
  - set_solver.
  - constructor.
  - set_solver.
Defined.

Lemma get_restricted_is_signed_witness :
  let o := free_oracle in
  ∃ r s', preflightHookGet (W:=history) cfg moderator get_query (caller, []) = (ROk (Some r), s') ∧
  served (W:=history) cfg moderator get_query (caller, []) r.
Proof.
  intros o. eexists _, _. split; [vm_compute; reflexivity|].
  eapply (get_restricted_is_signed (W:=history) cfg moderator get_query (caller, [])).
  vm_compute. reflexivity.
Defined.

(** A purchase made now: the SDK accepts [purchase_create], and the claim
  resolved afterwards has a receipt. *)
Definition bought : Claim := {|
  ClaimID := "6c2d"; claim_Name := "movie"; Tags := []; GetStream := None; IsMyOutput := false;
  claim_Receipt := Some {| Txid := "tx1"; receipt_fields := ∅ |}; SigningChannel := None |}.

Lemma findPurchase_sound_witness :
  let o := free_oracle in
  let D : ClaimDecoder := λ _, inr {["lbry://movie" := bought]} in
  let q := mkQuery (mkRequest MethodGet (VMap ∅) 1 "2.0") "lbrytv-id.7.wallet" in
  ∃ s', findPurchase (W:=history) (H3:=D) cfg anonymous q "lbry://movie" claim (caller, []) =
    (ROk (bought, "tx1", true), s') ∧
  purchased (W:=history) cfg anonymous q "lbry://movie" claim bought "tx1".
Proof.
  intros o D q. eexists. split; [vm_compute; reflexivity|].
  eapply (findPurchase_sound (W:=history) (H3:=D) cfg anonymous q "lbry://movie" claim (caller, [])).
  vm_compute. reflexivity.
Defined.

Lemma claim_search_hides_unreleased_witness :
  let o := free_oracle in
  let q := mkQuery (mkRequest MethodClaimSearch (VMap {["has_source" := VBool true]}) 1 "2.0") "" in
  ∃ p q' s', decode_Search (ParamsAsMap q) = inr p ∧ HasSource p = Some true ∧
  preflightHookClaimSearch (W:=history) q (caller, []) = (ROk q', s') ∧
  hides p q' ∧ bounds_release (W:=history) p q' [].
Proof.
  intros o q. eexists _, _, _. split; [vm_compute; reflexivity|]. split; [reflexivity|].
  split; [vm_compute; reflexivity|].
  refine (proj1 (claim_search_hides_unreleased (W:=history) q caller [] _ _ _ _ _) _);
    vm_compute; reflexivity.
Defined.
End witnesses.
