(* ===== verification/Cache.v ===== *)
(** * The query cache

    Models [app/query/cache.go], the cache hook of [processors.go],
    [app/query/errors.go] and the replicated store of
    [pkg/sturdycache/sturdycache.go].  The redis stores, JSON marshalling and
    chainquery are parameters.  [singleflight] only merges identical concurrent
    calls and is left out: a call is modelled as the one that runs. *)

From S2P Require Import Prelude GoLib Rpc Errors Query Router Iapi Http Services Hashes Caller.
From Stdlib Require Import Ascii.

Local Open Scope Z_scope.

Definition methodTagSeparator : string := ":".
Definition invalidationInterval : Z := 15 * 10 ^ 9.

Record CacheRequest := mkCacheRequest {
  cq_Method : string;
  cq_Params : value;
  metaKey : string;
}.

Definition NewCacheRequest (method : string) (params : value) (meta : string) : CacheRequest :=
  mkCacheRequest method params meta.

(** Nanoseconds. *)
Definition Expiration (r : CacheRequest) : Z :=
  if bool_decide (cq_Method r = MethodResolve) then 600 * 10 ^ 9
  else if bool_decide (cq_Method r = MethodClaimSearch) then 160 * 10 ^ 9
  else 60 * 10 ^ 9.

Definition method_tag (m : string) : string := ParamMethod +:+ methodTagSeparator +:+ m.
Definition cq_Tags (r : CacheRequest) : list string := [method_tag (cq_Method r)].

(** [json.Marshal]; [None] is an error. *)
Class JSONMarshal := json_Marshal : value → option string.

Definition userInputSDKErrors : list string := ["expected string or bytes-like object"].

Definition isUserInputError (e : RPCError) : bool :=
  existsb (λ m, Contains (Message e) m) userInputSDKErrors.

(** [CachedResponse.RPCResponse(id)] *)
Definition RPCResponse_of (r : CachedResponse) (id : Z) : RPCResponse :=
  {| resp_JSONRPC := "2.0"; Result := cr_Result r; resp_Error := cr_Error r; resp_ID := id |}.

(** [chainquery.GetHeight]. *)
Class Chainquery (W : Type) := GetHeight : Go W Z.

Section key.
Context `{!JSONMarshal}.

(** What [GetCacheKey] feeds to the digest. *)
Definition cache_preimage (r : CacheRequest) : string :=
  let params := match cq_Params r with
                | VNil => "()"
                | p => match json_Marshal p with None => "(error)" | Some s => s end
                end in
  "[" +:+ metaKey r +:+ "]" +:+ "request" +:+ ":" +:+ cq_Method r +:+ ":" +:+ params.

Definition GetCacheKey (r : CacheRequest) : string := hex_encode (md5_Sum (bytes_of (cache_preimage r))).
End key.

Section retrieve.
Context {W : Type} `{!JSONMarshal, !CacheStore W, !Monitor W}.

(** The getter's response is a pointer; a nil one is dereferenced. *)
Definition Retrieve (q : Query) (getter : option (Go (Caller * W) (option RPCResponse)))
  : Go (Caller * W) (option CachedResponse) :=
  let cacheReq := NewCacheRequest (q_Method q) (q_Params q) "" in
  let! hit := try (inW (store_Get (GetCacheKey cacheReq))) in
  match hit with
  | inr h => ret h
  | inl err =>
      if negb (IsStoreNotFound err) then ret None else
      match getter with
      | None => ret None
      | Some getter =>
          let! obj := try getter in
          match obj with
          | inl err => fail (EWrapf "error calling getter: " err "")
          | inr None => gopanic "nil pointer dereference"
          | inr (Some res) =>
              let cacheResp := {| cr_Result := Result res; cr_Error := resp_Error res |} in
              match resp_Error res with
              | Some _ => ret (Some cacheResp)
              | None =>
                  let! s := try (inW (store_Set (GetCacheKey cacheReq) cacheResp
                                       (Expiration cacheReq) (cq_Tags cacheReq))) in
                  match s with
                  | inl err => inW (ErrorToSentry (Some (EWrapf "error during cache.set: " err ""))) ;;!
                               ret (Some cacheResp)
                  | inr _ => ret (Some cacheResp)
                  end
              end
          end
      end
  end.
End retrieve.

Section hook.
Context {W : Type} `{!JSONMarshal, !CacheStore W, !Ljsonrpc, !MapOrder, !SDKClient W,
  !WalletService W, !Random W, !Monitor W, !Arweave W}.
Context (cfg : Config).

(** The getter: [left] attempts to go; [last] is what the previous one gave. *)
Fixpoint cacheGetter (left : nat) (q : Query) (last : error + option RPCResponse)
  : Go (Caller * W) (option RPCResponse) :=
  match left with
  | O => match last with inl e => fail e | inr r => ret r end
  | S left' =>
      let! r := try (SendQuery cfg q) in
      match r with
      | inl e => RandomizeEndpoint ;;! cacheGetter left' q (inl e)
      | inr resp =>
          match resp_Error resp with
          | None => ret (Some resp)
          | Some e => if isUserInputError e then ret (Some resp)
                      else RandomizeEndpoint ;;! cacheGetter left' q (inr (Some resp))
          end
      end
  end.

Definition preflightCacheHook (q : Query) : Go (Caller * W) (option RPCResponse) :=
  let! c := the_caller in
  if negb (HasCache c) then ret None else
  let! r := try (Retrieve q (Some (cacheGetter (CacheGetterRetries cfg) q (inr None)))) in
  match r with
  | inl e => fail (NewSDKError e)
  | inr None => ret None
  | inr (Some cr) => ret (Some (RPCResponse_of cr (ID (Request q))))
  end.
End hook.

(** ** Invalidation on a new block *)

Section invalidator.
Context {W : Type} `{!CacheStore W, !Chainquery W}.

(** The state is the height last seen. *)
Definition atW {A} (c : Go W A) : Go (Z * W) A := λ '(n, w), let '(r, w') := c w in (r, (n, w')).

Definition runInvalidator : Go (Z * W) unit :=
  let! h := try (atW GetHeight) in
  match h with
  | inl e => fail (EWrapf "failed to get current height: " e "")
  | inr height =>
      let! cur := gets fst in
      if height <=? cur then ret tt else
      modify (λ '(_, w), (height, w)) ;;!
      let! r := try (atW (store_Invalidate [method_tag MethodClaimSearch])) in
      match r with
      | inl e => fail (EWrapf ("failed to invalidate " +:+ MethodClaimSearch +:+ " entries: ") e "")
      | inr _ => ret tt
      end
  end.
End invalidator.

(** ** The replicated store *)

Section replicated.
Context {W V : Type}.

(** [Get], and [GetWithTTL] with pairs as values: the replicas in order, then
    the master. *)
Fixpoint rc_Get (replicaCaches : list (string → Go W V)) (masterCache : string → Go W V) (key : string)
  : Go W V :=
  match replicaCaches with
  | [] => masterCache key
  | cache :: rest =>
      let! r := try (cache key) in
      match r with
      | inr v => ret v
      | inl _ => rc_Get rest masterCache key
      end
  end.
End replicated.
