(* ===== verification/CacheSpec.v ===== *)
(** * Properties of the query cache

    Keys keep the wallets apart; a retrieval stores exactly the answers that
    hold no error and calls the SDK only on a miss; the invalidator acts once per
    new block. *)

From S2P Require Import Prelude GoLib Rpc Errors Query Router Iapi Http Services WalletDB Hashes Caller Access AccessSpec Cache.

Local Open Scope Z_scope.

(** ** Keys *)

Section keys.
Context `{!JSONMarshal}.

Lemma cache_preimage_inj r1 r2 :
  metaKey r1 = metaKey r2 → cq_Method r1 = cq_Method r2 → cq_Params r1 ≠ VNil → cq_Params r2 ≠ VNil →
  cache_preimage r1 = cache_preimage r2 →
  default "(error)" (json_Marshal (cq_Params r1)) = default "(error)" (json_Marshal (cq_Params r2)).
Proof.
  intros Hk Hm H1 H2. unfold cache_preimage. rewrite Hk, Hm.
  do 7 (intros Heq; apply app_inj_l in Heq; revert Heq).
  destruct (cq_Params r1), (cq_Params r2); done.
Qed.

End keys.

(** A marshaller that writes the wallet id only. *)
Definition ex_marshal : JSONMarshal := λ v,
  match v with
  | VMap m => Some (match m !! ParamWalletID with Some (VStr s) => s | _ => "" end)
  | _ => None
  end.

(** ** Retrieval *)

Section retrieve.
Import OracleInstances.
Context (o : Oracle) `{!JSONMarshal, !Ljsonrpc, !MapOrder} (cfg : Config).

Abbreviation CW := (Caller * history)%type.

(** Calls made to the SDK in a stretch of history. *)
Definition calls (evs : history) : nat := length (call_results evs).

Lemma calls_app e1 e2 : calls (e1 ++ e2) = (calls e1 + calls e2)%nat.
Proof. unfold calls. by rewrite call_results_app, length_app. Qed.

(** No cache entry is written. *)
Definition is_set (e : event) : Prop := match e with EvSet _ _ _ _ _ => True | _ => False end.
Definition nosets : relation history := λ h h', ∃ evs, h' = h ++ evs ∧ Forall (λ e, ¬ is_set e) evs.

#[local] Instance nosets_preorder : PreOrder nosets.
Proof.
  split.
  - intros h. exists []. by rewrite app_nil_r.
  - intros h1 h2 h3 (e1 & -> & F1) (e2 & -> & F2). exists (e1 ++ e2).
    rewrite app_assoc. split; [done|]. by apply Forall_app.
Qed.

Lemma nosets_one h e : ¬ is_set e → nosets h (h ++ [e]).
Proof. exists [e]. split; [done|]. by constructor. Qed.

Lemma interact_nosets {A} (answer : history → error + A) ev :
  (∀ r, ¬ is_set (ev r)) → extends nosets (interact answer ev).
Proof. intros Hev h. apply nosets_one, Hev. Qed.

Lemma nosets_call ep rq : extends nosets (CallRaw ep rq : Go history RPCResponse).
Proof. apply interact_nosets. by intros r []. Qed.
Lemma nosets_load ep uid : extends nosets (LoadWallet ep uid : Go history unit).
Proof. apply interact_nosets. by intros r []. Qed.
Lemma nosets_delete uid : extends nosets (DeleteUser uid : Go history unit).
Proof. apply interact_nosets. by intros r []. Qed.
Lemma nosets_sentry e : extends nosets (ErrorToSentry e : Go history unit).
Proof. intros h. apply nosets_one; by intros []. Qed.
Lemma nosets_audit u i m b : extends nosets (LogQuery u i m b : Go history unit).
Proof. intros h. apply nosets_one; by intros []. Qed.
Lemma nosets_urls b v c i : extends nosets (ReplaceAssetUrls b v c i : Go history value).
Proof. apply interact_nosets. by intros r []. Qed.
Lemma nosets_url b v p : extends nosets (ReplaceAssetUrl b v p : Go history value).
Proof. apply interact_nosets. by intros r []. Qed.
#[local] Hint Resolve nosets_call nosets_load nosets_delete nosets_sentry nosets_audit nosets_urls
  nosets_url : go.

Lemma sendAttempts_nosets left : ∀ i ep uid q r,
  extends nosets (sendAttempts (W:=history) left i ep uid q r).
Proof.
  induction left as [|left IH]; intros; cbn [sendAttempts]; unfold giveUpOnWallet; go_paths.
Qed.

Lemma run_post_nosets hk r : extends nosets (run_post (W:=history) cfg hk r).
Proof.
  destruct hk; cbn [run_post]; unfold postClaimSearchArfleetThumbs, postResolveArfleetThumbs; go_paths.
Qed.
#[local] Hint Resolve run_post_nosets sendAttempts_nosets : go.

Lemma applyPostflight_nosets hs m : ∀ r, extends nosets (applyPostflight (W:=history) cfg hs m r).
Proof. induction hs as [|hk hs IH]; intros r; cbn [applyPostflight]; go_paths. Qed.
#[local] Hint Resolve applyPostflight_nosets : go.

Lemma SendQuery_nosets q c h : nosets h (SendQuery (W:=history) cfg q (c, h)).2.2.
Proof.
  unfold SendQuery. rewrite (bind_ok _ _ _ c (c, h)) by done. unfold bind. rewrite inW_run.
  pose proof (sendAttempts_nosets walletLoadRetries 0 (endpoint c) (userID c) q None h) as Hn.
  destruct (sendAttempts _ _ _ _ _ _ h) as [[[r|]|e|w] h1]; [|exact Hn..].
  cbn -[inW applyPostflight]. rewrite inW_run. etrans; [exact Hn|]. apply applyPostflight_nosets.
Qed.

(** At most [n] SDK calls, no cache write, and at most the endpoint of the
    caller changes. *)
Definition steps (n : nat) (s s' : CW) : Prop :=
  ∃ evs, s'.2 = s.2 ++ evs ∧ (calls evs <= n)%nat ∧ Forall (λ e, ¬ is_set e) evs ∧
    set_endpoint (endpoint s.1) s'.1 = s.1.

Lemma steps_refl s : steps 0 s s.
Proof. exists []. rewrite app_nil_r. split_and!; [done|unfold calls; simpl; lia|constructor|by destruct s as [[] h]]. Qed.

Lemma steps_trans n1 n2 n s1 s2 s3 :
  steps n1 s1 s2 → steps n2 s2 s3 → (n1 + n2 <= n)%nat → steps n s1 s3.
Proof.
  intros (e1 & P1 & C1 & S1 & E1) (e2 & P2 & C2 & S2 & E2) Hn. exists (e1 ++ e2).
  rewrite P2, P1, app_assoc, calls_app. split_and!; [done|lia|by apply Forall_app|].
  destruct s1 as [[] ?], s2 as [[] ?], s3 as [[] ?]; unfold set_endpoint in *; simpl in *; by simplify_eq.
Qed.

Lemma SendQuery_steps q s : steps 3 s (SendQuery (W:=history) cfg q s).2.
Proof.
  destruct s as [c h]. destruct (SendQuery_calls o cfg c q h) as (evs & Hst & Hlen).
  destruct (SendQuery_nosets q c h) as (evs' & Hst' & Hns). rewrite Hst in Hst'. simpl in Hst'.
  apply app_inv_head in Hst' as <-. exists evs. rewrite Hst. simpl. split_and!; [done| |done|by destruct c].
  exact Hlen.
Qed.

Lemma RandomizeEndpoint_steps s : steps 0 s (RandomizeEndpoint (W:=history) s).2.
Proof.
  destruct s as [c h]. unfold RandomizeEndpoint. rewrite (bind_ok _ _ _ c (c, h)) by done.
  destruct (_ || _); [apply steps_refl|].
  destruct (filter _ _) as [|e0 ex]; [apply steps_refl|]. unfold bind. rewrite inW_run.
  cbn [rand_IntN oracle_random fst snd].
  set (i := (_ `mod` _)%nat).
  destruct (_ !! _); exists [EvRand (length (e0 :: ex)) i]; (split_and!; [done|done| |by destruct c]);
    (constructor; [by intros []|constructor]).
Qed.

Lemma cacheGetter_steps q : ∀ left last s,
  steps (3 * left) s (cacheGetter (W:=history) cfg left q last s).2.
Proof.
  induction left as [|left IH]; intros last s; cbn [cacheGetter].
  { destruct last; apply steps_refl. }
  pose proof (SendQuery_steps q s) as Hs. unfold bind at 1, try.
  destruct (SendQuery cfg q s) as [[resp|e|w] s1]; simpl snd in Hs.
  - destruct (resp_Error resp) as [er|];
      [destruct (isUserInputError er)|]; try (by eapply steps_trans; [exact Hs|apply steps_refl|lia]).
    pose proof (RandomizeEndpoint_steps s1) as Hr. unfold bind.
    destruct (RandomizeEndpoint s1) as [[[]|e|w] s2]; simpl snd in Hr.
    + eapply steps_trans; [eapply steps_trans; [exact Hs|exact Hr|done]|apply IH|lia].
    + eapply steps_trans; [exact Hs|exact Hr|lia].
    + eapply steps_trans; [exact Hs|exact Hr|lia].
  - pose proof (RandomizeEndpoint_steps s1) as Hr. unfold bind.
    destruct (RandomizeEndpoint s1) as [[[]|e'|w] s2]; simpl snd in Hr.
    + eapply steps_trans; [eapply steps_trans; [exact Hs|exact Hr|done]|apply IH|lia].
    + eapply steps_trans; [exact Hs|exact Hr|lia].
    + eapply steps_trans; [exact Hs|exact Hr|lia].
  - eapply steps_trans; [exact Hs|apply steps_refl|lia].
Qed.

Definition query_key (q : Query) : string := GetCacheKey (NewCacheRequest (q_Method q) (q_Params q) "").

(** The shape of a retrieval's history: a lookup, the getter's calls, and at
    most a write and a report. *)
Lemma retrieval_events n c h g s1 s' tail :
  steps n (c, h ++ [EvGet g.1 g.2]) s1 → s'.2 = s1.2 ++ tail → s'.1 = s1.1 → calls tail = 0%nat →
  ∃ evs, s'.2 = h ++ evs ∧ (calls evs <= n)%nat ∧ set_endpoint (endpoint c) s'.1 = c ∧
    ∀ e, is_set e → e ∈ evs → e ∈ tail.
Proof.
  intros (e1 & P1 & C1 & S1 & E1) P2 E2 Ct. exists ([EvGet g.1 g.2] ++ e1 ++ tail).
  rewrite P2, P1. simpl in *. rewrite <-!app_assoc. split_and!; [done| |by rewrite E2|].
  - change (EvGet g.1 g.2 :: e1 ++ tail) with ([EvGet g.1 g.2] ++ (e1 ++ tail)).
    rewrite !calls_app, Ct. unfold calls at 1. simpl. lia.
  - intros e He. rewrite elem_of_cons, elem_of_app. rewrite Forall_forall in S1.
    intros [->|[Hin|Hin]]; [done| |done]. by apply S1 in Hin.
Qed.

(** What a retrieval for [q] with outcome [r] leaves behind. *)
Definition retrieval (q : Query) (c : Caller) (h : history) (n : nat)
    (r : result error (option CachedResponse)) (s' : CW) : Prop :=
  ∃ evs, s'.2 = h ++ evs ∧ (calls evs <= n)%nat ∧ set_endpoint (endpoint c) s'.1 = c ∧
    (∀ hit, o_get o h (query_key q) = inr hit → r = ROk hit ∧ calls evs = 0%nat) ∧
    (∀ e, o_get o h (query_key q) = inl e → IsStoreNotFound e = false → r = ROk None ∧ calls evs = 0%nat) ∧
    (∀ k v ttl tags res, EvSet k v ttl tags res ∈ evs →
       k = query_key q ∧ cr_Error v = None ∧ r = ROk (Some v) ∧ tags = [method_tag (q_Method q)] ∧
       ttl = Expiration (NewCacheRequest (q_Method q) (q_Params q) "")).

#[local] Opaque GetCacheKey.

Lemma retrieval_nocall q c h n g r :
  match o_get o h (query_key q) with
  | inr hit => r = ROk hit
  | inl e => r = ROk None ∧ IsStoreNotFound e = false
  end → retrieval q c h n r (c, h ++ [EvGet g.1 g.2]).
Proof.
  intros Hr. exists [EvGet g.1 g.2]. unfold calls. simpl. split_and!; [done|lia|by destruct c|..].
  - intros hit Heq. by rewrite Heq in Hr.
  - intros e Heq. rewrite Heq in Hr. naive_solver.
  - intros k v t gs res Hin. set_solver.
Qed.

Lemma retrieval_miss q c h n err s1 s' tail r :
  o_get o h (query_key q) = inl err → IsStoreNotFound err = true →
  steps n (c, h ++ [EvGet (query_key q) (inl err)]) s1 →
  s'.2 = s1.2 ++ tail → s'.1 = s1.1 → calls tail = 0%nat →
  (∀ k v ttl tags res, EvSet k v ttl tags res ∈ tail →
     k = query_key q ∧ cr_Error v = None ∧ r = ROk (Some v) ∧ tags = [method_tag (q_Method q)] ∧
     ttl = Expiration (NewCacheRequest (q_Method q) (q_Params q) "")) →
  retrieval q c h n r s'.
Proof.
  intros Hg Hnf Hst P E Ct Hset.
  destruct (retrieval_events _ _ _ (query_key q, inl err) s1 s' tail Hst P E Ct)
    as (evs & P' & C' & E' & Hin).
  exists evs. split_and!; [done|done|done|congruence|intros e He; congruence|].
  intros k v ttl tags res Hev. by apply (Hset k v ttl tags res), Hin.
Qed.

(** C6: What a cached query does. A hit is answered from the store, without any
    SDK call. On a miss the SDK is called at most three times per allowed
    retry; a store failure other than a miss bypasses the cache. Only
    error-free responses are stored, under the query's own key, with the
    expiration and tag of its method, and what is stored is what is returned.
    At most the endpoint of the caller is changed. *)
Theorem Retrieve_spec q c h :
  let n := CacheGetterRetries cfg in
  let '(r, s') := Retrieve (W:=history) q (Some (cacheGetter (W:=history) cfg n q (inr None))) (c, h) in
  retrieval q c h (3 * n) r s'.
Proof.
  cbv zeta. unfold Retrieve. fold (query_key q). unfold bind at 1, try at 1. rewrite inW_run.
  cbn [store_Get oracle_cache].
  destruct (o_get o h (query_key q)) as [err|hit] eqn:Hg;
    [rewrite (interact_err _ _ _ _ Hg)|rewrite (interact_ok _ _ _ _ Hg)]; cbn [fst snd].
  2: { refine (retrieval_nocall q c h _ (query_key q, inr hit) _ _). by rewrite Hg. }
  destruct (IsStoreNotFound err) eqn:Hnf; cbn [negb].
  2: { refine (retrieval_nocall q c h _ (query_key q, inl err) _ _). by rewrite Hg. }
  set (n := CacheGetterRetries cfg).
  pose proof (cacheGetter_steps q n (inr None) (c, h ++ [EvGet (query_key q) (inl err)])) as Hst.
  unfold bind at 1, try at 1. destruct (cacheGetter _ _ _ _ _) as [r1 s1]. cbn [snd] in Hst.
  destruct r1 as [[res|]|e|w].
  2-4: refine (retrieval_miss q c h _ err s1 _ [] _ _ _ _ _ _ _ _); [done..|by rewrite app_nil_r|done|done|set_solver].
  destruct (resp_Error res) as [er|] eqn:Her.
  { refine (retrieval_miss q c h _ err s1 _ [] _ _ _ _ _ _ _ _); [done..|by rewrite app_nil_r|done|done|set_solver]. }
  unfold bind at 1, try. destruct s1 as [c1 h1]. rewrite inW_run. cbn [store_Set oracle_cache].
  destruct (o_set o h1 (query_key q) (mkCached (Result res) None)) as [e|[]] eqn:Hs;
    [rewrite (interact_err _ _ _ _ Hs)|rewrite (interact_ok _ _ _ _ Hs)]; cbn [fst snd].
  - unfold bind. rewrite inW_run. cbn [fst snd ErrorToSentry oracle_monitor ret].
    refine (retrieval_miss q c h _ err (c1, h1) _ [_; _] _ _ _ _ _ _ _ _); [done..|simpl; by rewrite <-app_assoc|done|done|].
    intros k v t g r Hin. repeat (apply elem_of_cons in Hin as [Hin|Hin]; [by simplify_eq|]). set_solver.
  - refine (retrieval_miss q c h _ err (c1, h1) _ [_] _ _ _ _ _ _ _ _); [done..|].
    intros k v t g r Hin. repeat (apply elem_of_cons in Hin as [Hin|Hin]; [by simplify_eq|]). set_solver.
Qed.
End retrieve.

(** With no retries configured the getter returns a nil response, and a cache
    miss dereferences it. *)
Lemma cache_miss_without_retries_panics (o : Oracle) `{!JSONMarshal, !Ljsonrpc, !MapOrder} cfg q c h err :
  CacheGetterRetries cfg = 0%nat → HasCache c = true →
  o_get o h (query_key q) = inl err → IsStoreNotFound err = true →
  ∃ w s', preflightCacheHook (W:=history) (SDKClient0:=oracle_SDK o) (WalletService0:=oracle_wallet o)
    (Random0:=oracle_random o) (Monitor0:=oracle_monitor) (Arweave0:=oracle_arweave o)
    (CacheStore0:=oracle_cache o) cfg q (c, h) = (RPanic w, s').
Proof.
  intros Hr Hc Hg Hnf. unfold preflightCacheHook. rewrite (bind_ok _ _ _ c (c, h)) by done.
  rewrite Hc. cbn [negb]. unfold bind at 1, try at 1, Retrieve, bind at 1, try at 1. rewrite inW_run.
  cbn [store_Get oracle_cache]. fold (query_key q). rewrite (interact_err _ _ _ _ Hg), Hr. cbn [fst snd].
  rewrite Hnf. eauto.
Qed.

(** ** Invalidation *)

Section invalidator.
Context {W : Type} `{!CacheStore W, !Chainquery W}.

Lemma atW_run {A} (m : Go W A) n w : atW m (n, w) = ((m w).1, (n, (m w).2)).
Proof. unfold atW. by destruct (m w). Qed.

(** One run of the invalidator: the height it remembers never decreases and
    never exceeds the chain's; search results are invalidated exactly when the
    chain has grown. The height is advanced before the invalidation, so a
    failed invalidation is reported but not repeated while the height stays
    the same. *)
Theorem runInvalidator_spec n w h w1 :
  GetHeight w = (ROk h, w1) →
  let '(r, (n', w')) := runInvalidator (W:=W) (n, w) in
  n' = Z.max n h ∧
  (if n <? h then w' = (store_Invalidate [method_tag MethodClaimSearch] w1).2 else r = ROk tt ∧ w' = w1) ∧
  (∀ w2, GetHeight w' = (ROk h, w2) → runInvalidator (n', w') = (ROk tt, (n', w2))).
Proof.
  intros Hh. assert (∀ n0 w0 w2, GetHeight w0 = (ROk h, w2) → h ≤ n0 →
    runInvalidator (n0, w0) = (ROk tt, (n0, w2))) as Hskip.
  { intros n0 w0 w2 Hg Hle. unfold runInvalidator, bind at 1, try. rewrite atW_run, Hg. simpl.
    unfold bind, gets. simpl. by destruct (Z.leb_spec h n0); [|lia]. }
  destruct (Z.ltb_spec n h) as [Hlt|Hge].
  - unfold runInvalidator at 1, bind at 1, try at 1. rewrite atW_run, Hh. cbn [fst snd].
    unfold bind at 1, gets. cbn [fst snd]. destruct (Z.leb_spec h n); [lia|].
    unfold bind at 1, modify, bind, try. rewrite atW_run.
    destruct (store_Invalidate _ w1) as [[[]|e|p] w2]; cbn [fst snd ret fail];
      (split_and!; [lia|done|]); intros w3 Hw3; by apply Hskip; [|lia].
  - rewrite (Hskip n w w1 Hh Hge). split_and!; [lia|done..|]. intros w2 Hw2. by apply Hskip.
Qed.
End invalidator.

Lemma runInvalidator_spec_witness :
  let S : CacheStore nat := {| store_Get _ := fail (EStoreNotFound ""); store_Set _ _ _ _ := ret tt;
                               store_Invalidate _ := λ k, (RErr (EText "redis is down"), S k) |} in
  let C : Chainquery nat := ret 101 in
  runInvalidator (W:=nat) (100, 0%nat) =
    (RErr (EWrapf "failed to invalidate claim_search entries: " (EText "redis is down") ""), (101, 1%nat)) ∧
  runInvalidator (W:=nat) (101, 1%nat) = (ROk tt, (101, 1%nat)).
Proof.
  intros S C. split; [vm_compute; reflexivity|].
  exact (proj2 (proj2 (runInvalidator_spec (W:=nat) 100 0%nat 101 0%nat eq_refl)) 1%nat eq_refl).
Defined.

(** ** The replicated store *)

(** The answer is that of the first replica that has the key, and otherwise the
    master's, whatever the replicas' errors were. *)
Lemma rc_Get_spec {V} (replicas : list (string → Go unit V)) master key :
  (∀ c k w s', c ∈ master :: replicas → c k tt ≠ (RPanic w, s')) →
  (∃ pre c post v, replicas = pre ++ c :: post ∧ (c key tt).1 = ROk v ∧
     Forall (λ c, ∃ e, (c key tt).1 = RErr e) pre ∧ rc_Get replicas master key tt = (ROk v, tt)) ∨
  (Forall (λ c, ∃ e, (c key tt).1 = RErr e) replicas ∧ rc_Get replicas master key tt = master key tt).
Proof.
  intros Hnp. induction replicas as [|c cs IH]; [by right|]. simpl. unfold bind, try.
  destruct (c key tt) as [[v|e|p] []] eqn:Hc.
  - left. exists [], c, cs, v. rewrite Hc. by repeat split.
  - destruct IH as [(pre & c' & post & v & -> & Hv & Hf & Hr)|[Hf Hr]].
    + intros c' k w s' Hin. apply Hnp. set_solver.
    + left. exists (c :: pre), c', post, v. split_and!; [done..| |done]. constructor; [|done].
      rewrite Hc. eauto.
    + right. split; [|done]. constructor; [|done]. rewrite Hc. eauto.
  - exfalso. eapply (Hnp c); [set_solver|done].
Qed.
