(* ===== verification/Call.v ===== *)
(** * Dispatch of a JSON-RPC call

    Models [Caller.Call] and [Caller.call] of [app/query/caller.go]: the query
    is built, run through the matching preflight hooks, and sent.  [run_pre]
    interprets the hooks: the built-in ones of [Access.v] and [Cache.v], and
    the one [app/publish] adds to set the file path. *)

From S2P Require Import Prelude GoLib Rpc Errors Query Router Iapi Http Services Wallet Auth Hashes Paid Caller Access Cache.

Local Open Scope Z_scope.

Definition fileNameParam : string := "file_path".

Section call.
Context {W : Type} `{!Ljsonrpc, !MapOrder, !SDKClient W, !WalletService W, !Random W, !Monitor W,
  !Arweave W, !IAPITransport W, !IAPIDecoders, !Clock W, !ECDSA, !PaidTokens W,
  !ClaimDecoder, !URLParser, !SearchDecoder, !JSONMarshal, !CacheStore W}.
Context (cfg : Config) (ctx : userCtx).

(** A hook reads and writes the query attached to the context; it may answer
    the call. *)
Definition run_pre (h : preHook) (q : Query) : Go (Caller * W) (Query * option RPCResponse) :=
  match h with
  | HStatus => ret (q, Some (getStatusResponse q))
  | HGet => let! r := preflightHookGet cfg ctx q in ret (q, r)
  | HClaimSearch => let! q := preflightHookClaimSearch q in ret (q, None)
  | HCache => let! r := preflightCacheHook cfg q in ret (q, r)
  | HSetFilePath f =>
      match ParamsAsMap q with
      | None => gopanic "assignment to entry in nil map"
      | Some params => ret (put_params q (<[fileNameParam := VStr f]> params), None)
      end
  end.

Fixpoint applyPreflight (hs : list (hookEntry preHook)) (q : Query)
  : Go (Caller * W) (Query * option RPCResponse) :=
  match hs with
  | [] => ret (q, None)
  | h :: hs' =>
      if isMatchingHook (q_Method q) h then
        let! r := try (run_pre (hk_function h) q) in
        match r with
        | inl e => fail (NewSDKError e)
        | inr (q, Some res) => ret (q, Some res)
        | inr (q, None) => applyPreflight hs' q
        end
      else applyPreflight hs' q
  end.

Definition call (req : RPCRequest) : Go (Caller * W) RPCResponse :=
  let! c := the_caller in
  if bool_decide (endpoint c = "") then fail (Errs "cannot call blank endpoint") else
  let walletID := if negb (userID c =? 0) then wallet_id_of (userID c) else "" in
  let! q := lift (NewQuery req walletID) in
  let! r := applyPreflight (preflightHooks c) q in
  match r with
  | (_, Some res) => ret res
  | (q, None) => SendQuery cfg q
  end.

(** [Call] adds metrics only. *)
Definition Caller_Call (req : RPCRequest) : Go (Caller * W) RPCResponse := call req.
End call.

(** ** Every request sent to the SDK *)

(** What may be sent for a caller with wallet [w] ([w] empty when nobody is
    authenticated): a method of the tables, without forbidden parameters; with
    a wallet, a wallet method carries this wallet's id; without one, only
    relaxed methods. *)
Definition request_ok (w : string) (req : RPCRequest) : Prop :=
  (Method req ∈ relaxedMethods ∨ Method req ∈ walletSpecificMethods) ∧
  (∀ p, p ∈ forbiddenParams → param req p = None) ∧
  (w = "" → Method req ∈ relaxedMethods) ∧
  (w ≠ "" → Method req ∈ walletSpecificMethods → param req ParamWalletID = Some (VStr w)).

Definition query_ok (w : string) (q : Query) : Prop := WalletID q = w ∧ request_ok w (Request q).

(** The wallet id of a request sent for a client request that carries the
    wallet id [c]: the caller's own where the caller has a wallet and the
    method accepts one; in the other cases nobody checks it, so it is absent
    (the requests of hooks) or the one the client sent. *)
Definition request_bound (w : string) (c : option value) (req : RPCRequest) : Prop :=
  request_ok w req ∧
  (w ≠ "" ∧ Method req ∈ walletSpecificMethods ∧ param req ParamWalletID = Some (VStr w) ∨
   (w = "" ∨ Method req ∉ walletSpecificMethods) ∧ Method req ∈ relaxedMethods ∧
   (param req ParamWalletID = None ∨ param req ParamWalletID = c)).

Definition query_bound (w : string) (c : option value) (q : Query) : Prop :=
  WalletID q = w ∧ request_bound w c (Request q).

Lemma NewQuery_query_ok req w q : NewQuery req w = ROk q → query_ok w q.
Proof.
  intros Hok. apply NewQuery_ok_inv in Hok as (Hm & Hf & Hid & Hcase). split; [done|].
  destruct Hcase as [(Hin & Hw & Hr)|(Hr & Hin & Hor)]; unfold request_ok; rewrite Hr; simpl.
  - split_and!; [done| |done|].
    + intros p Hp. unfold param. simpl. rewrite lookup_insert_ne.
      * specialize (Hf p Hp). unfold param in Hf. destruct (Params req); simpl; try apply lookup_empty; done.
      * intros <-. revert Hp. unfold forbiddenParams, ParamWalletID. set_solver.
    + intros _ _. unfold param. simpl. apply lookup_insert_eq.
  - split_and!; [done..|]. intros Hw Hwm. by destruct Hor.
Qed.

(** Writing a parameter that is neither the wallet id nor a forbidden one. *)
Lemma request_ok_params w q m :
  query_ok w q →
  (∀ k, k ∈ ParamWalletID :: forbiddenParams → m !! k = param_of (ParamsAsMap q) k) →
  query_ok w (put_params q m).
Proof.
  intros [Hw (Hm & Hf & H1 & H2)] Hk. split; [done|].
  assert (∀ k, k ∈ ParamWalletID :: forbiddenParams →
    param (Request (put_params q m)) k = param (Request q) k) as Hsame.
  { intros k Hin. unfold param; simpl. rewrite Hk by done.
    unfold ParamsAsMap, q_Params, param_of. by destruct (Params (Request q)). }
  split_and!; [done| |done|].
  - intros p Hp. rewrite Hsame by set_solver. auto.
  - intros ? ?. rewrite Hsame by set_solver. auto.
Qed.

Lemma NewQuery_bound req w q : NewQuery req w = ROk q → query_bound w (param req ParamWalletID) q.
Proof.
  intros Hq. destruct (NewQuery_query_ok _ _ _ Hq) as [Hid Hok]. split; [done|]. split; [done|].
  apply NewQuery_ok_inv in Hq as (_ & _ & _ & [(Hin & Hw & Hr)|(Hr & Hin & Hor)]).
  - left. split; [done|]. assert (Method (Request q) ∈ walletSpecificMethods) by (by rewrite Hr).
    split; [done|]. by apply Hok.
  - right. rewrite Hr. split; [naive_solver|]. auto.
Qed.

(** A request without a wallet id of its own is bound whatever the client
    sent. *)
Lemma NewQuery_bound_hook req w c q :
  param req ParamWalletID = None → NewQuery req w = ROk q → request_bound w c (Request q).
Proof.
  intros Hn Hq. destruct (NewQuery_bound _ _ _ Hq) as (_ & Hok & Hb). split; [done|].
  rewrite Hn in Hb. naive_solver.
Qed.

Lemma request_bound_params w c q m :
  query_bound w c q →
  (∀ k, k ∈ ParamWalletID :: forbiddenParams → m !! k = param_of (ParamsAsMap q) k) →
  query_bound w c (put_params q m).
Proof.
  intros (Hw & Hok & Hb) Hk.
  destruct (request_ok_params w q m (conj Hw Hok) Hk) as [Hw' Hok']. split; [done|]. split; [done|].
  assert (param (Request (put_params q m)) ParamWalletID = param (Request q) ParamWalletID) as ->; [|done].
  unfold param; simpl. rewrite Hk by set_solver.
  unfold ParamsAsMap, q_Params, param_of. by destruct (Params (Request q)).
Qed.
