(* ===== verification/CallSpec.v ===== *)
(** * What a call may send to the SDK

    Every request of a call, including those of the hooks, of the wallet retries
    and of the cache, is bound to the wallet of the caller: the relation [sends]
    is followed through all components the call runs. *)

From S2P Require Import Prelude GoLib Rpc Errors Query Router Iapi Http Services Auth Hashes Paid Caller Access AccessSpec Cache CacheSpec Call.

Local Open Scope Z_scope.

Section sends.
Import OracleInstances.
Context (o : Oracle) `{!Ljsonrpc, !MapOrder, !IAPIDecoders, !ECDSA, !ClaimDecoder, !URLParser,
  !SearchDecoder, !JSONMarshal}.
Context (cfg : Config) (P : RPCRequest → Prop).

(** Every SDK request of the stretch satisfies [P]. *)
Definition sends : relation history := λ h h',
  ∃ evs, h' = h ++ evs ∧ ∀ ep rq r, EvCall ep rq r ∈ evs → P rq.

Definition csends : relation (Caller * history) := λ s s', sends s.2 s'.2.

#[export] Instance sends_preorder : PreOrder sends.
Proof.
  split.
  - intros h. exists []. rewrite app_nil_r. split; [done|]. set_solver.
  - intros h1 h2 h3 (e1 & -> & F1) (e2 & -> & F2). exists (e1 ++ e2).
    rewrite app_assoc. split; [done|]. intros ep rq r [?|?]%elem_of_app; eauto.
Qed.

#[export] Instance csends_preorder : PreOrder csends.
Proof.
  split; [intros s; unfold csends; reflexivity|].
  intros s1 s2 s3 H12 H23. unfold csends in *. by etrans.
Qed.

Lemma sends_one h e : (∀ ep rq r, e = EvCall ep rq r → P rq) → sends h (h ++ [e]).
Proof.
  intros He. exists [e]. split; [done|]. intros ep rq r Hin.
  apply list_elem_of_singleton in Hin. by eapply He.
Qed.

Lemma interact_sends {A} (answer : history → error + A) ev :
  (∀ x ep rq r, ev x = EvCall ep rq r → P rq) → extends sends (interact answer ev).
Proof. intros Hev h. apply sends_one. intros ep rq r. apply Hev. Qed.

Lemma inW_csends {A} (m : Go history A) : extends sends m → extends csends (inW m).
Proof. intros Hm [c h]. unfold csends. rewrite inW_run. apply Hm. Qed.

Lemma sends_call ep rq : P rq → extends sends (CallRaw ep rq : Go history RPCResponse).
Proof. intros Hp. apply interact_sends. intros x ep' rq' r [= -> ->]. done. Qed.
Lemma sends_load ep uid : extends sends (LoadWallet ep uid : Go history unit).
Proof. by apply interact_sends. Qed.
Lemma sends_delete uid : extends sends (DeleteUser uid : Go history unit).
Proof. by apply interact_sends. Qed.
Lemma sends_sentry e : extends sends (ErrorToSentry e : Go history unit).
Proof. intros h. by apply sends_one. Qed.
Lemma sends_audit u i m b : extends sends (LogQuery u i m b : Go history unit).
Proof. intros h. by apply sends_one. Qed.
Lemma sends_urls b v c i : extends sends (ReplaceAssetUrls b v c i : Go history value).
Proof. by apply interact_sends. Qed.
Lemma sends_url b v p : extends sends (ReplaceAssetUrl b v p : Go history value).
Proof. by apply interact_sends. Qed.
Lemma sends_claimurl b c : extends sends (GetClaimUrl b c : Go history string).
Proof. by apply interact_sends. Qed.
Lemma sends_now : extends sends (Now : Go history Z).
Proof. intros h. by apply sends_one. Qed.
Lemma sends_rand n : extends sends (rand_IntN n : Go history nat).
Proof. intros h. by apply sends_one. Qed.
Lemma sends_iapi c p ps : extends sends (iapi_Do c p ps : Go history HTTPReply).
Proof. by apply interact_sends. Qed.
Lemma sends_token s t n : extends sends (CreateToken s t n : Go history string).
Proof. by apply interact_sends. Qed.
Lemma sends_get k : extends sends (store_Get k : Go history (option CachedResponse)).
Proof. by apply interact_sends. Qed.
Lemma sends_set k v t g : extends sends (store_Set k v t g : Go history unit).
Proof. by apply interact_sends. Qed.

#[local] Hint Resolve sends_call sends_load sends_delete sends_sentry sends_audit sends_urls
  sends_url sends_claimurl sends_now sends_rand sends_iapi sends_token sends_get sends_set
  inW_csends : go.

(** A value computed before the call that uses it. *)
Lemma extends_lift_bind {S A B} (R : relation S) `{!PreOrder R} (r : result error A) (k : A → Go S B) :
  (∀ a, r = ROk a → extends R (k a)) → extends R (bind (lift r) k).
Proof. intros Hk s. unfold bind, lift. destruct r; [by apply Hk|done..]. Qed.

(** *** [SendQuery] *)

Lemma sendAttempts_sends left : ∀ i ep uid q r,
  P (Request q) → extends sends (sendAttempts (W:=history) left i ep uid q r).
Proof.
  induction left as [|left IH]; intros; cbn [sendAttempts]; unfold giveUpOnWallet; go_paths.
Qed.

Lemma run_post_sends hk r : extends sends (run_post (W:=history) cfg hk r).
Proof.
  destruct hk; cbn [run_post]; unfold postClaimSearchArfleetThumbs, postResolveArfleetThumbs; go_paths.
Qed.
#[local] Hint Resolve run_post_sends sendAttempts_sends : go.

Lemma applyPostflight_sends hs m : ∀ r, extends sends (applyPostflight (W:=history) cfg hs m r).
Proof. induction hs as [|hk hs IH]; intros r; cbn [applyPostflight]; go_paths. Qed.
#[local] Hint Resolve applyPostflight_sends : go.

Lemma SendQuery_sends q : P (Request q) → extends csends (SendQuery (W:=history) cfg q).
Proof. intros Hp. unfold SendQuery, the_caller. go_paths. Qed.

Lemma Randomize_sends : extends csends (RandomizeEndpoint (W:=history)).
Proof. unfold RandomizeEndpoint, the_caller. go_paths. apply extends_modify. intros [c h]. unfold csends. simpl. reflexivity. Qed.
#[local] Hint Resolve SendQuery_sends Randomize_sends : go.

(** *** Hooks *)

Lemma Call_sends {A} c p ps (d : value → option A) : extends sends (Call (W:=history) c p ps d).
Proof. unfold Call; go_paths. Qed.
#[local] Hint Resolve Call_sends : go.

Lemma customerList_sends ctx id env : extends sends (checkCustomerListPurchase (W:=history) ctx id env).
Proof. unfold checkCustomerListPurchase; go_paths. Qed.
#[local] Hint Resolve customerList_sends : go.

Lemma tagLoop_sends claim tags : extends sends (tagLoop (W:=history) claim tags).
Proof. induction tags as [|t tags IH]; cbn [tagLoop]; unfold NowUnix; go_paths. Qed.
#[local] Hint Resolve tagLoop_sends : go.

Lemma checkStreamAccess_sends ctx params claim :
  extends sends (checkStreamAccess (W:=history) ctx params claim).
Proof.
  unfold checkStreamAccess, isUserAMod, checkSignature, checkPurchase, checkMembership,
    ValidateSignatureFromClaim, must_string; go_paths.
Qed.
#[local] Hint Resolve checkStreamAccess_sends : go.

Lemma cacheGetter_sends q left : P (Request q) → ∀ last,
  extends csends (cacheGetter (W:=history) cfg left q last).
Proof. intros Hp. induction left as [|left IH]; intros last; cbn [cacheGetter]; go_paths. Qed.

Lemma cacheHook_sends q : P (Request q) → extends csends (preflightCacheHook (W:=history) cfg q).
Proof.
  intros Hp. unfold preflightCacheHook, Retrieve, the_caller; go_paths. by apply cacheGetter_sends.
Qed.

Lemma claimSearch_sends q : extends csends (preflightHookClaimSearch (W:=history) q).
Proof. unfold preflightHookClaimSearch, restrictSearch, map_put, NowUnix; go_paths. Qed.
#[local] Hint Resolve cacheHook_sends claimSearch_sends : go.

(** The hooks make further queries with the wallet of the one they serve. *)
Context (w : string)
  (HP : ∀ req q, param req ParamWalletID = None → NewQuery req w = ROk q → P (Request q)).

Lemma resolve_sends q url : WalletID q = w → extends csends (resolve (W:=history) cfg q url).
Proof using HP.
  intros Hw. unfold resolve. rewrite Hw. apply extends_lift_bind; [apply _|].
  intros q' Hq'. apply HP in Hq'; [|by vm_compute]. go_paths.
Qed.
#[local] Hint Resolve resolve_sends : go.

Lemma purchaseCreate_sends q url claim :
  WalletID q = w → extends csends (purchaseCreate (W:=history) cfg q url claim).
Proof using HP.
  intros Hw. unfold purchaseCreate. rewrite Hw. apply extends_lift_bind; [apply _|].
  intros q' Hq'. apply HP in Hq'; [|by vm_compute]. go_paths.
Qed.
#[local] Hint Resolve purchaseCreate_sends : go.

Lemma preflightHookGet_sends ctx q :
  WalletID q = w → extends csends (preflightHookGet (W:=history) cfg ctx q).
Proof using HP.
  intros Hw. unfold preflightHookGet, must_string, findPurchase, plainStream, signedStream,
    signedLivestream, expiry; go_paths.
Qed.
#[local] Hint Resolve preflightHookGet_sends : go.

Lemma run_pre_sends ctx hk q :
  WalletID q = w → P (Request q) → extends csends (run_pre (W:=history) cfg ctx hk q).
Proof using HP. intros Hw Hp. destruct hk; cbn [run_pre]; go_paths. Qed.
End sends.

(** ** Wallet isolation *)

Section isolation.
Import OracleInstances.
Context (o : Oracle) `{!Ljsonrpc, !MapOrder, !IAPIDecoders, !ECDSA, !ClaimDecoder, !URLParser,
  !SearchDecoder, !JSONMarshal}.
Context (cfg : Config) (ctx : userCtx) (w : string) (c : option value).

Lemma hook_keys_harmless k :
  k ∈ ParamWalletID :: forbiddenParams → (k ∉ hook_keys) ∧ (k ≠ fileNameParam).
Proof.
  unfold hook_keys, fileNameParam, forbiddenParams, ParamWalletID, ParamAccountID, ParamNewSDKServer.
  rewrite !elem_of_cons. intros [->|[->|[->|?]]]; [by split; [set_solver|]..|set_solver].
Qed.

(** A hook that does not answer leaves a query that is still bound to the
    wallet. *)
Lemma claimSearch_query_bound q s q' s' :
  query_bound w c q → preflightHookClaimSearch (W:=history) q s = (ROk q', s') → query_bound w c q'.
Proof.
  intros Hok. destruct s as [c0 h]. unfold preflightHookClaimSearch.
  destruct (decode_Search _) as [?|p]; [done|]. intros Hrun. go_inv Hrun.
  apply restrictSearch_ok in Hc as (_ & Hk & _). injection Hrun as <- _.
  match goal with |- query_bound w c (match ?m with _ => _ end) => destruct m as [m2|] eqn:Hm end; [|done].
  apply request_bound_params; [done|]. intros k Hin. pose proof (hook_keys_harmless k Hin) as [Hnk _].
  rewrite <-Hk by done. destruct (_ && _).
  - injection Hm as <-. rewrite lookup_insert_ne; [by destruct a; rewrite ?lookup_empty|].
    intros <-. apply Hnk. unfold hook_keys. set_solver.
  - by rewrite Hm.
Qed.

Lemma run_pre_query_bound hk q s q' r s' :
  query_bound w c q → run_pre (W:=history) cfg ctx hk q s = (ROk (q', r), s') → query_bound w c q'.
Proof.
  intros Hok. destruct hk; cbn [run_pre]; intros Hrun.
  - by injection Hrun as <- _ _.
  - go_inv Hrun. by injection Hrun as <- _ _.
  - go_inv Hrun. injection Hrun as <- _ _. by eapply claimSearch_query_bound.
  - go_inv Hrun. by injection Hrun as <- _ _.
  - destruct (ParamsAsMap q) as [m|] eqn:Hm; [|done]. injection Hrun as <- _ _.
    apply request_bound_params; [done|]. intros k Hin. apply hook_keys_harmless in Hin as [_ Hne].
    rewrite lookup_insert_ne by done. by rewrite Hm.
Qed.

Lemma applyPreflight_bound hs : ∀ q s, query_bound w c q →
  let '(r, s') := applyPreflight (W:=history) cfg ctx hs q s in
  csends (request_bound w c) s s' ∧ ∀ q' x, r = ROk (q', x) → query_bound w c q'.
Proof.
  induction hs as [|hk hs IH]; intros q s Hok; cbn [applyPreflight].
  { split; [done|]. by intros q' x [= <- _]. }
  destruct (isMatchingHook _ hk); [|by apply IH].
  pose proof (run_pre_sends o cfg _ w (λ req q, NewQuery_bound_hook req w c q) ctx (hk_function hk) q (proj1 Hok) (proj2 Hok) s) as Hs.
  unfold bind, try. destruct (run_pre _ _ _ _ s) as [[[q1 [res|]]|e|p] s1] eqn:Hr; simpl in Hs.
  - split; [done|]. intros q' x [= <- _]. by eapply run_pre_query_bound.
  - assert (query_bound w c q1) as Hok1 by (by eapply run_pre_query_bound).
    specialize (IH q1 s1 Hok1). destruct (applyPreflight _ _ _ _ s1) as [r s2].
    destruct IH as [IH1 IH2]. split; [by etrans|done].
  - by split.
  - by split.
Qed.
End isolation.

(** The wallet a caller acts for. *)
Definition caller_wallet (c : Caller) : string :=
  if negb (userID c =? 0) then wallet_id_of (userID c) else "".

Section theorem.
Import OracleInstances.
Context (o : Oracle) `{!Ljsonrpc, !MapOrder, !IAPIDecoders, !ECDSA, !ClaimDecoder, !URLParser,
  !SearchDecoder, !JSONMarshal}.

Lemma call_bound cfg ctx req s :
  csends (request_bound (caller_wallet s.1) (param req ParamWalletID)) s
    (call (W:=history) cfg ctx req s).2.
Proof.
  unfold call. destruct s as [c h]. rewrite (bind_ok _ _ _ c (c, h)) by done.
  case_bool_decide; [done|]. fold (caller_wallet c). simpl fst.
  destruct (NewQuery req (caller_wallet c)) as [q|e|p] eqn:Hq; unfold bind, lift; [|done..].
  pose proof (applyPreflight_bound o cfg ctx (caller_wallet c) _ (preflightHooks c) q (c, h)
    (NewQuery_bound _ _ _ Hq)) as Hpre.
  destruct (applyPreflight _ _ _ _ _) as [[[q1 [res|]]|e|p] s1]; destruct Hpre as [Hs Hq1]; [done| |done..].
  etrans; [exact Hs|]. apply SendQuery_sends. by destruct (Hq1 q1 None eq_refl).
Qed.

Lemma call_sends cfg ctx req s :
  csends (request_ok (caller_wallet s.1)) s (call (W:=history) cfg ctx req s).2.
Proof.
  destruct (call_bound cfg ctx req s) as (evs & He & Hall). exists evs. split; [done|].
  intros ep rq r Hin. exact (proj1 (Hall ep rq r Hin)).
Qed.

(** C1: Wallet isolation. Whatever a client asks for, and whatever the SDK,
    internal-api, the cache and the other services answer, every request that
    a call sends to the SDK, including those made on the way by hooks and
    retries, uses an allowed method without forbidden parameters; for an
    authenticated user a request that accepts a wallet carries that user's
    wallet id; and without authentication only methods that need no wallet
    are sent. *)
Theorem call_wallet_isolation cfg ctx req c h :
  ∃ evs, (call (W:=history) cfg ctx req (c, h)).2.2 = h ++ evs ∧
    ∀ ep rq r, EvCall ep rq r ∈ evs → request_ok (caller_wallet c) rq.
Proof. apply (call_sends cfg ctx req (c, h)). Qed.
End theorem.
