(* ===== verification/Proxy.v ===== *)
(** * The JSON-RPC proxy handler

    Models [app/proxy/proxy.go]: [Handle] with its authentication check, the
    choice of SDK, the caller it sets up and the response it writes, and the
    serialisation of [internal/responses].  Metrics and log lines are left out.

    Parameters: JSON decoding of the request body, JSON encoding of the
    response, and the router ([Router.v] models it). *)

From S2P Require Import Prelude GoLib Rpc Errors Query Router Iapi Http Ip Services Auth Hashes Paid Caller Access AccessSpec Cache CacheSpec Call CallSpec.

Local Open Scope Z_scope.

Definition orgOdysee : string := "odysee".
Definition orgLbrytv : string := "lbrytv".
Definition orgAndroid : string := "android".
Definition orgiOS : string := "ios".

(** [json.Unmarshal(body, &rpcReq)]: the literal [null] leaves a nil pointer. *)
Class RequestDecoder := decode_Request : string → error + option RPCRequest.

(** [json.MarshalIndent] of a response. *)
Inductive marshalled := MOk | MErr (e : error) | MPanic.
Class ResponseEncoder := marshal_Response : RPCResponse → marshalled.

(** [sdkrouter.FromRequest(r)], as far as the handler uses it. *)
Class ProxyRouter (W : Type) := {
  px_RandomServer : Go W LbrynetServer;
  px_GetAllAddresses : Go W (list string);
}.

Definition GetAuthError (user : option User) (err : option error) : option error :=
  match err, user with
  | None, Some _ => None
  | _, _ => err
  end.

Definition getDevice (h : Header) : string :=
  let rf := Header_Get h "Referer" in
  let ua := Header_Get h "User-Agent" in
  if HasSuffix rf "odysee.com/" then orgOdysee
  else if HasSuffix rf "lbry.tv/" then orgLbrytv
  else if Contains ua "okhttp" then orgAndroid
  else if Contains (ToLower ua) "odysee" then orgiOS
  else "".

(** The recovered panic is lost: the results are unnamed, so both are zero. *)
Definition JSONRPCSerialize `{!ResponseEncoder} (r : RPCResponse) : error + list chunk :=
  match marshal_Response r with
  | MOk => inr [CJSON r]
  | MErr e => inl e
  | MPanic => inr []
  end.

(** What the handler reads of a request: the body (absent, unreadable, or its
    bytes), and the values the middlewares attached. *)
Record ProxyRequest := {
  pr_body : option (error + string);
  pr_user : userCtx;
  pr_ip : option string;
  pr_hasCache : bool;
}.

Section handle.
Context {W : Type} `{!Ljsonrpc, !MapOrder, !SDKClient W, !WalletService W, !Random W, !Monitor W,
  !Arweave W, !IAPITransport W, !IAPIDecoders, !Clock W, !ECDSA, !PaidTokens W,
  !ClaimDecoder, !URLParser, !SearchDecoder, !JSONMarshal, !CacheStore W,
  !RequestDecoder, !ResponseEncoder, !ProxyRouter W}.
Context (cfg : Config).

(** The SDK to use and the ones to fall back to. *)
Definition chooseSDK (user : option User) : Go W (string * list string) :=
  let sdkAddress := GetSDKAddress user in
  if bool_decide (sdkAddress = "") then
    let! srv := px_RandomServer in
    let! backups := px_GetAllAddresses in
    ret (srv_Address srv, backups)
  else ret (sdkAddress, []).

Definition proxyCaller (sdkAddress : string) (backups : list string) (uid : Z)
    (remoteIP body : string) (hasCache : bool) : Caller :=
  let c := NewCaller cfg sdkAddress uid in
  let c := AddBackupEndpoints backups c in
  let c := AddPostflightHook "wallet_" PLogField "" c in
  let c := AddPostflightHook MethodWalletSend (PAuditSend uid remoteIP body) "" c in
  if hasCache then set_Cache true c else c.

(** What is written once the call has returned. *)
Definition respond (w : Writer) (rpcReq : RPCRequest) (res : error + RPCResponse) : Go W Writer :=
  match res with
  | inl err =>
      let w := WriteBody (CJSON (ToJSON (Some err))) w in
      if Is err "rpcerrors.ErrAuthRequired" && bool_decide (Method rpcReq = MethodGet) then ret w
      else if Is err "query.ErrClaimNotFound" then ret w
      else ErrorToSentry (Some err) ;;! ret w
  | inr rpcRes =>
      match JSONRPCSerialize rpcRes with
      | inl err => ErrorToSentry (Some err) ;;!
                   ret (WriteBody (CJSON (ErrorToJSON (Some (NewInternalError (Some err))))) w)
      | inr [] => ret (WriteHeader 200 w)
      | inr (ch :: _) => ret (WriteBody ch w)
      end
  end.

Definition Handle (r : ProxyRequest) : Go W Writer :=
  let w := SetHeader "Content-Type" "application/json; charset=utf-8" newWriter in
  match pr_body r with
  | None => ret (WriteBody (CJSON (ErrorToJSON (Some (NewJSONParseError (Errs "empty request body")))))
                   (WriteHeader 400 w))
  | Some (inl _) =>
      ret (WriteBody (CJSON (ErrorToJSON (Some (NewJSONParseError (Errs "error reading request body")))))
             (WriteHeader 400 w))
  | Some (inr body) =>
      match decode_Request body with
      | inl err => ret (WriteBody (CJSON (ErrorToJSON (Some (NewJSONParseError err)))) w)
      | inr None => gopanic "nil pointer dereference"
      | inr (Some rpcReq) =>
          let '(user, err) := FromRequest (pr_user r) in
          match (if MethodRequiresWallet (Method rpcReq) then GetAuthError user err else None) with
          | Some authErr => ret (WriteBody (CJSON (ErrorToJSON (Some authErr))) w)
          | None =>
              let uid := match user with
                         | Some u => if MethodAcceptsWallet (Method rpcReq) then user_ID u else 0
                         | None => 0
                         end in
              let! sdk := chooseSDK user in
              let c := proxyCaller sdk.1 sdk.2 uid (Ip.FromRequest (pr_ip r)) body (pr_hasCache r) in
              let! res := try (run_caller c (Caller_Call cfg (pr_user r) rpcReq)) in
              respond w rpcReq res
          end
      end
  end.
End handle.

(** ** Properties *)

Section properties.
Import OracleInstances.
Context (o : Oracle) `{!Ljsonrpc, !MapOrder, !IAPIDecoders, !ECDSA, !ClaimDecoder, !URLParser,
  !SearchDecoder, !JSONMarshal, !RequestDecoder, !ResponseEncoder}.
(** The router answers from the history without being part of it. *)
Context (server : history → LbrynetServer) (addresses : history → list string) (cfg : Config).

#[local] Instance px : ProxyRouter history :=
  {| px_RandomServer := λ h, (ROk (server h), h); px_GetAllAddresses := λ h, (ROk (addresses h), h) |}.

(** The wallet a request may act on. *)
Definition request_wallet (r : ProxyRequest) (m : string) : string :=
  match (FromRequest (pr_user r)).1 with
  | Some u => if MethodAcceptsWallet m && negb (user_ID u =? 0) then wallet_id_of (user_ID u) else ""
  | None => ""
  end.

Lemma proxyCaller_wallet a b uid ip body hc :
  caller_wallet (proxyCaller cfg a b uid ip body hc) = if negb (uid =? 0) then wallet_id_of uid else "".
Proof. unfold proxyCaller, NewCaller, addDefaultHooks. by destruct hc, (ArfleetEnabled cfg). Qed.

Lemma chooseSDK_quiet user : ∀ h, ∃ p, chooseSDK (W:=history) user h = (ROk p, h).
Proof. intros h. unfold chooseSDK. case_bool_decide; eexists; done. Qed.

Lemma sends_mono P Q h h' : (∀ rq, P rq → Q rq) → sends P h h' → sends Q h h'.
Proof. intros HPQ (evs & -> & Hall). exists evs. eauto. Qed.

Lemma sends_none P h : sends P h h.
Proof. reflexivity. Qed.

(** What the handler does after the call keeps the calls made so far. *)
Lemma handle_tail {A} P (c : Caller) rq ctx h (k : error + RPCResponse → Go history A) :
  sends P h (call (W:=history) cfg ctx rq (c, h)).2.2 →
  (∀ x, extends (sends P) (k x)) →
  sends P h ((let! res := try (run_caller c (Caller_Call cfg ctx rq)) in k res) h).2.
Proof.
  intros Hs Hk. unfold bind, try, run_caller, Caller_Call.
  destruct (call _ _ _ _) as [[a|e|p] [c' h']]; simpl in *; [| |done].
  - etrans; [exact Hs|]. apply Hk.
  - etrans; [exact Hs|]. apply Hk.
Qed.

(** Without a wallet, a method that requires one is refused before anything is
    sent. *)
Lemma call_refused P c ctx rq h :
  caller_wallet c = "" → MethodRequiresWallet (Method rq) = true →
  sends P h (call (W:=history) cfg ctx rq (c, h)).2.2.
Proof.
  intros Hw Hreq. unfold call. rewrite (bind_ok _ _ _ c (c, h)) by done.
  case_bool_decide; [apply sends_none|]. fold (caller_wallet c). rewrite Hw.
  unfold bind at 1, lift. destruct (NewQuery rq "") as [q|e|p] eqn:Hq; [|apply sends_none..].
  exfalso. apply NewQuery_ok_inv in Hq as (_ & _ & _ & [(_ & ? & _)|(_ & Hin & _)]); [done|].
  unfold MethodRequiresWallet in Hreq. apply negb_true_iff, methodInList_false in Hreq. done.
Qed.

Lemma respond_sends P w rq x : extends (sends P) (respond (W:=history) w rq x).
Proof. unfold respond. destruct x; cbv zeta; go_paths; apply sends_sentry. Qed.

(** The requests of one run, with the wallet they act on and the authentication
    their method needs. *)
Lemma Handle_sends r body req h :
  pr_body r = Some (inr body) → decode_Request body = inr (Some req) →
  let '(user, err) := FromRequest (pr_user r) in
  ∃ evs, (Handle (W:=history) cfg r h).2 = h ++ evs ∧
    ∀ ep rq a, EvCall ep rq a ∈ evs →
      request_bound (request_wallet r (Method req)) (param req ParamWalletID) rq ∧
      (MethodRequiresWallet (Method req) = true → err = None ∧ user ≠ None).
Proof.
  intros Hbody Hdec. unfold Handle, request_wallet. rewrite Hbody, Hdec.
  destruct (FromRequest (pr_user r)) as [user err] eqn:Hu. simpl fst.
  set (wid := match user with Some _ => _ | None => "" end).
  set (P := λ rq, request_bound wid (param req ParamWalletID) rq ∧
    (MethodRequiresWallet (Method req) = true → err = None ∧ user ≠ None)).
  match goal with |- ∃ evs, ?x = h ++ evs ∧ _ => change (sends P h x) end.
  destruct (if MethodRequiresWallet (Method req) then GetAuthError user err else None) eqn:Hauth;
    [apply sends_none|].
  destruct (chooseSDK_quiet user h) as [p Hp]. rewrite (bind_ok _ _ _ _ _ Hp).
  apply handle_tail; [|intros x; apply respond_sends].
  set (uid := match user with Some _ => _ | None => 0 end).
  set (c := proxyCaller _ _ _ _ _ _ _).
  assert (caller_wallet c = if negb (uid =? 0) then wallet_id_of uid else "") as Hcw
    by apply proxyCaller_wallet.
  destruct (decide (MethodRequiresWallet (Method req) = true ∧ user = None)) as [[Hreq ->]|Hor].
  { apply call_refused; [by rewrite Hcw|done]. }
  eapply sends_mono; [|apply (call_bound o cfg (pr_user r) req (c, h))].
  intros rq Hok. cbn [fst] in Hok. rewrite Hcw in Hok. split.
  - destruct user as [u|]; [|done]. unfold uid in Hok. unfold wid.
    by destruct (MethodAcceptsWallet (Method req)), (user_ID u =? 0) eqn:Hz; simpl in *; rewrite ?Hz in Hok.
  - intros Hreq. rewrite Hreq in Hauth. destruct user as [u|]; [|naive_solver].
    by destruct err.
Qed.

(** End to end, every SDK request made while the proxy handles a client
    request is bound to the wallet of the authenticated user of that request
    where there is one and the method accepts a wallet, and otherwise carries
    no wallet id but the client's; and a method that requires a wallet makes no SDK request
    at all unless the request was authenticated without error. *)
Theorem Handle_isolation r body req h :
  pr_body r = Some (inr body) → decode_Request body = inr (Some req) →
  let '(user, err) := FromRequest (pr_user r) in
  ∃ evs, (Handle (W:=history) cfg r h).2 = h ++ evs ∧
    ∀ ep rq a, EvCall ep rq a ∈ evs →
      request_bound (request_wallet r (Method req)) (param req ParamWalletID) rq ∧
      (MethodRequiresWallet (Method req) = true → err = None ∧ user ≠ None).
Proof. exact (Handle_sends r body req h). Qed.
End properties.

Section witnesses.
Import OracleInstances WalletDB.Concrete Ex.

(** A moderator asks for a members-only stream; the resolve requests carry no
  wallet because the request has no local user. *)
Lemma Handle_isolation_witness :
  let o := free_oracle in
  let J : JSONMarshal := ex_marshal in
  let D : RequestDecoder := λ _, inr (Some (Request get_query)) in
  let E : ResponseEncoder := λ _, MOk in
  let R := px (λ _, sdk7) (λ _, ["http://sdk7:5279"]) in
  let r := {| pr_body := Some (inr "{}"); pr_user := moderator; pr_ip := None; pr_hasCache := false |} in
  ∃ evs, (Handle (W:=history) cfg r []).2 = [] ++ evs ∧ (calls evs = 1)%nat ∧
  ∀ ep rq a, EvCall ep rq a ∈ evs → request_ok "" rq.
Proof.
  intros o J D E R r.
  destruct (Handle_isolation o (λ _, sdk7) (λ _, ["http://sdk7:5279"]) cfg r "{}" (Request get_query) []
    eq_refl eq_refl) as (evs & Hevs & Hall).
  exists evs. split; [exact Hevs|]. split.
  - pose proof Hevs as Hc. simpl app in Hc. rewrite <-Hc. vm_compute. reflexivity.
  - intros ep rq a Hin. exact (proj1 (proj1 (Hall ep rq a Hin))).
Defined.
End witnesses.

(** The JSON literal [null] as a body is a valid document that leaves the
    request pointer nil; the handler dereferences it. *)
Lemma Handle_null_body_panics {W : Type} `{!Ljsonrpc, !MapOrder, !SDKClient W, !WalletService W,
    !Random W, !Monitor W, !Arweave W, !IAPITransport W, !IAPIDecoders, !Clock W, !ECDSA, !PaidTokens W,
    !ClaimDecoder, !URLParser, !SearchDecoder, !JSONMarshal, !CacheStore W,
    !RequestDecoder, !ResponseEncoder, !ProxyRouter W} cfg r body w :
  pr_body r = Some (inr body) → decode_Request body = inr None →
  ∃ p, Handle cfg r w = (RPanic p, w).
Proof. intros Hb Hd. unfold Handle. rewrite Hb, Hd. eauto. Qed.
