(* ===== verification/Asynquery.v ===== *)
(** * Asynchronous queries

    Models [app/asynquery]: the call manager that records publish queries in
    the [asynqueries] table and runs them once their file has been processed
    ([asynquery.go]), its HTTP handlers ([http_handlers.go]) and the task
    payloads of [internal/tasks].

    A query for an uploaded file is recorded by [Call], as a draft when the
    client defers it, and runs when both have happened: the client committed
    it ([ready_to_run]) and forklift reported the file done ([file_ready], or
    the [forklift:upload:done] task that finds the row committed).  The table,
    its transactions, the queue and the clock are an explicit state; an
    environment [AqEnv] decides which operations fail, what the clock shows and
    which users exist.  Row locks ([FOR UPDATE]) appear as the atomicity of the
    two transactions that take them; [AsynquerySpec.v] interleaves everything
    else.  Log lines and metrics are left out.

    Parameters: JSON encoding and decoding, and PostgreSQL's normalisation of
    [jsonb] values. *)

From S2P Require Import Prelude GoLib Rpc Errors Query Router Iapi Services Http Auth Hashes Paid Caller Access Cache Call.
From Stdlib Require Import Ascii.

Local Open Scope Z_scope.

(** ** Tasks ([internal/tasks]) *)

Definition AsynqueryIncomingQuery : string := "asynquery:incoming".
Definition ForkliftUploadDone : string := "forklift:upload:done".

Record AsynqueryIncomingQueryPayload := {
  aiq_QueryID : string;
  aiq_UserID : Z;
}.

Record UploadMeta := {
  um_Size : Z;
  um_FileName : string;
  um_SDHash : string;
  um_MIME : string;
  um_Extension : string;
  um_Hash : string;
  um_Duration : Z;
  um_Width : Z;
  um_Height : Z;
}.

Record ForkliftUploadDonePayload := {
  fud_UploadID : string;
  fud_UserID : Z;
  fud_Meta : UploadMeta;
}.

(** [asynq.Task]: the type and the payload's bytes. *)
Record Task := { task_Type : string; task_Payload : string }.

(** ** The table *)

Inductive AsynqueryStatus := Received | Preparing | Forwarded | Failed | Succeeded.

#[export] Instance AsynqueryStatus_eq_dec : EqDecision AsynqueryStatus.
Proof. solve_decision. Defined.

(** A row; nullable JSON columns are options of the document's text, times are
    in microseconds. *)
Record Asynquery := mkAq {
  aq_ID : string;
  aq_UserID : Z;
  aq_CreatedAt : Z;
  aq_UpdatedAt : option Z;
  aq_Status : AsynqueryStatus;
  aq_Error : string;
  aq_UploadID : string;
  aq_Body : option string;
  aq_Response : option string;
  aq_ReadyToRun : bool;
  aq_FileReady : bool;
  aq_FileMeta : option string;
}.

Class AqJSON := {
  marshal_request : RPCRequest → error + string;
  unmarshal_request : string → error + RPCRequest;
  marshal_response : RPCResponse → error + string;
  marshal_meta : UploadMeta → error + string;
  unmarshal_meta : string → error + UploadMeta;
  unmarshal_done : string → error + ForkliftUploadDonePayload;
  unmarshal_incoming : string → error + AsynqueryIncomingQueryPayload;
  (** [json.NewDecoder(r.Body).Decode(&rpcReq)]: [null] leaves a nil pointer. *)
  decode_body : string → error + option RPCRequest;
  (** The text PostgreSQL gives back for a [jsonb] value. *)
  jsonb : string → string;
}.

(** What happens at the n-th operation on the outside: whether it fails (and,
    for a commit that reports a failure, whether it took effect all the same),
    the time, the users that exist with the address of their SDK, and the
    choice among rows that sort equally. *)
Record AqEnv := {
  env_fault : nat → option string;
  env_lost : nat → bool;
  env_now : nat → Z;
  env_users : nat → gmap Z (option string);
  env_choice : nat → nat;
}.

(** The table, its contents when the open transaction began, the tasks sent to
    the queue, and the number of operations so far. *)
Record AqDB := mkDB {
  db_rows : list Asynquery;
  db_snapshot : option (list Asynquery);
  db_sent : list AsynqueryIncomingQueryPayload;
  db_tick : nat;
}.

Section db.
Context (env : AqEnv).

Definition ticked (s : AqDB) : AqDB :=
  {| db_rows := db_rows s; db_snapshot := db_snapshot s; db_sent := db_sent s; db_tick := S (db_tick s) |}.
Definition with_rows (rs : list Asynquery) (s : AqDB) : AqDB :=
  {| db_rows := rs; db_snapshot := db_snapshot s; db_sent := db_sent s; db_tick := db_tick s |}.
Definition with_snapshot (sn : option (list Asynquery)) (s : AqDB) : AqDB :=
  {| db_rows := db_rows s; db_snapshot := sn; db_sent := db_sent s; db_tick := db_tick s |}.

(** One statement: it fails, or reads and rewrites the table. *)
Definition statement {A} (f : nat → list Asynquery → (error + A) * list Asynquery) : Go AqDB A :=
  λ s, match env_fault env (db_tick s) with
       | Some msg => (RErr (EText msg), ticked s)
       | None =>
           match f (db_tick s) (db_rows s) with
           | (inl e, _) => (RErr e, ticked s)
           | (inr a, rs) => (ROk a, ticked (with_rows rs s))
           end
       end.

Definition Begin : Go AqDB unit :=
  λ s, match env_fault env (db_tick s) with
       | Some msg => (RErr (EText msg), ticked s)
       | None => (ROk tt, ticked (with_snapshot (Some (db_rows s)) s))
       end.

Definition restore (s : AqDB) : AqDB :=
  with_snapshot None (with_rows (default (db_rows s) (db_snapshot s)) s).

Definition txRollback : Go AqDB unit := λ s, (ROk tt, ticked (restore s)).

Definition Commit : Go AqDB unit :=
  λ s, match env_fault env (db_tick s) with
       | Some msg => (RErr (EText msg), ticked (if env_lost env (db_tick s) then with_snapshot None s else restore s))
       | None => (ROk tt, ticked (with_snapshot None s))
       end.

Definition aq_now : Go AqDB Z := λ s, (ROk (env_now env (db_tick s)), ticked s).

(** [ORDER BY created_at DESC LIMIT 1]: any of the newest rows. *)
Definition newest (n : nat) (p : Asynquery → bool) (rs : list Asynquery) : option Asynquery :=
  let m := List.filter p rs in
  let top := List.filter (λ r, forallb (λ r', aq_CreatedAt r' <=? aq_CreatedAt r) m) m in
  top !! (env_choice env n `mod` length top)%nat.

Definition selectOne (p : Asynquery → bool) : Go AqDB Asynquery :=
  statement (λ n rs, match newest n p rs with
                     | Some r => (inr r, rs)
                     | None => (inl sql_ErrNoRows, rs)
                     end).

(** [models.Users(ID = uid).One]: the address of the user's SDK, if assigned. *)
Definition selectUser (uid : Z) : Go AqDB (option string) :=
  statement (λ n rs, match env_users env n !! uid with
                     | Some a => (inr a, rs)
                     | None => (inl sql_ErrNoRows, rs)
                     end).

Context `{!AqJSON}.

(** [q.Insert]: the timestamps are set, the primary key and the reference to
    the user are checked. *)
Definition Insert (q : Asynquery) : Go AqDB Asynquery :=
  statement (λ n rs,
    let q := mkAq (aq_ID q) (aq_UserID q) (env_now env n) (Some (env_now env n)) (aq_Status q) (aq_Error q)
               (aq_UploadID q) (aq_Body q) (aq_Response q) (aq_ReadyToRun q) (aq_FileReady q) (aq_FileMeta q) in
    if existsb (λ r, String.eqb (aq_ID r) (aq_ID q)) rs then
      (inl (EPq "23505" "duplicate key value violates unique constraint"), rs)
    else match env_users env n !! aq_UserID q with
         | None => (inl (EPq "23503" "violates foreign key constraint"), rs)
         | Some _ =>
             (inr q, rs ++ [mkAq (aq_ID q) (aq_UserID q) (aq_CreatedAt q) (aq_UpdatedAt q) (aq_Status q)
                              (aq_Error q) (aq_UploadID q) (jsonb <$> aq_Body q) (aq_Response q)
                              (aq_ReadyToRun q) (aq_FileReady q) (aq_FileMeta q)])
         end).

(** [UPDATE ... WHERE id = ...], setting [updated_at] as well. *)
Definition update_where (id : string) (f : Asynquery → Asynquery) (rs : list Asynquery) : list Asynquery :=
  (λ r, if String.eqb (aq_ID r) id then f r else r) <$> rs.

(** Columns [body], [ready_to_run], [updated_at] from [q]. *)
Definition put_commit (q : Asynquery) (t : Z) (r : Asynquery) : Asynquery :=
  mkAq (aq_ID r) (aq_UserID r) (aq_CreatedAt r) (Some t) (aq_Status r) (aq_Error r) (aq_UploadID r)
    (jsonb <$> aq_Body q) (aq_Response r) (aq_ReadyToRun q) (aq_FileReady r) (aq_FileMeta r).

(** Columns [file_ready], [file_meta], [updated_at] from [q]. *)
Definition put_file (q : Asynquery) (t : Z) (r : Asynquery) : Asynquery :=
  mkAq (aq_ID r) (aq_UserID r) (aq_CreatedAt r) (Some t) (aq_Status r) (aq_Error r) (aq_UploadID r)
    (aq_Body r) (aq_Response r) (aq_ReadyToRun r) (aq_FileReady q) (jsonb <$> aq_FileMeta q).

(** Every column but the primary key from [q] ([boil.Infer()]). *)
Definition put_all (q : Asynquery) (t : Z) (r : Asynquery) : Asynquery :=
  mkAq (aq_ID r) (aq_UserID q) (aq_CreatedAt q) (Some t) (aq_Status q) (aq_Error q) (aq_UploadID q)
    (jsonb <$> aq_Body q) (jsonb <$> aq_Response q) (aq_ReadyToRun q) (aq_FileReady q) (jsonb <$> aq_FileMeta q).

Definition Update (put : Asynquery → Z → Asynquery → Asynquery) (q : Asynquery) : Go AqDB unit :=
  statement (λ n rs, (inr tt, update_where (aq_ID q) (put q (env_now env n)) rs)).
End db.

(** ** [parseFilePath] *)

(** The character class of the upload id. *)
Definition id_char (a : ascii) : bool :=
  let n := N_of_ascii a in
  ((97 <=? n) && (n <=? 122) || (65 <=? n) && (n <=? 90) || (48 <=? n) && (n <=? 57))%N
  || existsb (Ascii.eqb a) ["+"; "_"; "."; "-"]%char.

(** Cut at the first slash, and at the last one. *)
Fixpoint cut_first (s : string) : option (string * string) :=
  match s with
  | EmptyString => None
  | String a s' =>
      if Ascii.eqb a "/" then Some ("", s')
      else match cut_first s' with
           | Some (l, r) => Some (String a l, r)
           | None => None
           end
  end.
Fixpoint cut_last (s : string) : option (string * string) :=
  match s with
  | EmptyString => None
  | String a s' =>
      match cut_last s' with
      | Some (l, r) => Some (String a l, r)
      | None => if Ascii.eqb a "/" then Some ("", s') else None
      end
  end.

Definition strip_scheme (s : string) : option string :=
  if HasPrefix s "http://" then Some (TrimPrefix s "http://")
  else if HasPrefix s "https://" then Some (TrimPrefix s "https://")
  else None.

Record FileLocation := { fl_Server : string; fl_UploadID : string }.

(** The match of [^https?://([^/]+)/.+/([a-zA-Z0-9\+_\.\-]{32,})$]: the server
    ends at the first slash, the id begins after the last one, and what is
    between is not empty and has no newline. *)
Definition match_file_path (s : string) : option FileLocation :=
  match strip_scheme s with
  | None => None
  | Some rest =>
      match cut_first rest with
      | None => None
      | Some (server, path) =>
          match cut_last path with
          | None => None
          | Some (mid, id) =>
              if negb (String.eqb server "") && negb (String.eqb mid "")
                 && all_chars (λ a, negb (Ascii.eqb a "010")) mid
                 && all_chars id_char id && (32 <=? String.length id)%nat
              then Some {| fl_Server := server; fl_UploadID := id |}
              else None
          end
      end
  end.

Definition parseFilePath (filePath : string) : result error FileLocation :=
  match match_file_path filePath with
  | None => RErr (EText ("invalid file location: " +:+ filePath))
  | Some fl => ROk fl
  end.

(** ** The call manager *)

Definition FilePathParam : string := "file_path".
Definition DeferParam : string := "_defer".
Definition sdkNetError : error := ENamed "asynquery.sdkNetError" "network level sdk error" false.

Record queryParams := {
  qp_queryID : string;
  qp_uploadID : string;
  qp_userID : Z;
  qp_readyToRun : bool;
}.

(** [fmt.Errorf(pre + "%w", err)] on the error path of a call. *)
Definition errorf {S A} (pre : string) (c : Go S A) : Go S A :=
  let! r := try c in
  match r with
  | inl e => fail (EWrapf pre e "")
  | inr a => ret a
  end.

Definition of_sum {S A} (x : error + A) : Go S A :=
  match x with inl e => fail e | inr a => ret a end.

(** The same with the rollback of the open transaction first. *)
Definition or_rollback {A} (pre : string) (c : Go AqDB A) : Go AqDB A :=
  let! r := try c in
  match r with
  | inl e => txRollback ;;! fail (if String.eqb pre "" then e else EWrapf pre e "")
  | inr a => ret a
  end.

Section manager.
Context `{!AqJSON} (env : AqEnv).

Definition createQueryRecord (params : queryParams) (request : RPCRequest) : Go AqDB Asynquery :=
  let! rb := errorf "error marshaling request: " (of_sum (marshal_request request)) in
  let! t := aq_now env in
  Insert env
    {| aq_ID := hex_encode (md5_Sum (bytes_of rb)) +:+ Itoa (t / 1000);
       aq_UserID := qp_userID params; aq_CreatedAt := 0; aq_UpdatedAt := None;
       aq_Status := Received; aq_Error := ""; aq_UploadID := qp_uploadID params;
       aq_Body := Some rb; aq_Response := None; aq_ReadyToRun := qp_readyToRun params;
       aq_FileReady := false; aq_FileMeta := None |}.

Definition of_upload (uploadID : string) (uid : Z) (r : Asynquery) : bool :=
  String.eqb (aq_UploadID r) uploadID && (aq_UserID r =? uid).

(** [tx.Commit()] with its error. *)
Definition commit_tx : Go AqDB unit := errorf "commit tx: " (Commit env).

(** A new record, committed. *)
Definition addQuery (params : queryParams) (req : RPCRequest) : Go AqDB (Asynquery * bool) :=
  let! newAq := or_rollback "error adding query record: " (createQueryRecord params req) in
  commit_tx ;;!
  ret (newAq, false).

Definition callUploadTx (userID : Z) (uploadID : string) (deferRun : bool) (req : RPCRequest)
  : Go AqDB (Asynquery * bool) :=
  errorf "begin tx: " (Begin env) ;;!
  or_rollback "locking user row: " (selectUser env userID) ;;!
  let! found := try (selectOne env (of_upload uploadID userID)) in
  match found with
  | inl err =>
      if negb (Is err "sql.ErrNoRows") then
        txRollback ;;! fail (EWrapf "looking up asynquery: " err "")
      else
        addQuery {| qp_queryID := ""; qp_uploadID := uploadID; qp_userID := userID;
                    qp_readyToRun := negb deferRun |} req
  | inr aq =>
      if deferRun then commit_tx ;;! ret (aq, false)
      else
        match aq_Status aq with
        | Received =>
            if aq_ReadyToRun aq then commit_tx ;;! ret (aq, false)
            else
              let! rb := or_rollback "error marshaling request: " (of_sum (marshal_request req)) in
              let aq := mkAq (aq_ID aq) (aq_UserID aq) (aq_CreatedAt aq) (aq_UpdatedAt aq) (aq_Status aq)
                          (aq_Error aq) (aq_UploadID aq) (Some rb) (aq_Response aq) true (aq_FileReady aq)
                          (aq_FileMeta aq) in
              or_rollback "error updating query record: " (Update env put_commit aq) ;;!
              let shouldEnqueue := aq_FileReady aq in
              commit_tx ;;!
              ret (aq, shouldEnqueue)
        | Failed =>
            addQuery {| qp_queryID := ""; qp_uploadID := uploadID; qp_userID := userID;
                        qp_readyToRun := true |} req
        | _ => commit_tx ;;! ret (aq, false)
        end
  end.

(** [m.queue.SendRequest(tasks.AsynqueryIncomingQuery, ...)] *)
Definition SendRequest (p : AsynqueryIncomingQueryPayload) : Go AqDB unit :=
  λ s, match env_fault env (db_tick s) with
       | Some msg =>
           (RErr (EWrapf ("failed to enqueue " +:+ AsynqueryIncomingQuery +:+ " request: ") (EText msg) ""),
            ticked s)
       | None => (ROk tt, {| db_rows := db_rows s; db_snapshot := db_snapshot s;
                             db_sent := db_sent s ++ [p]; db_tick := S (db_tick s) |})
       end.

Definition CallManager_Call (userID : Z) (req : RPCRequest) : Go AqDB Asynquery :=
  match as_map (Params req) with
  | None => gopanic "interface conversion"
  | Some p =>
      let deferRun := match p !! DeferParam with
                      | Some v => default false (as_bool v)
                      | None => false
                      end in
      let p := delete DeferParam p in
      let req := set_Params req (VMap p) in
      match p !! FilePathParam with
      | None =>
          let! aq := errorf "error adding query record: "
            (createQueryRecord {| qp_queryID := ""; qp_uploadID := ""; qp_userID := userID;
                                  qp_readyToRun := true |} req) in
          errorf "error queuing query: "
            (SendRequest {| aiq_QueryID := aq_ID aq; aiq_UserID := userID |}) ;;!
          ret aq
      | Some filePathParam =>
          match as_string filePathParam with
          | None => fail (EText "invalid file path")
          | Some filePath =>
              let! fileLoc := lift (parseFilePath filePath) in
              let! r := callUploadTx userID (fl_UploadID fileLoc) deferRun req in
              let '(aq, shouldEnqueue) := r in
              if (shouldEnqueue : bool) then
                errorf "error queuing query: "
                  (SendRequest {| aiq_QueryID := aq_ID aq; aiq_UserID := userID |}) ;;!
                ret aq
              else ret aq
          end
      end
  end.

Definition handleMergeTx (payload : ForkliftUploadDonePayload) : Go AqDB (Asynquery * bool) :=
  errorf "begin tx: " (Begin env) ;;!
  let! aq := or_rollback "" (selectOne env (of_upload (fud_UploadID payload) (fud_UserID payload))) in
  if negb (aq_ReadyToRun aq) then
    let! metaJSON := or_rollback "" (of_sum (marshal_meta (fud_Meta payload))) in
    let aq := mkAq (aq_ID aq) (aq_UserID aq) (aq_CreatedAt aq) (aq_UpdatedAt aq) (aq_Status aq)
                (aq_Error aq) (aq_UploadID aq) (aq_Body aq) (aq_Response aq) (aq_ReadyToRun aq) true
                (Some metaJSON) in
    or_rollback "" (Update env put_file aq) ;;!
    commit_tx ;;!
    ret (aq, false)
  else
    match aq_Status aq with
    | Succeeded => commit_tx ;;! ret (aq, false)
    | _ => commit_tx ;;! ret (aq, true)
    end.

Definition matches (params : queryParams) (r : Asynquery) : bool :=
  (String.eqb (qp_queryID params) "" || String.eqb (aq_ID r) (qp_queryID params))
  && (String.eqb (qp_uploadID params) "" || String.eqb (aq_UploadID r) (qp_uploadID params))
  && (negb (0 <? qp_userID params) || (aq_UserID r =? qp_userID params)).

Definition getQueryRecord (params : queryParams) : Go AqDB Asynquery :=
  errorf "could not retrieve async query record: " (selectOne env (matches params)).

Definition by_id (queryID : string) : queryParams :=
  {| qp_queryID := queryID; qp_uploadID := ""; qp_userID := 0; qp_readyToRun := false |}.

Definition isFailure (response : option RPCResponse) (callErr : string) : bool :=
  match response with
  | None => true
  | Some r => match resp_Error r with Some _ => true | None => negb (String.eqb callErr "") end
  end.

(** The row as [finalizeQueryRecord] writes it back; a nil response is stored
    as NULL. *)
Definition storeResult (q : Asynquery) (response : option RPCResponse) (callErr : string) : Go AqDB unit :=
  let! jr := match response with
             | None => ret None
             | Some r => let! j := errorf "could not marshal rpc response: " (of_sum (marshal_response r)) in
                         ret (Some j)
             end in
  let q := mkAq (aq_ID q) (aq_UserID q) (aq_CreatedAt q) (aq_UpdatedAt q) (if isFailure response callErr then Failed else Succeeded) callErr
             (aq_UploadID q) (aq_Body q) jr (aq_ReadyToRun q) (aq_FileReady q) (aq_FileMeta q) in
  errorf "error updating async query record: " (Update env put_all q).

Definition finalizeQueryRecord (queryID : string) (response : option RPCResponse) (callErr : string)
  : Go AqDB unit :=
  let! q := errorf "could not retrieve async query record: " (getQueryRecord (by_id queryID)) in
  storeResult q response callErr.

Definition buildPatchFromMeta (meta : UploadMeta) : gmap string value :=
  let patch := <["file_size" := VInt (um_Size meta)]>
               (<["file_name" := VStr (um_FileName meta)]>
               (<["file_hash" := VStr (um_Hash meta)]>
               (<["sd_hash" := VStr (um_SDHash meta)]> ∅))) in
  let patch := if (0 <? um_Width meta) && (0 <? um_Height meta)
               then <["height" := VInt (um_Height meta)]> (<["width" := VInt (um_Width meta)]> patch)
               else patch in
  if 0 <? um_Duration meta then <["duration" := VInt (um_Duration meta)]> patch else patch.

(** [RetryDelay], in nanoseconds. *)
Definition RetryDelay (n : Z) (err : error) : Z :=
  let d := 10 * 10 ^ 9 in
  if Is err "asynquery.sdkNetError" then n * d else d.

(** ** Running a query on the SDK *)

Section run.
Context {W : Type} `{!Ljsonrpc, !MapOrder, !SDKClient W, !WalletService W, !Random W, !Monitor W,
  !Arweave W, !IAPITransport W, !IAPIDecoders, !Clock W, !ECDSA, !PaidTokens W,
  !ClaimDecoder, !URLParser, !SearchDecoder, !JSONMarshal, !CacheStore W}.
Context (cfg : Config).

Definition inDB {A} (c : Go AqDB A) : Go (AqDB * W) A :=
  λ '(s, w), let '(r, s') := c s in (r, (s', w)).
Definition inSDK {A} (c : Go W A) : Go (AqDB * W) A :=
  λ '(s, w), let '(r, w') := c w in (r, (s, w')).

(** The request as it is sent. *)
Definition patchedRequest (request : RPCRequest) (pp : gmap string value)
    (patch : option (gmap string value)) : RPCRequest :=
  let pp := default ∅ patch ∪ pp in
  let pp := if bool_decide (Method request = MethodStreamUpdate)
            then <["replace" := VBool true]> (delete "name" pp) else pp in
  set_Params request (VMap (delete "file_path" pp)).

Definition robustCall (aq : Asynquery) (patch : option (gmap string value)) : Go (AqDB * W) unit :=
  let! u := try (inDB (selectUser env (aq_UserID aq))) in
  match u with
  | inl _ => fail asynq_SkipRetry
  | inr None => gopanic "nil pointer dereference"
  | inr (Some sdkAddress) =>
      let caller := NewCaller cfg sdkAddress (aq_UserID aq) in
      match (match aq_Body aq with
             | None => inl (EText "json: cannot unmarshal nil")
             | Some b => unmarshal_request b
             end) with
      | inl _ => fail asynq_SkipRetry
      | inr request =>
          match as_map (Params request) with
          | None => fail asynq_SkipRetry
          | Some pp =>
              let! r := try (inSDK (run_caller caller (Caller_Call cfg None (patchedRequest request pp patch)))) in
              match r with
              | inl err =>
                  inSDK (ErrorToSentry (Some (EWrapf "asynquery request failed: " err ""))) ;;!
                  try (inDB (finalizeQueryRecord (aq_ID aq) None (Error err))) ;;!
                  fail sdkNetError
              | inr res =>
                  match resp_Error res with
                  | Some e =>
                      try (inDB (finalizeQueryRecord (aq_ID aq) (Some res) (Message e))) ;;!
                      fail asynq_SkipRetry
                  | None => inDB (finalizeQueryRecord (aq_ID aq) (Some res) "")
                  end
              end
          end
      end
  end.

Definition HandleMerge (task : Task) : Go (AqDB * W) unit :=
  if negb (String.eqb (task_Type task) ForkliftUploadDone) then fail asynq_SkipRetry else
  match unmarshal_done (task_Payload task) with
  | inl _ => fail asynq_SkipRetry
  | inr payload =>
      let! r := inDB (handleMergeTx payload) in
      let '(aq, shouldFireSDK) := r in
      if (shouldFireSDK : bool) then robustCall aq (Some (buildPatchFromMeta (fud_Meta payload)))
      else ret tt
  end.

Definition HandleQuery (task : Task) : Go (AqDB * W) unit :=
  if negb (String.eqb (task_Type task) AsynqueryIncomingQuery) then fail asynq_SkipRetry else
  match unmarshal_incoming (task_Payload task) with
  | inl _ => fail asynq_SkipRetry
  | inr payload =>
      let! aq := inDB (getQueryRecord {| qp_queryID := aiq_QueryID payload; qp_uploadID := "";
                                         qp_userID := aiq_UserID payload; qp_readyToRun := false |}) in
      match aq_FileMeta aq with
      | None => robustCall aq None
      | Some j =>
          match unmarshal_meta j with
          | inl uErr =>
              inDB (finalizeQueryRecord (aq_ID aq) None ("invalid stored file metadata: " +:+ Error uErr)) ;;!
              fail asynq_SkipRetry
          | inr meta => robustCall aq (Some (buildPatchFromMeta meta))
          end
      end
  end.
End run.
End manager.

(** ** HTTP handlers *)

(** [fmt.Errorf(s)] without arguments, for ASCII verbs and without explicit
    argument indexes.  [Verb m] is inside a verb: 0 after the percent sign and
    its flags, 1 in the width, 2 in the precision. *)
Inductive fmt_mode := Text | Verb (m : nat).

Fixpoint sprintf0 (mode : fmt_mode) (s : string) : string :=
  match s, mode with
  | EmptyString, Text => ""
  | EmptyString, Verb _ => "%!(NOVERB)"
  | String a s', Text => if Ascii.eqb a "%" then sprintf0 (Verb 0) s' else String a (sprintf0 Text s')
  | String a s', Verb m =>
      if (m =? 0)%nat && existsb (Ascii.eqb a) ["#"; "0"; "+"; "-"; " "]%char then sprintf0 (Verb 0) s'
      else if (m =? 0)%nat && Ascii.eqb a "*" then "%!(BADWIDTH)" +:+ sprintf0 (Verb 1) s'
      else if bool_decide (is_Some (digit a)) then sprintf0 (Verb (Nat.max m 1)) s'
      else if (m <? 2)%nat && Ascii.eqb a "." then sprintf0 (Verb 2) s'
      else if Ascii.eqb a "%" then String a (sprintf0 Text s')
      else "%!" +:+ String a ("(MISSING)" +:+ sprintf0 Text s')
  end.

Definition StatusAuthError : string := "auth_error".
Definition StatusUploadTokenCreated : string := "upload_token_created".
Definition StatusQueryCreated : string := "query_created".

(** [Response], as it is marshalled: empty fields are omitted. *)
Definition aq_response (status err : string) (payload : option (gmap string value)) : chunk :=
  let m := {["status" := VStr status]} in
  let m := if String.eqb err "" then m else <["error" := VStr err]> m in
  CValue (VMap (match payload with Some p => <["payload" := VMap p]> m | None => m end)).

Definition allowedSDKMethods : list string := [MethodStreamCreate; MethodStreamUpdate].
Definition isMethodAllowed (m : string) : bool := existsb (String.eqb m) allowedSDKMethods.

Definition AddJSONContentType : Writer → Writer :=
  SetHeader "Content-Type" "application/json; charset=utf-8".

(** [http.Error]. *)
Definition http_Error (w : Writer) (msg : string) (code : Z) : Writer :=
  WriteBody (CText (msg +:+ String "010" ""))
    (WriteHeader code
      (SetHeader "X-Content-Type-Options" "nosniff" (SetHeader "Content-Type" "text/plain; charset=utf-8" w))).

Section handlers.
Context `{!AqJSON} (env : AqEnv) (uploadServiceURL : string).
(** [keyfob.GenerateToken(userID, expiry)]. *)
Context (GenerateToken : Z → Z → error + string).

Definition CreateUpload (type : option string) (ctx : userCtx) : Go AqDB Writer :=
  let uploadType := default "uploads" type in
  let targetURL := uploadServiceURL +:+ uploadType +:+ "/" in
  let w := AddJSONContentType newWriter in
  match FromRequest ctx with
  | (_, Some err) =>
      ret (WriteHeader 401 (WriteBody (aq_response StatusAuthError (Error err) None) w))
  | (None, None) => gopanic "nil pointer dereference"
  | (Some u, None) =>
      let! t := aq_now env in
      match GenerateToken (to_signed 32 (user_ID u)) (t + 48 * 3600 * 10 ^ 6) with
      | inl err => ret (http_Error w (Error err) 500)
      | inr token =>
          ret (WriteBody (aq_response StatusUploadTokenCreated ""
                            (Some {["token" := VStr token; "location" := VStr targetURL]}))
                 (SetHeader "Location" uploadServiceURL w))
      end
  end.

Definition CreateQuery (ctx : userCtx) (body : string) : Go AqDB Writer :=
  let w := AddJSONContentType newWriter in
  match FromRequest ctx with
  | (_, Some err) => ret (WriteBody (aq_response StatusAuthError (Error err) None) (WriteHeader 401 w))
  | (user, None) =>
      match decode_body body with
      | inl err => ret (WriteBody (CJSON (Write (Some (NewJSONParseError err)))) w)
      | inr None => gopanic "nil pointer dereference"
      | inr (Some rpcReq) =>
          if negb (isMethodAllowed (Method rpcReq)) then
            ret (WriteBody (CJSON (Write (Some (NewMethodNotAllowedError (Errs "forbidden method"))))) w)
          else match user with
          | None => gopanic "nil pointer dereference"
          | Some u =>
              let! r := try (CallManager_Call env (user_ID u) rpcReq) in
              match r with
              | inl err => ret (WriteBody (CJSON (Write (Some (NewInternalError (Some err))))) w)
              | inr aq =>
                  ret (WriteBody (aq_response StatusQueryCreated "" (Some {["query_id" := VStr (aq_ID aq)]}))
                         (WriteHeader 201 w))
              end
          end
      end
  end.

Definition Get (id : option string) (ctx : userCtx) : Go AqDB Writer :=
  let w := newWriter in
  match id with
  | None => ret (WriteHeader 404 w)
  | Some queryID =>
      match FromRequest ctx with
      | (_, Some _) => ret (WriteHeader 401 w)
      | (None, None) => gopanic "nil pointer dereference"
      | (Some user, None) =>
          let! r := try (getQueryRecord env {| qp_queryID := queryID; qp_uploadID := "";
                                               qp_userID := user_ID user; qp_readyToRun := false |}) in
          match r with
          | inl err =>
              if Is err "sql.ErrNoRows" then ret (WriteHeader 404 w)
              else ret (WriteBody (CJSON (Write (Some err))) w)
          | inr aq =>
              match aq_Status aq with
              | Succeeded => ret (WriteBody (CText (default "" (aq_Response aq))) (WriteHeader 200 w))
              | Failed =>
                  let w := WriteHeader 200 w in
                  match aq_Response aq with
                  | Some j => ret (WriteBody (CText j) w)
                  | None => ret (WriteBody (CJSON (Write (Some (Errs (sprintf0 Text (aq_Error aq)))))) w)
                  end
              | _ => ret (WriteHeader 204 w)
              end
          end
      end
  end.
End handlers.
