(* ===== verification/AsynquerySpec.v ===== *)
(** * Properties of asynchronous queries

    What the two transactions of the call manager do to the table on every
    path, errors included; the interleaving of clients, forklift reports, queue
    sends and result writes as a step relation on the shared state, with the
    invariant that a committed upload query is sent to the queue at most once and
    what became of it otherwise;
    which SDK requests the workers make; and what the HTTP handlers reveal. *)

From S2P Require Import Prelude GoLib Rpc Errors Query Router Iapi Services Http Auth Hashes Paid Caller Access AccessSpec Cache CacheSpec Call CallSpec Asynquery.
From Stdlib Require Import Ascii.

Local Open Scope Z_scope.

(** ** Outcomes of a computation *)

(** [Q] holds of the result and the final state. *)
Definition run {S A} (c : Go S A) (Q : result error A → S → Prop) (s : S) : Prop := Q (c s).1 (c s).2.

Section run_rules.
Context {S A B : Type}.

Lemma run_ret (a : A) (Q : result error A → S → Prop) s : Q (ROk a) s → run (ret a) Q s.
Proof. done. Qed.

Lemma run_fail (e : error) (Q : result error A → S → Prop) s : Q (RErr e) s → run (fail e) Q s.
Proof. done. Qed.

Lemma run_mono (c : Go S A) (P Q : result error A → S → Prop) s :
  run c P s → (∀ r s', P r s' → Q r s') → run c Q s.
Proof. unfold run. auto. Qed.

(** What remains to show when a step has ended in [r]. *)
Definition andthen (k : A → Go S B) (Q : result error B → S → Prop) (r : result error A) (s : S) : Prop :=
  match r with
  | ROk a => run (k a) Q s
  | RErr e => Q (RErr e) s
  | RPanic p => Q (RPanic p) s
  end.

Lemma run_bind (c : Go S A) (k : A → Go S B) Q s : run c (andthen k Q) s → run (bind c k) Q s.
Proof. unfold run, andthen, bind. by destruct (c s) as [[] ?]. Qed.

Lemma run_try (c : Go S A) Q s :
  run c (λ r s', match r with
                 | ROk a => Q (ROk (inr a)) s'
                 | RErr e => Q (ROk (inl e)) s'
                 | RPanic p => Q (RPanic p) s'
                 end) s → run (try c) Q s.
Proof. unfold run, try. by destruct (c s) as [[] ?]. Qed.
End run_rules.

Lemma run_errorf {S A} pre (c : Go S A) Q s :
  run c (λ r s', match r with RErr e => Q (RErr (EWrapf pre e "")) s' | _ => Q r s' end) s →
  run (errorf pre c) Q s.
Proof. unfold run, errorf, bind, try. by destruct (c s) as [[] ?]. Qed.

Lemma run_of_sum {S A} (x : error + A) (Q : result error A → S → Prop) s :
  (∀ e, x = inl e → Q (RErr e) s) → (∀ a, x = inr a → Q (ROk a) s) → run (of_sum x) Q s.
Proof. destruct x; unfold run; simpl; auto. Qed.

Lemma run_or_rollback {A} pre (c : Go AqDB A) Q s :
  run c (λ r s', match r with
                 | RErr e => ∀ e', Q (RErr e') (ticked (restore s'))
                 | _ => Q r s'
                 end) s →
  run (or_rollback pre c) Q s.
Proof. unfold run, or_rollback, bind, try. destruct (c s) as [[] ?]; simpl; auto. Qed.

Section db_rules.
Context (env : AqEnv).

Lemma run_statement {A} (f : nat → list Asynquery → (error + A) * list Asynquery) Q s :
  (∀ e, Q (RErr e) (ticked s)) →
  (∀ a rs, f (db_tick s) (db_rows s) = (inr a, rs) → Q (ROk a) (ticked (with_rows rs s))) →
  run (statement env f) Q s.
Proof.
  unfold run, statement. intros Hf Hok.
  destruct (env_fault env (db_tick s)); [apply Hf|].
  destruct (f _ _) as [[e|a] rs] eqn:E; simpl; auto.
Qed.

Lemma newest_Some n p rs r :
  newest env n p rs = Some r →
  r ∈ rs ∧ p r = true ∧ ∀ r', r' ∈ rs → p r' = true → aq_CreatedAt r' <= aq_CreatedAt r.
Proof.
  unfold newest. intros H%list_elem_of_lookup_2%list_elem_of_In.
  apply filter_In in H as [[Hin Hp]%filter_In Htop]. split_and!; [by apply list_elem_of_In|done|].
  rewrite forallb_forall in Htop. intros r' Hr' Hp'. apply Z.leb_le, Htop, filter_In.
  by rewrite <-list_elem_of_In.
Qed.

Lemma run_selectOne p Q s :
  (∀ e, Q (RErr e) (ticked s)) →
  (∀ r, r ∈ db_rows s → p r = true → Q (ROk r) (ticked s)) →
  run (selectOne env p) Q s.
Proof.
  intros He Hok. apply run_statement; [done|]. intros a rs.
  destruct (newest _ _ _ _) as [r|] eqn:E; intros [= <- <-].
  apply newest_Some in E as (? & ? & _). destruct s. apply Hok; done.
Qed.

Lemma run_selectUser uid Q s :
  (∀ e, Q (RErr e) (ticked s)) → (∀ a, Q (ROk a) (ticked s)) → run (selectUser env uid) Q s.
Proof.
  intros He Hok. apply run_statement; [done|]. intros a rs.
  destruct (_ !! _); intros [= <- <-]. destruct s. apply Hok.
Qed.

Lemma run_Begin Q s :
  (∀ e, Q (RErr e) (ticked s)) →
  Q (ROk tt) (ticked (with_snapshot (Some (db_rows s)) s)) → run (Begin env) Q s.
Proof. unfold run, Begin. destruct (env_fault _ _); simpl; auto. Qed.

(** A commit may report an error and have taken effect all the same. *)
Lemma run_commit_tx Q s :
  (∀ e, Q (RErr e) (ticked (restore s))) →
  (∀ msg, env_fault env (db_tick s) = Some msg → env_lost env (db_tick s) = true →
     Q (RErr (EWrapf "commit tx: " (EText msg) "")) (ticked (with_snapshot None s))) →
  Q (ROk tt) (ticked (with_snapshot None s)) → run (commit_tx env) Q s.
Proof.
  intros He Hl Hok. apply run_errorf. unfold run, Commit.
  destruct (env_fault _ _) as [msg|]; simpl; [|done]. destruct (env_lost _ _) eqn:E; auto.
Qed.
End db_rules.

(** ** What the transactions do *)

(** The table is as before, no transaction is open and nothing was sent. *)
Definition unchanged (s s' : AqDB) : Prop :=
  db_rows s' = db_rows s ∧ db_snapshot s' = None ∧ db_sent s' = db_sent s.

Definition fresh_id (id : string) (rs : list Asynquery) : Prop := ∀ r, r ∈ rs → aq_ID r ≠ id.

(** A record was added: new id, no file yet, and committed or a draft. *)
Definition added (uid : Z) (up : string) (ready : bool) (s s' : AqDB) (q : Asynquery) : Prop :=
  ∃ row, db_rows s' = db_rows s ++ [row] ∧ fresh_id (aq_ID row) (db_rows s) ∧
    aq_ID row = aq_ID q ∧ aq_ID row ≠ "" ∧ aq_UserID row = uid ∧ aq_UploadID row = up ∧
    aq_Status row = Received ∧ aq_ReadyToRun row = ready ∧ aq_FileReady row = false.

Section effects.
Context `{!AqJSON}.

(** A transaction whose complete work is [done]: it failed and nothing is left
    of it; it is done; or it is done although its commit, the last operation,
    reported an error. *)
Inductive tx_effect {A} (env : AqEnv) (done : A → AqDB → Prop) (s : AqDB)
  : result error A → AqDB → Prop :=
| tx_failed e s' : unchanged s s' → tx_effect env done s (RErr e) s'
| tx_done a s' : done a s' → tx_effect env done s (ROk a) s'
| tx_lost a n msg s' :
    done a s' → db_tick s' = S n → env_fault env n = Some msg → env_lost env n = true →
    tx_effect env done s (RErr (EWrapf "commit tx: " (EText msg) "")) s'.

(** The work of [callUploadTx]: nothing; a new record, as a draft or (first
    commit, or commit after a failure) ready; or the commit of a draft, which
    asks for the queue exactly when its file is ready. *)
Inductive call_done (uid : Z) (up : string) (deferRun : bool) (s : AqDB)
  : Asynquery * bool → AqDB → Prop :=
| call_noop aq s' :
    unchanged s s' → aq ∈ db_rows s → of_upload up uid aq = true →
    (deferRun = true ∨ aq_ReadyToRun aq = true ∨ aq_Status aq ≠ Received) →
    call_done uid up deferRun s (aq, false) s'
| call_new q ready s' :
    added uid up ready s s' q → db_snapshot s' = None → db_sent s' = db_sent s →
    ready = negb deferRun → call_done uid up deferRun s (q, false) s'
| call_commit aq aq' t s' :
    deferRun = false → aq ∈ db_rows s → of_upload up uid aq = true →
    aq_Status aq = Received → aq_ReadyToRun aq = false →
    aq_ID aq' = aq_ID aq → aq_ReadyToRun aq' = true →
    db_rows s' = update_where (aq_ID aq) (put_commit aq' t) (db_rows s) →
    db_snapshot s' = None → db_sent s' = db_sent s →
    call_done uid up deferRun s (aq', aq_FileReady aq) s'.

(** The work of [handleMergeTx]: nothing, and the query is to be run exactly
    when it is committed and has not succeeded; or the file of a draft is
    marked ready. *)
Inductive merge_done (up : string) (uid : Z) (s : AqDB) : Asynquery * bool → AqDB → Prop :=
| merge_run aq s' :
    unchanged s s' → aq ∈ db_rows s → of_upload up uid aq = true → aq_ReadyToRun aq = true →
    merge_done up uid s (aq, negb (bool_decide (aq_Status aq = Succeeded))) s'
| merge_file aq aq' t s' :
    aq ∈ db_rows s → of_upload up uid aq = true → aq_ReadyToRun aq = false →
    aq_FileReady aq' = true →
    db_rows s' = update_where (aq_ID aq) (put_file aq' t) (db_rows s) →
    db_snapshot s' = None → db_sent s' = db_sent s →
    merge_done up uid s (aq', false) s'.

Lemma call_done_closed uid up d s a s' :
  call_done uid up d s a s' → db_snapshot s' = None ∧ db_sent s' = db_sent s.
Proof. intros []; unfold unchanged in *; naive_solver. Qed.

Lemma merge_done_closed up uid s a s' :
  merge_done up uid s a s' → db_snapshot s' = None ∧ db_sent s' = db_sent s.
Proof. intros []; unfold unchanged in *; naive_solver. Qed.

Context (env : AqEnv).

Lemma md5_Sum_length m : length (md5_Sum m) = 16%nat.
Proof.
  unfold md5_Sum, md5_bytes. rewrite length_fmap. by destruct (foldl md5_block _ _) as [[[? ?] ?] ?].
Qed.

Lemma row_id_nonempty rb z : hex_encode (md5_Sum (bytes_of rb)) +:+ Itoa z ≠ "".
Proof.
  intros Heq. apply (f_equal String.length) in Heq.
  rewrite length_app_str, hex_encode_length, md5_Sum_length in Heq. simpl in Heq. lia.
Qed.

Lemma run_createQueryRecord ps req Q s :
  (∀ e s', db_rows s' = db_rows s → db_snapshot s' = db_snapshot s → db_sent s' = db_sent s → Q (RErr e) s') →
  (∀ q s', added (qp_userID ps) (qp_uploadID ps) (qp_readyToRun ps) s s' q →
     db_snapshot s' = db_snapshot s → db_sent s' = db_sent s → Q (ROk q) s') →
  run (createQueryRecord env ps req) Q s.
Proof.
  intros He Hok. apply run_bind, run_errorf, run_of_sum; [by intros; apply He|]. intros rb Hrb.
  apply run_bind. unfold run at 1, aq_now; simpl. unfold Insert.
  apply run_statement; [by intros; apply He|]. intros a rs. simpl.
  destruct (existsb _ _) eqn:Hx; [done|]. destruct (_ !! _); intros [= <- <-].
  apply Hok; [|done..]. eexists. split; [reflexivity|]. simpl. split_and!; try done; [|apply row_id_nonempty].
  intros r Hr Heq. assert (existsb (λ r, String.eqb (aq_ID r)
    (hex_encode (md5_Sum (bytes_of rb)) +:+ Itoa (env_now env (db_tick s) / 1000))) (db_rows s) = true) as Ht; [|congruence].
  apply existsb_exists. exists r. by rewrite <-list_elem_of_In, String.eqb_eq.
Qed.

(** The commit at the end of a transaction that has done its work. *)
Lemma run_commit_ret {A} (done : A → AqDB → Prop) (a : A) s0 s :
  db_snapshot s = Some (db_rows s0) → db_sent s = db_sent s0 →
  done a (ticked (with_snapshot None s)) →
  run (commit_tx env ;;! ret a) (tx_effect env done s0) s.
Proof.
  intros Hsn Hs Hd. apply run_bind, run_commit_tx.
  - intros e. apply tx_failed. unfold unchanged, restore; simpl. by rewrite Hsn.
  - intros msg Hf Hl. simpl. by eapply tx_lost.
  - apply run_ret. by apply tx_done.
Qed.

Lemma run_addQuery ps req uid up d s0 s :
  qp_userID ps = uid → qp_uploadID ps = up → qp_readyToRun ps = negb d →
  db_rows s = db_rows s0 → db_sent s = db_sent s0 → db_snapshot s = Some (db_rows s0) →
  run (addQuery env ps req) (tx_effect env (call_done uid up d s0) s0) s.
Proof.
  intros <- <- Hd Hr Hs Hsn. apply run_bind, run_or_rollback, run_createQueryRecord.
  - intros e s' Hr' Hsn' Hs' e'. apply tx_failed. unfold unchanged, restore; simpl. by rewrite Hsn', Hsn, Hs', Hs.
  - intros q s' (row & Hrow & Hadd) Hsn' Hs'. apply run_commit_ret; [congruence..|].
    eapply call_new; simpl; [|done|congruence|exact Hd]. exists row. rewrite <-Hr. done.
Qed.

(** Every path of [callUploadTx], for a transaction that starts with none open. *)
Lemma callUploadTx_effect uid up d req s :
  db_snapshot s = None → run (callUploadTx env uid up d req) (tx_effect env (call_done uid up d s) s) s.
Proof.
  intros Hsn.
  assert (∀ e s', unchanged s s' → tx_effect env (call_done uid up d s) s (RErr e) s') as Herr by by constructor.
  apply run_bind, run_errorf, run_Begin; [intros; by apply Herr|].
  apply run_bind, run_or_rollback, run_selectUser; [intros; by apply Herr|intros ua].
  apply run_bind, run_try, run_selectOne.
  - intros e. simpl. destruct (Is e _); simpl; [|by apply Herr]. by eapply run_addQuery.
  - intros aq Hin Hof. simpl in *.
    assert (∀ s1, db_rows s1 = db_rows s → db_sent s1 = db_sent s → db_snapshot s1 = Some (db_rows s) →
      (d = true ∨ aq_ReadyToRun aq = true ∨ aq_Status aq ≠ Received) →
      run (commit_tx env ;;! ret (aq, false)) (tx_effect env (call_done uid up d s) s) s1) as Hnoop.
    { intros s1 Hr1 Hs1 Hsn1 Hc. apply run_commit_ret; [done..|]. by constructor. }
    destruct d; [apply Hnoop; auto|].
    destruct (aq_Status aq) eqn:Hst; try (apply Hnoop; auto; done).
    + destruct (aq_ReadyToRun aq) eqn:Hrd; [apply Hnoop; auto|].
      apply run_bind, run_or_rollback, run_of_sum; [intros; by apply Herr|]. intros rb _.
      apply run_bind, run_or_rollback, run_statement; [intros; by apply Herr|]. intros [] rs [= <-].
      apply run_commit_ret; [done..|]. by eapply (call_commit _ _ _ _ aq).
    + by eapply run_addQuery.
Qed.

Lemma handleMergeTx_effect p s :
  db_snapshot s = None →
  run (handleMergeTx env p) (tx_effect env (merge_done (fud_UploadID p) (fud_UserID p) s) s) s.
Proof.
  intros Hsn. set (up := fud_UploadID p). set (uid := fud_UserID p).
  assert (∀ e s', unchanged s s' → tx_effect env (merge_done up uid s) s (RErr e) s') as Herr by by constructor.
  apply run_bind, run_errorf, run_Begin; [intros; by apply Herr|].
  apply run_bind, run_or_rollback, run_selectOne; [intros; by apply Herr|].
  intros aq Hin Hof. simpl in *. destruct (aq_ReadyToRun aq) eqn:Hrd; simpl.
  - pose proof (λ s', merge_run up uid s aq s') as Hrun. revert Hrun.
    destruct (aq_Status aq); simpl; intros Hrun; (apply run_commit_ret; [done..|]; by apply Hrun).
  - apply run_bind, run_or_rollback, run_of_sum; [intros; by apply Herr|]. intros m _.
    apply run_bind, run_or_rollback, run_statement; [intros; by apply Herr|]. intros [] rs [= <-].
    apply run_commit_ret; [done..|]. by eapply (merge_file _ _ _ aq).
Qed.
End effects.

(** ** Interleavings *)

(** A row is committed and its file is ready. *)
Definition complete (r : Asynquery) : bool := aq_ReadyToRun r && aq_FileReady r.

(** The shared database and queue, with what is under way between its atomic
    steps: ids whose commit has ended and whose queue send is due, ids whose
    send failed, ids a forklift report has begun to run, and the rows that
    [finalizeQueryRecord] has read and not yet written back.  The last two
    keep account only: ids of queries that a commit completed although it
    reported an error, so that nobody sends them. *)
Record Sys := mkSys {
  sy_db : AqDB;
  sy_pending : list string;
  sy_unsent : list string;
  sy_fired : list string;
  sy_inflight : list Asynquery;
  sy_lost : list string;
}.

Definition sent_ids (s : AqDB) : list string := aiq_QueryID <$> db_sent s.

(** Every id that was due for the queue: still due, sent, lost to a failed send,
    or lost to a commit that reported an error. *)
Definition tracked (y : Sys) : list string :=
  sy_pending y ++ sent_ids (sy_db y) ++ sy_unsent y ++ sy_lost y.

Definition due (r : result error (Asynquery * bool)) : list string :=
  match r with ROk (aq, true) => [aq_ID aq] | _ => [] end.

(** The queries that are complete now and were not before. *)
Definition newly_complete (db db' : AqDB) : list string :=
  aq_ID <$> List.filter (λ q, complete q && negb (existsb (λ q0, String.eqb (aq_ID q0) (aq_ID q) && complete q0) (db_rows db)))
    (db_rows db').

(** What a transaction that returned no result completed all the same. *)
Definition forgotten (r : result error (Asynquery * bool)) (db db' : AqDB) : list string :=
  match r with ROk _ => [] | _ => newly_complete db db' end.

Section system.
Context `{!AqJSON} (env : AqEnv).

(** One atomic step: a client's [Call] on an upload, or without one; a queue
    send, which may fail; a forklift report; the read and the write of
    [finalizeQueryRecord] for a query that is being run; or any operation that
    leaves the table alone.  Steps of different requests and workers come in any
    order. *)
Inductive aqstep : Sys → Sys → Prop :=
| step_call db pend uns fired infl lost uid up d req r db' :
    up ≠ "" → callUploadTx env uid up d req db = (r, db') →
    aqstep (mkSys db pend uns fired infl lost)
      (mkSys db' (pend ++ due r) uns fired infl (lost ++ forgotten r db db'))
| step_direct db pend uns fired infl lost uid req r db' :
    createQueryRecord env {| qp_queryID := ""; qp_uploadID := ""; qp_userID := uid; qp_readyToRun := true |} req db
      = (r, db') →
    aqstep (mkSys db pend uns fired infl lost)
      (mkSys db' (pend ++ match r with ROk q => [aq_ID q] | _ => [] end) uns fired infl lost)
| step_send db pend1 id pend2 uns fired infl lost uid r db' :
    SendRequest env {| aiq_QueryID := id; aiq_UserID := uid |} db = (r, db') →
    aqstep (mkSys db (pend1 ++ id :: pend2) uns fired infl lost)
      (mkSys db' (pend1 ++ pend2) (uns ++ match r with ROk _ => [] | _ => [id] end) fired infl lost)
| step_merge db pend uns fired infl lost p r db' :
    fud_UploadID p ≠ "" → handleMergeTx env p db = (r, db') →
    aqstep (mkSys db pend uns fired infl lost) (mkSys db' pend uns (fired ++ due r) infl lost)
| step_read db pend uns fired infl lost id q db' :
    id ∈ fired ++ sent_ids db → getQueryRecord env (by_id id) db = (ROk q, db') →
    aqstep (mkSys db pend uns fired infl lost) (mkSys db' pend uns fired (infl ++ [q]) lost)
| step_store db pend uns fired infl lost q res msg r db' :
    q ∈ infl → storeResult env q res msg db = (r, db') →
    aqstep (mkSys db pend uns fired infl lost) (mkSys db' pend uns fired infl lost)
| step_other db pend uns fired infl lost :
    aqstep (mkSys db pend uns fired infl lost) (mkSys (ticked db) pend uns fired infl lost).

Definition start (y : Sys) : Prop :=
  ∃ n, y = mkSys (mkDB [] None [] n) [] [] [] [] [].

Definition reachable (y : Sys) : Prop := ∃ y0, start y0 ∧ rtc aqstep y0 y.
End system.

Definition occ (id : string) (l : list string) : nat := count_occ String.string_dec l id.

(** Rows that agree on everything but the result of the run. *)
Definition agree (q r : Asynquery) : Prop :=
  aq_ID q = aq_ID r ∧ aq_UploadID q = aq_UploadID r ∧ aq_UserID q = aq_UserID r ∧
  aq_ReadyToRun q = aq_ReadyToRun r ∧ aq_FileReady q = aq_FileReady r.

Record aq_inv (y : Sys) : Prop := {
  inv_closed : db_snapshot (sy_db y) = None;
  inv_key : NoDup (aq_ID <$> db_rows (sy_db y));
  inv_id : ∀ r, r ∈ db_rows (sy_db y) → aq_ID r ≠ "";
  inv_once : ∀ r, r ∈ db_rows (sy_db y) → aq_UploadID r ≠ "" →
    occ (aq_ID r) (tracked y) = if complete r then 1%nat else 0%nat;
  inv_ready : ∀ id, id ∈ tracked y ++ sy_fired y →
    ∃ r, r ∈ db_rows (sy_db y) ∧ aq_ID r = id ∧ aq_ReadyToRun r = true;
  inv_copy : ∀ q, q ∈ sy_inflight y →
    ∃ r, r ∈ db_rows (sy_db y) ∧ agree q r ∧ aq_ReadyToRun r = true;
}.

Lemma key_inj (rs : list Asynquery) r1 r2 :
  NoDup (aq_ID <$> rs) → r1 ∈ rs → r2 ∈ rs → aq_ID r1 = aq_ID r2 → r1 = r2.
Proof.
  induction rs as [|r rs IH]; simpl; [by intros _ ?%not_elem_of_nil|].
  rewrite NoDup_cons, !elem_of_cons. intros [Hn Hd] [->|H1] [->|H2] Heq; auto.
  - destruct Hn. rewrite Heq. by apply list_elem_of_fmap_2.
  - destruct Hn. rewrite <-Heq. by apply list_elem_of_fmap_2.
Qed.

Lemma occ_app id l1 l2 : occ id (l1 ++ l2) = (occ id l1 + occ id l2)%nat.
Proof. apply count_occ_app. Qed.

Lemma occ_notin id l : id ∉ l → occ id l = 0%nat.
Proof. intros H. apply count_occ_not_In. by rewrite <-list_elem_of_In. Qed.

Lemma update_ids id f rs :
  (∀ r, aq_ID (f r) = aq_ID r) → aq_ID <$> update_where id f rs = aq_ID <$> rs.
Proof.
  intros Hf. unfold update_where. rewrite <-list_fmap_compose. apply list_fmap_ext.
  intros _ r _. simpl. by destruct (String.eqb _ _).
Qed.

(** A row after an update by key: it is the updated one, or an old one. *)
Lemma update_inv id f rs r :
  r ∈ update_where id f rs →
  ∃ r0, r0 ∈ rs ∧ ((aq_ID r0 = id ∧ r = f r0) ∨ (aq_ID r0 ≠ id ∧ r = r0)).
Proof.
  intros (r0 & -> & Hin)%list_elem_of_fmap_1. exists r0. split; [done|].
  destruct (String.eqb_spec (aq_ID r0) id); auto.
Qed.

Lemma update_intro id f rs r0 :
  r0 ∈ rs → (if String.eqb (aq_ID r0) id then f r0 else r0) ∈ update_where id f rs.
Proof. intros. by apply (list_elem_of_fmap_2 (λ r, if String.eqb (aq_ID r) id then f r else r)). Qed.

(** ** The invariant is kept *)

(** [l] is what a step adds to the account. *)
Definition tracks_more (y y' : Sys) (l : list string) : Prop :=
  ∀ id, occ id (tracked y') = (occ id (tracked y) + occ id l)%nat.

Lemma tracks_elem y y' l id : tracks_more y y' l → id ∈ tracked y' ↔ id ∈ tracked y ∨ id ∈ l.
Proof.
  intros Ht. specialize (Ht id). unfold occ in Ht.
  rewrite !list_elem_of_In, !(count_occ_In String.string_dec). lia.
Qed.

Lemma tracked_same db db' pend uns fired fired' infl infl' lost :
  db_sent db' = db_sent db →
  tracks_more (mkSys db pend uns fired infl lost) (mkSys db' pend uns fired' infl' lost) [].
Proof. intros Hs id. unfold tracked, sent_ids; simpl. rewrite Hs. unfold occ; simpl; lia. Qed.

Lemma tracked_pending db db' pend uns fired infl lost l :
  db_sent db' = db_sent db →
  tracks_more (mkSys db pend uns fired infl lost) (mkSys db' (pend ++ l) uns fired infl lost) l.
Proof. intros Hs id. unfold tracked, sent_ids; simpl. rewrite Hs, !occ_app. lia. Qed.

Lemma tracked_lost db db' pend uns fired infl lost l :
  db_sent db' = db_sent db →
  tracks_more (mkSys db pend uns fired infl lost) (mkSys db' pend uns fired infl (lost ++ l)) l.
Proof. intros Hs id. unfold tracked, sent_ids; simpl. rewrite Hs, !occ_app. lia. Qed.

Lemma inv_unchanged y y' :
  aq_inv y → unchanged (sy_db y) (sy_db y') → tracks_more y y' [] →
  (∀ id, id ∈ sy_fired y' → id ∈ sy_fired y ∨
     ∃ r, r ∈ db_rows (sy_db y) ∧ aq_ID r = id ∧ aq_ReadyToRun r = true) →
  (∀ q, q ∈ sy_inflight y' → q ∈ sy_inflight y ∨ (q ∈ db_rows (sy_db y) ∧ aq_ReadyToRun q = true)) →
  aq_inv y'.
Proof.
  intros [Hc Hk Hi Ho Hr Hq] (Hrows & Hsn & Hsent) Ht Hf Hinfl.
  split; rewrite ?Hrows; try done.
  - intros r Hin Hu. rewrite Ht, Ho by done. unfold occ; simpl; lia.
  - intros id [Hid|Hid]%elem_of_app.
    + apply (tracks_elem y y' [] id Ht) in Hid as [?|?%not_elem_of_nil]; [apply Hr, elem_of_app; by left|done].
    + destruct (Hf _ Hid); [apply Hr, elem_of_app; by right|done].
  - intros q Hin. destruct (Hinfl _ Hin) as [?|[? ?]]; [by apply Hq|]. exists q. by unfold agree.
Qed.

Lemma inv_add y y' uid up ready q l :
  aq_inv y → added uid up ready (sy_db y) (sy_db y') q → db_snapshot (sy_db y') = None →
  sy_fired y' = sy_fired y → sy_inflight y' = sy_inflight y → tracks_more y y' l →
  (up ≠ "" → l = []) → (l = [] ∨ (l = [aq_ID q] ∧ ready = true)) →
  aq_inv y'.
Proof.
  intros [Hc Hk Hi Ho Hr Hq] (row & Hrows & Hfr & Hid & Hne & _ & Hup & _ & Hrd & Hfile) Hsn Hfd Hin' Ht Hl1 Hl2.
  assert (∀ r, r ∈ db_rows (sy_db y) → aq_ID r ∉ l) as Hnl.
  { intros r Hin Hl. destruct Hl2 as [->|[-> _]]; [by apply not_elem_of_nil in Hl|].
    apply list_elem_of_singleton in Hl. apply (Hfr r); congruence. }
  split; rewrite ?Hrows, ?Hfd, ?Hin'; try done.
  - rewrite fmap_app. apply NoDup_app. split_and!; [done| |apply NoDup_singleton].
    intros x (r & -> & Hin)%list_elem_of_fmap_1 Heq%list_elem_of_singleton. by apply (Hfr r).
  - intros r [Hin|Hin%list_elem_of_singleton]%elem_of_app; [auto|by subst].
  - intros r [Hin|Hin%list_elem_of_singleton]%elem_of_app Hu; rewrite Ht; [|subst r].
    + rewrite (occ_notin _ l) by auto. rewrite Ho by done. lia.
    + rewrite (Hl1 ltac:(congruence)). unfold complete. rewrite Hfile, andb_false_r.
      rewrite occ_notin; [done|]. intros Hin.
      destruct (Hr (aq_ID row)) as (r & Hrin & Heq & _); [apply elem_of_app; by left|]. by apply (Hfr r).
  - intros id Hin. assert (id ∈ l ∨ id ∈ tracked y ++ sy_fired y) as [Hl|Ho'].
    { rewrite elem_of_app, (tracks_elem y y' l id Ht) in Hin. rewrite elem_of_app. tauto. }
    + destruct Hl2 as [->|[-> Hready]]; [by apply not_elem_of_nil in Hl|].
      apply list_elem_of_singleton in Hl. exists row. rewrite elem_of_app, list_elem_of_singleton.
      split_and!; [by right|congruence|congruence].
    + destruct (Hr id Ho') as (r & ? & ? & ?). exists r. rewrite elem_of_app. auto.
  - intros q0 Hin. destruct (Hq q0 Hin) as (r & ? & ? & ?). exists r. rewrite elem_of_app. auto.
Qed.

(** An update of the row [aq] by its key, which may make it due for the queue. *)
Lemma inv_update y y' aq f l :
  aq_inv y → aq ∈ db_rows (sy_db y) →
  db_rows (sy_db y') = update_where (aq_ID aq) f (db_rows (sy_db y)) →
  db_snapshot (sy_db y') = None →
  sy_fired y' = sy_fired y → sy_inflight y' = sy_inflight y → tracks_more y y' l →
  (∀ r, aq_ID (f r) = aq_ID r) → aq_UploadID (f aq) = aq_UploadID aq → aq_UserID (f aq) = aq_UserID aq →
  (aq_ReadyToRun aq = true → agree (f aq) aq) →
  (l = [] ∨ (l = [aq_ID aq] ∧ aq_ReadyToRun (f aq) = true)) →
  (if complete (f aq) then 1 else 0)%nat = ((if complete aq then 1 else 0) + length l)%nat →
  aq_inv y'.
Proof.
  intros [Hc Hk Hi Ho Hr Hq] Haq Hrows Hsn Hfd Hin' Ht Hfid Hfup Hfu Hfag Hl Hcomp.
  assert (∀ r, r ∈ db_rows (sy_db y') → ∃ r0, r0 ∈ db_rows (sy_db y) ∧
    ((r0 = aq ∧ r = f aq) ∨ (aq_ID r0 ≠ aq_ID aq ∧ r = r0))) as Hinv.
  { intros r Hin. rewrite Hrows in Hin. apply update_inv in Hin as (r0 & Hr0 & [[Heq ->]|[Hne ->]]).
    - exists r0. split; [done|]. left. by rewrite (key_inj _ _ _ Hk Hr0 Haq Heq).
    - exists r0. auto. }
  assert (∀ r0, r0 ∈ db_rows (sy_db y) → aq_ReadyToRun r0 = true →
    ∃ r, r ∈ db_rows (sy_db y') ∧ agree r0 r ∧ aq_ReadyToRun r = true) as Hkeep.
  { intros r0 Hr0 Hrd. pose proof (update_intro (aq_ID aq) f _ _ Hr0) as Hin.
    rewrite <-Hrows in Hin. destruct (String.eqb_spec (aq_ID r0) (aq_ID aq)) as [Heq|Hne].
    - rewrite (key_inj _ _ _ Hk Hr0 Haq Heq) in Hrd, Hin |- *. destruct (Hfag Hrd) as (? & ? & ? & ? & ?).
      exists (f aq). unfold agree. split_and!; congruence.
    - exists r0. by unfold agree. }
  split; rewrite ?Hfd, ?Hin'; try done.
  - by rewrite Hrows, update_ids.
  - intros r Hin. destruct (Hinv r Hin) as (r0 & Hr0 & [[-> ->]|[_ ->]]); [rewrite Hfid|]; by apply Hi.
  - intros r Hin Hu. rewrite Ht. destruct (Hinv r Hin) as (r0 & Hr0 & [[-> ->]|[Hne ->]]).
    + rewrite Hfid, Ho, Hcomp by congruence. f_equal. destruct Hl as [->|[-> _]]; [done|].
      unfold occ; simpl. by destruct (String.string_dec _ _).
    + rewrite Ho by done. rewrite (occ_notin _ l); [lia|].
      destruct Hl as [->|[-> _]]; [apply not_elem_of_nil|]. by rewrite list_elem_of_singleton.
  - intros id Hin. assert (id ∈ l ∨ id ∈ tracked y ++ sy_fired y) as [Hil|Hold].
    { rewrite elem_of_app, (tracks_elem y y' l id Ht) in Hin. rewrite elem_of_app. tauto. }
    + destruct Hl as [->|[-> Hready]]; [by apply not_elem_of_nil in Hil|].
      apply list_elem_of_singleton in Hil as ->. exists (f aq).
      split_and!; [|by rewrite Hfid|done]. rewrite Hrows.
      pose proof (update_intro (aq_ID aq) f _ _ Haq) as Hx. by rewrite String.eqb_refl in Hx.
    + destruct (Hr id Hold) as (r & ? & <- & ?). destruct (Hkeep r) as (r' & ? & [? _] & ?); eauto.
  - intros q Hin. destruct (Hq q Hin) as (r & ? & Hag & ?).
    destruct (Hkeep r) as (r' & ? & Hag' & ?); [done..|]. exists r'. split_and!; [done| |done].
    unfold agree in *. destruct_and!. split_and!; congruence.
Qed.

(** *** What a transaction completes *)

Lemma newly_complete_same db db' : db_rows db' = db_rows db → newly_complete db db' = [].
Proof.
  intros Hr. unfold newly_complete. rewrite Hr. set (p := λ q, _).
  destruct (List.filter p (db_rows db)) as [|q l] eqn:E; [done|]. exfalso.
  assert (In q (List.filter p (db_rows db))) as [Hin Hp]%filter_In by (rewrite E; by left).
  subst p. simpl in Hp. apply andb_true_iff in Hp as [Hc Hx%negb_true_iff].
  enough (existsb (λ q0, String.eqb (aq_ID q0) (aq_ID q) && complete q0) (db_rows db) = true) by congruence.
  apply existsb_exists. exists q. by rewrite String.eqb_refl, Hc.
Qed.

Lemma newly_complete_nil db db' :
  (∀ q, q ∈ db_rows db' → complete q = true → ∃ q0, q0 ∈ db_rows db ∧ aq_ID q0 = aq_ID q ∧ complete q0 = true) →
  newly_complete db db' = [].
Proof.
  intros Hall. unfold newly_complete. set (p := λ q, _).
  destruct (List.filter p (db_rows db')) as [|q l] eqn:E; [done|]. exfalso.
  assert (In q (List.filter p (db_rows db'))) as [Hin Hp]%filter_In by (rewrite E; by left).
  subst p. simpl in Hp. apply andb_true_iff in Hp as [Hc Hx%negb_true_iff].
  destruct (Hall q) as (q0 & H0 & Hid & Hc0); [by apply list_elem_of_In|done|].
  enough (existsb (λ q0, String.eqb (aq_ID q0) (aq_ID q) && complete q0) (db_rows db) = true) by congruence.
  apply existsb_exists. exists q0. rewrite <-list_elem_of_In. by rewrite Hid, String.eqb_refl, Hc0.
Qed.

Section invariant.
Context `{!AqJSON} (env : AqEnv).

(** The commit of a draft completes the draft alone, if its file is ready. *)
Lemma newly_complete_commit db db' aq aq' t :
  NoDup (aq_ID <$> db_rows db) → aq ∈ db_rows db → aq_ReadyToRun aq = false → aq_ReadyToRun aq' = true →
  db_rows db' = update_where (aq_ID aq) (put_commit aq' t) (db_rows db) →
  newly_complete db db' = if aq_FileReady aq then [aq_ID aq] else [].
Proof.
  intros Hk Hin Hrd Hrd' Hrows. unfold newly_complete. rewrite Hrows.
  apply list_elem_of_split in Hin as (l1 & l2 & Hl).
  assert (∀ q, q ∈ l1 ++ l2 → aq_ID q ≠ aq_ID aq) as Hne.
  { rewrite Hl, fmap_app, fmap_cons, NoDup_app, NoDup_cons in Hk. destruct Hk as (_ & Hd & Hn & _).
    intros q [Hq|Hq]%elem_of_app Heq.
    - apply (Hd (aq_ID q)); [by apply list_elem_of_fmap_2|]. rewrite Heq. by left.
    - apply Hn. rewrite <-Heq. by apply list_elem_of_fmap_2. }
  assert (∀ l, (∀ q, q ∈ l → q ∈ l1 ++ l2) → update_where (aq_ID aq) (put_commit aq' t) l = l) as Hid.
  { induction l as [|q l IH]; [done|]. intros Hs. unfold update_where. rewrite fmap_cons.
    fold (update_where (aq_ID aq) (put_commit aq' t) l). rewrite IH by (intros; apply Hs; by right).
    destruct (String.eqb_spec (aq_ID q) (aq_ID aq)) as [Heq|]; [|done].
    destruct (Hne q); [apply Hs; by left|done]. }
  set (p := λ q, complete q && negb (existsb _ _)).
  assert (∀ l, (∀ q, q ∈ l → q ∈ l1 ++ l2) → List.filter p l = []) as Hnone.
  { induction l as [|q l IH]; [done|]. intros Hs. simpl. rewrite IH by (intros; apply Hs; by right).
    unfold p at 1. destruct (complete q) eqn:Hc; [|done].
    assert (existsb (λ q0, String.eqb (aq_ID q0) (aq_ID q) && complete q0) (db_rows db) = true) as ->; [|done].
    apply existsb_exists. exists q. rewrite String.eqb_refl, Hc. split; [|done].
    apply list_elem_of_In. rewrite Hl, elem_of_app, elem_of_cons.
    assert (q ∈ l1 ++ l2) as [?|?]%elem_of_app by (apply Hs; by left); auto. }
  assert (existsb (λ q0, String.eqb (aq_ID q0) (aq_ID aq) && complete q0) (db_rows db) = false) as Hold.
  { apply not_true_iff_false. intros (q & Hq & Hp)%existsb_exists. apply list_elem_of_In in Hq.
    apply andb_true_iff in Hp as [Heq%String.eqb_eq Hc]. rewrite Hl, elem_of_app, elem_of_cons in Hq.
    destruct Hq as [?|[->|?]]; [by destruct (Hne q); [apply elem_of_app; left|]| |
      by destruct (Hne q); [apply elem_of_app; right|]].
    unfold complete in Hc. by rewrite Hrd in Hc. }
  rewrite Hl at 1. unfold update_where. rewrite fmap_app, fmap_cons.
  rewrite String.eqb_refl. fold (update_where (aq_ID aq) (put_commit aq' t) l1).
  fold (update_where (aq_ID aq) (put_commit aq' t) l2).
  rewrite !Hid by (intros; apply elem_of_app; auto).
  rewrite List.filter_app, Hnone by (intros; apply elem_of_app; auto). simpl.
  rewrite Hnone by (intros; apply elem_of_app; auto).
  unfold p. simpl. unfold complete at 1; simpl. rewrite Hrd', Hold. by destruct (aq_FileReady aq).
Qed.

(** The work of a call, accounted as due or, if the commit reported an error,
    as lost. *)
Lemma inv_call_done y y' uid up d a :
  aq_inv y → up ≠ "" → call_done uid up d (sy_db y) a (sy_db y') →
  sy_fired y' = sy_fired y → sy_inflight y' = sy_inflight y →
  tracks_more y y' (if a.2 then [aq_ID a.1] else []) →
  aq_inv y'.
Proof.
  intros Hinv Hup Hdone Hfd Hin' Ht. remember (sy_db y') as db' eqn:Hdb. revert Ht.
  destruct Hdone as [aq s' Hu _ _ _|q ready s' Ha Hsn Hsent _|
                     aq aq' t s' _ Hin _ _ Hrd Hid Hrd' Hrows Hsn Hsent]; simpl; intros Ht; subst s'.
  - eapply inv_unchanged; [exact Hinv|done|done|by rewrite Hfd; auto|by rewrite Hin'; auto].
  - eapply inv_add; eauto.
  - eapply inv_update; eauto; simpl; try done; [congruence|..].
    + destruct (aq_FileReady aq); [right|left]; [by rewrite Hid|done].
    + unfold complete; simpl. rewrite Hrd, Hrd'. by destruct (aq_FileReady aq).
Qed.

Lemma newly_complete_done y uid up d a db' :
  aq_inv y → call_done uid up d (sy_db y) a db' →
  newly_complete (sy_db y) db' = if a.2 then [aq_ID a.1] else [].
Proof.
  intros Hinv [aq s' (Hr & _) _ _ _|q ready s' (row & Hr & _ & _ & _ & _ & _ & _ & _ & Hf) _ _ _|
               aq aq' t s' _ Hin _ _ Hrd Hid Hrd' Hrows _ _]; simpl.
  - by apply newly_complete_same.
  - apply newly_complete_nil. intros q0 Hin Hc. rewrite Hr, elem_of_app, list_elem_of_singleton in Hin.
    destruct Hin as [?| ->]; [by exists q0|]. unfold complete in Hc. by rewrite Hf, andb_false_r in Hc.
  - rewrite Hid. eapply newly_complete_commit; eauto. apply (inv_key _ Hinv).
Qed.

Lemma inv_call db pend uns fired infl lost uid up d r db' :
  aq_inv (mkSys db pend uns fired infl lost) → up ≠ "" →
  tx_effect env (call_done uid up d db) db r db' →
  aq_inv (mkSys db' (pend ++ due r) uns fired infl (lost ++ forgotten r db db')).
Proof.
  intros Hinv Hup [e s' Hu|a s' Hd|a n msg s' Hd _ _ _]; simpl.
  - rewrite newly_complete_same by apply Hu. rewrite !app_nil_r.
    eapply inv_unchanged; [exact Hinv|done|apply tracked_same, Hu|simpl; auto..].
  - rewrite app_nil_r. eapply inv_call_done; [exact Hinv|done|exact Hd|done..|].
    destruct a as [aq []]; simpl; apply tracked_pending; by apply call_done_closed in Hd as [_ ?].
  - rewrite app_nil_r. eapply inv_call_done; [exact Hinv|done|exact Hd|done..|].
    pose proof (newly_complete_done _ _ _ _ _ _ Hinv Hd) as Hn. simpl in Hn. rewrite Hn. apply tracked_lost. by apply call_done_closed in Hd as [_ ?].
Qed.

Lemma inv_merge_done y y' up uid a :
  aq_inv y → merge_done up uid (sy_db y) a (sy_db y') →
  (∀ id, id ∈ sy_fired y' → id ∈ sy_fired y ∨ (a.2 = true ∧ id = aq_ID a.1)) →
  (a.2 = false → sy_fired y' = sy_fired y) →
  sy_inflight y' = sy_inflight y → tracks_more y y' [] →
  aq_inv y'.
Proof.
  intros Hinv Hdone Hfd Hfd' Hin' Ht. remember (sy_db y') as db' eqn:Hdb. revert Hfd Hfd'.
  destruct Hdone as [aq s' Hu Hin _ Hrd|aq aq' t s' Hin _ Hrd Hfile Hrows Hsn Hsent];
    simpl; intros Hfd Hfd'; subst s'.
  - eapply inv_unchanged; [exact Hinv|done|done| |by rewrite Hin'; auto].
    intros id [?|[_ ->]]%Hfd; [by left|]. right. eauto.
  - eapply inv_update; eauto; simpl; try done; [congruence|].
    unfold complete; simpl. by rewrite Hrd.
Qed.

Lemma inv_merge db pend uns fired infl lost up uid r db' :
  aq_inv (mkSys db pend uns fired infl lost) → tx_effect env (merge_done up uid db) db r db' →
  aq_inv (mkSys db' pend uns (fired ++ due r) infl lost).
Proof.
  intros Hinv [e s' Hu|a s' Hd|a n msg s' Hd _ _ _]; simpl.
  - rewrite app_nil_r. eapply inv_unchanged; [exact Hinv|done|apply tracked_same, Hu|simpl; auto..].
  - eapply inv_merge_done; [exact Hinv|exact Hd|..|done|].
    + simpl. intros id [?|Hid]%elem_of_app; [by left|]. right. destruct a as [aq []]; simpl in *;
        [by apply list_elem_of_singleton in Hid|by apply not_elem_of_nil in Hid].
    + destruct a as [aq []]; simpl; [done|]. by rewrite app_nil_r.
    + apply tracked_same. by apply merge_done_closed in Hd as [_ ?].
  - rewrite app_nil_r. eapply inv_merge_done; [exact Hinv|exact Hd|by left|done..|].
    apply tracked_same. by apply merge_done_closed in Hd as [_ ?].
Qed.

Lemma inv_send db pend1 id pend2 uns fired infl lost uid r db' :
  aq_inv (mkSys db (pend1 ++ id :: pend2) uns fired infl lost) →
  SendRequest env {| aiq_QueryID := id; aiq_UserID := uid |} db = (r, db') →
  aq_inv (mkSys db' (pend1 ++ pend2) (uns ++ match r with ROk _ => [] | _ => [id] end) fired infl lost).
Proof.
  intros [Hc Hk Hi Ho Hr Hq] Hs. set (y' := mkSys _ _ _ _ _ _).
  assert (Permutation (tracked (mkSys db (pend1 ++ id :: pend2) uns fired infl lost)) (tracked y') ∧
    db_rows db' = db_rows db ∧ db_snapshot db' = db_snapshot db) as (Hp & Hrows & Hsn).
  { subst y'. unfold SendRequest in Hs. unfold tracked, sent_ids.
    destruct (env_fault env (db_tick db)); injection Hs as <- <-; simpl;
      (split; [|done]); rewrite ?fmap_app, ?app_nil_r; simpl; solve_Permutation. }
  simpl in *. split; simpl; rewrite ?Hrows; try done; [congruence|..].
  - intros r0 Hin Hu. rewrite <-(Ho r0) by done. symmetry.
    by apply (Permutation_count_occ String.string_dec).
  - intros i Hin. apply Hr. by rewrite Hp.
Qed.

Lemma getQueryRecord_ok ps s q s' :
  getQueryRecord env ps s = (ROk q, s') → q ∈ db_rows s ∧ matches ps q = true ∧ s' = ticked s.
Proof.
  intros Hget. assert (run (getQueryRecord env ps) (λ r s', ∀ q, r = ROk q →
    q ∈ db_rows s ∧ matches ps q = true ∧ s' = ticked s) s) as Hrun.
  { apply run_errorf, run_selectOne; [done|]. intros r ? ? q0 [= ->]. done. }
  unfold run in Hrun. rewrite Hget in Hrun. by apply Hrun.
Qed.

Lemma storeResult_effect q res msg s :
  run (storeResult env q res msg)
    (λ r s', (∃ e, r = RErr e ∧ db_rows s' = db_rows s ∧ db_snapshot s' = db_snapshot s ∧ db_sent s' = db_sent s) ∨
       ∃ q' t, r = ROk tt ∧ agree q q' ∧ db_rows s' = update_where (aq_ID q) (put_all q' t) (db_rows s) ∧
         db_snapshot s' = db_snapshot s ∧ db_sent s' = db_sent s) s.
Proof.
  apply run_bind. unfold run at 1. destruct res as [rsp|]; simpl.
  - unfold bind at 1 2, errorf, of_sum, try. destruct (marshal_response rsp) as [e|j]; simpl; [left; eauto|].
    apply run_errorf, run_statement; [left; eauto|]. intros [] rs [= <-]. right. eexists _, _.
    split_and!; [done|..|done|done|done]. done.
  - apply run_errorf, run_statement; [left; eauto|]. intros [] rs [= <-]. right. eexists _, _.
    split_and!; [done|..|done|done|done]. done.
Qed.

Lemma inv_store db pend uns fired infl lost q res msg r db' :
  aq_inv (mkSys db pend uns fired infl lost) → q ∈ infl → storeResult env q res msg db = (r, db') →
  aq_inv (mkSys db' pend uns fired infl lost).
Proof.
  intros Hinv Hin Hst. pose proof (inv_closed _ Hinv) as Hc. simpl in Hc.
  pose proof (storeResult_effect q res msg db) as He. unfold run in He. rewrite Hst in He. simpl in He.
  destruct He as [(e & -> & Hr & Hsn & Hs)|(q' & t & -> & Hag & Hr & Hsn & Hs)].
  - eapply inv_unchanged; [exact Hinv| |by apply tracked_same|simpl; auto..].
    unfold unchanged; simpl. split_and!; congruence.
  - destruct (inv_copy _ Hinv q Hin) as (aq & Haq & Hag' & Hrd). simpl in *.
    assert (agree q' aq) as (Hid & Hup & Hu & Hrd' & Hf).
    { unfold agree in *. destruct_and!. split_and!; congruence. }
    rewrite (proj1 Hag), Hid in Hr.
    eapply inv_update; [exact Hinv|exact Haq|exact Hr|simpl; congruence|done|done|by apply tracked_same|..];
      simpl; try done; [by left|]. unfold complete; simpl. rewrite Hrd', Hf. lia.
Qed.

Lemma aqstep_inv y y' : aqstep env y y' → aq_inv y → aq_inv y'.
Proof.
  intros [db pend uns fired infl lost uid up d req r db' Hup Hrun|db pend uns fired infl lost uid req r db' Hrun|
          db p1 id p2 uns fired infl lost uid r db' Hrun|db pend uns fired infl lost p r db' Hup Hrun|
          db pend uns fired infl lost id q db' Hid Hrun|db pend uns fired infl lost q res msg r db' Hq Hrun|
          db pend uns fired infl lost] Hinv;
    pose proof (inv_closed _ Hinv) as Hc; simpl in Hc.
  - pose proof (callUploadTx_effect env uid up d req db Hc) as He.
    unfold run in He. rewrite Hrun in He. by eapply inv_call.
  - revert Hrun. set (ps := {| qp_queryID := ""; qp_uploadID := "" |}). intros Hrun.
    assert (run (createQueryRecord env ps req) (λ r s', aq_inv
      (mkSys s' (pend ++ match r with ROk q => [aq_ID q] | _ => [] end) uns fired infl lost)) db) as He.
    { apply run_createQueryRecord.
      - intros e s' ? ? ?. rewrite app_nil_r.
        eapply inv_unchanged; [exact Hinv| |by apply tracked_same|simpl; auto..].
        unfold unchanged; simpl. split_and!; congruence.
      - intros q s' Ha Hsn Hs. eapply (inv_add _ _ _ _ _ q [aq_ID q]); [exact Hinv|exact Ha|simpl; congruence|done|done| |intros []; done|auto].
        by apply tracked_pending. }
    unfold run in He. by rewrite Hrun in He.
  - by eapply inv_send.
  - pose proof (handleMergeTx_effect env p db Hc) as He.
    unfold run in He. rewrite Hrun in He. by eapply inv_merge.
  - apply getQueryRecord_ok in Hrun as (Hin & Hm & ->).
    eapply inv_unchanged; [exact Hinv|done|by apply tracked_same|simpl; auto|].
    simpl. intros q0 [?|Hq0]%elem_of_app; [by left|right].
    apply list_elem_of_singleton in Hq0 as ->. split; [done|].
    destruct (inv_ready _ Hinv id) as (r & Hr & Heq & Hrd).
    { unfold tracked; simpl. rewrite !elem_of_app in *. tauto. }
    simpl in *. pose proof (inv_id _ Hinv r Hr) as Hne. rewrite Heq in Hne.
    unfold matches in Hm; simpl in Hm. apply String.eqb_neq in Hne. rewrite Hne in Hm. simpl in Hm.
    rewrite !andb_true_r in Hm. apply String.eqb_eq in Hm.
    rewrite (key_inj _ q r (inv_key _ Hinv) Hin Hr); congruence.
  - by eapply inv_store.
  - by eapply inv_unchanged; [exact Hinv|done|apply tracked_same|simpl; auto..].
Qed.

Lemma start_inv y : start y → aq_inv y.
Proof.
  intros [n ->]. split; simpl; try done; try apply NoDup_nil_2; by intros ? ?%not_elem_of_nil.
Qed.

Lemma reachable_inv y : reachable env y → aq_inv y.
Proof.
  intros (y0 & Hs%start_inv & Hsteps). induction Hsteps; [done|]. eauto using aqstep_inv.
Qed.

(** Where nothing fails, nothing is lost. *)
Lemma aqstep_lossless y y' :
  (∀ n, env_fault env n = None) → aqstep env y y' → aq_inv y →
  sy_unsent y = [] → sy_lost y = [] → sy_unsent y' = [] ∧ sy_lost y' = [].
Proof.
  intros Hnf [db pend uns fired infl lost uid up d req r db' Hup Hrun|?|
          db p1 id p2 uns fired infl lost uid r db' Hrun|?|?|?|?] Hinv; simpl; try done.
  - intros -> ->. split; [done|]. pose proof (callUploadTx_effect env uid up d req db (inv_closed _ Hinv)) as He.
    unfold run in He. rewrite Hrun in He. simpl in He.
    destruct He as [e s' [Hr _]| |a n msg s' _ _ Hf _]; simpl; [by apply newly_complete_same|done|].
    by rewrite Hnf in Hf.
  - intros -> ->. unfold SendRequest in Hrun. rewrite Hnf in Hrun. by injection Hrun as <- _.
Qed.

Lemma reachable_lossless y :
  (∀ n, env_fault env n = None) → reachable env y → sy_unsent y = [] ∧ sy_lost y = [].
Proof.
  intros Hnf (y0 & Hs & Hsteps).
  assert (sy_unsent y0 = [] ∧ sy_lost y0 = []) as [Hu Hl] by (by destruct Hs as [n ->]).
  apply start_inv in Hs. revert Hs Hu Hl.
  induction Hsteps as [|y0 y1 y2 Hstep _ IH]; [done|]. intros Hs Hu Hl.
  destruct (aqstep_lossless _ _ Hnf Hstep Hs Hu Hl). eauto using aqstep_inv.
Qed.

(** C7: The queue gets a committed upload query at most once, and what keeps it
    from getting it. In every state that clients, forklift reports, queue sends and
    result writes can reach, in any order and with any failures, commits that take
    effect and report an error included: an upload query that is not committed, or
    whose file was not recorded as ready while it was a draft, was never sent; one
    that is was sent exactly once, or its send is still due, or its send failed, or
    the commit that completed it reported an error: exactly one of the four.  Where
    nothing fails and no send is outstanding it was sent. *)
Theorem enqueued_at_most_once y r :
  reachable env y → r ∈ db_rows (sy_db y) → aq_UploadID r ≠ "" →
  (occ (aq_ID r) (sent_ids (sy_db y)) + occ (aq_ID r) (sy_pending y) +
   occ (aq_ID r) (sy_unsent y) + occ (aq_ID r) (sy_lost y))%nat
    = (if aq_ReadyToRun r && aq_FileReady r then 1%nat else 0%nat) ∧
  ((∀ n, env_fault env n = None) → sy_pending y = [] →
   occ (aq_ID r) (sent_ids (sy_db y)) = if aq_ReadyToRun r && aq_FileReady r then 1%nat else 0%nat).
Proof.
  intros Hy Hr Hup. pose proof (inv_once y (reachable_inv y Hy) r Hr Hup) as Ho.
  unfold tracked in Ho. rewrite !occ_app in Ho. fold (complete r). split; [lia|].
  intros Hnf Hp. destruct (reachable_lossless y Hnf Hy) as [Hu Hl]. rewrite Hp, Hu, Hl in Ho.
  unfold occ in *; simpl in *. lia.
Qed.

(** C32: The two transactions are all or nothing. Whatever fails, neither panics,
    leaves a transaction open or sends anything from inside one. When it returns a
    result the table has all of the changes that belong to this result (a record
    added, a draft committed, a file recorded, or nothing to do); when it returns an
    error the table is as it was, or the error is that of the commit itself, the
    database having applied the commit and not reported it, and the table has all of
    the changes. *)
Theorem transactions_atomic uid up d req p s :
  db_snapshot s = None →
  (let '(r, s') := callUploadTx env uid up d req s in
   db_snapshot s' = None ∧ db_sent s' = db_sent s ∧
   match r with
   | ROk a => call_done uid up d s a s'
   | RErr e => db_rows s' = db_rows s ∨
       ∃ n msg a, db_tick s' = S n ∧ env_fault env n = Some msg ∧ env_lost env n = true ∧
         e = EWrapf "commit tx: " (EText msg) "" ∧ call_done uid up d s a s'
   | RPanic _ => False
   end) ∧
  (let '(r, s') := handleMergeTx env p s in
   db_snapshot s' = None ∧ db_sent s' = db_sent s ∧
   match r with
   | ROk a => merge_done (fud_UploadID p) (fud_UserID p) s a s'
   | RErr e => db_rows s' = db_rows s ∨
       ∃ n msg a, db_tick s' = S n ∧ env_fault env n = Some msg ∧ env_lost env n = true ∧
         e = EWrapf "commit tx: " (EText msg) "" ∧ merge_done (fud_UploadID p) (fud_UserID p) s a s'
   | RPanic _ => False
   end).
Proof.
  intros Hsn. split.
  - pose proof (callUploadTx_effect env uid up d req s Hsn) as He. unfold run in He.
    destruct (callUploadTx _ _ _ _ _ _) as [r s']. simpl in He.
    destruct He as [e s' (? & ? & ?)|a s' Hd|a n msg s' Hd ? ? ?]; [by auto|..];
      destruct (call_done_closed _ _ _ _ _ _ Hd); eauto 12.
  - pose proof (handleMergeTx_effect env p s Hsn) as He. unfold run in He.
    destruct (handleMergeTx _ _ _) as [r s']. simpl in He.
    destruct He as [e s' (? & ? & ?)|a s' Hd|a n msg s' Hd ? ? ?]; [by auto|..];
      destruct (merge_done_closed _ _ _ _ _ Hd); eauto 12.
Qed.
End invariant.

(** ** Without failures *)

Section faultless.
Context `{!AqJSON} (env : AqEnv).
Hypothesis no_faults : ∀ n, env_fault env n = None.

Lemma aq_statement_ok {A} (f : nat → list Asynquery → (error + A) * list Asynquery) s a rs :
  f (db_tick s) (db_rows s) = (inr a, rs) → statement env f s = (ROk a, ticked (with_rows rs s)).
Proof. unfold statement. rewrite no_faults. by intros ->. Qed.

Lemma Begin_ok s : Begin env s = (ROk tt, ticked (with_snapshot (Some (db_rows s)) s)).
Proof. unfold Begin. by rewrite no_faults. Qed.

Lemma commit_tx_ok s : commit_tx env s = (ROk tt, ticked (with_snapshot None s)).
Proof. unfold commit_tx, errorf, bind, try, Commit. by rewrite no_faults. Qed.

Lemma newest_exists (m : list Asynquery) : m ≠ [] → ∃ r, r ∈ m ∧ ∀ r', r' ∈ m → aq_CreatedAt r' <= aq_CreatedAt r.
Proof.
  induction m as [|a m IH]; [done|]. intros _. destruct m as [|b m].
  { exists a. split; [by apply list_elem_of_singleton|]. by intros r' ->%list_elem_of_singleton. }
  destruct IH as (r & Hr & Hmax); [done|].
  destruct (decide (aq_CreatedAt r <= aq_CreatedAt a)).
  - exists a. split; [by left|]. intros r' [->|H']%elem_of_cons; [lia|]. specialize (Hmax r' H'). lia.
  - exists r. split; [by right|]. intros r' [->|H']%elem_of_cons; [lia|auto].
Qed.

Lemma newest_None n p rs : newest env n p rs = None → ∀ r, r ∈ rs → p r = false.
Proof.
  intros E r Hin. apply not_true_iff_false. intros Hp. unfold newest in E.
  set (m := List.filter p rs) in E. destruct (newest_exists m) as (t & Ht & Hmax).
  { intros Hm. assert (r ∈ m) as Hrm by (apply list_elem_of_In, filter_In; by rewrite <-list_elem_of_In).
    rewrite Hm in Hrm. by apply not_elem_of_nil in Hrm. }
  set (top := List.filter _ m) in E.
  assert (t ∈ top) as Htop.
  { apply list_elem_of_In, filter_In. rewrite <-list_elem_of_In. split; [done|].
    apply forallb_forall. intros x Hx%list_elem_of_In. apply Z.leb_le. auto. }
  apply lookup_ge_None in E. destruct top; [by apply not_elem_of_nil in Htop|].
  pose proof (Nat.mod_upper_bound (env_choice env n) (length (a :: top))). simpl in *. lia.
Qed.

Lemma newest_unique n p rs r :
  r ∈ rs → p r = true → (∀ r', r' ∈ rs → p r' = true → r' = r) → newest env n p rs = Some r.
Proof.
  intros Hin Hp Hu. destruct (newest env n p rs) as [r'|] eqn:E.
  - apply newest_Some in E as (? & ? & _). by rewrite (Hu r').
  - by rewrite (newest_None _ _ _ E r) in Hp.
Qed.

Lemma selectOne_unique p s r :
  r ∈ db_rows s → p r = true → (∀ r', r' ∈ db_rows s → p r' = true → r' = r) →
  selectOne env p s = (ROk r, ticked s).
Proof.
  intros. destruct s. apply (aq_statement_ok _ (mkDB _ _ _ _)). simpl in *. by rewrite (newest_unique _ _ _ r).
Qed.

Definition only_row (p : Asynquery → bool) (r : Asynquery) (rs : list Asynquery) : Prop :=
  r ∈ rs ∧ p r = true ∧ ∀ r', r' ∈ rs → p r' = true → r' = r.

Lemma only_row_update uid up r f rs :
  only_row (of_upload up uid) r rs →
  (∀ q, aq_UploadID (f q) = aq_UploadID q) → (∀ q, aq_UserID (f q) = aq_UserID q) →
  only_row (of_upload up uid) (f r) (update_where (aq_ID r) f rs).
Proof.
  intros (Hin & Hp & Hu) Hup Huid.
  assert (∀ q, of_upload up uid (f q) = of_upload up uid q) as Hf by (intros; unfold of_upload; by rewrite Hup, Huid).
  split_and!.
  - pose proof (update_intro (aq_ID r) f _ _ Hin) as Hx. by rewrite String.eqb_refl in Hx.
  - by rewrite Hf.
  - intros r' (r0 & Hr0 & [[Heq ->]|[Hne ->]])%update_inv Hm.
    + rewrite Hf in Hm. by rewrite (Hu r0).
    + by rewrite (Hu r0) in Hne.
Qed.

Lemma errorf_ok {S A} pre (c : Go S A) s a s' : c s = (ROk a, s') → errorf pre c s = (ROk a, s').
Proof. unfold errorf, bind, try. by intros ->. Qed.

Lemma or_rollback_ok {A} pre (c : Go AqDB A) s a s' : c s = (ROk a, s') → or_rollback pre c s = (ROk a, s').
Proof. unfold or_rollback, bind, try. by intros ->. Qed.

Lemma selectUser_ok uid s :
  is_Some (env_users env (db_tick s) !! uid) → ∃ a, selectUser env uid s = (ROk a, ticked s).
Proof.
  intros [a Ha]. exists a. destruct s. apply (aq_statement_ok _ (mkDB _ _ _ _)). simpl in *. by rewrite Ha.
Qed.

(** The commit of a draft. *)
Lemma commit_draft uid up req s r rb :
  (∀ n, is_Some (env_users env n !! uid)) → marshal_request req = inr rb →
  only_row (of_upload up uid) r (db_rows s) → aq_Status r = Received → aq_ReadyToRun r = false →
  ∃ aq t s', callUploadTx env uid up false req s = (ROk (aq, aq_FileReady r), s') ∧
    aq_ID aq = aq_ID r ∧ aq_Body aq = Some rb ∧ aq_ReadyToRun aq = true ∧
    db_rows s' = update_where (aq_ID r) (put_commit aq t) (db_rows s) ∧ db_snapshot s' = None.
Proof.
  intros Huser Hm (Hin & Hp & Hu) Hst Hrd. unfold callUploadTx.
  erewrite bind_ok by apply errorf_ok, Begin_ok.
  destruct (selectUser_ok uid (ticked (with_snapshot (Some (db_rows s)) s)) (Huser _)) as [a Ha].
  erewrite bind_ok by apply or_rollback_ok, Ha.
  erewrite bind_ok by (apply try_ok, selectOne_unique; eauto).
  cbv iota beta. rewrite Hst, Hrd. unfold of_sum. rewrite Hm.
  erewrite bind_ok by by apply or_rollback_ok.
  erewrite bind_ok by by apply or_rollback_ok, aq_statement_ok.
  erewrite bind_ok by apply commit_tx_ok. eexists _, _, _. split; [reflexivity|]. done.
Qed.

(** A commit of a query that is already committed changes nothing. *)
Lemma recommit uid up req s r :
  (∀ n, is_Some (env_users env n !! uid)) →
  only_row (of_upload up uid) r (db_rows s) → aq_Status r = Received → aq_ReadyToRun r = true →
  ∃ s', callUploadTx env uid up false req s = (ROk (r, false), s') ∧ unchanged s s'.
Proof.
  intros Huser (Hin & Hp & Hu) Hst Hrd. unfold callUploadTx.
  erewrite bind_ok by apply errorf_ok, Begin_ok.
  destruct (selectUser_ok uid (ticked (with_snapshot (Some (db_rows s)) s)) (Huser _)) as [a Ha].
  erewrite bind_ok by apply or_rollback_ok, Ha.
  erewrite bind_ok by (apply try_ok, selectOne_unique; eauto).
  cbv iota beta. rewrite Hst, Hrd.
  erewrite bind_ok by apply commit_tx_ok. eexists. by split.
Qed.

(** A forklift report for a draft. *)
Lemma merge_draft p s r mj :
  marshal_meta (fud_Meta p) = inr mj →
  only_row (of_upload (fud_UploadID p) (fud_UserID p)) r (db_rows s) → aq_ReadyToRun r = false →
  ∃ aq t s', handleMergeTx env p s = (ROk (aq, false), s') ∧ aq_FileReady aq = true ∧
    aq_FileMeta aq = Some mj ∧
    db_rows s' = update_where (aq_ID r) (put_file aq t) (db_rows s) ∧ db_snapshot s' = None.
Proof.
  intros Hm (Hin & Hp & Hu) Hrd. unfold handleMergeTx.
  erewrite bind_ok by apply errorf_ok, Begin_ok.
  erewrite bind_ok by (apply or_rollback_ok, selectOne_unique; eauto).
  rewrite Hrd. unfold of_sum. rewrite Hm. cbn [negb].
  erewrite bind_ok by by apply or_rollback_ok.
  erewrite bind_ok by by apply or_rollback_ok, aq_statement_ok.
  erewrite bind_ok by apply commit_tx_ok. eexists _, _, _. split; [reflexivity|]. done.
Qed.

(** A forklift report for a committed query. *)
Lemma merge_committed p s r :
  only_row (of_upload (fud_UploadID p) (fud_UserID p)) r (db_rows s) → aq_ReadyToRun r = true →
  ∃ s', handleMergeTx env p s = (ROk (r, negb (bool_decide (aq_Status r = Succeeded))), s') ∧ unchanged s s'.
Proof.
  intros (Hin & Hp & Hu) Hrd. unfold handleMergeTx.
  erewrite bind_ok by apply errorf_ok, Begin_ok.
  erewrite bind_ok by (apply or_rollback_ok, selectOne_unique; eauto).
  rewrite Hrd. cbn [negb].
  destruct (aq_Status r); (erewrite bind_ok by apply commit_tx_ok); eexists; by split.
Qed.

(** C9: A deferred query runs whichever of its commit and the forklift report
    comes first. After the draft was recorded, a commit followed by the report
    makes the report's worker run the query, and a report followed by the commit
    makes the commit hand it to the queue; both run the record of the draft with
    the body of the commit. *)
Theorem either_order_runs uid up req0 req p s aq s1 rb mj :
  (∀ n, is_Some (env_users env n !! uid)) →
  fud_UploadID p = up → fud_UserID p = uid →
  marshal_request req = inr rb → marshal_meta (fud_Meta p) = inr mj →
  db_snapshot s = None → (∀ r, r ∈ db_rows s → of_upload up uid r = false) →
  callUploadTx env uid up true req0 s = (ROk (aq, false), s1) →
  (∃ a2 s2 a3 s3, callUploadTx env uid up false req s1 = (ROk (a2, false), s2) ∧
     handleMergeTx env p s2 = (ROk (a3, true), s3) ∧ aq_ID a3 = aq_ID aq ∧
     aq_Body a3 = Some (jsonb rb)) ∧
  (∃ a2 s2 a3 s3 r, handleMergeTx env p s1 = (ROk (a2, false), s2) ∧
     callUploadTx env uid up false req s2 = (ROk (a3, true), s3) ∧ aq_ID a3 = aq_ID aq ∧
     r ∈ db_rows s3 ∧ aq_ID r = aq_ID aq ∧ aq_Body r = Some (jsonb rb) ∧ aq_FileMeta r = Some (jsonb mj)).
Proof.
  intros Huser <- <- Hrb Hmj Hsn Hnone Hdraft.
  set (up := fud_UploadID p) in *. set (uid := fud_UserID p) in *.
  assert (∃ row, only_row (of_upload up uid) row (db_rows s1) ∧ aq_ID row = aq_ID aq ∧
    aq_Status row = Received ∧ aq_ReadyToRun row = false ∧ aq_FileReady row = false)
    as (row & Hrow & Hid & Hst & Hrd & Hfile).
  { pose proof (callUploadTx_effect env uid up true req0 s Hsn) as He.
    unfold run in He. rewrite Hdraft in He. simpl in He.
    remember (ROk (aq, false)) as res eqn:Hres. destruct He as [|a ? Hd|]; [done| |done].
    injection Hres as ->. remember (aq, false) as res eqn:Hres.
    destruct Hd as [? ? _ Hin Hof _|? ? ? Hadd _ _ Hr|? ? ? ? [=]]; simplify_eq; [|].
    - by rewrite Hnone in Hof.
    - destruct Hadd as (row & Hrows & _ & ? & _ & Hu & Hup & ? & ? & ?). exists row. split; [|done].
      split_and!.
      + rewrite Hrows, elem_of_app, list_elem_of_singleton. by right.
      + unfold of_upload. by rewrite Hu, Hup, String.eqb_refl, Z.eqb_refl.
      + intros r'. rewrite Hrows, elem_of_app, list_elem_of_singleton. intros [Hin| ->] Hof; [|done].
        by rewrite Hnone in Hof. }
  split.
  - destruct (commit_draft uid up req s1 row rb) as (a2 & t & s2 & Hc & Hid2 & Hb & Hr2 & Hrows & _); [done..|].
    rewrite Hfile in Hc. set (row2 := put_commit a2 t row).
    assert (only_row (of_upload up uid) row2 (db_rows s2)) as Honly.
    { rewrite Hrows. by apply only_row_update. }
    destruct (merge_committed p s2 row2 Honly Hr2) as (s3 & Hm & _).
    exists a2, s2, row2, s3. split_and!; [done| |done|by simpl; rewrite Hb].
    rewrite Hm. simpl. by rewrite Hst.
  - destruct (merge_draft p s1 row mj) as (a2 & t & s2 & Hm & Hf2 & Hmeta & Hrows & _); [done..|].
    set (row2 := put_file a2 t row).
    assert (only_row (of_upload up uid) row2 (db_rows s2)) as Honly.
    { rewrite Hrows. by apply only_row_update. }
    destruct (commit_draft uid up req s2 row2 rb) as (a3 & t' & s3 & Hc & Hid3 & Hb & Hr3 & Hrows3 & _); [done..|].
    exists a2, s2, a3, s3, (put_commit a3 t' row2).
    split_and!; [done| |by rewrite Hid3| |done|by simpl; rewrite Hb|by simpl; rewrite Hmeta].
    + rewrite Hc. simpl. by rewrite Hf2.
    + rewrite Hrows3. by eapply (only_row_update uid up).
Qed.

(** [finalizeQueryRecord] on a row that is there. *)
Lemma finalize_records id resp msg s row :
  id ≠ "" → NoDup (aq_ID <$> db_rows s) → row ∈ db_rows s → aq_ID row = id →
  (∀ x, ∃ j, marshal_response x = inr j) →
  ∃ q s', finalizeQueryRecord env id resp msg s = (ROk tt, s') ∧ q ∈ db_rows s' ∧ agree q row ∧
    aq_Status q = (if isFailure resp msg then Failed else Succeeded) ∧ aq_Error q = msg ∧
    aq_Response q = (match resp with
                     | None => None
                     | Some x => match marshal_response x with inr j => Some (jsonb j) | inl _ => None end
                     end).
Proof.
  intros Hid Hk Hin Hrow Hmar. unfold finalizeQueryRecord, getQueryRecord.
  erewrite bind_ok.
  2:{ apply errorf_ok, errorf_ok, (selectOne_unique _ _ row); [done|..].
      - unfold matches; simpl. by rewrite Hrow, String.eqb_refl, orb_true_r.
      - intros r' Hr' Hm. apply (key_inj _ _ _ Hk Hr' Hin). unfold matches in Hm; simpl in Hm.
        apply String.eqb_neq in Hid. rewrite Hid, !andb_true_r in Hm. simpl in Hm.
        apply String.eqb_eq in Hm. congruence. }
  assert (∃ jr s1, (match resp with
      | None => ret None
      | Some r => let! j := errorf "could not marshal rpc response: " (of_sum (marshal_response r)) in ret (Some j)
      end) (ticked s) = (ROk jr, s1) ∧ s1 = ticked s ∧
      jsonb <$> jr = match resp with
                     | None => None
                     | Some x => match marshal_response x with inr j => Some (jsonb j) | inl _ => None end
                     end) as (jr & s1 & Hjr & -> & Heq).
  { destruct resp as [x|]; [|by eexists _, _]. destruct (Hmar x) as [j Hj].
    eexists _, _. unfold of_sum. rewrite Hj. done. }
  unfold storeResult. erewrite bind_ok by exact Hjr. eexists _, _. split.
  { apply errorf_ok. by apply aq_statement_ok. }
  simpl. pose proof (update_intro id (put_all (mkAq (aq_ID row) (aq_UserID row) (aq_CreatedAt row) (aq_UpdatedAt row)
    (if isFailure resp msg then Failed else Succeeded) msg (aq_UploadID row) (aq_Body row) jr (aq_ReadyToRun row)
    (aq_FileReady row) (aq_FileMeta row)) (env_now env (db_tick (ticked s)))) _ _ Hin) as Hx.
  rewrite Hrow, String.eqb_refl in Hx. rewrite Hrow. split; [exact Hx|]. done.
Qed.
End faultless.

(** ** Workers *)

Section workers.
Import OracleInstances.
Context (o : Oracle) `{!Ljsonrpc, !MapOrder, !IAPIDecoders, !ECDSA, !ClaimDecoder, !URLParser,
  !SearchDecoder, !JSONMarshal, !AqJSON}.
Context (env : AqEnv) (cfg : Config).

(** The wallet of a user, as the caller computes it. *)
Definition user_wallet (uid : Z) : string := if negb (uid =? 0) then wallet_id_of uid else "".

Lemma NewCaller_wallet a uid : caller_wallet (NewCaller cfg a uid) = user_wallet uid.
Proof. unfold NewCaller, addDefaultHooks. by destruct (ArfleetEnabled cfg). Qed.

(** Both parts of the state, related. *)
Definition wsends (P : RPCRequest → Prop) : relation (AqDB * history) := λ x y, sends P x.2 y.2.

#[local] Instance wsends_preorder P : PreOrder (wsends P).
Proof.
  split; [intros x; unfold wsends; reflexivity|]. intros x y z Hxy Hyz. unfold wsends in *. by etrans.
Qed.

Lemma inDB_wsends {A} P (c : Go AqDB A) : extends (wsends P) (inDB (W:=history) c).
Proof. intros [s h]. unfold inDB, wsends. destruct (c s). simpl. reflexivity. Qed.

Lemma inSDK_wsends {A} P (c : Go history A) : extends (sends P) c → extends (wsends P) (inSDK c).
Proof. intros Hc [s h]. unfold inSDK. specialize (Hc h). by destruct (c h). Qed.

Lemma caller_bound a uid rq :
  extends (sends (request_bound (user_wallet uid) (param rq ParamWalletID)))
    (run_caller (W:=history) (NewCaller cfg a uid) (Caller_Call cfg None rq)).
Proof.
  intros h. pose proof (call_bound o cfg None rq (NewCaller cfg a uid, h)) as Hs.
  simpl in Hs. rewrite NewCaller_wallet in Hs. unfold run_caller, Caller_Call.
  by destruct (call _ _ _ _) as [? [? ?]].
Qed.

Lemma caller_sends a uid rq :
  extends (sends (request_ok (user_wallet uid)))
    (run_caller (W:=history) (NewCaller cfg a uid) (Caller_Call cfg None rq)).
Proof.
  intros h. destruct (caller_bound a uid rq h) as (evs & He & Hall). exists evs. split; [done|].
  intros ep rq' r Hin. exact (proj1 (Hall ep rq' r Hin)).
Qed.

Lemma robustCall_sends aq patch :
  extends (wsends (request_ok (user_wallet (aq_UserID aq)))) (robustCall (W:=history) env cfg aq patch).
Proof.
  unfold robustCall. go_paths; try apply inDB_wsends; apply inSDK_wsends;
    [apply caller_sends|apply sends_sentry].
Qed.

Lemma inDB_run {A} (c : Go AqDB A) s h r s' :
  c s = (r, s') → inDB (W:=history) c (s, h) = (r, (s', h)).
Proof. unfold inDB. by intros ->. Qed.

Lemma matches_row ps q :
  matches ps q = true →
  (qp_queryID ps ≠ "" → aq_ID q = qp_queryID ps) ∧ (0 < qp_userID ps → aq_UserID q = qp_userID ps).
Proof.
  unfold matches. intros [[Hid _]%andb_true_iff Hu]%andb_true_iff. split; intros Hne.
  - apply String.eqb_neq in Hne. rewrite Hne in Hid. by apply String.eqb_eq in Hid.
  - apply Z.ltb_lt in Hne. rewrite Hne in Hu. by apply Z.eqb_eq in Hu.
Qed.

Lemma HandleMerge_sends task s h :
  db_snapshot s = None →
  sends (λ rq, ∃ p aq, unmarshal_done (task_Payload task) = inr p ∧ aq ∈ db_rows s ∧
           of_upload (fud_UploadID p) (fud_UserID p) aq = true ∧ aq_ReadyToRun aq = true ∧
           aq_Status aq ≠ Succeeded ∧ request_ok (user_wallet (fud_UserID p)) rq)
    h (HandleMerge (W:=history) env cfg task (s, h)).2.2.
Proof.
  intros Hsn. unfold HandleMerge. destruct (String.eqb _ _); [|reflexivity]. cbn [negb].
  destruct (unmarshal_done _) as [e|p]; [reflexivity|].
  pose proof (handleMergeTx_effect env p s Hsn) as He. unfold run in He.
  unfold bind. destruct (handleMergeTx env p s) as [r s'] eqn:Htx.
  rewrite (inDB_run _ s h r s') by done.
  simpl in He. destruct He as [e s' _|a s' Hd|]; [reflexivity| |reflexivity].
  destruct Hd as [aq s' _ Hin Hof Hrd|aq aq' t s' _ _ _ _ _ _ _]; [|reflexivity].
  case_bool_decide as Hst; [reflexivity|]. cbn [negb].
  pose proof (robustCall_sends aq (Some (buildPatchFromMeta (fud_Meta p))) (s', h)) as Hr.
  unfold wsends in Hr. simpl in Hr. apply andb_true_iff in Hof as Hof'. destruct Hof' as [_ Hu%Z.eqb_eq].
  rewrite Hu in Hr. destruct Hr as (evs & Heq & Hall). exists evs. split; [done|].
  intros ep rq r Hev. exists p, aq. eauto 10.
Qed.

Lemma HandleQuery_sends task s h :
  sends (λ rq, ∃ p aq, unmarshal_incoming (task_Payload task) = inr p ∧ aq ∈ db_rows s ∧
           (aiq_QueryID p ≠ "" → aq_ID aq = aiq_QueryID p) ∧
           (0 < aiq_UserID p → aq_UserID aq = aiq_UserID p) ∧ request_ok (user_wallet (aq_UserID aq)) rq)
    h (HandleQuery (W:=history) env cfg task (s, h)).2.2.
Proof.
  unfold HandleQuery. destruct (String.eqb _ _); [|reflexivity]. cbn [negb].
  destruct (unmarshal_incoming _) as [e|p]; [reflexivity|].
  unfold bind at 1. set (ps := {| qp_queryID := aiq_QueryID p |}).
  destruct (getQueryRecord env ps s) as [[aq|e|pn] s'] eqn:Hget; rewrite (inDB_run _ s h _ s' Hget); [|reflexivity..].
  apply getQueryRecord_ok in Hget as (Hin & Hm & ->). apply matches_row in Hm as [Hid Hu].
  match goal with |- sends ?P _ (?m _).2.2 =>
    assert (extends (wsends (request_ok (user_wallet (aq_UserID aq)))) m) as He end.
  { go_paths; try apply inDB_wsends; apply robustCall_sends. }
  specialize (He (ticked s, h)). unfold wsends in He. simpl in He.
  destruct He as (evs & Heq & Hall). exists evs. split; [done|].
  intros ep rq r Hev. exists p, aq. eauto 10.
Qed.

(** C8: The workers act for the owner of the row only. Every SDK request made
    while a forklift report is handled uses the wallet of the user the report
    names, and is made only when this user has a committed query for the upload
    that has not succeeded; every SDK request made for a queued query uses the
    wallet of the owner of the row with that id, which is the user the task
    names. *)
Theorem workers_isolated task s h :
  db_snapshot s = None →
  (∃ evs, (HandleMerge (W:=history) env cfg task (s, h)).2.2 = h ++ evs ∧
     ∀ ep rq r, EvCall ep rq r ∈ evs →
       ∃ p aq, unmarshal_done (task_Payload task) = inr p ∧ aq ∈ db_rows s ∧
         of_upload (fud_UploadID p) (fud_UserID p) aq = true ∧ aq_ReadyToRun aq = true ∧
         aq_Status aq ≠ Succeeded ∧ request_ok (user_wallet (fud_UserID p)) rq) ∧
  (∃ evs, (HandleQuery (W:=history) env cfg task (s, h)).2.2 = h ++ evs ∧
     ∀ ep rq r, EvCall ep rq r ∈ evs →
       ∃ p aq, unmarshal_incoming (task_Payload task) = inr p ∧ aq ∈ db_rows s ∧
         (aiq_QueryID p ≠ "" → aq_ID aq = aiq_QueryID p) ∧
         (0 < aiq_UserID p → aq_UserID aq = aiq_UserID p) ∧
         request_ok (user_wallet (aq_UserID aq)) rq).
Proof.
  intros Hsn. split.
  - apply (HandleMerge_sends task s h Hsn).
  - apply (HandleQuery_sends task s h).
Qed.

Hypothesis no_faults : ∀ n, env_fault env n = None.

Lemma finalize_inDB id resp msg s h row :
  id ≠ "" → NoDup (aq_ID <$> db_rows s) → row ∈ db_rows s → aq_ID row = id →
  (∀ x, ∃ j, marshal_response x = inr j) →
  ∃ q s', inDB (W:=history) (finalizeQueryRecord env id resp msg) (s, h) = (ROk tt, (s', h)) ∧
    q ∈ db_rows s' ∧ agree q row ∧
    aq_Status q = (if isFailure resp msg then Failed else Succeeded) ∧ aq_Error q = msg.
Proof.
  intros Hid Hk Hin Hrow Hm.
  destruct (finalize_records env no_faults id resp msg s row Hid Hk Hin Hrow Hm) as (q & s' & Hf & ? & ? & ? & ? & _).
  exists q, s'. by rewrite (inDB_run _ s h _ s' Hf).
Qed.

(** C10: A run is recorded, and retried exactly when the SDK was not reached.
    When the row's owner has an SDK and the row holds a request, the result of the
    SDK call decides: an answer marks the row succeeded and ends the task; an
    error answer marks it failed with the SDK's message and is not retried; a
    failed call marks it failed with the error's text and is left to be retried.
    The row keeps its owner, upload and flags. *)
Theorem robustCall_records aq patch s h addr body request pp r h' row :
  env_users env (db_tick s) !! aq_UserID aq = Some (Some addr) →
  aq_Body aq = Some body → unmarshal_request body = inr request → as_map (Params request) = Some pp →
  run_caller (W:=history) (NewCaller cfg addr (aq_UserID aq))
    (Caller_Call cfg None (patchedRequest request pp patch)) h = (r, h') →
  (∀ x, ∃ j, marshal_response x = inr j) →
  NoDup (aq_ID <$> db_rows s) → row ∈ db_rows s → aq_ID row = aq_ID aq → aq_ID aq ≠ "" →
  let '(out, (s', _)) := robustCall (W:=history) env cfg aq patch (s, h) in
  match r with
  | RPanic _ => True
  | ROk res =>
      ∃ q, q ∈ db_rows s' ∧ agree q row ∧
        match resp_Error res with
        | None => out = ROk tt ∧ aq_Status q = Succeeded ∧ aq_Error q = ""
        | Some e => out = RErr asynq_SkipRetry ∧ aq_Status q = Failed ∧ aq_Error q = Message e
        end
  | RErr err =>
      out = RErr sdkNetError ∧
      ∃ q, q ∈ db_rows s' ∧ agree q row ∧ aq_Status q = Failed ∧ aq_Error q = Error err
  end.
Proof.
  intros Haddr Hbody Hreq Hpp Hcall Hm Hk Hin Hrow Hid. unfold robustCall.
  rewrite (bind_ok _ _ _ (inr (Some addr)) (ticked s, h)).
  2:{ apply try_ok. erewrite inDB_run; [done|]. destruct s.
      apply (aq_statement_ok env no_faults _ (mkDB _ _ _ _)). simpl in *. by rewrite Haddr. }
  cbv iota beta zeta. rewrite Hbody, Hreq, Hpp.
  assert (∀ c : Go history RPCResponse, c h = (r, h') → inSDK c (ticked s, h) = (r, (ticked s, h'))) as Hin'.
  { intros c. unfold inSDK. by intros ->. }
  specialize (Hin' _ Hcall). destruct r as [res|err|w]; [| |by destruct (bind _ _ _) as [? [? ?]]].
  - rewrite (bind_ok _ _ _ _ _ (try_ok _ _ _ _ Hin')). destruct (resp_Error res) as [e|] eqn:He.
    + destruct (finalize_inDB (aq_ID aq) (Some res) (Message e) (ticked s) h' row)
        as (q & s' & Hf & ? & ? & Hst & ?); [done..|].
      rewrite (bind_ok _ _ _ _ _ (try_ok _ _ _ _ Hf)). unfold isFailure in Hst. rewrite He in Hst.
      exists q. by split_and!.
    + destruct (finalize_inDB (aq_ID aq) (Some res) "" (ticked s) h' row)
        as (q & s' & Hf & ? & ? & Hst & ?); [done..|].
      rewrite Hf. unfold isFailure in Hst. rewrite He in Hst. exists q. by split_and!.
  - rewrite (bind_ok _ _ _ _ _ (try_err _ _ _ _ Hin')).
    rewrite (bind_ok _ _ _ tt (ticked s, h' ++ [EvSentry (Some (EWrapf "asynquery request failed: " err ""))])) by done.
    match goal with |- context [(ticked s, ?h2)] => set (hh := h2) end.
    destruct (finalize_inDB (aq_ID aq) None (Error err) (ticked s) hh row)
      as (q & s' & Hf & ? & ? & Hst & ?); [done..|].
    rewrite (bind_ok _ _ _ _ _ (try_ok _ _ _ _ Hf)). split; [done|]. exists q. by split_and!.
Qed.
End workers.

(** ** File locations *)

Definition not_char (c a : ascii) : bool := negb (Ascii.eqb a c).

Lemma cut_first_spec s l r :
  cut_first s = Some (l, r) ↔ s = l +:+ "/" +:+ r ∧ all_chars (not_char "/") l = true.
Proof.
  revert l. induction s as [|a s IH]; intros l; simpl.
  { split; [done|]. by destruct l as [|? ?]; intros [? _]. }
  destruct (Ascii.eqb_spec a "/") as [->|Hne].
  - split; [by intros [= <- <-]|]. destruct l as [|b l]; simpl.
    + by intros [[= ->] _].
    + intros [[= <- _] Hl]. done.
  - split.
    + destruct (cut_first s) as [[l' r']|]; [|done]. intros [= <- ->].
      destruct (proj1 (IH l') eq_refl) as [-> Hl]. simpl. rewrite Hl, andb_true_r. split; [done|].
      unfold not_char. by apply Ascii.eqb_neq in Hne as ->.
    + destruct l as [|b l]; simpl; [by intros [[= ? _] _]|].
      intros [[= <- ->] [_ Hl]%andb_true_iff]. by rewrite (proj2 (IH l)).
Qed.

Lemma cut_last_ok s l r :
  cut_last s = Some (l, r) → s = l +:+ "/" +:+ r ∧ all_chars (not_char "/") r = true.
Proof.
  assert (∀ t, cut_last t = None → all_chars (not_char "/") t = true) as Hnone.
  { clear. induction t as [|a t IH]; simpl; [done|]. destruct (cut_last t) as [[? ?]|]; [done|].
    unfold not_char at 1. destruct (Ascii.eqb a "/"); [done|]. intros _. by rewrite IH. }
  revert l. induction s as [|a s IH]; intros l; simpl; [done|].
  destruct (cut_last s) as [[l' r']|] eqn:E.
  - intros [= <- ->]. by destruct (IH l' eq_refl) as [-> ?].
  - destruct (Ascii.eqb_spec a "/") as [->|]; [|done]. intros [= <- <-]. auto.
Qed.

Lemma cut_last_app l r : all_chars (not_char "/") r = true → cut_last (l +:+ "/" +:+ r) = Some (l, r).
Proof.
  intros Hr. assert (cut_last r = None) as Hnone.
  { revert Hr. clear. induction r as [|a r IH]; simpl; [done|]. intros [Ha Hr]%andb_true_iff.
    rewrite IH by done. unfold not_char in Ha. by destruct (Ascii.eqb a "/"). }
  induction l as [|a l IH]; simpl in *; [change ("" +:+ r) with r; by rewrite Hnone|by rewrite IH].
Qed.

Lemma id_char_no_slash s : all_chars id_char s = true → all_chars (not_char "/") s = true.
Proof.
  induction s as [|a s IH]; simpl; [done|]. intros [Ha Hs]%andb_true_iff. rewrite IH by done.
  unfold not_char. destruct (Ascii.eqb_spec a "/") as [->|]; [done|done].
Qed.

Lemma strip_scheme_spec s rest :
  strip_scheme s = Some rest ↔ ∃ scheme, (scheme = "http://" ∨ scheme = "https://") ∧ s = scheme +:+ rest.
Proof.
  unfold strip_scheme. split.
  - destruct (HasPrefix s "http://") eqn:E1.
    { apply HasPrefix_true in E1 as [r ->]. rewrite TrimPrefix_app. intros [= ->]. eauto. }
    destruct (HasPrefix s "https://") eqn:E2; [|done].
    apply HasPrefix_true in E2 as [r ->]. rewrite TrimPrefix_app. intros [= ->]. eauto.
  - intros (sch & [->|Hsch] & ->); [by rewrite HasPrefix_app, TrimPrefix_app|subst sch].
    rewrite (HasPrefix_app "https://"), TrimPrefix_app. done.
Qed.

(** An upload location is accepted exactly when it has the documented form:
    scheme, server, a path that is not empty, and an id of at least 32 characters
    of the allowed alphabet; and then the server and the id are these parts. *)
Theorem parseFilePath_iff s server id :
  parseFilePath s = ROk {| fl_Server := server; fl_UploadID := id |} ↔
  ∃ scheme mid, (scheme = "http://" ∨ scheme = "https://") ∧
    s = scheme +:+ server +:+ "/" +:+ mid +:+ "/" +:+ id ∧
    server ≠ "" ∧ all_chars (not_char "/") server = true ∧
    mid ≠ "" ∧ all_chars (not_char "010") mid = true ∧
    all_chars id_char id = true ∧ (32 <= String.length id)%nat.
Proof.
  unfold parseFilePath, match_file_path. split.
  - destruct (strip_scheme s) as [rest|] eqn:E1; [|done].
    apply strip_scheme_spec in E1 as (scheme & Hs & ->).
    destruct (cut_first rest) as [[srv path]|] eqn:E2; [|done]. apply cut_first_spec in E2 as [-> Hsrv].
    destruct (cut_last path) as [[mid i]|] eqn:E3; [|done]. apply cut_last_ok in E3 as [-> _].
    destruct (_ && _) eqn:E4; [|done]. intros [= -> ->]. exists scheme, mid.
    apply andb_true_iff in E4 as [[[[H1%negb_true_iff H2%negb_true_iff]%andb_true_iff H3]%andb_true_iff
      H4]%andb_true_iff H5%Nat.leb_le].
    apply String.eqb_neq in H1, H2. by split_and!.
  - intros (scheme & mid & Hs & -> & H1 & H2 & H3 & H4 & H5 & H6).
    rewrite (proj2 (strip_scheme_spec _ (server +:+ "/" +:+ mid +:+ "/" +:+ id))) by eauto.
    rewrite (proj2 (cut_first_spec _ server (mid +:+ "/" +:+ id))) by done.
    rewrite cut_last_app by by apply id_char_no_slash.
    apply String.eqb_neq in H1, H3. apply Nat.leb_le in H6.
    unfold not_char in H4. by rewrite H1, H3, H4, H5, H6.
Qed.

(** ** Handlers *)

Section handlers.
Context `{!AqJSON} (env : AqEnv).
Hypothesis no_faults : ∀ n, env_fault env n = None.

(** What [Get] answers an authenticated user. Without a query of that id
    that belongs to this user the answer is 404 and empty, also when another user
    has such a query; otherwise it is 204 while the query has not ended, and 200
    with the SDK's stored response, or with the stored error text, once it has. *)
Theorem Get_answers ctx u id s :
  FromRequest ctx = (Some u, None) → 0 < user_ID u → id ≠ "" →
  ∃ w, Get env (Some id) ctx s = (ROk w, ticked s) ∧
    ((w_status w = Some 404 ∧ w_body w = [] ∧
      ∀ aq, aq ∈ db_rows s → aq_ID aq = id → aq_UserID aq ≠ user_ID u) ∨
     ∃ aq, aq ∈ db_rows s ∧ aq_ID aq = id ∧ aq_UserID aq = user_ID u ∧
       match aq_Status aq with
       | Succeeded => w_status w = Some 200 ∧ w_body w = [CText (default "" (aq_Response aq))]
       | Failed => w_status w = Some 200 ∧
           w_body w = [match aq_Response aq with
                       | Some j => CText j
                       | None => CJSON (Write (Some (Errs (sprintf0 Text (aq_Error aq)))))
                       end]
       | _ => w_status w = Some 204 ∧ w_body w = []
       end).
Proof.
  intros Hctx Hu Hid. unfold Get. rewrite Hctx. set (ps := {| qp_queryID := id; qp_userID := user_ID u |}).
  destruct (newest env (db_tick s) (matches ps) (db_rows s)) as [aq|] eqn:E.
  - rewrite (bind_ok _ _ _ (inr aq) (ticked s)).
    2:{ apply try_ok. unfold getQueryRecord. apply errorf_ok. destruct s.
        apply (aq_statement_ok env no_faults _ (mkDB _ _ _ _)). simpl in *. by rewrite E. }
    apply newest_Some in E as (Hin & Hm & _). apply matches_row in Hm as [Hi Hui].
    destruct (aq_Status aq) eqn:Hst; [| | |destruct (aq_Response aq) eqn:Hr|]; eexists; (split; [reflexivity|]);
      right; exists aq; rewrite Hst, ?Hr; split_and!; auto.
  - rewrite (bind_ok _ _ _ (inl (EWrapf "could not retrieve async query record: " sql_ErrNoRows "")) (ticked s)).
    2:{ apply try_err. unfold getQueryRecord, errorf, bind, try, selectOne, statement. by rewrite no_faults, E. }
    eexists. split; [reflexivity|]. left. split_and!; [done..|]. intros aq Hin Hi Hui.
    pose proof (newest_None env _ _ _ E aq Hin) as Hf. unfold matches in Hf; simpl in Hf.
    rewrite Hi, Hui, String.eqb_refl, Z.eqb_refl, !orb_true_r in Hf. done.
Qed.

(** Committing again is accepted and does nothing. When the only query of
    the upload is committed and has not ended, [Call] answers with it, changes
    nothing and sends nothing to the queue, whether or not the send of the first
    commit succeeded. *)
Theorem recommit_is_noop uid req params path fl s r :
  (∀ n, is_Some (env_users env n !! uid)) →
  as_map (Params req) = Some params → params !! DeferParam = None →
  params !! FilePathParam = Some (VStr path) → parseFilePath path = ROk fl →
  only_row (of_upload (fl_UploadID fl) uid) r (db_rows s) →
  aq_Status r = Received → aq_ReadyToRun r = true →
  ∃ s', CallManager_Call env uid req s = (ROk r, s') ∧ unchanged s s'.
Proof.
  intros Huser Hp Hd Hf Hfl Honly Hst Hrd. unfold CallManager_Call.
  rewrite Hp, Hd. rewrite lookup_delete_ne, Hf by done. cbn [as_string].
  rewrite (bind_ok _ _ _ fl s) by by rewrite Hfl.
  destruct (recommit env no_faults uid (fl_UploadID fl) (set_Params req (VMap (delete DeferParam params))) s r)
    as (s' & Hc & Hun); [done..|].
  rewrite (bind_ok _ _ _ _ _ Hc). by exists s'.
Qed.
End handlers.

(** ** Concrete runs *)

Module AqEx.
#[export] Instance json : AqJSON := {|
  marshal_request r := inr (Method r);
  unmarshal_request j := inr (mkRequest j (VMap {["name" := VStr "n"]}) 0 "2.0");
  marshal_response _ := inr "{}";
  marshal_meta _ := inr "meta";
  unmarshal_meta _ := inr (Build_UploadMeta 10 "f" "sd" "video/mp4" ".mp4" "h" 0 0 0);
  unmarshal_done _ := inr (Build_ForkliftUploadDonePayload "0123456789abcdef0123456789abcdef" 7
                             (Build_UploadMeta 10 "f" "sd" "video/mp4" ".mp4" "h" 0 0 0));
  unmarshal_incoming _ := inr (Build_AsynqueryIncomingQueryPayload "q" 7);
  decode_body _ := inr None;
  jsonb s := s;
|}.

Definition upload : string := "0123456789abcdef0123456789abcdef".
Definition path : string := "https://uploads.example/v1/uploads/0123456789abcdef0123456789abcdef".
Definition report : ForkliftUploadDonePayload :=
  Build_ForkliftUploadDonePayload upload 7 (Build_UploadMeta 10 "f" "sd" "video/mp4" ".mp4" "h" 0 0 0).
Definition request : RPCRequest :=
  mkRequest MethodStreamCreate (VMap {[FilePathParam := VStr path]}) 1 "2.0".

(** Nothing fails, except the operations listed. *)
Definition env (failing : list nat) : AqEnv := {|
  env_fault n := if bool_decide (n ∈ failing) then Some "connection reset" else None;
  env_lost _ := true; env_now n := 1000 * Z.of_nat n;
  env_users _ := {[7 := Some "http://sdk7:5279"]}; env_choice _ := 0%nat |}.

Definition empty : AqDB := mkDB [] None [] 0.
Definition draft := callUploadTx (env []) 7 upload true request empty.
Definition merged := handleMergeTx (env []) report draft.2.
Definition committed := callUploadTx (env []) 7 upload false request merged.2.
Definition row : Asynquery := default (mkAq "" 0 0 None Received "" "" None None false false None)
  (head (db_rows committed.2)).
Definition sent := SendRequest (env []) {| aiq_QueryID := aq_ID row; aiq_UserID := 7 |} committed.2.
Definition system : Sys := mkSys sent.2 [] [] [] [] [].
End AqEx.

Section witnesses.
Import AqEx.

Lemma ex_reachable : reachable (env []) system.
Proof.
  exists (mkSys empty [] [] [] [] []). split; [by exists 0%nat|].
  eapply rtc_l. { apply (step_call (env []) empty [] [] [] [] [] 7 upload true request draft.1 draft.2); [done|apply surjective_pairing]. }
  eapply rtc_l. { apply (step_merge (env []) draft.2 _ [] [] [] _ report merged.1 merged.2); [done|apply surjective_pairing]. }
  eapply rtc_l. { apply (step_call (env []) merged.2 _ [] _ [] _ 7 upload false request committed.1 committed.2); [done|apply surjective_pairing]. }
  assert (mkSys committed.2 (([] ++ due draft.1) ++ due committed.1) [] ([] ++ due merged.1) []
    (([] ++ forgotten draft.1 empty draft.2) ++ forgotten committed.1 merged.2 committed.2) =
    mkSys committed.2 ([] ++ aq_ID row :: []) [] [] [] []) as -> by (vm_compute; reflexivity).
  eapply rtc_l. { apply (step_send (env []) committed.2 [] (aq_ID row) [] [] [] [] [] 7 sent.1 sent.2). apply surjective_pairing. }
  assert (mkSys sent.2 ([] ++ []) ([] ++ match sent.1 with ROk _ => [] | _ => [aq_ID row] end) [] [] [] = system) as ->
    by (vm_compute; reflexivity).
  apply rtc_refl.
Qed.

(** A draft whose file came first, committed afterwards and sent. *)
Lemma enqueued_at_most_once_witness :
  reachable (env []) system ∧ row ∈ db_rows (sy_db system) ∧ occ (aq_ID row) (sent_ids (sy_db system)) = 1%nat.
Proof.
  assert (row ∈ db_rows (sy_db system)) as Hin.
  { assert (db_rows (sy_db system) = [row]) as -> by (vm_compute; reflexivity). by apply list_elem_of_singleton. }
  split; [apply ex_reachable|]. split; [exact Hin|].
  destruct (enqueued_at_most_once (env []) system row ex_reachable Hin) as [_ Hs]; [vm_compute; discriminate|].
  rewrite Hs; [vm_compute; reflexivity|done|done].
Defined.

(** The sixth operation of a commit, [COMMIT] itself, takes effect and reports an
    error. *)
Lemma transactions_atomic_witness :
  let '(r, s') := callUploadTx (env [db_tick merged.2 + 4]%nat) 7 upload false request merged.2 in
  (∃ e, r = RErr e) ∧ db_snapshot s' = None ∧ ∃ a, call_done 7 upload false merged.2 a s'.
Proof.
  destruct (transactions_atomic (env [db_tick merged.2 + 4]%nat) 7 upload false request report merged.2 ltac:(vm_compute; reflexivity)) as [Ha _].
  destruct (callUploadTx _ _ _ _ _ _) as [r s'] eqn:E.
  assert (∃ e, r = RErr e) as [e ->] by (vm_compute in E; injection E as <- _; eauto).
  destruct Ha as (Hsn & _ & [Hrows|(n & msg & a & _ & _ & _ & _ & Hd)]).
  - exfalso. revert Hrows. vm_compute in E. injection E as _ <-. vm_compute. discriminate.
  - split; [by exists e|]. split; [exact Hsn|]. by exists a.
Defined.

Lemma either_order_runs_witness :
  ∃ a2 s2 a3 s3, callUploadTx (env []) 7 upload false request draft.2 = (ROk (a2, false), s2) ∧
    handleMergeTx (env []) report s2 = (ROk (a3, true), s3).
Proof.
  destruct (either_order_runs (env []) ltac:(done) 7 upload request request report empty
    (match draft.1 with ROk (a, _) => a | _ => row end) draft.2 MethodStreamCreate "meta")
    as [(a2 & s2 & a3 & s3 & H1 & H2 & _) _].
  - intros n. exists (Some "http://sdk7:5279"). reflexivity.
  - reflexivity.
  - reflexivity.
  - reflexivity.
  - reflexivity.
  - reflexivity.
  - by intros r ?%not_elem_of_nil.
  - vm_compute. reflexivity.
  - exists a2, s2, a3, s3. auto.
Defined.
End witnesses.

Section more_witnesses.
Import AqEx OracleInstances WalletDB.Concrete Ex.

Definition committed_first := callUploadTx (env []) 7 upload false request draft.2.
Definition report_task : Task := {| task_Type := ForkliftUploadDone; task_Payload := "{}" |}.
Definition first_row : Asynquery := default row (head (db_rows committed_first.2)).

(** The report of a committed query makes one SDK request, with the owner's
    wallet. *)
Lemma workers_isolated_witness :
  let o := free_oracle in
  let J : JSONMarshal := ex_marshal in
  ∃ evs, (HandleMerge (W:=history) (env []) cfg report_task (committed_first.2, [])).2.2 = [] ++ evs ∧
    calls evs = 1%nat ∧ ∀ ep rq r, EvCall ep rq r ∈ evs → request_ok (user_wallet 7) rq.
Proof.
  intros o J.
  destruct (workers_isolated o (env []) cfg report_task committed_first.2 [])
    as [(evs & Hevs & Hall) _]; [vm_compute; reflexivity|].
  exists evs. split; [exact Hevs|]. split.
  - pose proof Hevs as Hc. simpl app in Hc. rewrite <-Hc. vm_compute. reflexivity.
  - intros ep rq r Hin. destruct (Hall ep rq r Hin) as (p & aq & [= <-] & _ & _ & _ & _ & Hok). exact Hok.
Defined.

Lemma robustCall_records_witness :
  let o := free_oracle in
  let J : JSONMarshal := ex_marshal in
  ∃ s' h' q, robustCall (W:=history) (env []) cfg first_row None (committed_first.2, []) = (ROk tt, (s', h')) ∧
    q ∈ db_rows s' ∧ aq_Status q = Succeeded.
Proof.
  intros o J.
  set (c := run_caller (W:=history) (NewCaller cfg "http://sdk7:5279" 7)
    (Caller_Call cfg None (patchedRequest (mkRequest MethodStreamCreate (VMap {["name" := VStr "n"]}) 0 "2.0")
       {["name" := VStr "n"]} None)) []).
  pose proof (robustCall_records o (env []) cfg ltac:(done) first_row None committed_first.2 [] "http://sdk7:5279"
    MethodStreamCreate (mkRequest MethodStreamCreate (VMap {["name" := VStr "n"]}) 0 "2.0")
    {["name" := VStr "n"]} c.1 c.2 first_row) as H.
  destruct (robustCall _ _ _ _ _) as [out [s' h']] eqn:E.
  assert (c.1 = ROk (mkResponse "2.0" (VMap ∅) None 0)) as Hc by (vm_compute; reflexivity).
  rewrite Hc in H. destruct H as (q & Hin & _ & -> & Hst & _).
  - vm_compute. reflexivity.
  - vm_compute. reflexivity.
  - reflexivity.
  - reflexivity.
  - rewrite <-Hc. apply surjective_pairing.
  - intros x. exists "{}". reflexivity.
  - assert (aq_ID <$> db_rows committed_first.2 = [aq_ID first_row]) as -> by (vm_compute; reflexivity).
    apply NoDup_singleton.
  - assert (db_rows committed_first.2 = [first_row]) as -> by (vm_compute; reflexivity). by apply list_elem_of_singleton.
  - reflexivity.
  - vm_compute. discriminate.
  - exists s', h', q. auto.
Defined.

Definition signed_in : userCtx :=
  Some (Some (NewCurrentUser (Some (mkUser 7 None None None None)) "203.0.113.9" None None)).

Lemma Get_answers_witness :
  ∃ w, Get (env []) (Some (aq_ID first_row)) signed_in committed_first.2 = (ROk w, ticked committed_first.2) ∧
    w_status w = Some 204.
Proof.
  destruct (Get_answers (env []) ltac:(done) signed_in (mkUser 7 None None None None) (aq_ID first_row) committed_first.2)
    as (w & Hget & _); [reflexivity|reflexivity|vm_compute; discriminate|].
  exists w. split; [exact Hget|]. vm_compute in Hget. injection Hget as <-. reflexivity.
Defined.

Lemma recommit_is_noop_witness :
  ∃ s', CallManager_Call (env []) 7 request committed_first.2 = (ROk first_row, s') ∧
    unchanged committed_first.2 s'.
Proof.
  apply (recommit_is_noop (env []) ltac:(done) 7 request {[FilePathParam := VStr path]} path
    {| fl_Server := "uploads.example"; fl_UploadID := upload |}).
  - intros n. exists (Some "http://sdk7:5279"). reflexivity.
  - reflexivity.
  - reflexivity.
  - reflexivity.
  - reflexivity.
  - split_and!; [|vm_compute; reflexivity|];
      (assert (db_rows committed_first.2 = [first_row]) as -> by (vm_compute; reflexivity)).
    + by apply list_elem_of_singleton.
    + by intros r' ->%list_elem_of_singleton.
  - vm_compute. reflexivity.
  - vm_compute. reflexivity.
Defined.

(** The send of the commit fails; the client commits again, is told that the
    query was created, and nothing is in the queue. *)
Example failed_send_is_not_repeated :
  let e := env [db_tick merged.2 + 5]%nat in
  ∃ err s1 aq s2, CallManager_Call e 7 request merged.2 = (RErr err, s1) ∧
    CallManager_Call e 7 request s1 = (ROk aq, s2) ∧ complete aq = true ∧ db_sent s2 = [].
Proof. vm_compute. eexists _, _, _, _. done. Qed.

(** A query committed again after it failed is recorded as ready with its file
    outstanding, although the report of the file has been consumed. *)
Example commit_after_failure_waits :
  let s1 := (finalizeQueryRecord (env []) (aq_ID row) None "sdk down" committed.2).2 in
  ∃ aq s2, CallManager_Call (env []) 7 request s1 = (ROk aq, s2) ∧
    aq_ReadyToRun aq = true ∧ aq_FileReady aq = false ∧ db_sent s2 = [].
Proof. vm_compute. eexists _, _. done. Qed.

(** The body of an unauthorized [CreateUpload] is written before its status. *)
Example unauthorized_upload_is_200 :
  ∃ w, CreateUpload (env []) "https://uploads.example/v1/" (λ _ _, inr "token") None None empty = (ROk w, empty) ∧
    sent_status w = 200.
Proof. eexists. split; reflexivity. Qed.
End more_witnesses.
