(* ===== verification/Uploads.v ===== *)
(** * The upload service

    Models [apps/uploads]: the token check of its endpoints, the ownership check
    of uploads, the listeners for the events of the tus server, the URL endpoint
    ([uploads.go], [payload.go]) and the statements of [database/queries.sql.go]
    on the two tables.  The bytes of an upload are handled by the tus library.

    The tables and the queue to forklift are an explicit state; an environment
    decides which statements and sends fail.  Timestamps are written and never
    read, and are left out.

    Parameters: reading a token from a request and validating it, URL parsing,
    the decoding of the JSON body, random bytes. *)

From S2P Require Import Prelude GoLib Rpc Errors Http Asynquery.
From Stdlib Require Import Ascii.

Local Open Scope Z_scope.

(** ** Tables *)

Inductive UploadStatus := UploadCreated | UploadReceiving | UploadCompleted | UploadTerminated | UploadProcessed.

#[export] Instance UploadStatus_eq_dec : EqDecision UploadStatus.
Proof. solve_decision. Defined.

(** [pqtype.NullRawMessage]: the raw text, [None] for a nil slice, and whether
    the column is set. *)
Record NullRawMessage := mkNullRaw { nrm_RawMessage : option string; nrm_Valid : bool }.
Definition null_meta : NullRawMessage := mkNullRaw None false.

Record Upload := mkUpload {
  up_UserID : Z;
  up_Filename : string;
  up_Key : string;
  up_Status : UploadStatus;
  up_Size : Z;
  up_Received : Z;
  up_SDHash : string;
  up_Meta : NullRawMessage;
}.

(** The remaining columns of [urls] are constants that no statement changes. *)
Record URLRow := mkURL {
  url_UserID : Z;
  url_URL : string;
  url_Filename : string;
}.

(** ** Tasks for forklift *)

Record FileLocationS3 := { loc_Bucket : string; loc_Key : string }.

Record ForkliftUploadIncomingPayload := {
  fui_UserID : Z;
  fui_UploadID : string;
  fui_FileName : string;
  fui_FileLocation : FileLocationS3;
}.

Record ForkliftURLIncomingPayload := {
  furl_UserID : Z;
  furl_UploadID : string;
  furl_FileName : string;
  furl_URL : string;
}.

Inductive ForkliftTask :=
| TaskUpload (p : ForkliftUploadIncomingPayload)
| TaskURL (p : ForkliftURLIncomingPayload).

(** ** State *)

Record UpEnv := {
  ue_fault : nat → option string;      (* the n-th statement or send fails *)
  ue_rand : nat → error + list byte;   (* sixteen bytes of crypto/rand *)
}.

Record UpDB := mkUp {
  ud_uploads : gmap string Upload;
  ud_urls : gmap string URLRow;
  ud_queue : list ForkliftTask;
  ud_tick : nat;
}.

Section service.
Context (env : UpEnv).

(** One statement on the tables, or one send. *)
Definition up_op {A} (f : UpDB → (error + A) * UpDB) : Go UpDB A :=
  λ s, let tick s := mkUp (ud_uploads s) (ud_urls s) (ud_queue s) (S (ud_tick s)) in
       match ue_fault env (ud_tick s) with
       | Some msg => (RErr (EText msg), tick s)
       | None => match f s with
                 | (inl e, _) => (RErr e, tick s)
                 | (inr a, s') => (ROk a, tick s')
                 end
       end.

Definition set_uploads (u : gmap string Upload) (s : UpDB) : UpDB :=
  mkUp u (ud_urls s) (ud_queue s) (ud_tick s).

Definition constraint_violated : error := EPq "23514" "violates check constraint".
Definition duplicate_key : error := EPq "23505" "duplicate key value violates unique constraint".

Definition CreateUploadRow (id : string) (uid size : Z) : Go UpDB unit :=
  up_op (λ s,
    if String.eqb id "" || (size <=? 0) then (inl constraint_violated, s)
    else match ud_uploads s !! id with
         | Some _ => (inl duplicate_key, s)
         | None => (inr tt, set_uploads (<[id := mkUpload uid "" "" UploadCreated size 0 "" null_meta]> (ud_uploads s)) s)
         end).

Definition CreateURL (id : string) (uid : Z) (url filename : string) : Go UpDB unit :=
  up_op (λ s,
    if String.eqb id "" || String.eqb url "" || String.eqb filename "" then (inl constraint_violated, s)
    else match ud_urls s !! id with
         | Some _ => (inl duplicate_key, s)
         | None => (inr tt, mkUp (ud_uploads s) (<[id := mkURL uid url filename]> (ud_urls s)) (ud_queue s) (ud_tick s))
         end).

Definition GetUpload (uid : Z) (id : string) : Go UpDB Upload :=
  up_op (λ s, match ud_uploads s !! id with
              | Some u => if up_UserID u =? uid then (inr u, s) else (inl sql_ErrNoRows, s)
              | None => (inl sql_ErrNoRows, s)
              end).

(** [UPDATE uploads SET ... WHERE id = ... AND cond]; a row that does not match is
    no error. *)
Definition update_upload (id : string) (cond : Upload → bool) (f : Upload → Upload) : Go UpDB unit :=
  up_op (λ s, (inr tt, set_uploads (alter (λ u, if cond u then f u else u) id (ud_uploads s)) s)).

Definition owned (uid : Z) (u : Upload) : bool := up_UserID u =? uid.

Definition MarkUploadCompleted (uid : Z) (id filename key : string) : Go UpDB unit :=
  update_upload id (owned uid) (λ u,
    mkUpload (up_UserID u) filename key UploadCompleted (up_Size u) (up_Received u) (up_SDHash u) (up_Meta u)).

(** The statement sets the status [completed], not [terminated]. *)
Definition MarkUploadTerminated (uid : Z) (id : string) : Go UpDB unit :=
  update_upload id (owned uid) (λ u,
    mkUpload (up_UserID u) (up_Filename u) (up_Key u) UploadCompleted (up_Size u) (up_Received u) (up_SDHash u)
      (up_Meta u)).

Definition RecordUploadProgress (uid : Z) (id : string) (received : Z) : Go UpDB unit :=
  update_upload id
    (λ u, owned uid u && bool_decide (up_Status u = UploadReceiving ∨ up_Status u = UploadCreated))
    (λ u, mkUpload (up_UserID u) (up_Filename u) (up_Key u) (up_Status u) (up_Size u) received (up_SDHash u)
            (up_Meta u)).

Definition MarkUploadProcessed (id sdHash : string) (meta : NullRawMessage) : Go UpDB unit :=
  update_upload id (λ _, true) (λ u,
    mkUpload (up_UserID u) (up_Filename u) (up_Key u) UploadProcessed (up_Size u) (up_Received u) sdHash meta).

Definition send_forklift (t : ForkliftTask) : Go UpDB unit :=
  up_op (λ s, (inr tt, mkUp (ud_uploads s) (ud_urls s) (ud_queue s ++ [t]) (ud_tick s))).

Definition UploadReceived (uid : Z) (uploadID filename : string) (location : FileLocationS3) : Go UpDB unit :=
  send_forklift (TaskUpload {| fui_UserID := uid; fui_UploadID := uploadID; fui_FileName := filename;
                               fui_FileLocation := location |}).

Definition URLReceived (uid : Z) (uploadID filename url : string) : Go UpDB unit :=
  send_forklift (TaskURL {| furl_UserID := uid; furl_UploadID := uploadID; furl_FileName := filename;
                            furl_URL := url |}).
End service.

(** ** Authentication and ownership *)

(** [keybox.Validator] and the JWT library: the token of a request's headers
    (empty when there is none), parsing with the signature check, validation of
    its claims, and its subject. *)
Class UploadTokens (Req : Type) := {
  TokenFromHeader : Req → string;
  ParseToken : string → error + string;        (* the subject *)
  jwt_Validate : string → option error;
}.

(** The last segment of a path, a trailing slash apart. *)
Definition last_segment (path : string) : string :=
  match reverse (Split path "/") with
  | "" :: seg :: _ => seg
  | seg :: _ => seg
  | [] => ""
  end.

(** The match of [([^/]{32,})\/?$] (characters are bytes here). *)
Definition extractUploadIDFromPath (url : string) : string :=
  let seg := last_segment url in
  if (32 <=? String.length seg)%nat then seg else "".

(** What a middleware does with a request: it answers, or passes it on with the
    user's id in its context. *)
Inductive verdict :=
| Answered (w : Writer)
| Passed (uid : option Z).

Section auth.
Context {Req : Type} `{!UploadTokens Req} (env : UpEnv).

Definition extractUserIDFromRequest (r : Req) : error + Z :=
  let rt := TokenFromHeader r in
  if String.eqb rt "" then inl (EText "missing authentication token in request") else
  match ParseToken rt with
  | inl e => inl e
  | inr subject =>
      match jwt_Validate rt with
      | Some e => inl (EWrapf "cannot validate token: " e "")
      | None =>
          if String.eqb subject "" then inl (EText "missing user id in token") else
          match ParseInt subject 32 with
          | None => inl (EWrapf "cannot parse user id: " (EText "invalid syntax") "")
          | Some uid => inr (to_signed 32 uid)
          end
      end
  end.

Definition authByToken (method : string) (r : Req) : verdict :=
  if String.eqb method "OPTIONS" then Passed None else
  match extractUserIDFromRequest r with
  | inl err => Answered (http_Error newWriter (Error err) 401)
  | inr uid => Passed (Some uid)
  end.

Definition verifyUploadFileAccess (path : string) (ctx_user : option Z) : Go UpDB verdict :=
  let uploadID := extractUploadIDFromPath path in
  match ctx_user with
  | None => gopanic "interface conversion"
  | Some userID =>
      if userID =? 0 then ret (Answered (http_Error newWriter "Not Found" 404)) else
      if negb (String.eqb uploadID "") then
        let! r := try (GetUpload env userID uploadID) in
        match r with
        | inl _ => ret (Answered (http_Error newWriter "Not Found" 404))
        | inr _ => ret (Passed (Some userID))
        end
      else ret (Passed (Some userID))
  end.

(** ** Events of the tus server *)

Record HookEvent := {
  he_Request : Req;
  he_ID : string;
  he_Size : Z;
  he_Offset : Z;
  he_Filename : string;      (* MetaData["filename"] *)
  he_Key : string;           (* Storage["Key"] *)
}.

Inductive Hook :=
| Created (e : HookEvent)
| Progress (e : HookEvent)
| Terminated (e : HookEvent)
| Completed (e : HookEvent).

Definition hook_event (h : Hook) : HookEvent :=
  match h with Created e | Progress e | Terminated e | Completed e => e end.

(** The user an event is recorded for: zero when the token cannot be read. *)
Definition hook_user (h : Hook) : Z :=
  match extractUserIDFromRequest (he_Request (hook_event h)) with inl _ => 0 | inr uid => uid end.

(** [listenToHooks]: one event of one of the four listeners; errors are logged. *)
Definition onHook (s3bucket : string) (notifier : bool) (h : Hook) : Go UpDB unit :=
  let uid := hook_user h in
  match h with
  | Created e => try (CreateUploadRow env (he_ID e) uid (he_Size e)) ;;! ret tt
  | Progress e => try (RecordUploadProgress env uid (he_ID e) (he_Offset e)) ;;! ret tt
  | Terminated e => try (MarkUploadTerminated env uid (he_ID e)) ;;! ret tt
  | Completed e =>
      let! r := try (MarkUploadCompleted env uid (he_ID e) (he_Filename e) (he_Key e)) in
      match r with
      | inl _ => ret tt
      | inr _ =>
          if notifier then
            try (UploadReceived env uid (he_ID e) (he_Filename e)
                   {| loc_Bucket := s3bucket; loc_Key := he_Key e |}) ;;! ret tt
          else ret tt
      end
  end.

Fixpoint onHooks (s3bucket : string) (notifier : bool) (hs : list Hook) : Go UpDB unit :=
  match hs with
  | [] => ret tt
  | h :: hs' => onHook s3bucket notifier h ;;! onHooks s3bucket notifier hs'
  end.
End auth.
Arguments HookEvent : clear implicits.
Arguments Hook : clear implicits.

(** ** Uploads by URL *)

(** [path.Base]. *)
Fixpoint drop_empty (l : list string) : list string :=
  match l with
  | "" :: l' => drop_empty l'
  | _ => l
  end.
Definition path_Base (p : string) : string :=
  if String.eqb p "" then "."
  else match drop_empty (reverse (Split p "/")) with
       | [] => "/"
       | seg :: _ => seg
       end.

Definition MaxURLLength : nat := 2083.
Definition StatusInputError : string := "input_error".
Definition StatusInternalError : string := "internal_error".
Definition StatusURLCreated : string := "url_created".

Record URLPayload := { pl_URL : string; pl_Filename : string; pl_UploadID : string }.

Section urls.
(** [url.ParseRequestURI], its path; the JSON body, its URL. *)
Context (env : UpEnv) (ParseRequestURI : string → error + string) (decode_url : string → error + string).

Definition generateURLUID : Go UpDB string :=
  λ s, (match ue_rand env (ud_tick s) with inl e => RErr e | inr b => ROk (hex_encode b) end,
        mkUp (ud_uploads s) (ud_urls s) (ud_queue s) (S (ud_tick s))).

Definition Bind (u : string) : Go UpDB URLPayload :=
  if (MaxURLLength <? String.length u)%nat then fail (EText "URL too long") else
  let! pu := errorf "invalid URL: " (of_sum (ParseRequestURI u)) in
  let fn := path_Base pu in
  if String.eqb fn "/" || String.eqb fn "." || String.eqb fn "" then
    fail (EText "couldn't determine remote file name")
  else
    let! uuid := errorf "couldn't generate upload ID: " generateURLUID in
    ret {| pl_URL := u; pl_Filename := fn; pl_UploadID := uuid |}.

Definition ErrInvalidRequest (err : error) : Writer :=
  WriteBody (aq_response StatusInputError ("invalid request: " +:+ Error err) None) (WriteHeader 400 newWriter).
Definition ErrInternalError (err : error) : Writer :=
  WriteBody (aq_response StatusInternalError ("internal error: " +:+ Error err) None) (WriteHeader 500 newWriter).
Definition ResponseURLCreated (uploadID : string) : Writer :=
  WriteBody (aq_response StatusURLCreated "" (Some {["upload_id" := VStr uploadID]})) (WriteHeader 201 newWriter).

Definition PostURL (ctx_user : option Z) (notifier : bool) (body : string) : Go UpDB Writer :=
  match ctx_user with
  | None => gopanic "interface conversion"
  | Some userID =>
      let! bound := try (let! u := of_sum (decode_url body) in Bind u) in
      match bound with
      | inl err => ret (ErrInvalidRequest err)
      | inr data =>
          let! r := try (CreateURL env (pl_UploadID data) userID (pl_URL data) (pl_Filename data)) in
          match r with
          | inl err => ret (ErrInternalError err)
          | inr _ =>
              if negb notifier then gopanic "nil pointer dereference" else
              let! r := try (URLReceived env userID (pl_UploadID data) (pl_Filename data) (pl_URL data)) in
              match r with
              | inl err => ret (ErrInvalidRequest err)
              | inr _ => ret (ResponseURLCreated (pl_UploadID data))
              end
          end
      end
  end.
End urls.

(** ** Properties *)

(** A row after the events of other users, and of its own: the owner and the
    size stay. *)
Definition same_upload (u u' : Upload) : Prop := up_UserID u' = up_UserID u ∧ up_Size u' = up_Size u.

Section properties.
Context {Req : Type} `{!UploadTokens Req} (env : UpEnv).

Lemma up_op_cases {A} (f : UpDB → (error + A) * UpDB) s :
  (∃ e, up_op env f s = (RErr e, mkUp (ud_uploads s) (ud_urls s) (ud_queue s) (S (ud_tick s)))) ∨
  (∃ a s', f s = (inr a, s') ∧
     up_op env f s = (ROk a, mkUp (ud_uploads s') (ud_urls s') (ud_queue s') (S (ud_tick s')))).
Proof.
  unfold up_op. destruct (ue_fault env (ud_tick s)); [left; eauto|].
  destruct (f s) as [[e|a] s'] eqn:E; [left; eauto|right; eauto].
Qed.

(** The user of a request is named by its token, which is valid. *)
Lemma extractUserID_inv r uid : extractUserIDFromRequest r = inr uid →
  ∃ subject, ParseToken (TokenFromHeader r) = inr subject ∧ jwt_Validate (TokenFromHeader r) = None ∧ ParseInt subject 32 = Some uid.
Proof.
  unfold extractUserIDFromRequest. destruct (String.eqb _ ""); [done|].
  destruct (ParseToken _) as [|subject]; [done|]. destruct (jwt_Validate _); [done|].
  destruct (String.eqb subject ""); [done|]. destruct (ParseInt subject 32) as [n|] eqn:Hn; [|done].
  intros [= <-]. exists subject. split_and!; [done..|]. rewrite Hn. f_equal. symmetry.
  apply to_signed_small; [lia|]. by apply ParseInt_range in Hn.
Qed.

(** The task a completed upload sends to forklift. *)
Definition task_of (bucket : string) (h : Hook Req) : ForkliftTask :=
  let e := hook_event h in
  TaskUpload {| fui_UserID := hook_user h; fui_UploadID := he_ID e; fui_FileName := he_Filename e;
                fui_FileLocation := {| loc_Bucket := bucket; loc_Key := he_Key e |} |}.

Definition is_completed (h : Hook Req) : Prop := match h with Completed _ => True | _ => False end.
#[local] Instance is_completed_dec h : Decision (is_completed h).
Proof. destruct h; simpl; apply _. Defined.

(** What one event may do to the rows: keep them all with owner and size, and
    change none that belongs to another user or has another id. *)
Definition rows_kept (h : Hook Req) (t t' : gmap string Upload) : Prop :=
  ∀ id u, t !! id = Some u → ∃ u', t' !! id = Some u' ∧ same_upload u u' ∧
    (u' = u ∨ (id = he_ID (hook_event h) ∧ up_UserID u = hook_user h)).

Lemma rows_kept_refl h t : rows_kept h t t.
Proof. intros id u Hu. exists u. by split_and!; [| |left]. Qed.

Lemma update_upload_kept h cond f s :
  (∀ u, cond u = true → up_UserID u = hook_user h) → (∀ u, same_upload u (f u)) →
  ∃ r s', update_upload env (he_ID (hook_event h)) cond f s = (r, s') ∧ (∀ p, r ≠ RPanic p) ∧
    rows_kept h (ud_uploads s) (ud_uploads s') ∧ ud_queue s' = ud_queue s.
Proof.
  intros Hcond Hf. unfold update_upload.
  match goal with |- context [up_op env ?g s] => destruct (up_op_cases g s) as [[e ->]|(a & s1 & [= <- <-] & ->)] end.
  - eexists _, _. split_and!; [done..|apply rows_kept_refl|done].
  - eexists _, _. split_and!; [done..| |done]. simpl. intros id u Hu.
    destruct (decide (id = he_ID (hook_event h))) as [->|Hne].
    + rewrite lookup_alter_eq, Hu. simpl. destruct (cond u) eqn:Hc; eexists; (split; [done|]).
      * split; [apply Hf|]. right. auto.
      * by split; [|left].
    + rewrite lookup_alter_ne, Hu by done. exists u. by split_and!; [| |left].
Qed.

Lemma onHook_effect bucket notifier h s :
  ∃ s' sub, onHook env bucket notifier h s = (ROk tt, s') ∧ rows_kept h (ud_uploads s) (ud_uploads s') ∧
    sub `sublist_of` filter is_completed [h] ∧ ud_queue s' = ud_queue s ++ (task_of bucket <$> sub).
Proof.
  assert (∀ cond f (k : error + unit → Go UpDB unit),
    (∀ u, cond u = true → up_UserID u = hook_user h) → (∀ u, same_upload u (f u)) →
    ∃ s1 x, (let! r := try (update_upload env (he_ID (hook_event h)) cond f) in k r) s = k x s1 ∧
      rows_kept h (ud_uploads s) (ud_uploads s1) ∧ ud_queue s1 = ud_queue s) as Hupd.
  { intros cond f k Hc Hf. destruct (update_upload_kept h cond f s Hc Hf) as (r & s1 & Hr & Hnp & Hk & Hq).
    unfold bind, try. rewrite Hr. destruct r as [[]|e|p]; [| |by destruct (Hnp p)].
    - exists s1, (inr tt). done.
    - exists s1, (inl e). done. }
  destruct h as [e|e|e|e]; unfold onHook.
  - unfold CreateUploadRow.
    match goal with |- context [up_op env ?g] => destruct (up_op_cases g s) as [[x Hx]|(a & s1 & Hf & Hx)] end.
    + unfold bind, try. rewrite Hx. eexists _, []. split_and!; [done|apply rows_kept_refl|apply sublist_nil_l|].
      by rewrite app_nil_r.
    + unfold bind, try. rewrite Hx. destruct (_ || _); [done|]. destruct (ud_uploads s !! he_ID e) eqn:Hn; [done|].
      injection Hf as <- <-. eexists _, []. split_and!; [done| |apply sublist_nil_l|by rewrite app_nil_r].
      simpl. intros id u Hu. exists u. rewrite lookup_insert_ne by congruence. by split_and!; [| |left].
  - unfold RecordUploadProgress. match goal with |- context [update_upload env _ ?c ?f] =>
      destruct (Hupd c f (λ _, ret tt)) as (s1 & x & Hs & Hk & Hq) end.
    { by intros u [Hu%Z.eqb_eq _]%andb_true_iff. } { done. }
    exists s1, []. split_and!; [exact Hs|done|apply sublist_nil_l|by rewrite app_nil_r].
  - unfold MarkUploadTerminated. match goal with |- context [update_upload env _ ?c ?f] =>
      destruct (Hupd c f (λ _, ret tt)) as (s1 & x & Hs & Hk & Hq) end.
    { by intros u Hu%Z.eqb_eq. } { done. }
    exists s1, []. split_and!; [exact Hs|done|apply sublist_nil_l|by rewrite app_nil_r].
  - unfold MarkUploadCompleted. match goal with |- context [bind (try (update_upload env _ ?c ?f)) ?k] =>
      destruct (Hupd c f k) as (s1 & x & Hs & Hk & Hq) end.
    { by intros u Hu%Z.eqb_eq. } { done. }
    simpl hook_event in Hs. rewrite Hs.
    assert (∀ s2, s2 = s1 → ∃ s' sub, ret tt s2 = (ROk tt : result error unit, s') ∧
      rows_kept (Completed e) (ud_uploads s) (ud_uploads s') ∧
      sub `sublist_of` filter is_completed [Completed e] ∧ ud_queue s' = ud_queue s ++ (task_of bucket <$> sub))
      as Hquiet.
    { intros s2 ->. exists s1, []. split_and!; [done..|apply sublist_nil_l|by rewrite app_nil_r]. }
    destruct x as [x|[]]; [by apply Hquiet|]. destruct notifier; [|by apply Hquiet].
    unfold UploadReceived, send_forklift.
    match goal with |- context [up_op env ?g] => destruct (up_op_cases g s1) as [[x Hx]|(a & s2 & [= <- <-] & Hx)] end;
      unfold bind, try; rewrite Hx.
    + eexists _, []. split_and!; [done..|apply sublist_nil_l|by rewrite app_nil_r].
    + eexists _, [Completed e]. split_and!; [done..|]. simpl. by rewrite Hq.
Qed.

End properties.
