(* ===== verification/Forklift.v ===== *)
(** * Forklift

    Models [apps/forklift]: the two task handlers that fetch an uploaded file,
    analyse it, split it into blobs, send the blobs to the reflector, record the
    result and report to the asynchronous queries ([forklift.go]), and the
    retrievers ([retriever.go]).

    The state is what the handlers leave behind: the uploads table, the objects
    in S3, local files and blob directories, the streams whose blobs reached the
    reflector, and the reports sent.  Deferred calls run on every way out, in the
    order Go runs them.  Metrics and log lines are left out.

    Parameters: the analysis of a file, its split into blobs, the reflector, S3
    and HTTP, each answering by an arbitrary function of the step. *)

From S2P Require Import Prelude GoLib Rpc Errors Http Paid Asynquery AsynquerySpec Uploads.
From Stdlib Require Import Ascii.

Local Open Scope Z_scope.

Definition ForkliftUploadIncoming : string := "forklift:upload:incoming".
Definition ForkliftURLIncoming : string := "forklift:url:incoming".
Definition ErrReflector : error :=
  ENamed "forklift.ErrReflector" "errors found while uploading blobs to reflector" false.

(** [fileanalyzer.StreamInfo] as far as it is used; a result of [Analyze] always
    has a media type. *)
Record StreamInfo := {
  si_MIME : string;
  si_Extension : string;
  si_MediaInfo : option (Z * Z * Z);     (* duration, width, height *)
}.

(** The source of a stream: its hashes and its size. *)
Record StreamSource := { ss_SdHash : list byte; ss_Hash : list byte; ss_Size : Z }.

Record LocalFile := { lf_Name : string; lf_Size : Z }.

(** A reply of an HTTP server: its status, and the copying of its body. *)
Record Fetched := { ft_Status : Z; ft_Copy : error + Z }.

Record FkEnv := {
  fe_fault : nat → option string;
  fe_up : UpEnv;
  fe_length : nat → Z;                                    (* ContentLength of an object *)
  fe_newRequest : string → option error;
  fe_fetch : nat → error + Fetched;
  fe_analyze : nat → option StreamInfo * option error;
  fe_split : nat → error + StreamSource;
  fe_upload : nat → error + Z;                            (* the summary's error count *)
}.

Record Forklift := mkFk {
  fk_up : UpDB;
  fk_objects : gset (string * string);                    (* bucket and key *)
  fk_files : gset string;
  fk_blobs : gset string;
  fk_reflected : list (list byte);
  fk_done : list ForkliftUploadDonePayload;
  fk_tick : nat;
}.

Definition tick_fk (s : Forklift) : Forklift :=
  mkFk (fk_up s) (fk_objects s) (fk_files s) (fk_blobs s) (fk_reflected s) (fk_done s) (S (fk_tick s)).

(** [path.Join] of two elements that are not empty, and [path.Ext]. *)
Definition path_Join (a b : string) : string := path_Clean (a +:+ "/" +:+ b).

Fixpoint last_dot (s : string) : option string :=
  match s with
  | "" => None
  | String a s' =>
      match last_dot s' with
      | Some e => Some e
      | None => if Ascii.eqb a "." then Some s else None
      end
  end.
Definition path_Ext (p : string) : string :=
  match reverse (Split p "/") with
  | seg :: _ => default "" (last_dot seg)
  | [] => ""
  end.

Section forklift.
Context `{!AqJSON} (env : FkEnv) (tempPath blobRoot : string).
(** [json.Unmarshal] of the two task payloads. *)
Context (unmarshal_upload : string → error + ForkliftUploadIncomingPayload)
        (unmarshal_url : string → error + ForkliftURLIncomingPayload).

(** An operation on the outside that may fail. *)
Definition fk_op {A} (f : nat → Forklift → (error + A) * Forklift) : Go Forklift A :=
  λ s, match fe_fault env (fk_tick s) with
       | Some msg => (RErr (EText msg), tick_fk s)
       | None => match f (fk_tick s) s with
                 | (inl e, s') => (RErr e, tick_fk s')
                 | (inr a, s') => (ROk a, tick_fk s')
                 end
       end.

Definition set_files (fs : gset string) (s : Forklift) : Forklift :=
  mkFk (fk_up s) (fk_objects s) fs (fk_blobs s) (fk_reflected s) (fk_done s) (fk_tick s).

Definition inUp {A} (c : Go UpDB A) : Go Forklift A :=
  λ s, let '(r, u) := c (fk_up s) in
       (r, mkFk u (fk_objects s) (fk_files s) (fk_blobs s) (fk_reflected s) (fk_done s) (fk_tick s)).

Definition os_Create (name : string) : Go Forklift unit :=
  fk_op (λ _ s, (inr tt, set_files ({[name]} ∪ fk_files s) s)).
Definition os_Remove (name : string) : Go Forklift unit :=
  fk_op (λ _ s, (inr tt, set_files (fk_files s ∖ {[name]}) s)).
Definition os_RemoveAll (name : string) : Go Forklift unit :=
  fk_op (λ _ s, (inr tt, mkFk (fk_up s) (fk_objects s) (fk_files s) (fk_blobs s ∖ {[name]}) (fk_reflected s)
                          (fk_done s) (fk_tick s))).

(** *** Retrievers *)

Definition S3_Retrieve (uploadID : string) (loc : FileLocationS3) : Go Forklift LocalFile :=
  let name := path_Join tempPath uploadID in
  errorf ("failed to create local upload file (" +:+ name +:+ "): ") (os_Create name) ;;!
  let! out := try (fk_op (λ n s, if bool_decide ((loc_Bucket loc, loc_Key loc) ∈ fk_objects s)
                                 then (inr (fe_length env n), s) else (inl (EText "NoSuchKey"), s))) in
  match out with
  | inl err => try (os_Remove name) ;;! fail err
  | inr n => ret {| lf_Name := name; lf_Size := n |}
  end.

Definition S3_Delete (loc : FileLocationS3) : Go Forklift unit :=
  fk_op (λ _ s, (inr tt, mkFk (fk_up s) (fk_objects s ∖ {[(loc_Bucket loc, loc_Key loc)]}) (fk_files s)
                          (fk_blobs s) (fk_reflected s) (fk_done s) (fk_tick s))).

Definition Cleanup (f : LocalFile) : Go Forklift unit := os_Remove (lf_Name f).

Definition errFatalRetrieverFailure : error :=
  ENamed "forklift.errFatalRetrieverFailure" "fatal retriever error" false.

Definition HTTP_Retrieve (uploadID url : string) : Go Forklift LocalFile :=
  match fe_newRequest env url with
  | Some _ => fail (EWrapf "" errFatalRetrieverFailure ": error creating request")
  | None =>
      let! resp := errorf "error fetching remote file: " (fk_op (λ n s, (fe_fetch env n, s))) in
      if negb (ft_Status resp =? 200) then
        fail (EText ("remote server returned non-OK status: " +:+ Itoa (ft_Status resp)))
      else
        let name := path_Join tempPath uploadID in
        errorf ("failed to create local file (" +:+ name +:+ "): ") (os_Create name) ;;!
        match ft_Copy resp with
        | inl err => try (os_Remove name) ;;! fail (EWrapf "error saving uploaded file: " err "")
        | inr n => if n =? 0 then try (os_Remove name) ;;! fail (EText "remote file is empty")
                   else ret {| lf_Name := name; lf_Size := n |}
        end
  end.

(** *** Handlers *)

Definition metaOf (fileName : string) (info : StreamInfo) (src : StreamSource) : UploadMeta :=
  let name := if String.eqb (path_Ext fileName) "" then fileName +:+ si_Extension info else fileName in
  let '(duration, width, height) := default (0, 0, 0) (si_MediaInfo info) in
  {| um_Size := ss_Size src; um_FileName := name; um_SDHash := hex_encode (ss_SdHash src);
     um_MIME := si_MIME info; um_Extension := si_Extension info; um_Hash := hex_encode (ss_Hash src);
     um_Duration := duration; um_Width := width; um_Height := height |}.

(** From the analysis to the recorded result, the same in both handlers; [None]
    when the analyzer gives neither a result nor an error. *)
Definition processFile (uploadID fileName blobPath : string) : Go Forklift (option UploadMeta) :=
  let! a := gets (λ s, fe_analyze env (fk_tick s)) in
  modify tick_fk ;;!
  match a with
  | (None, Some err) => fail err
  | (None, None) => ret None
  | (Some info, _) =>
      let! src := fk_op (λ n s, (fe_split env n, mkFk (fk_up s) (fk_objects s) (fk_files s) ({[blobPath]} ∪ fk_blobs s)
                                                   (fk_reflected s) (fk_done s) (fk_tick s))) in
      let! errs := fk_op (λ n s, (fe_upload env n,
          match fe_upload env n with
          | inr e => if 0 <? e then s
                     else mkFk (fk_up s) (fk_objects s) (fk_files s) (fk_blobs s)
                            (fk_reflected s ++ [ss_SdHash src]) (fk_done s) (fk_tick s)
          | inl _ => s
          end)) in
      if 0 <? errs then fail ErrReflector else
      let meta := metaOf fileName info src in
      let jbMeta := match marshal_meta meta with inr j => Some j | inl _ => None end in
      inUp (MarkUploadProcessed (fe_up env) uploadID (um_SDHash meta) (mkNullRaw jbMeta true)) ;;!
      ret (Some meta)
  end.

Definition SendResponse (d : ForkliftUploadDonePayload) : Go Forklift unit :=
  errorf ("failed to enqueue " +:+ ForkliftUploadDone +:+ " request: ")
    (fk_op (λ _ s, (inr tt, mkFk (fk_up s) (fk_objects s) (fk_files s) (fk_blobs s) (fk_reflected s)
                              (fk_done s ++ [d]) (fk_tick s)))).

Definition HandleUpload (task : Task) : Go Forklift unit :=
  if negb (String.eqb (task_Type task) ForkliftUploadIncoming) then fail asynq_SkipRetry else
  match unmarshal_upload (task_Payload task) with
  | inl _ => fail asynq_SkipRetry
  | inr payload =>
      let! localFile := S3_Retrieve (fui_UploadID payload) (fui_FileLocation payload) in
      deferred (Cleanup localFile) (
        let blobPath := path_Join blobRoot (lf_Name localFile) in
        deferred (os_RemoveAll blobPath) (
          let! r := processFile (fui_UploadID payload) (fui_FileName payload) blobPath in
          match r with
          | None => ret tt
          | Some meta =>
              deferred (S3_Delete (fui_FileLocation payload))
                (SendResponse {| fud_UploadID := fui_UploadID payload; fud_UserID := fui_UserID payload;
                                 fud_Meta := meta |})
          end))
  end.

Definition HandleURL (task : Task) : Go Forklift unit :=
  if negb (String.eqb (task_Type task) ForkliftURLIncoming) then fail asynq_SkipRetry else
  match unmarshal_url (task_Payload task) with
  | inl _ => fail asynq_SkipRetry
  | inr payload =>
      let! localFile := HTTP_Retrieve (furl_UploadID payload) (furl_URL payload) in
      deferred (Cleanup localFile) (
        let blobPath := path_Join blobRoot (lf_Name localFile) in
        deferred (os_RemoveAll blobPath) (
          let! r := processFile (furl_UploadID payload) (furl_FileName payload) blobPath in
          match r with
          | None => ret tt
          | Some meta =>
              SendResponse {| fud_UploadID := furl_UploadID payload; fud_UserID := furl_UserID payload;
                              fud_Meta := meta |}
          end))
  end.

(** [RetryDelay], in nanoseconds. *)
Definition fk_RetryDelay (count : Z) (err : error) : Z :=
  if Is err "forklift.ErrReflector" then count * (60 * 10 ^ 9) else 10 * 10 ^ 9.
End forklift.

(** ** Properties *)

(** What the rest of the system sees of forklift: the table, the reflector and
    the reports. *)
Definition core (s : Forklift) : UpDB * list (list byte) * list ForkliftUploadDonePayload :=
  (fk_up s, fk_reflected s, fk_done s).

Definition core_same : relation Forklift := λ s s', core s' = core s.
#[export] Instance core_same_preorder : PreOrder core_same.
Proof. split; [done|]. intros s1 s2 s3 H12 H23. unfold core_same in *. congruence. Qed.

Section properties.
Context `{!AqJSON} (env : FkEnv) (tempPath blobRoot : string).
Context (unmarshal_upload : string → error + ForkliftUploadIncomingPayload).

Lemma fk_op_core {A} (f : nat → Forklift → (error + A) * Forklift) :
  (∀ n s, core (f n s).2 = core s) → extends core_same (fk_op env f).
Proof.
  intros Hf s. unfold fk_op, core_same. destruct (fe_fault env (fk_tick s)); [done|].
  specialize (Hf (fk_tick s) s). by destruct (f _ s) as [[e|a] s'].
Qed.

Lemma os_Create_core n : extends core_same (os_Create env n).
Proof. by apply fk_op_core. Qed.
Lemma os_Remove_core n : extends core_same (os_Remove env n).
Proof. by apply fk_op_core. Qed.
Lemma os_RemoveAll_core n : extends core_same (os_RemoveAll env n).
Proof. by apply fk_op_core. Qed.
Lemma S3_Delete_core l : extends core_same (S3_Delete env l).
Proof. by apply fk_op_core. Qed.

#[local] Hint Resolve os_Create_core os_Remove_core os_RemoveAll_core S3_Delete_core : go.

Lemma errorf_core {A} pre (c : Go Forklift A) : extends core_same c → extends core_same (errorf pre c).
Proof. intros Hc. unfold errorf. go_paths. Qed.

#[local] Hint Resolve errorf_core : go.

Lemma S3_Retrieve_core id l : extends core_same (S3_Retrieve env tempPath id l).
Proof.
  unfold S3_Retrieve. cbv zeta. go_paths. apply fk_op_core. intros n s. by case_bool_decide.
Qed.

(** An outcome judged by the result and the core. *)
Definition judged {A} (c : Go Forklift A)
    (P : result error A → UpDB * list (list byte) * list ForkliftUploadDonePayload → Prop) (s : Forklift) : Prop :=
  P (c s).1 (core (c s).2).

Lemma judged_deferred {A} (cl : Go Forklift unit) (body : Go Forklift A) P s :
  extends core_same cl → judged body P s → judged (deferred cl body) P s.
Proof.
  unfold judged, deferred. intros Hcl Hb. destruct (body s) as [r s1]. simpl in *.
  by rewrite (Hcl s1).
Qed.

Lemma judged_bind {A B} (c : Go Forklift A) (k : A → Go Forklift B) P s :
  match c s with
  | (ROk a, s') => judged (k a) P s'
  | (RErr e, s') => P (RErr e) (core s')
  | (RPanic w, s') => P (RPanic w) (core s')
  end → judged (bind c k) P s.
Proof. unfold judged, bind. by destruct (c s) as [[] ?]. Qed.

Lemma judged_quiet {A B} (c : Go Forklift A) (k : A → Go Forklift B) P s :
  extends core_same c → (∀ e, P (RErr e) (core s)) → (∀ w, P (RPanic w) (core s)) →
  (∀ a s', core s' = core s → judged (k a) P s') → judged (bind c k) P s.
Proof.
  intros Hc He Hw Hk. apply judged_bind. specialize (Hc s). unfold core_same in Hc.
  destruct (c s) as [[a|e|w] s']; simpl in Hc; [by apply Hk|by rewrite Hc..].
Qed.

Definition marked (id sdHash : string) (t t' : gmap string Upload) : Prop :=
  ∀ u, t !! id = Some u → ∃ u', t' !! id = Some u' ∧ up_UserID u' = up_UserID u ∧
    up_Status u' = UploadProcessed ∧ up_SDHash u' = sdHash.

Lemma mark_processed id sd meta u :
  match MarkUploadProcessed (fe_up env) id sd meta u with
  | (ROk _, u') => marked id sd (ud_uploads u) (ud_uploads u')
  | (RErr _, _) => True
  | (RPanic _, _) => False
  end.
Proof.
  unfold MarkUploadProcessed, update_upload.
  match goal with |- context [up_op _ ?g u] =>
    destruct (up_op_cases (fe_up env) g u) as [[e ->]|(a & s1 & [= <- <-] & ->)] end; [done|].
  simpl. intros v Hv. rewrite lookup_alter_eq, Hv. simpl. eexists. by split_and!.
Qed.

(** [processFile] reports nothing, and ends with metadata only after the blobs
    reached the reflector and the upload was marked. *)
Lemma processFile_judged {B} id name bp (k : option UploadMeta → Go Forklift B) P s :
  (∀ e c, c.2 = fk_done s → P (RErr e) c) →
  (∀ s', fk_done s' = fk_done s → judged (k None) P s') →
  (∀ info src s', fk_done s' = fk_done s → fk_reflected s' = fk_reflected s ++ [ss_SdHash src] →
     marked id (hex_encode (ss_SdHash src)) (ud_uploads (fk_up s)) (ud_uploads (fk_up s')) →
     judged (k (Some (metaOf name info src))) P s') →
  judged (let! r := processFile env id name bp in k r) P s.
Proof.
  intros He Hnone Hsome. apply judged_bind. unfold processFile.
  unfold bind at 1, gets. unfold bind at 1, modify.
  destruct (fe_analyze env (fk_tick s)) as [[info|] err]; [|destruct err; [by apply He|by apply Hnone]].
  unfold bind at 1, fk_op at 1. destruct (fe_fault env _); [by apply He|].
  destruct (fe_split env _) as [e|src]; [by apply He|].
  unfold bind at 1, fk_op at 1. destruct (fe_fault env _); [by apply He|].
  destruct (fe_upload env _) as [e|n] eqn:Hu; [by apply He|].
  destruct (0 <? n) eqn:Hn; [by apply He|]. unfold bind, inUp. simpl.
  pose proof (mark_processed id (hex_encode (ss_SdHash src))
    (mkNullRaw (match marshal_meta (metaOf name info src) with inr j => Some j | inl _ => None end) true) (fk_up s)) as Hm.
  assert (um_SDHash (metaOf name info src) = hex_encode (ss_SdHash src)) as ->.
  { unfold metaOf. by destruct (default _ _) as [[? ?] ?]. }
  destruct (MarkUploadProcessed _ _ _ _ _) as [[[]|e|w] u']; [|by apply He|done].
  by apply Hsome.
Qed.

(** What a run of [HandleUpload] adds to the reports. *)
Definition reported (task : Task) (s : Forklift) (r : result error unit)
    (c : UpDB * list (list byte) * list ForkliftUploadDonePayload) : Prop :=
  c.2 = fk_done s ∨
  ∃ p info src, unmarshal_upload (task_Payload task) = inr p ∧ r = ROk tt ∧
    c.2 = fk_done s ++ [{| fud_UploadID := fui_UploadID p; fud_UserID := fui_UserID p;
                           fud_Meta := metaOf (fui_FileName p) info src |}] ∧
    c.1.2 = fk_reflected s ++ [ss_SdHash src] ∧
    marked (fui_UploadID p) (hex_encode (ss_SdHash src)) (ud_uploads (fk_up s)) (ud_uploads c.1.1).

Lemma SendResponse_judged d P s :
  (∀ e, P (RErr e) (core s)) → P (ROk tt) (fk_up s, fk_reflected s, fk_done s ++ [d]) →
  judged (SendResponse env d) P s.
Proof.
  intros He Hok. unfold judged, SendResponse, errorf, bind, try, fk_op.
  destruct (fe_fault env (fk_tick s)); simpl; auto.
Qed.

Lemma HandleUpload_reported task s :
  judged (HandleUpload env tempPath blobRoot unmarshal_upload task) (reported task s) s.
Proof.
  unfold HandleUpload. destruct (String.eqb _ _); cbn [negb]; [|by left].
  destruct (unmarshal_upload _) as [e|p] eqn:Hp; [by left|].
  assert (∀ r c, c.2 = fk_done s → reported task s r c) as Hno by by left.
  apply judged_quiet; [apply S3_Retrieve_core|by left..|]. intros lf s1 Hs1.
  injection Hs1 as Hu1 Hr1 Hd1.
  apply judged_deferred; [apply os_Remove_core|]. cbv zeta.
  apply judged_deferred; [apply os_RemoveAll_core|].
  apply processFile_judged.
  - intros e c Hc. apply Hno. congruence.
  - intros s2 Hd2. apply Hno. simpl. congruence.
  - intros info src s2 Hd2 Hr2 Hm2. apply judged_deferred; [apply S3_Delete_core|].
    apply SendResponse_judged; [intros e; apply Hno; simpl; congruence|].
    right. exists p, info, src. simpl. rewrite Hd2, Hd1, Hr2, Hr1. rewrite Hu1 in Hm2. done.
Qed.

(** C12: Forklift reports an upload only when it is done. A run adds at most one
    report; it adds one only if it ends without error, after all blobs of the
    stream reached the reflector and the upload, if it is in the table, was marked
    processed with the stream's hash; the report names the user and the upload of
    the task and carries the metadata of this stream. *)
Theorem report_follows_processing task s :
  let '(r, s') := HandleUpload env tempPath blobRoot unmarshal_upload task s in
  fk_done s' = fk_done s ∨
  ∃ p info src, unmarshal_upload (task_Payload task) = inr p ∧ r = ROk tt ∧
    fk_done s' = fk_done s ++ [{| fud_UploadID := fui_UploadID p; fud_UserID := fui_UserID p;
                                  fud_Meta := metaOf (fui_FileName p) info src |}] ∧
    fk_reflected s' = fk_reflected s ++ [ss_SdHash src] ∧
    marked (fui_UploadID p) (hex_encode (ss_SdHash src)) (ud_uploads (fk_up s)) (ud_uploads (fk_up s')).
Proof.
  pose proof (HandleUpload_reported task s) as Hr. unfold judged in Hr.
  by destruct (HandleUpload _ _ _ _ _ _) as [r s'].
Qed.

(** Without its source object no run succeeds. *)
Lemma source_gone_fails task p s :
  task_Type task = ForkliftUploadIncoming → unmarshal_upload (task_Payload task) = inr p →
  (loc_Bucket (fui_FileLocation p), loc_Key (fui_FileLocation p)) ∉ fk_objects s →
  ∃ e s', HandleUpload env tempPath blobRoot unmarshal_upload task s = (RErr e, s') ∧ fk_done s' = fk_done s.
Proof.
  intros Ht Hp Hobj. unfold HandleUpload. rewrite Ht, Hp. cbn [negb]. rewrite String.eqb_refl. cbn [negb].
  assert (∃ e s', S3_Retrieve env tempPath (fui_UploadID p) (fui_FileLocation p) s = (RErr e, s')) as (e & s' & Hr).
  { unfold S3_Retrieve, errorf, os_Create, bind, try, fk_op.
    destruct (fe_fault env (fk_tick s)); simpl; [eauto|].
    destruct (fe_fault env _); simpl; [|rewrite bool_decide_false by done];
      unfold os_Remove, fk_op; destruct (fe_fault env _); simpl; eauto. }
  unfold bind. rewrite Hr. exists e, s'. split; [done|].
  pose proof (S3_Retrieve_core (fui_UploadID p) (fui_FileLocation p) s) as Hc. rewrite Hr in Hc.
  unfold core_same in Hc. simpl in Hc. by injection Hc.
Qed.
End properties.

(** ** From an upload to its query *)

Section pipeline.
Context {Req : Type} `{!UploadTokens Req, !AqJSON} (fenv : FkEnv) (aenv : AqEnv) (tempPath blobRoot : string).
Context (unmarshal_upload : string → error + ForkliftUploadIncomingPayload).

(** The rows of other users and other uploads, across the merge transaction. *)
Lemma handleMergeTx_others d a row :
  db_snapshot a = None → NoDup (aq_ID <$> db_rows a) → row ∈ db_rows a →
  of_upload (fud_UploadID d) (fud_UserID d) row = false → row ∈ db_rows (handleMergeTx aenv d a).2.
Proof.
  intros Ha Hk Hrow Hof. pose proof (handleMergeTx_effect aenv d a Ha) as He. unfold run in He.
  destruct (handleMergeTx aenv d a) as [r a']. simpl in *.
  assert (∀ x, merge_done (fud_UploadID d) (fud_UserID d) a x a' → row ∈ db_rows a') as Hd.
  { intros x [aq s2 (Hr & _)|aq aq' t s2 Hin Hof' _ _ Hr _ _]; rewrite Hr; [done|].
    pose proof (update_intro (aq_ID aq) (put_file aq' t) _ _ Hrow) as Hx.
    destruct (String.eqb_spec (aq_ID row) (aq_ID aq)) as [Heq|]; [|done].
    by rewrite (key_inj _ _ _ Hk Hrow Hin Heq), Hof' in Hof. }
  destruct He as [x s2 (Hr & _)|x s2 Hx|x n msg s2 Hx _ _ _]; [by rewrite Hr|eauto..].
Qed.

(** C13: The identity of an upload survives the pipeline. When the handling of a
    tus event has put a task on the queue of forklift, the event is the completion
    of an upload and the task names the user of the event's token, the event's upload
    id, its file name and its object in the bucket; every report that a run of
    forklift on this task adds names this user and this upload; and the transaction
    that receives the report, whatever fails in it, leaves all queries of other users
    and of other uploads untouched. *)
Theorem pipeline_identity (uenv : UpEnv) bucket notifier (h : Hook Req) u p task s d a :
  ud_queue (onHook uenv bucket notifier h u).2 = ud_queue u ++ [TaskUpload p] →
  unmarshal_upload (task_Payload task) = inr p →
  fk_done (HandleUpload fenv tempPath blobRoot unmarshal_upload task s).2 = fk_done s ++ [d] →
  db_snapshot a = None →
  ∃ e, h = Completed e ∧
    p = {| fui_UserID := hook_user h; fui_UploadID := he_ID e; fui_FileName := he_Filename e;
           fui_FileLocation := {| loc_Bucket := bucket; loc_Key := he_Key e |} |} ∧
    fud_UploadID d = he_ID e ∧ fud_UserID d = hook_user h ∧
    ∀ row, row ∈ db_rows a → NoDup (aq_ID <$> db_rows a) →
      of_upload (he_ID e) (hook_user h) row = false →
      row ∈ db_rows (handleMergeTx aenv d a).2.
Proof.
  intros Hq Hp Hd Ha.
  destruct (onHook_effect uenv bucket notifier h u) as (u' & sub & Hrun & _ & Hsub & Hq').
  rewrite Hrun in Hq. simpl in Hq. rewrite Hq' in Hq. apply (inj (app _)) in Hq.
  assert (sub = [h] ∧ ∃ e, h = Completed e) as [-> [e ->]].
  { rewrite filter_cons in Hsub. destruct h as [e|e|e|e]; simpl in Hsub;
      try (apply sublist_nil_r in Hsub as ->; done).
    apply sublist_cons_r in Hsub as [Hs|(l & -> & Hs)]; apply sublist_nil_r in Hs as ->; [done|eauto]. }
  injection Hq as <-. exists e. split; [done|]. split; [done|].
  assert (fud_UploadID d = he_ID e ∧ fud_UserID d = hook_user (Completed e)) as [Hid Hu].
  { pose proof (HandleUpload_reported fenv tempPath blobRoot unmarshal_upload task s) as Hr. unfold judged in Hr.
    destruct Hr as [Hr|(p & info & src & Hp' & _ & Hr & _)]; simpl in Hr; rewrite Hr in Hd.
    - apply (f_equal length) in Hd. rewrite length_app in Hd. simpl in Hd. lia.
    - apply (inj (app _)) in Hd as [= <-]. rewrite Hp in Hp'. by injection Hp' as <-. }
  split_and!; [done..|]. intros row Hrow Hk Hof. rewrite <-Hid, <-Hu in Hof. by apply handleMergeTx_others.
Qed.
End pipeline.

(** ** Concrete runs *)

Module FkEx.
#[export] Instance tokens : UploadTokens string := {|
  TokenFromHeader r := r;
  ParseToken t := if String.eqb t "good" then inr "7" else inl (EText "bad token");
  jwt_Validate _ := None |}.

Definition loc : FileLocationS3 := {| loc_Bucket := "uploads"; loc_Key := "k1" |}.
Definition done_upload : HookEvent string := {|
  he_Request := "good"; he_ID := AqEx.upload; he_Size := 10; he_Offset := 10; he_Filename := "clip"; he_Key := "k1" |}.
Definition payload : ForkliftUploadIncomingPayload := {|
  fui_UserID := 7; fui_UploadID := AqEx.upload; fui_FileName := "clip"; fui_FileLocation := loc |}.
Definition task : Task := {| task_Type := ForkliftUploadIncoming; task_Payload := "{}" |}.
Definition unmarshal (_ : string) : error + ForkliftUploadIncomingPayload := inr payload.

Definition up_env : UpEnv := {| ue_fault _ := None; ue_rand _ := inr (bytes_of "0123456789abcdef") |}.
Definition fenv (failing : list nat) : FkEnv := {|
  fe_fault n := if bool_decide (n ∈ failing) then Some "connection reset" else None;
  fe_up := up_env; fe_length _ := 10; fe_newRequest _ := None; fe_fetch _ := inl (EText "unused");
  fe_analyze _ := (Some {| si_MIME := "video/mp4"; si_Extension := ".mp4"; si_MediaInfo := Some (12, 640, 480) |}, None);
  fe_split _ := inr {| ss_SdHash := bytes_of "sd"; ss_Hash := bytes_of "h"; ss_Size := 10 |};
  fe_upload _ := inr 0 |}.

Definition uploads : UpDB :=
  mkUp {[AqEx.upload := mkUpload 7 "clip" "k1" UploadCompleted 10 10 "" null_meta]} ∅ [] 0.
Definition world : Forklift := mkFk uploads {[("uploads", "k1")]} ∅ ∅ [] [] 0.
Definition report : ForkliftUploadDonePayload := {|
  fud_UploadID := AqEx.upload; fud_UserID := 7;
  fud_Meta := Build_UploadMeta 10 "clip.mp4" "7364" "video/mp4" ".mp4" "68" 12 640 480 |}.
End FkEx.

Section witnesses.
Import AqEx FkEx.

(** A completed upload, its task, the run and the report. *)
Lemma pipeline_identity_witness :
  ud_queue (onHook up_env "uploads" true (Completed done_upload) uploads).2 = [TaskUpload payload] ∧
  fk_done (HandleUpload (fenv []) "/tmp" "/blobs" unmarshal task world).2 = [FkEx.report] ∧
  fud_UserID FkEx.report = hook_user (Completed done_upload).
Proof.
  assert (fk_done (HandleUpload (fenv []) "/tmp" "/blobs" unmarshal task world).2 = fk_done world ++ [FkEx.report]) as Hd
    by (vm_compute; reflexivity).
  assert (ud_queue (onHook up_env "uploads" true (Completed done_upload) uploads).2 = ud_queue uploads ++ [TaskUpload payload]) as Hq
    by (vm_compute; reflexivity).
  split; [exact Hq|]. split; [exact Hd|].
  destruct (pipeline_identity (fenv []) (AqEx.env []) "/tmp" "/blobs" unmarshal up_env "uploads" true
    (Completed done_upload) uploads payload task world FkEx.report AqEx.empty Hq eq_refl Hd eq_refl)
    as (e & _ & _ & _ & Hu & _).
  exact Hu.
Defined.

Definition is_error {A} (r : result error A) : bool := match r with RErr _ => true | _ => false end.
Definition first_run := HandleUpload (fenv [5%nat]) "/tmp" "/blobs" unmarshal task world.
Definition second_run := HandleUpload (fenv []) "/tmp" "/blobs" unmarshal task first_run.2.

(** The report cannot be sent: the run ends in an error and is retried, but the
    source has been deleted on the way out, so the retry fails too and no report
    is ever sent. *)
Example failed_report_is_final :
  is_error first_run.1 = true ∧ length (fk_reflected first_run.2) = 1%nat ∧
  bool_decide (("uploads", "k1") ∈ fk_objects first_run.2) = false ∧
  is_error second_run.1 = true ∧ length (fk_done second_run.2) = 0%nat.
Proof. split_and!; vm_compute; reflexivity. Qed.

(** A terminated upload is recorded as completed. *)
Example terminated_is_completed :
  up_Status <$> (ud_uploads (onHook up_env "uploads" true (Terminated done_upload)
    (mkUp {[AqEx.upload := mkUpload 7 "" "" UploadReceiving 10 5 "" null_meta]} ∅ [] 0)).2 !! AqEx.upload)
  = Some UploadCompleted.
Proof. vm_compute. reflexivity. Qed.
End witnesses.
