(* ===== verification/Files.v ===== *)
(** * Paths and files

    What the upload handlers use of [path/filepath] and [os]: joining and
    cleaning paths, and a file system as the set of the regular files in it,
    with [Rename], [Remove] and [RemoveAll].  On the systems the program runs
    on, [filepath] and [path] agree. *)

From S2P Require Import Prelude GoLib Paid Uploads.
From Stdlib Require Import Ascii.

(** [filepath.Join]: empty elements are ignored. *)
Definition filepath_Join (elems : list string) : string :=
  match List.filter (λ e, negb (String.eqb e "")) elems with
  | [] => ""
  | l => path_Clean (Join l "/")
  end.

(** ** Files *)

Definition FS := gset string.

(** [p] is [dir] or lies below it. *)
Definition under (dir p : string) : bool := String.eqb p dir || HasPrefix p (dir +:+ "/").

Definition fs_RemoveAll (dir : string) (fs : FS) : FS := filter (λ p, under dir p = false) fs.

(** [None]: no such file. *)
Definition fs_Rename (src dst : string) (fs : FS) : option FS :=
  if bool_decide (src ∈ fs) then Some ({[dst]} ∪ (fs ∖ {[src]})) else None.

Definition fs_Remove (p : string) (fs : FS) : option FS :=
  if bool_decide (p ∈ fs) then Some (fs ∖ {[p]}) else None.

(** ** Segments *)

Fixpoint no_slash (s : string) : bool :=
  match s with
  | "" => true
  | String a s' => negb (Ascii.eqb a "/") && no_slash s'
  end.

(** A name that [Clean] keeps as it is. *)
Definition plain (s : string) : bool :=
  no_slash s && negb (String.eqb s "") && negb (String.eqb s ".") && negb (String.eqb s "..").

(** A file in a directory. *)
Definition child (d b : string) : string :=
  if String.eqb d "/" then "/" +:+ b else if String.eqb d "." then b else d +:+ "/" +:+ b.

Lemma Split_no_slash s : no_slash s = true → Split s "/" = [s].
Proof.
  induction s as [|a s IH]; [done|]. simpl. intros [Ha%negb_true_iff Hs]%andb_true_iff.
  rewrite Ha, IH by done. done.
Qed.

Lemma Split_app a b : Split (a +:+ "/" +:+ b) "/" = Split a "/" ++ Split b "/".
Proof.
  induction a as [|c a IH]; [done|].
  change (String c a +:+ "/" +:+ b) with (String c (a +:+ "/" +:+ b)). cbn [Split]. rewrite IH.
  destruct (Ascii.eqb c "/"); [done|].
  pose proof (Split_nonempty a "/"). by destruct (Split a "/").
Qed.

Lemma HasPrefix_slash_app d t : d ≠ "" → HasPrefix (d +:+ t) "/" = HasPrefix d "/".
Proof. destruct d as [|a d]; [done|]. simpl. by destruct (d +:+ t), d. Qed.

Lemma plain_kept b : plain b = true → b ≠ "" ∧ b ≠ "." ∧ b ≠ ".." ∧ no_slash b = true.
Proof.
  unfold plain. rewrite !andb_true_iff, !negb_true_iff, !String.eqb_neq. intuition.
Qed.

Lemma cleanParts_snoc rooted kept ps b :
  plain b = true → cleanParts rooted kept (ps ++ [b]) = cleanParts rooted kept ps ++ [b].
Proof.
  intros (H1 & H2 & H3 & _)%plain_kept. revert kept. induction ps as [|p ps IH]; intros kept; simpl.
  - rewrite !bool_decide_eq_false_2 by naive_solver. by rewrite reverse_cons.
  - repeat case_bool_decide; auto. destruct kept; auto. case_bool_decide; auto.
Qed.

Lemma Join_snoc l b : l ≠ [] → Join (l ++ [b]) "/" = Join l "/" +:+ "/" +:+ b.
Proof.
  induction l as [|x [|y l] IH]; intros Hl; [done|done|].
  change ((x :: y :: l) ++ [b]) with (x :: (y :: l) ++ [b]).
  change (Join (x :: (y :: l) ++ [b]) "/") with (x +:+ "/" +:+ Join ((y :: l) ++ [b]) "/").
  rewrite IH by done. change (Join (x :: y :: l) "/") with (x +:+ "/" +:+ Join (y :: l) "/").
  by rewrite <-!app_assoc_str.
Qed.

Lemma Split_elems s : Forall (λ p, no_slash p = true) (Split s "/").
Proof.
  induction s as [|a s IH]; simpl; [by repeat constructor|].
  destruct (Ascii.eqb a "/") eqn:Ha; [by constructor|].
  destruct (Split s "/") as [|w ws]; [constructor; [simpl; by rewrite Ha|done]|].
  inversion_clear IH. constructor; [|done]. simpl. rewrite Ha. done.
Qed.

(** What is left after cleaning: proper segments. *)
Definition segment (p : string) : Prop := p ≠ "" ∧ p ≠ "." ∧ no_slash p = true.

Lemma cleanParts_segments rooted kept ps :
  Forall segment kept → Forall (λ p, no_slash p = true) ps → Forall segment (cleanParts rooted kept ps).
Proof.
  intros Hk Hp. revert kept Hk. induction Hp as [|p ps Hp Hps IH]; intros kept Hk; simpl; [by apply Forall_reverse|].
  case_bool_decide as H1; [by apply IH|]. case_bool_decide as H2.
  - destruct Hk as [|k kept Hx Hk].
    + apply IH. destruct rooted; [constructor|]. by repeat constructor.
    + case_bool_decide; apply IH; [|done]. by repeat constructor; destruct Hx as (? & ? & ?).
  - apply IH. constructor; [|done]. unfold segment. naive_solver.
Qed.

Lemma Join_segments l : Forall segment l → l ≠ [] →
  Join l "/" ≠ "" ∧ Join l "/" ≠ "." ∧ HasPrefix (Join l "/") "/" = false.
Proof.
  intros Hl Hne. destruct Hl as [|x l (H1 & H2 & H3) Hl]; [done|].
  destruct x as [|a x]; [done|]. simpl in H3. apply andb_true_iff in H3 as [Ha%negb_true_iff _].
  rewrite Ascii.eqb_sym in Ha.
  destruct l as [|y l]; cbn [Join HasPrefix String.append]; split_and!; try done.
  - by rewrite Ha.
  - intros [= -> Hx]. by destruct x.
  - match goal with |- HasPrefix (_ +:+ ?t) _ = _ => change (String a x +:+ t) with (String a (x +:+ t)) end.
    cbn [HasPrefix]. by rewrite Ha.
Qed.

(** Appending a plain name to a path gives a file in that directory, whatever the
    directory's path looks like. *)
Lemma path_Clean_child d b : d ≠ "" → plain b = true → path_Clean (d +:+ "/" +:+ b) = child (path_Clean d) b.
Proof.
  intros Hd Hb. unfold path_Clean. rewrite HasPrefix_slash_app by done.
  destruct (plain_kept b Hb) as (Hb1 & Hb2 & Hb3 & Hb4).
  rewrite Split_app, (Split_no_slash b), cleanParts_snoc by done.
  pose proof (cleanParts_segments (HasPrefix d "/") [] (Split d "/") (Forall_nil_2 _) (Split_elems d)) as Hseg.
  destruct (decide (cleanParts (HasPrefix d "/") [] (Split d "/") = [])) as [Hnil|Hnil].
  { rewrite Hnil. destruct (HasPrefix d "/"); [done|]. cbn [List.app Join String.append].
    by rewrite bool_decide_eq_false_2. }
  rewrite Join_snoc by done. destruct (Join_segments _ Hseg Hnil) as (H1 & H2 & H3).
  set (J := Join _ "/") in *. destruct (HasPrefix d "/"); simpl.
  - unfold child. by destruct J.
  - rewrite !bool_decide_eq_false_2; [|done|by destruct J].
    unfold child. change ("" +:+ J) with J. assert (J ≠ "/") as Hs by (intros HJ; rewrite HJ in H3; done).
    by rewrite (proj2 (String.eqb_neq J "/") Hs), (proj2 (String.eqb_neq J ".") H2).
Qed.

(** Joining a directory and a plain name. *)
Lemma filepath_Join_child d b : d ≠ "" → plain b = true → filepath_Join [d; b] = child (path_Clean d) b.
Proof.
  intros Hd Hb. destruct (plain_kept b Hb) as (Hb1 & _). unfold filepath_Join. simpl.
  rewrite (proj2 (String.eqb_neq d "") Hd), (proj2 (String.eqb_neq b "") Hb1). by apply path_Clean_child.
Qed.

(** ** Numbers as names *)

Fixpoint no_sep (s : string) : bool :=
  match s with
  | "" => true
  | String a s' => negb (Ascii.eqb a "/") && negb (Ascii.eqb a ".") && no_sep s'
  end.

Lemma no_sep_plain s : s ≠ "" → no_sep s = true → plain s = true.
Proof.
  intros Hne Hs. unfold plain.
  assert (no_slash s = true) as ->.
  { clear Hne. induction s as [|a s IH]; [done|]. simpl in *. apply andb_true_iff in Hs as [[-> _]%andb_true_iff Hs].
    by rewrite IH. }
  destruct s as [|a s]; [done|]. simpl in *. apply andb_true_iff in Hs as [[_ Hdot%negb_true_iff]%andb_true_iff _].
  rewrite Hdot. done.
Qed.

Lemma pretty_N_char_no_sep n s : no_sep s = true → no_sep (String (pretty_N_char n) s) = true.
Proof.
  intros Hs. simpl. rewrite Hs. unfold pretty_N_char. destruct n as [|p]; [done|].
  do 4 (destruct p as [p|p|]; try done).
Qed.

Lemma pretty_N_go_no_sep n s : no_sep s = true → no_sep (pretty_N_go n s) = true.
Proof.
  revert s. induction (N.lt_wf_0 n) as [n _ IH]; intros s Hs.
  destruct (decide (n = 0)%N) as [->|Hn]; [by rewrite pretty_N_go_0|].
  rewrite pretty_N_go_step by lia. apply IH; [apply N.div_lt; lia|]. by apply pretty_N_char_no_sep.
Qed.

Lemma pretty_N_go_nonempty n s : s ≠ "" → pretty_N_go n s ≠ "".
Proof.
  revert s. induction (N.lt_wf_0 n) as [n _ IH]; intros s Hs.
  destruct (decide (n = 0)%N) as [->|Hn]; [by rewrite pretty_N_go_0|].
  rewrite pretty_N_go_step by lia. apply IH; [apply N.div_lt; lia|done].
Qed.

Lemma pretty_pos_no_sep p : no_sep (pretty (N.pos p)) = true ∧ pretty (N.pos p) ≠ "".
Proof.
  unfold pretty, pretty_N. rewrite decide_False by done. split; [by apply pretty_N_go_no_sep|].
  rewrite pretty_N_go_step by lia. by apply pretty_N_go_nonempty.
Qed.

(** A number makes a plain name. *)
Lemma Itoa_plain z : plain (Itoa z) = true.
Proof.
  unfold Itoa. destruct z as [|p|p]; [done|..]; destruct (pretty_pos_no_sep p) as [H1 H2].
  - by apply no_sep_plain.
  - apply no_sep_plain; [done|]. exact H1.
Qed.

(** ** Cleaning twice *)

(** The stack of kept segments: [..] only below nothing else, and only in a
    relative path. *)
Fixpoint norm (rooted : bool) (kept : list string) : Prop :=
  match kept with
  | [] => True
  | k :: ks => segment k ∧ (k = ".." → rooted = false ∧ Forall (λ x, x = "..") ks) ∧ norm rooted ks
  end.

Lemma norm_suffix r a b : norm r (a ++ b) → norm r b.
Proof. induction a as [|x a IH]; [done|]. intros (_ & _ & H). auto. Qed.

Lemma cleanParts_norm r kept ps :
  norm r kept → Forall (λ p, no_slash p = true) ps → norm r (reverse (cleanParts r kept ps)).
Proof.
  intros Hk Hp. revert kept Hk. induction Hp as [|p ps Hp Hps IH]; intros kept Hk; simpl; [by rewrite reverse_involutive|].
  case_bool_decide as H1; [by apply IH|]. case_bool_decide as H2.
  - destruct kept as [|k kept].
    + apply IH. destruct r; [done|]. simpl. split_and!; [done|by split; [|constructor]|done].
    + destruct Hk as (Hs & Hd & Hk). case_bool_decide as H3; apply IH; [|done].
      destruct (Hd H3) as [-> Hall]. subst k. simpl. split_and!; try done.
      intros _. split; [done|]. by constructor.
  - apply IH. simpl. split_and!; [unfold segment; naive_solver|done|done].
Qed.

Lemma cleanParts_fixed r l kept : norm r (reverse l ++ kept) → cleanParts r kept l = reverse kept ++ l.
Proof.
  revert kept. induction l as [|p l IH]; intros kept Hn; simpl; [by rewrite app_nil_r|].
  rewrite reverse_cons, <-app_assoc in Hn. simpl in Hn.
  pose proof (norm_suffix _ _ _ Hn) as ((Hne & Hdot & _) & Hd & Hk).
  rewrite bool_decide_eq_false_2 by naive_solver. case_bool_decide as Hp.
  - destruct (Hd Hp) as [-> Hall]. destruct Hall as [|k kept -> Hall].
    + subst p. by rewrite IH.
    + rewrite bool_decide_eq_true_2 by done. subst p. rewrite IH by done.
      by rewrite (reverse_cons _ ".."), <-app_assoc.
  - rewrite IH by done. by rewrite reverse_cons, <-app_assoc.
Qed.

Lemma Split_Join l : Forall segment l → l ≠ [] → Split (Join l "/") "/" = l.
Proof.
  intros Hl Hne. induction Hl as [|x l (_ & _ & Hx) Hl IH]; [done|].
  destruct l as [|y l]; [by apply Split_no_slash|].
  change (Join (x :: y :: l) "/") with (x +:+ "/" +:+ Join (y :: l) "/").
  by rewrite Split_app, IH, Split_no_slash by done.
Qed.

Lemma path_Clean_idemp s : path_Clean (path_Clean s) = path_Clean s.
Proof.
  set (r := HasPrefix s "/"). set (l := cleanParts r [] (Split s "/")).
  assert (Forall segment l) as Hseg by by (apply cleanParts_segments; [constructor|apply Split_elems]).
  assert (cleanParts r [] l = l) as Hfix.
  { apply (cleanParts_fixed r l []). rewrite app_nil_r. apply cleanParts_norm; [done|apply Split_elems]. }
  assert (path_Clean s = if bool_decide ((if r then "/" else "") +:+ Join l "/" = "") then "."
    else (if r then "/" else "") +:+ Join l "/") as Hs by done.
  destruct (decide (l = [])) as [Hnil|Hnil].
  { rewrite Hs, Hnil. by destruct r. }
  destruct (Join_segments l Hseg Hnil) as (J1 & J2 & J3). destruct r.
  - assert (path_Clean s = String "/" (Join l "/")) as -> by by rewrite Hs, bool_decide_eq_false_2.
    unfold path_Clean.
    assert (HasPrefix (String "/" (Join l "/")) "/" = true) as -> by (simpl; by destruct (Join l "/")).
    change (Split (String "/" (Join l "/")) "/") with ("" :: Split (Join l "/") "/").
    rewrite Split_Join by done. change (cleanParts true [] ("" :: l)) with (cleanParts true [] l).
    rewrite Hfix. by rewrite bool_decide_eq_false_2.
  - assert (path_Clean s = Join l "/") as -> by by rewrite Hs, bool_decide_eq_false_2.
    unfold path_Clean. rewrite J3, Split_Join, Hfix by done. by rewrite bool_decide_eq_false_2.
Qed.

(** ** The directory of a file *)

Lemma path_Clean_nonempty s : path_Clean s ≠ "".
Proof. unfold path_Clean. by case_bool_decide. Qed.

Lemma dirPart_no_slash b : no_slash b = true → dirPart b = "".
Proof.
  induction b as [|a b IH]; [done|]. simpl. intros [Ha Hb]%andb_true_iff. rewrite IH by done. by rewrite Ha.
Qed.

Lemma dirPart_app x b : no_slash b = true → dirPart (x +:+ "/" +:+ b) = x +:+ "/".
Proof.
  intros Hb. induction x as [|a x IH].
  - change (dirPart ("" +:+ "/" +:+ b)) with (dirPart (String "/" b)). simpl. by rewrite (dirPart_no_slash b Hb).
  - change (String a x +:+ "/" +:+ b) with (String a (x +:+ "/" +:+ b)). cbn [dirPart]. rewrite IH.
    by rewrite bool_decide_eq_false_2 by (by destruct x).
Qed.

Lemma cleanParts_empty r kept ps : cleanParts r kept (ps ++ [""]) = cleanParts r kept ps.
Proof.
  revert kept. induction ps as [|p ps IH]; intros kept; [done|]. simpl.
  repeat case_bool_decide; auto. destruct kept; auto. case_bool_decide; auto.
Qed.

Lemma path_Clean_slash x : x ≠ "" → path_Clean (x +:+ "/") = path_Clean x.
Proof.
  intros Hx. unfold path_Clean. rewrite HasPrefix_slash_app by done.
  change (x +:+ "/") with (x +:+ "/" +:+ ""). rewrite Split_app. simpl (Split "" _). by rewrite cleanParts_empty.
Qed.

Lemma path_Dir_child d b : plain b = true → path_Dir (child (path_Clean d) b) = path_Clean d.
Proof.
  intros (Hb1 & _ & _ & Hb)%plain_kept. pose proof (path_Clean_idemp d) as Hi.
  pose proof (path_Clean_nonempty d) as Hne. set (D := path_Clean d) in *. unfold path_Dir, child.
  destruct (String.eqb D "/") eqn:E1.
  { apply String.eqb_eq in E1. rewrite E1. change ("/" +:+ b) with ("" +:+ "/" +:+ b). by rewrite dirPart_app. }
  destruct (String.eqb D ".") eqn:E2.
  { apply String.eqb_eq in E2. rewrite E2. by rewrite dirPart_no_slash. }
  rewrite dirPart_app by done. by rewrite path_Clean_slash.
Qed.

(** Two names below a directory. *)
Lemma filepath_Join_child2 d a b :
  d ≠ "" → plain a = true → plain b = true → filepath_Join [d; a; b] = child (child (path_Clean d) a) b.
Proof.
  intros Hd Ha Hb. destruct (plain_kept a Ha) as (Ha1 & _), (plain_kept b Hb) as (Hb1 & _).
  unfold filepath_Join. simpl. rewrite (proj2 (String.eqb_neq d "") Hd), (proj2 (String.eqb_neq a "") Ha1),
    (proj2 (String.eqb_neq b "") Hb1). simpl.
  assert (d +:+ "/" +:+ a +:+ "/" +:+ b = (d +:+ "/" +:+ a) +:+ "/" +:+ b) as -> by by rewrite <-!app_assoc_str.
  rewrite path_Clean_child; [|by destruct d|done]. by rewrite path_Clean_child.
Qed.
