(* ===== verification/Locks.v ===== *)
(** * Upload locks

    Models [pkg/redislocker]: a lock of an upload is a mutex in Redis (the
    redsync library, a parameter) and an entry in the process's table of
    holders, whose callback is called when somebody else wants the lock.

    The state is that table, the callbacks called so far and the number of mutex
    operations; an environment answers those.  Metrics are left out. *)

From S2P Require Import Prelude GoLib Rpc Errors.

Local Open Scope Z_scope.

Definition ErrLockTimeout : error := ENamed "handler.ErrLockTimeout" "failed to acquire lock before timeout" false.
Definition ErrFileLocked : error := ENamed "handler.ErrFileLocked" "file currently locked" false.

Definition lockTimeout : Z := 100 * 10 ^ 9.

(** The n-th operation on a Redis mutex: what [LockContext] and [Unlock] return,
    and whether the request's context is done by then. *)
Record LockEnv := {
  le_LockContext : nat → string → option error;
  le_Unlock : nat → string → bool * option error;
  le_done : nat → bool;
}.

(** Callbacks are named by the request that passed them. *)
Record Locker := mkLocker {
  lk_holders : gmap string nat;
  lk_called : list nat;
  lk_tick : nat;
}.

Section locker.
Context (env : LockEnv).

Definition Lock (name : string) (requestRelease : nat) : Go Locker unit :=
  modify (λ s, mkLocker (lk_holders s) (lk_called s ++ option_list (lk_holders s !! name)) (lk_tick s)) ;;!
  let! n := gets lk_tick in
  modify (λ s, mkLocker (lk_holders s) (lk_called s) (S (lk_tick s))) ;;!
  match le_LockContext env n name with
  | Some err =>
      if le_done env n then fail (EWrapf "" ErrLockTimeout (": file " +:+ name +:+ ": " +:+ Error err))
      else fail (EWrapf "" ErrFileLocked (": file " +:+ name +:+ ": " +:+ Error err))
  | None => modify (λ s, mkLocker (<[name := requestRelease]> (lk_holders s)) (lk_called s) (lk_tick s))
  end.

(** A nil error formatted with [%w]. *)
Definition nil_wrapped : string := "%!w(<nil>)".

Definition Unlock (name : string) : Go Locker unit :=
  modify (λ s, mkLocker (delete name (lk_holders s)) (lk_called s) (lk_tick s)) ;;!
  let! n := gets lk_tick in
  modify (λ s, mkLocker (lk_holders s) (lk_called s) (S (lk_tick s))) ;;!
  match le_Unlock env n name with
  | (true, None) => ret tt
  | (_, Some err) => fail (EWrapf ("cannot unlock file " +:+ name +:+ ": ") err "")
  | (false, None) => fail (EText ("cannot unlock file " +:+ name +:+ ": " +:+ nil_wrapped))
  end.

(** A request for the lock asks the holder of that file in this process, once,
    to let go; it takes the holder's place exactly when Redis grants the mutex,
    and otherwise changes nothing and says whether it timed out or lost. *)
Lemma Lock_spec name cb s :
  let '(r, s') := Lock name cb s in
  lk_called s' = lk_called s ++ option_list (lk_holders s !! name) ∧
  match le_LockContext env (lk_tick s) name with
  | None => r = ROk tt ∧ lk_holders s' = <[name := cb]> (lk_holders s)
  | Some _ => lk_holders s' = lk_holders s ∧ ∃ e, r = RErr e ∧
      Is e "handler.ErrLockTimeout" = le_done env (lk_tick s) ∧
      Is e "handler.ErrFileLocked" = negb (le_done env (lk_tick s))
  end.
Proof.
  unfold Lock, bind, modify, gets. simpl.
  destruct (le_LockContext env _ name) as [err|]; [destruct (le_done env _)|]; simpl; eauto 10.
Qed.

(** Releasing forgets the holder even when Redis reports a failure, and is no
    error exactly when Redis released the mutex. *)
Lemma Unlock_spec name s :
  let '(r, s') := Unlock name s in
  lk_holders s' = delete name (lk_holders s) ∧ lk_called s' = lk_called s ∧ (∀ w, r ≠ RPanic w) ∧
  (r = ROk tt ↔ le_Unlock env (lk_tick s) name = (true, None)).
Proof.
  unfold Unlock, bind, modify, gets. simpl.
  destruct (le_Unlock env _ name) as [[] [err|]]; simpl; naive_solver.
Qed.

Lemma Lock_nopanic name cb : nopanic (Lock name cb).
Proof. unfold Lock. go_paths. Qed.
End locker.

(** A mutex that expired while it was held: the second request gets it, and when
    the first releases it, the second's entry is the one that is forgotten, so a
    third request no longer asks the second to let go. *)
Example expired_holder_forgets_successor :
  let env := {| le_LockContext := λ _ _, None; le_Unlock := λ _ _, (false, Some (EText "lock already expired"));
                le_done := λ _, false |} in
  let s1 := (Lock env "u" 1 (mkLocker ∅ [] 0)).2 in
  let s2 := (Lock env "u" 2 s1).2 in
  let s3 := (Unlock env "u" s2).2 in
  lk_holders s2 !! "u" = Some 2%nat ∧ lk_holders s3 !! "u" = None ∧ lk_called (Lock env "u" 3 s3).2 = [1%nat].
Proof. vm_compute. done. Qed.
