(* ===== verification/Geopublish.v ===== *)
(** * The v3 publish handler

    Models [app/geopublish]: the handlers that take over a finished tus upload
    and queue it for publishing ([geopublish.go]) and the tables behind them with
    the listeners for tus events and for results ([db.go]).  The worker that
    processes the queue is in [Carriage.v].

    The tables [uploads] and [publish_queries], the queue of tasks, the list of
    results in Redis, the files and the locks are an explicit state; an
    environment answers everything outside.  Timestamps are written and never
    read, and are left out, like metrics and log lines.

    Parameters: who a request's user is, the tus store, JSON encoding. *)

From S2P Require Import Prelude GoLib Rpc Errors Query Router Http Paid Proxy Asynquery Uploads Files Locks.
From Stdlib Require Import Ascii.

Local Open Scope Z_scope.

(** ** Tables, tasks and results *)

Inductive GUploadStatus :=
  GCreated | GUploading | GReceived | GTerminated | GAbandoned | GFailed | GFinished.
Inductive PublishQueryStatus := PQReceived | PQForwarded | PQFailed | PQSucceeded.

#[export] Instance GUploadStatus_eq_dec : EqDecision GUploadStatus.
Proof. solve_decision. Defined.
#[export] Instance PublishQueryStatus_eq_dec : EqDecision PublishQueryStatus.
Proof. solve_decision. Defined.

Record GUpload := mkGUpload {
  gu_UserID : option Z;
  gu_Path : string;
  gu_Status : GUploadStatus;
  gu_Error : string;
  gu_Size : Z;
  gu_Received : Z;
}.

Record PublishQuery := mkPQ {
  pq_Status : PublishQueryStatus;
  pq_Error : string;
  pq_Query : option string;
  pq_Response : option string;
}.

Record UploadProcessPayload := {
  upp_UploadID : string;
  upp_Path : string;
  upp_UserID : Z;
  upp_Request : RPCRequest;
}.

Record UploadProcessResult := mkResult {
  upr_UploadID : string;
  upr_UserID : Z;
  upr_SDHash : string;
  upr_Response : option RPCResponse;
  upr_Error : string;
  upr_Retry : bool;
}.

Class GeoJSON := {
  marshal_payload : UploadProcessPayload → error + string;
  unmarshal_payload : string → error + UploadProcessPayload;
  marshal_result : UploadProcessResult → error + string;
  unmarshal_result : string → error + UploadProcessResult;
}.

(** [tusd.FileInfo]. *)
Record FileInfo := {
  ti_ID : string;
  ti_Size : Z;
  ti_Offset : Z;
  ti_MetaData : gmap string string;
  ti_Storage : gmap string string;
}.

Definition TypeUploadProcess : string := "upload:process".

(** ** State and environment *)

Record GeoEnv (Req : Type) := {
  ge_fault : nat → option error;                              (* the n-th operation fails *)
  ge_user : nat → Req → option User * option error;           (* UserGetter.FromRequest *)
  ge_info : nat → string → error + FileInfo;                  (* GetUpload and GetInfo *)
  ge_lock : LockEnv;
}.
Arguments ge_fault {Req}. Arguments ge_user {Req}. Arguments ge_info {Req}. Arguments ge_lock {Req}.

Record Geo := mkGeo {
  g_uploads : gmap string GUpload;
  g_queries : gmap string PublishQuery;
  g_tasks : list (string * Task);            (* asynq.TaskID and the task *)
  g_results : list string;
  g_files : FS;
  g_lock : Locker;
  g_tick : nat;
}.

Definition g_next (s : Geo) : Geo :=
  mkGeo (g_uploads s) (g_queries s) (g_tasks s) (g_results s) (g_files s) (g_lock s) (S (g_tick s)).
Definition set_g_uploads (u : gmap string GUpload) (s : Geo) : Geo :=
  mkGeo u (g_queries s) (g_tasks s) (g_results s) (g_files s) (g_lock s) (g_tick s).
Definition set_g_queries (q : gmap string PublishQuery) (s : Geo) : Geo :=
  mkGeo (g_uploads s) q (g_tasks s) (g_results s) (g_files s) (g_lock s) (g_tick s).
Definition set_g_tasks (t : list (string * Task)) (s : Geo) : Geo :=
  mkGeo (g_uploads s) (g_queries s) t (g_results s) (g_files s) (g_lock s) (g_tick s).
Definition set_g_results (r : list string) (s : Geo) : Geo :=
  mkGeo (g_uploads s) (g_queries s) (g_tasks s) r (g_files s) (g_lock s) (g_tick s).
Definition set_g_files (f : FS) (s : Geo) : Geo :=
  mkGeo (g_uploads s) (g_queries s) (g_tasks s) (g_results s) f (g_lock s) (g_tick s).

Definition with_status (u : GUpload) (st : GUploadStatus) : GUpload :=
  mkGUpload (gu_UserID u) (gu_Path u) st (gu_Error u) (gu_Size u) (gu_Received u).

Section geo.
Context {Req : Type} (env : GeoEnv Req) `{!AqJSON, !GeoJSON}.

(** One operation on the outside. *)
Definition geo_op {A} (f : nat → Geo → (error + A) * Geo) : Go Geo A :=
  λ s, match ge_fault env (g_tick s) with
       | Some e => (RErr e, g_next s)
       | None => match f (g_tick s) s with
                 | (inl e, _) => (RErr e, g_next s)
                 | (inr a, s') => (ROk a, g_next s')
                 end
       end.

Definition getUserFromRequest (r : Req) : Go Geo (option User * option error) :=
  λ s, (ROk (ge_user env (g_tick s) r), g_next s).

(** ** [db.go] *)

(** The row, and the query that loads its relation. *)
Definition get (id : string) (userID : Z) : Go Geo GUpload :=
  let! u := geo_op (λ _ s,
    match g_uploads s !! id with
    | Some u => if (0 <? userID) && negb (bool_decide (gu_UserID u = Some userID)) then (inl sql_ErrNoRows, s)
                else (inr u, s)
    | None => (inl sql_ErrNoRows, s)
    end) in
  geo_op (λ _ s, (inr tt, s)) ;;!
  ret u.

Definition getQuery (id : string) : Go Geo PublishQuery :=
  errorf ("cannot get query with id=" +:+ id +:+ ": ")
    (geo_op (λ _ s, match g_queries s !! id with
                    | Some q => (inr q, s)
                    | None => (inl sql_ErrNoRows, s)
                    end)).

(** [u.Update(db, boil.Whitelist(...))]: the listed columns of the row are set. *)
Definition update_row (id : string) (f : GUpload → GUpload) : Go Geo unit :=
  geo_op (λ _ s, (inr tt, set_g_uploads (alter f id (g_uploads s)) s)).

Definition markUploadCreated (info : FileInfo) (user : User) : Go Geo unit :=
  geo_op (λ _ s,
    if String.eqb (ti_ID info) "" || (ti_Size info <=? 0) then (inl constraint_violated, s)
    else match g_uploads s !! ti_ID info with
         | Some _ => (inl duplicate_key, s)
         | None => (inr tt, set_g_uploads
             (<[ti_ID info := mkGUpload (Some (user_ID user)) "" GCreated "" (ti_Size info) 0]> (g_uploads s)) s)
         end).

Definition markUploadProgress (info : FileInfo) (user : User) : Go Geo unit :=
  let! _ := get (ti_ID info) (user_ID user) in
  update_row (ti_ID info) (λ r, mkGUpload (gu_UserID r) (gu_Path r) GUploading (gu_Error r) (gu_Size r) (ti_Offset info)).

Definition markUploadTerminated (info : FileInfo) (user : User) : Go Geo unit :=
  let! _ := get (ti_ID info) (user_ID user) in
  update_row (ti_ID info) (λ r, with_status r GTerminated).

Definition markUploadFailed (id e : string) : Go Geo unit :=
  update_row id (λ r, mkGUpload (gu_UserID r) (gu_Path r) GFailed e (gu_Size r) (gu_Received r)).

Definition g_RemoveAll (p : string) : Go Geo unit :=
  geo_op (λ _ s, (inr tt, set_g_files (fs_RemoveAll p (g_files s)) s)).

(** [path] is the path of the record at hand. *)
Definition markUploadFinished (id path : string) : Go Geo unit :=
  update_row id (λ r, with_status r GFinished) ;;!
  g_RemoveAll path.

(** [up.SetPublishQuery(db, true, uq)]: an insertion; the upload is the primary
    key of the table. *)
Definition SetPublishQuery (id : string) (q : PublishQuery) : Go Geo unit :=
  errorf "failed to insert into foreign table: "
    (geo_op (λ _ s, match g_queries s !! id with
                    | Some _ => (inl duplicate_key, s)
                    | None => (inr tt, set_g_queries (<[id := q]> (g_queries s)) s)
                    end)).

Definition EnqueueUploadProcessTask (p : UploadProcessPayload) : Go Geo unit :=
  let! pb := of_sum (marshal_payload p) in
  geo_op (λ _ s, (inr tt, set_g_tasks
    (g_tasks s ++ [(upp_UploadID p, {| task_Type := TypeUploadProcess; task_Payload := pb |})]) s)).

(** A task that could not be queued. *)
Definition enqueueFailed (id : string) (err : error) : Go Geo unit :=
  if Is err "asynq.ErrDuplicateTask" then fail (Errs "duplicate task") else
  let! d := try (markUploadFailed id (Error err)) in
  match d with
  | inl dbErr => fail (EWrapf "enqueuing failed: " err (" (db update failed as well: " +:+ Error dbErr +:+ ")"))
  | inr _ => fail (EWrapf "enqueuing failed: " err "")
  end.

Definition processUpload (id : string) (user : User) (path : string) (request : RPCRequest) : Go Geo unit :=
  let! up := get id (user_ID user) in
  update_row id (λ r, mkGUpload (gu_UserID r) path GReceived (gu_Error r) (gu_Size r) (gu_Received r)) ;;!
  let! req := of_sum (marshal_request request) in
  SetPublishQuery id (mkPQ PQReceived "" (Some (jsonb req)) None) ;;!
  let! r := try (EnqueueUploadProcessTask
    {| upp_UploadID := id; upp_Path := path; upp_UserID := default 0 (gu_UserID up); upp_Request := request |}) in
  match r with
  | inr _ => ret tt
  | inl err => enqueueFailed id err
  end.

Definition saveUploadProcessingResult (id : string) (rpcRes : option RPCResponse) (callErr : string) : Go Geo unit :=
  let! up := get id 0 in
  match rpcRes with
  | None => markUploadFailed id callErr
  | Some res =>
      let! q := getQuery id in
      let! resp := of_sum (marshal_response res) in
      let st := if bool_decide (resp_Error res ≠ None) || negb (String.eqb callErr "") then PQFailed else PQSucceeded in
      try (markUploadFinished id (gu_Path up)) ;;!
      geo_op (λ _ s, (inr tt, set_g_queries
        (alter (λ _, mkPQ st callErr (jsonb <$> pq_Query q) (Some (jsonb resp))) id (g_queries s)) s))
  end.

(** *** The listeners *)

Inductive GeoEvent :=
| CreatedUploads (r : Req) (info : FileInfo)
| UploadProgress (r : Req) (info : FileInfo)
| TerminatedUploads (r : Req) (info : FileInfo).

Definition guardUser (mf : User → Go Geo unit) (r : Req) : Go Geo unit :=
  let! ue := getUserFromRequest r in
  match ue with
  | (_, Some err) => fail err
  | (Some user, None) => mf user
  | (None, None) => gopanic "nil pointer dereference"
  end.

(** One turn of the loop over tus events; errors are logged. *)
Definition onEvent (e : GeoEvent) : Go Geo unit :=
  try (match e with
       | CreatedUploads r info => guardUser (markUploadCreated info) r
       | UploadProgress r info => guardUser (markUploadProgress info) r
       | TerminatedUploads r info => guardUser (markUploadTerminated info) r
       end) ;;!
  ret tt.

(** [RedisResultBus.Read]: the head of the list; the call blocks while there is
    none. *)
Definition bus_Read : Go Geo (option string) :=
  errorf "message reading error: "
    (geo_op (λ _ s, match g_results s with
                    | [] => (inr None, s)
                    | d :: ds => (inr (Some d), set_g_results ds s)
                    end)).

Definition GetUploadProcessResult : Go Geo (option UploadProcessResult) :=
  let! d := bus_Read in
  match d with
  | None => ret None
  | Some d => let! r := of_sum (unmarshal_result d) in ret (Some r)
  end.

(** One turn of the loop over results; errors are logged. *)
Definition onResult : Go Geo unit :=
  let! r := try GetUploadProcessResult in
  match r with
  | inl _ | inr None => ret tt
  | inr (Some res) =>
      try (saveUploadProcessingResult (upr_UploadID res) (upr_Response res) (upr_Error res)) ;;!
      ret tt
  end.

(** ** [geopublish.go] *)

Definition inLock {A} (c : Go Locker A) : Go Geo A :=
  λ s, let '(r, l) := c (g_lock s) in
       (r, mkGeo (g_uploads s) (g_queries s) (g_tasks s) (g_results s) (g_files s) l (g_tick s)).

Definition lockUpload (id : string) : Go Geo unit :=
  λ s, inLock (Lock (ge_lock env) id (g_tick s)) s.

(** [rpcerrors.Write(w, err)] *)
Definition reply (err : option error) : Writer := WriteBody (CJSON (Write err)) newWriter.

(** A publish of an existing claim becomes an update. *)
Definition asUpdate (rpcReq : RPCRequest) (params : gmap string value) : RPCRequest :=
  match map_get params "claim_id" with
  | VNil => rpcReq
  | _ => set_Params (set_Method rpcReq MethodStreamUpdate) (VMap (<["replace" := VBool true]> (delete "name" params)))
  end.

(** The new place of an upload. *)
Definition dstDir (dir : string) (uid : Z) (id : string) : string := filepath_Join [dir; Itoa uid; id].

Definition Notify_file (user : User) (info : FileInfo) (origUploadName origUploadPath body : string)
  : Go Geo Writer :=
  let dir := path_Dir origUploadPath in
  let dst := dstDir dir (user_ID user) (ti_ID info) in
  let! r := try (geo_op (λ _ s, (inr tt, s))) in
  match r with
  | inl err => ret (reply (Some err))
  | inr _ =>
      let dstFilepath := filepath_Join [dst; origUploadName] in
      let! r := try (geo_op (λ _ s, match fs_Rename origUploadPath dstFilepath (g_files s) with
                                    | Some fs => (inr tt, set_g_files fs s)
                                    | None => (inl (EText "no such file or directory"), s)
                                    end)) in
      match r with
      | inl err => ret (reply (Some err))
      | inr _ =>
          match decode_body body with
          | inl err => ret (reply (Some (NewJSONParseError err)))
          | inr None => gopanic "nil pointer dereference"
          | inr (Some rpcReq) =>
              match as_map (Params rpcReq) with
              | None => ret (reply (Some (NewInvalidParamsError (EText "cannot parse params"))))
              | Some params =>
                  let rpcReq := asUpdate rpcReq params in
                  let infoFile := filepath_Join [dir; ti_ID info] +:+ ".info" in
                  try (geo_op (λ _ s, match fs_Remove infoFile (g_files s) with
                                      | Some fs => (inr tt, set_g_files fs s)
                                      | None => (inl (EText "no such file or directory"), s)
                                      end)) ;;!
                  let! r := try (processUpload (ti_ID info) user dstFilepath rpcReq) in
                  match r with
                  | inl err => ret (reply (Some err))
                  | inr _ => ret (WriteHeader 202 newWriter)
                  end
              end
          end
      end
  end.

(** What happens under the lock. *)
Definition Notify_locked (user : User) (id body : string) : Go Geo Writer :=
  let! info := try (geo_op (λ n s, (ge_info env n id, s))) in
  match info with
  | inl err => ret (reply (Some err))
  | inr info =>
      if negb (ti_Offset info =? ti_Size info) then ret (reply (Some (EText "upload is still in process"))) else
      if bool_decide (ti_MetaData info = ∅) then
        ret (WriteBody (CJSON (ErrorToJSON (Some (EText "file metadata is required")))) newWriter) else
      let origUploadName := default "" (ti_MetaData info !! "filename") in
      if String.eqb origUploadName "" then
        ret (WriteBody (CJSON (ErrorToJSON (Some (EText "file name is required")))) newWriter) else
      let origUploadPath := default "" (ti_Storage info !! "Path") in
      if String.eqb origUploadPath "" then ret (reply None) else
      Notify_file user info origUploadName origUploadPath body
  end.

Definition Notify (r : Req) (id body : string) : Go Geo Writer :=
  let! ue := getUserFromRequest r in
  match GetAuthError ue.1 ue.2, ue.1 with
  | Some authErr, _ => ret (reply (Some authErr))
  | None, None => gopanic "nil pointer dereference"
  | None, Some user =>
      if String.eqb (GetSDKAddress (Some user)) "" then
        ret (reply (Some (Errs "user does not have sdk address assigned"))) else
      if String.eqb id "" then ret (reply (Some (NewInvalidParamsError (EText "file id is required")))) else
      let! l := try (lockUpload id) in
      match l with
      | inl err => ret (reply (Some err))
      | inr _ => deferred (inLock (Unlock (ge_lock env) id)) (Notify_locked user id body)
      end
  end.

Definition Status (r : Req) (id : string) : Go Geo Writer :=
  let w := newWriter in
  if String.eqb id "" then ret (WriteHeader 404 w) else
  let! ue := getUserFromRequest r in
  match ue with
  | (_, Some _) => ret (WriteHeader 403 w)
  | (None, None) => gopanic "nil pointer dereference"
  | (Some user, None) =>
      let! up := try (get id (user_ID user)) in
      match up with
      | inl err => if Is err "sql.ErrNoRows" then ret (WriteHeader 404 w) else ret (reply (Some err))
      | inr _ =>
          let! q := try (geo_op (λ _ s, match g_queries s !! id with
                                        | Some q => (inr q, s)
                                        | None => (inl sql_ErrNoRows, s)
                                        end)) in
          match q with
          | inl err =>
              ret (WriteBody (CJSON (Write (Some (EWrapf "error getting publish query: " err "")))) (WriteHeader 404 w))
          | inr pq =>
              match pq_Status pq with
              | PQSucceeded => ret (WriteBody (CText (default "" (pq_Response pq))) (WriteHeader 200 w))
              | PQFailed =>
                  match pq_Response pq with
                  | None => ret (WriteBody (CText "") w)
                  | Some _ => ret (reply (Some (Errs (sprintf0 Text (pq_Error pq)))))
                  end
              | _ => ret (WriteHeader 202 w)
              end
          end
      end
  end.

(** [preCreateHook]: whether an upload may begin. *)
Definition preCreateHook (r : Req) : Go Geo (option error) :=
  let! ue := getUserFromRequest r in
  ret ue.2.
End geo.
Arguments GeoEvent : clear implicits.
Arguments CreatedUploads {Req}. Arguments UploadProgress {Req}. Arguments TerminatedUploads {Req}.
