(* ===== verification/Carriage.v ===== *)
(** * The worker of the v3 publish handler

    Models [app/geopublish/forklift/carriage.go]: a task names a file, which is
    analysed, split into blobs and sent to the reflector before the publish
    request is sent to the user's SDK; the result goes back over a list in Redis
    ([forklift.go]).

    The state is that of [Geopublish.v] with the world of the SDK caller.
    Parameters: the analysis, the split into blobs, the reflector, and the users
    table, each answering by an arbitrary function of the step. *)

From S2P Require Import Prelude GoLib Rpc Errors Query Router Iapi Services Http Hashes Paid Caller Access Cache Call.
From S2P Require Import Asynquery Uploads Forklift Files Locks Geopublish.

Local Open Scope Z_scope.

Definition ErrUpload : error := ENamed "forklift.ErrUpload" "several errors detected uploading blobs" false.

Record CarriageEnv := {
  ce_fault : nat → option error;                          (* writing the result, removing blobs *)
  ce_analyze : nat → option StreamInfo * option error;
  ce_split : nat → error + StreamSource;
  ce_upload : nat → error + Z;                            (* the summary's error count *)
  ce_user : nat → Z → error + option string;              (* the address of the user's SDK *)
}.

Definition set_Error (r : UploadProcessResult) (e : string) : UploadProcessResult :=
  mkResult (upr_UploadID r) (upr_UserID r) (upr_SDHash r) (upr_Response r) e (upr_Retry r).
Definition set_Retry (r : UploadProcessResult) : UploadProcessResult :=
  mkResult (upr_UploadID r) (upr_UserID r) (upr_SDHash r) (upr_Response r) (upr_Error r) true.
Definition set_Response (r : UploadProcessResult) (res : RPCResponse) : UploadProcessResult :=
  mkResult (upr_UploadID r) (upr_UserID r) (upr_SDHash r) (Some res) (upr_Error r) (upr_Retry r).

(** The fields of the request that describe the file. *)
Definition carriagePatch (fileName : string) (info : StreamInfo) (src : StreamSource) : gmap string value :=
  let patch := <["file_size" := VInt (ss_Size src)]> (<["file_name" := VStr fileName]>
               (<["file_hash" := VStr (hex_encode (ss_Hash src))]>
               (<["sd_hash" := VStr (hex_encode (ss_SdHash src))]> ∅))) in
  match si_MediaInfo info with
  | Some (duration, width, height) =>
      <["duration" := VInt duration]> (<["height" := VInt height]> (<["width" := VInt width]> patch))
  | None => patch
  end.

(** The publish request as it is sent. *)
Definition carriageRequest (req : RPCRequest) (pp patch : gmap string value) : RPCRequest :=
  set_Params req (VMap (delete "file_path" (patch ∪ pp))).

(** [RetryDelay], in nanoseconds. *)
Definition ca_RetryDelay (n : Z) (err : error) : Z :=
  if Is err "forklift.ErrUpload" then n * (60 * 10 ^ 9) else 10 * 10 ^ 9.

Section carriage.
Context `{!GeoJSON} {W : Type} `{!Ljsonrpc, !MapOrder, !SDKClient W, !WalletService W, !Random W, !Monitor W,
  !Arweave W, !IAPITransport W, !IAPIDecoders, !Clock W, !ECDSA, !PaidTokens W,
  !ClaimDecoder, !URLParser, !SearchDecoder, !JSONMarshal, !CacheStore W}.
Context (cfg : Config) (env : CarriageEnv) (blobsPath : string).

(** A question to the outside, and an operation that may fail. *)
Definition ask {A} (f : nat → A) : Go (Geo * W) A := on_fst (λ s, (ROk (f (g_tick s)), g_next s)).

Definition ca_op (f : Geo → Geo) : Go (Geo * W) unit :=
  on_fst (λ s, match ce_fault env (g_tick s) with
               | Some e => (RErr e, g_next s)
               | None => (ROk tt, g_next (f s))
               end).

Definition resultWriter_Write (data : string) : Go (Geo * W) unit :=
  ca_op (λ s, set_g_results (g_results s ++ [data]) s).

Definition ca_RemoveAll (p : string) : Go (Geo * W) unit :=
  ca_op (λ s, set_g_files (fs_RemoveAll p (g_files s)) s).

(** The result and the error of [Process], once the blobs are made. *)
Definition Process_blobs (p : UploadProcessPayload) (r : UploadProcessResult) (fileName : string)
    (info : StreamInfo) (src : StreamSource) : Go (Geo * W) (UploadProcessResult * option error) :=
  let! summary := ask (ce_upload env) in
  match summary with
  | inl err => ret (r, Some err)
  | inr errs =>
      if 0 <? errs then ret (set_Retry r, Some (EWrapf "" ErrUpload (" (" +:+ Itoa errs +:+ ")"))) else
      let! u := ask (λ n, ce_user env n (upp_UserID p)) in
      match u with
      | inl err =>
          ret (r, Some (EWrapf ("error getting sdk address for user " +:+ Itoa (upp_UserID p) +:+ ": ") err ""))
      | inr None => gopanic "nil pointer dereference"
      | inr (Some address) =>
          let caller := NewCaller cfg address (upp_UserID p) in
          let fileName := if String.eqb (path_Ext fileName) "" then fileName +:+ si_Extension info else fileName in
          match as_map (Params (upp_Request p)) with
          | None => gopanic "interface conversion"
          | Some pp =>
              let req := carriageRequest (upp_Request p) pp (carriagePatch fileName info src) in
              let! res := try (on_snd (run_caller caller (Caller_Call cfg None req))) in
              match res with
              | inl err => ret (set_Retry r, Some (EWrapf "error calling sdk: " err ""))
              | inr res =>
                  let r := set_Response r res in
                  match resp_Error res with
                  | Some e => ret (r, Some (EText ("sdk returned an error: " +:+ Message e)))
                  | None => ret (r, None)
                  end
              end
          end
      end
  end.

Definition Process (p : UploadProcessPayload) : Go (Geo * W) (UploadProcessResult * option error) :=
  let r := mkResult (upp_UploadID p) (upp_UserID p) "" None "" false in
  let! a := ask (ce_analyze env) in
  match a with
  | (None, Some err) => ret (r, Some (EWrapf "error analyzing file: " err ""))
  | (None, None) => ret (r, Some (EText ("error analyzing file: " +:+ nil_wrapped)))
  | (Some info, _) =>
      let blobPath := path_Join blobsPath (upp_UploadID p) in
      let fileName := path_Base (upp_Path p) in
      let! s := ask (ce_split env) in
      match s with
      | inl err => ret (r, Some (EWrapf "error splitting file: " err ""))
      | inr src =>
          on_fst (modify (λ s, set_g_files ({[blobPath]} ∪ g_files s) s)) ;;!
          let r := mkResult (upr_UploadID r) (upr_UserID r) (hex_encode (ss_SdHash src)) (upr_Response r)
                     (upr_Error r) (upr_Retry r) in
          deferred (ca_RemoveAll blobPath) (Process_blobs p r fileName info src)
      end
  end.

Definition ProcessTask (t : Task) : Go (Geo * W) unit :=
  if negb (String.eqb (task_Type t) TypeUploadProcess) then fail (EText ("cannot handle " +:+ task_Type t)) else
  match unmarshal_payload (task_Payload t) with
  | inl err => fail (EWrapf ("json.Unmarshal failed: " +:+ Error err +:+ ": ") asynq_SkipRetry "")
  | inr p =>
      let! re := Process p in
      let r := match re.2 with Some err => set_Error re.1 (Error err) | None => re.1 end in
      match marshal_result r with
      | inl err =>
          fail (EWrapf ("error serializing processing result: " +:+ Error err +:+ " (") asynq_SkipRetry ")")
      | inr br =>
          if negb (String.eqb (upr_Error r) "") then
            let perr := "upload processing failed: " +:+ upr_Error r in
            if upr_Retry r then fail (EText perr) else
            let! w := try (resultWriter_Write br) in
            let perr := match w with
                        | inl err => perr +:+ " (also error writing result: " +:+ Error err +:+ ")"
                        | inr _ => perr
                        end in
            fail (EWrapf (perr +:+ " (") asynq_SkipRetry ")")
          else errorf "error writing result: " (resultWriter_Write br)
      end
  end.
End carriage.
