(* ===== verification/GeopublishSpec.v ===== *)
(** * Properties of the v3 publish handler

    What [Notify] and the result listener do to the tables; the invariant of the
    whole system of handlers, listeners and workers over every order of steps and
    every failure; what the status endpoint answers. *)

From S2P Require Import Prelude GoLib Rpc Errors Query Router Iapi Services Http Hashes Paid Caller Access Cache Call CallSpec.
From S2P Require Import Proxy Asynquery AsynquerySpec Uploads Forklift Files Locks Geopublish Carriage.

Local Open Scope Z_scope.

(** ** Outcomes of single operations *)

Section rules.
Context {Req : Type} (env : GeoEnv Req).

Lemma wp_geo_op {A} (f : nat → Geo → (error + A) * Geo) Q s :
  (∀ e, Q (RErr e) (g_next s)) →
  (∀ a s', f (g_tick s) s = (inr a, s') → Q (ROk a) (g_next s')) →
  wp (geo_op env f) Q s.
Proof.
  intros He Ha. unfold wp, geo_op. destruct (ge_fault env (g_tick s)); [apply He|].
  destruct (f _ s) as [[e|a] s'] eqn:E; [apply He|by apply Ha].
Qed.

Lemma wp_errorf {S A} pre (c : Go S A) Q s :
  wp c (λ r s', match r with
                | ROk a => Q (ROk a) s'
                | RErr e => Q (RErr (EWrapf pre e "")) s'
                | RPanic w => Q (RPanic w) s'
                end) s → wp (errorf pre c) Q s.
Proof. unfold wp, errorf, bind, try. by destruct (c s) as [[] s']. Qed.

Lemma wp_of_sum {S A} (x : error + A) (Q : result error A → S → Prop) s :
  match x with inl e => Q (RErr e) s | inr a => Q (ROk a) s end → wp (of_sum x) Q s.
Proof. by destruct x. Qed.

(** Equal but for the number of operations. *)
Definition same (s s' : Geo) : Prop :=
  g_uploads s' = g_uploads s ∧ g_queries s' = g_queries s ∧ g_tasks s' = g_tasks s ∧
  g_results s' = g_results s ∧ g_files s' = g_files s ∧ g_lock s' = g_lock s.

Lemma same_next s : same s (g_next s).
Proof. done. Qed.

Lemma wp_get id uid Q s :
  (∀ e s', same s s' → Q (RErr e) s') →
  (∀ u s', same s s' → g_uploads s !! id = Some u → (0 < uid → gu_UserID u = Some uid) → Q (ROk u) s') →
  wp (get env id uid) Q s.
Proof.
  intros He Hu. unfold get. go_wp. apply wp_geo_op; [intros e; by apply He|]. intros u s1 H1.
  assert (s1 = s ∧ g_uploads s !! id = Some u ∧ (0 < uid → gu_UserID u = Some uid)) as (-> & Hl & Ho).
  { destruct (g_uploads s !! id) as [v|]; [|done].
    destruct ((0 <? uid) && _) eqn:E; [done|]. injection H1 as <- <-. split_and!; [done..|].
    intros Hpos%Z.ltb_lt. rewrite Hpos in E. by apply negb_false_iff, bool_decide_eq_true in E. }
  go_wp. apply wp_geo_op; [intros e; by apply He|]. intros a s2 [= <- <-]. go_wp. by apply Hu.
Qed.

Lemma wp_update_row id f Q s :
  (∀ e, Q (RErr e) (g_next s)) →
  Q (ROk tt) (g_next (set_g_uploads (alter f id (g_uploads s)) s)) →
  wp (update_row env id f) Q s.
Proof. intros He Hok. apply wp_geo_op; [done|]. by intros a s' [= <- <-]. Qed.
End rules.

(** ** The invariant of the tables *)

(** The row of an upload keeps its owner and size. *)
Definition row_kept (u u' : GUpload) : Prop := gu_UserID u' = gu_UserID u ∧ gu_Size u' = gu_Size u.

(** A step that adds no task. *)
Definition quiet (s s' : Geo) : Prop :=
  g_tasks s' = g_tasks s ∧
  (∀ id u, g_uploads s !! id = Some u → ∃ u', g_uploads s' !! id = Some u' ∧ row_kept u u') ∧
  (∀ id u', g_uploads s' !! id = Some u' →
     is_Some (gu_UserID u') ∨ ∃ u, g_uploads s !! id = Some u ∧ row_kept u u') ∧
  (∀ id, is_Some (g_queries s !! id) → is_Some (g_queries s' !! id)).

Lemma quiet_tables s s' :
  g_tasks s' = g_tasks s → g_uploads s' = g_uploads s → g_queries s' = g_queries s → quiet s s'.
Proof.
  intros Ht Hu Hq. unfold quiet. rewrite Ht, Hu, Hq. split_and!; [done| | |done].
  - intros id u H. by exists u.
  - intros id u H. right. by exists u.
Qed.

#[export] Instance quiet_preorder : PreOrder quiet.
Proof.
  split.
  - intros s. by apply quiet_tables.
  - intros s1 s2 s3 (Ht & Hu & Hn & Hq) (Ht' & Hu' & Hn' & Hq'). split_and!.
    + congruence.
    + intros id u H1. destruct (Hu id u H1) as (u2 & H2 & Hk2). destruct (Hu' id u2 H2) as (u3 & H3 & Hk3).
      exists u3. split; [done|]. destruct Hk2, Hk3. split; congruence.
    + intros id u3 H3. destruct (Hn' id u3 H3) as [?|(u2 & H2 & Hk3)]; [by left|].
      destruct (Hn id u2 H2) as [Ho|(u & H1 & Hk2)].
      * left. by rewrite (proj1 Hk3).
      * right. exists u. split; [done|]. destruct Hk2, Hk3. split; congruence.
    + auto.
Qed.

Lemma quiet_same s s' : same s s' → quiet s s'.
Proof. intros (? & ? & ? & _). by apply quiet_tables. Qed.

Lemma quiet_alter f id s :
  (∀ u, row_kept u (f u)) → quiet s (g_next (set_g_uploads (alter f id (g_uploads s)) s)).
Proof.
  intros Hf. split_and!; [done| | |done]; simpl; intros id' u.
  - destruct (decide (id' = id)) as [->|Hne]; intros Hu.
    + rewrite lookup_alter_eq, Hu. simpl. eauto.
    + rewrite lookup_alter_ne by done. by exists u.
  - destruct (decide (id' = id)) as [->|Hne].
    + rewrite lookup_alter_eq. destruct (g_uploads s !! id) as [v|]; intros [= <-]. eauto.
    + rewrite lookup_alter_ne by done. intros Hu. right. by exists u.
Qed.

Section invariant.
Context `{!AqJSON, !GeoJSON}.

(** A task stands for the upload it is named after, which has a query, and acts
    for the owner of that upload; no two tasks stand for one upload. *)
Definition task_owned (s : Geo) (it : string * Task) : Prop :=
  task_Type it.2 = TypeUploadProcess ∧ is_Some (g_queries s !! it.1) ∧
  ∃ p u, unmarshal_payload (task_Payload it.2) = inr p ∧ upp_UploadID p = it.1 ∧
    g_uploads s !! it.1 = Some u ∧ gu_UserID u = Some (upp_UserID p).

Definition geo_inv (s : Geo) : Prop :=
  (∀ id u, g_uploads s !! id = Some u → is_Some (gu_UserID u)) ∧
  NoDup (g_tasks s).*1 ∧ Forall (task_owned s) (g_tasks s).

Lemma task_owned_quiet s s' it : quiet s s' → task_owned s it → task_owned s' it.
Proof.
  intros (_ & Hu & _ & Hq) (Ht & Hsome & p & u & Hp & Hid & Hl & Ho).
  destruct (Hu _ _ Hl) as (u' & Hl' & Hk & _). unfold task_owned. split_and!; [done|by apply Hq|].
  exists p, u'. split_and!; [done..|]. congruence.
Qed.

Lemma geo_inv_quiet s s' : quiet s s' → geo_inv s → geo_inv s'.
Proof.
  intros Hq (Hown & Hnd & Hall). pose proof Hq as (Ht & _ & Hn & _). split_and!.
  - intros id u Hu. destruct (Hn id u Hu) as [?|(v & Hv & Hk & _)]; [done|]. rewrite Hk. eauto.
  - by rewrite Ht.
  - rewrite Ht. eapply Forall_impl; [exact Hall|]. intros it. by apply task_owned_quiet.
Qed.

(** JSON keeps the identity of a task. *)
Class PayloadIdentity : Prop := payload_identity : ∀ p b, marshal_payload p = inr b →
  ∃ p', unmarshal_payload b = inr p' ∧ upp_UploadID p' = upp_UploadID p ∧ upp_UserID p' = upp_UserID p.

Definition keeps (s s' : Geo) : Prop := geo_inv s → geo_inv s'.
#[export] Instance keeps_preorder : PreOrder keeps.
Proof. split; [by intros s Hs|]. intros s1 s2 s3 H12 H23 Hs. by apply H23, H12. Qed.

Lemma keeps_quiet {A} (c : Go Geo A) : extends quiet c → extends keeps c.
Proof. intros Hc s. unfold keeps. by apply geo_inv_quiet. Qed.

Context {Req : Type} (env : GeoEnv Req).

Lemma quiet_op {A} (f : nat → Geo → (error + A) * Geo) :
  (∀ n s a s', f n s = (inr a, s') → quiet s (g_next s')) → extends quiet (geo_op env f).
Proof.
  intros Hf s. unfold geo_op. destruct (ge_fault env (g_tick s)); [by apply quiet_tables|].
  destruct (f _ s) as [[e|a] s'] eqn:E; [by apply quiet_tables|]. by eapply Hf.
Qed.

Lemma quiet_row id f : (∀ u, row_kept u (f u)) → extends quiet (update_row env id f).
Proof. intros Hf. apply quiet_op. intros n s a s' [= <- <-]. by apply quiet_alter. Qed.

Lemma quiet_query {A} (f : nat → Geo → (error + A) * Geo) :
  (∀ n s a s', f n s = (inr a, s') → ∃ m, s' = set_g_queries m s ∧
     ∀ id, is_Some (g_queries s !! id) → is_Some (m !! id)) →
  extends quiet (geo_op env f).
Proof.
  intros Hf. apply quiet_op. intros n s a s' (m & -> & Hm)%Hf.
  split_and!; [done| | |exact Hm]; simpl; intros id u Hu; [by exists u|right; by exists u].
Qed.

(** An operation that leaves the tables and the tasks alone. *)
Lemma quiet_other {A} (f : nat → Geo → (error + A) * Geo) :
  (∀ n s a s', f n s = (inr a, s') →
     g_tasks s' = g_tasks s ∧ g_uploads s' = g_uploads s ∧ g_queries s' = g_queries s) →
  extends quiet (geo_op env f).
Proof. intros Hf. apply quiet_op. intros n s a s' (? & ? & ?)%Hf. by apply quiet_tables. Qed.

Lemma quiet_errorf {A} pre (c : Go Geo A) : extends quiet c → extends quiet (errorf pre c).
Proof. intros Hc. unfold errorf. go_paths. Qed.
Lemma quiet_of_sum {A} (x : error + A) : extends quiet (of_sum x : Go Geo A).
Proof. destruct x; simpl; go_paths. Qed.
Lemma quiet_user r : extends quiet (getUserFromRequest env r).
Proof. intros s. by apply quiet_tables. Qed.
Lemma quiet_inLock {A} (c : Go Locker A) : extends quiet (inLock c).
Proof. intros s. unfold inLock. destruct (c _). by apply quiet_tables. Qed.
#[local] Hint Resolve quiet_errorf quiet_of_sum quiet_user quiet_inLock quiet_row : go.

Lemma quiet_get id uid : extends quiet (get env id uid).
Proof.
  unfold get. go_paths; apply quiet_other; intros n s a s'; [|by intros [= _ <-]].
  destruct (g_uploads s !! id); [destruct (_ && _)|]; by intros [= _ <-].
Qed.
Lemma quiet_getQuery id : extends quiet (getQuery env id).
Proof.
  apply quiet_errorf, quiet_other. intros n s a s'. by destruct (g_queries s !! id); intros [= _ <-].
Qed.
Lemma quiet_RemoveAll p : extends quiet (g_RemoveAll env p).
Proof. apply quiet_other. by intros n s a s' [= _ <-]. Qed.
#[local] Hint Resolve quiet_get quiet_getQuery quiet_RemoveAll : go.

Lemma quiet_failed id e : extends quiet (markUploadFailed env id e).
Proof. apply quiet_row. done. Qed.
Lemma quiet_finished id p : extends quiet (markUploadFinished env id p).
Proof. unfold markUploadFinished. go_paths. by apply quiet_row. Qed.
#[local] Hint Resolve quiet_failed quiet_finished : go.

Lemma quiet_created info u : extends quiet (markUploadCreated env info u).
Proof.
  apply quiet_op. intros n s a s'. destruct (_ || _); [done|].
  destruct (g_uploads s !! ti_ID info) eqn:Hn; intros [= _ <-].
  split_and!; [done| | |done]; simpl; intros id v.
  - intros Hv. rewrite lookup_insert_ne by congruence. by exists v.
  - intros [[<- <-]|[Hne Hv]]%lookup_insert_Some; [left; eauto|right; by exists v].
Qed.
Lemma quiet_SetPublishQuery id q : extends quiet (SetPublishQuery env id q).
Proof.
  apply quiet_errorf, quiet_query. intros n s a s'. destruct (g_queries s !! id); intros [= _ <-].
  eexists. split; [done|]. intros id' [v Hv]. apply lookup_insert_is_Some. by destruct (decide (id = id')); eauto.
Qed.
Lemma quiet_saveResult id res e : extends quiet (saveUploadProcessingResult env id res e).
Proof.
  unfold saveUploadProcessingResult. go_paths. apply quiet_query. intros n s a s' [= _ <-].
  eexists. split; [done|]. intros id' Hs. by rewrite lookup_alter_is_Some.
Qed.
#[local] Hint Resolve quiet_created quiet_SetPublishQuery quiet_saveResult : go.

Lemma quiet_onEvent e : extends quiet (onEvent env e).
Proof.
  unfold onEvent, guardUser, markUploadProgress, markUploadTerminated. go_paths; by apply quiet_row.
Qed.
Lemma quiet_onResult : extends quiet (onResult env).
Proof.
  unfold onResult, GetUploadProcessResult, bus_Read. go_paths. apply quiet_errorf, quiet_other.
  intros n s a s'. by destruct (g_results s); intros [= _ <-].
Qed.

(** What a run of [processUpload] comes to: an error without a task, or the row
    taken over, the query recorded and one task for the owner. *)
Definition taken_over (id path : string) (request : RPCRequest) (uid : Z) (s s' : Geo) : Prop :=
  ∃ u j pb, g_uploads s !! id = Some u ∧ (0 < uid → gu_UserID u = Some uid) ∧ g_queries s !! id = None ∧
    marshal_request request = inr j ∧
    marshal_payload {| upp_UploadID := id; upp_Path := path; upp_UserID := default 0 (gu_UserID u);
                       upp_Request := request |} = inr pb ∧
    g_uploads s' = <[id := mkGUpload (gu_UserID u) path GReceived (gu_Error u) (gu_Size u) (gu_Received u)]>
                     (g_uploads s) ∧
    g_queries s' = <[id := mkPQ PQReceived "" (Some (jsonb j)) None]> (g_queries s) ∧
    g_tasks s' = g_tasks s ++ [(id, {| task_Type := TypeUploadProcess; task_Payload := pb |})].

Lemma enqueueFailed_outcome id e s :
  wp (enqueueFailed env id e) (λ r s',
    g_files s' = g_files s ∧ g_results s' = g_results s ∧ g_lock s' = g_lock s ∧ quiet s s' ∧ ∃ e', r = RErr e') s.
Proof.
  unfold enqueueFailed, markUploadFailed. go_wp; [split_and!; [done..|by apply quiet_tables|eauto]|].
  apply wp_update_row; cbv beta iota; intros; go_wp; split_and!; eauto; [by apply quiet_tables|by apply quiet_alter].
Qed.

Lemma processUpload_outcome id user path request s :
  wp (processUpload env id user path request) (λ r s',
    g_files s' = g_files s ∧ g_results s' = g_results s ∧ g_lock s' = g_lock s ∧
    match r with
    | ROk _ => taken_over id path request (user_ID user) s s'
    | RErr _ => quiet s s'
    | RPanic _ => False
    end) s.
Proof.
  unfold processUpload. go_wp. apply wp_get; cbv beta iota.
  { intros e s' Hs. split_and!; [apply Hs..|by apply quiet_same]. }
  intros u s1 Hs1 Hu Ho. go_wp. apply wp_update_row; cbv beta iota.
  { intros e. split_and!; [apply Hs1..|]. etrans; [by apply quiet_same|by apply quiet_tables]. }
  set (upd := λ r, mkGUpload _ _ _ _ _ _). set (s2 := g_next _).
  assert (quiet s s2) as Hq2.
  { etrans; [by apply quiet_same|]. by apply quiet_alter. }
  assert (g_files s2 = g_files s ∧ g_results s2 = g_results s ∧ g_lock s2 = g_lock s) as Hrest
    by (split_and!; apply Hs1).
  go_wp. apply wp_of_sum. destruct (marshal_request request) as [e|j] eqn:Hj; [by split_and!; try apply Hrest|].
  go_wp. unfold SetPublishQuery. apply wp_errorf, wp_geo_op; cbv beta iota.
  { intros e. split_and!; try apply Hrest. etrans; [exact Hq2|by apply quiet_tables]. }
  intros a s3 H3. simpl in H3. destruct (g_queries s1 !! id) eqn:Hn; [done|]. injection H3 as <- <-.
  set (s3 := g_next (set_g_queries _ s2)).
  assert (quiet s s3) as Hq3.
  { etrans; [exact Hq2|]. split_and!; [done| | |]; simpl; [intros i v Hv; by exists v|intros i v Hv; right; by exists v|].
    intros i [v Hv]. apply lookup_insert_is_Some. by destruct (decide (id = i)); eauto. }
  assert (∀ s4, same s3 s4 → g_files s4 = g_files s ∧ g_results s4 = g_results s ∧ g_lock s4 = g_lock s ∧ quiet s s4)
    as Hend.
  { intros s4 (? & ? & ? & ? & ? & ?). destruct Hrest as (? & ? & ?). split_and!; [etrans; eassumption..|].
    etrans; [exact Hq3|by apply quiet_tables]. }
  assert (∀ e s4, same s3 s4 → wp (enqueueFailed env id e) (λ r s',
    g_files s' = g_files s ∧ g_results s' = g_results s ∧ g_lock s' = g_lock s ∧
    match r with
    | ROk _ => taken_over id path request (user_ID user) s s'
    | RErr _ => quiet s s'
    | RPanic _ => False
    end) s4) as Herr.
  { intros e s4 (H1 & H2 & H3 & H4)%Hend. eapply wp_mono; [apply enqueueFailed_outcome|]. cbv beta.
    intros r s' (? & ? & ? & Hq & e' & ->). split_and!; [congruence..|]. by etrans. }
  go_wp. unfold EnqueueUploadProcessTask. go_wp. apply wp_of_sum.
  destruct (marshal_payload _) as [e|pb] eqn:Hpb; [by apply Herr|].
  go_wp. apply wp_geo_op; cbv beta iota; [intros e; by apply Herr|].
  intros a s4 [= <- <-]. destruct Hs1 as (E1 & E2 & E3 & E4 & E5 & E6). go_wp. split_and!; [done..|].
  exists u, j, pb. rewrite <-E2. split_and!; try done; simpl; rewrite ?E1, ?E2, ?E3; try done.
  apply map_eq. intros i. destruct (decide (i = id)) as [->|Hne].
  - by rewrite lookup_alter_eq, lookup_insert_eq, Hu.
  - by rewrite lookup_alter_ne, lookup_insert_ne by done.
Qed.
Lemma taken_over_inv `{!PayloadIdentity} id path request uid s s' :
  taken_over id path request uid s s' → geo_inv s → geo_inv s'.
Proof.
  intros (u & j & pb & Hu & _ & Hn & _ & Hpb & Eu & Eq & Et) (Hown & Hnd & Hall).
  destruct (Hown id u Hu) as [owner Ho]. rewrite Ho in Hpb. simpl in Hpb.
  destruct (payload_identity _ _ Hpb) as (p & Hp & Hpid & Hpuid).
  assert (id ∉ (g_tasks s).*1) as Hnew.
  { intros ([id' t] & -> & Hin)%list_elem_of_fmap. rewrite Forall_forall in Hall.
    destruct (Hall _ Hin) as (_ & [q Hq] & _). simpl in *. congruence. }
  unfold geo_inv. rewrite Et, fmap_app, Forall_app. split_and!.
  - intros i v. rewrite Eu, lookup_insert_Some. intros [[<- <-]|[_ Hv]]; [by rewrite Ho|eauto].
  - apply NoDup_app. split_and!; [done| |apply NoDup_singleton]. intros x Hx. simpl.
    rewrite list_elem_of_singleton. by intros ->.
  - eapply Forall_impl; [exact Hall|]. intros [i t] (Ht & Hq & p' & v & Hp' & Hi & Hv & Hov).
    split_and!; [done| |]; simpl in *; rewrite ?Eu, ?Eq; [apply lookup_insert_is_Some; by destruct (decide (id = i)); eauto|].
    destruct (decide (i = id)) as [->|Hne].
    + rewrite lookup_insert_eq. eexists _, _. split_and!; [done..|]. simpl. congruence.
    + rewrite lookup_insert_ne by done. eauto 10.
  - apply Forall_singleton. split_and!; [done|rewrite Eq; simpl; rewrite lookup_insert_eq; eauto|].
    simpl. rewrite Eu, lookup_insert_eq. eexists _, _. split_and!; [done..|]. simpl in *. congruence.
Qed.

Lemma keeps_processUpload `{!PayloadIdentity} id user path request :
  extends keeps (processUpload env id user path request).
Proof.
  intros s Hinv. pose proof (processUpload_outcome id user path request s) as Hp. unfold wp in Hp.
  destruct (processUpload _ _ _ _ _ s) as [[] s']; destruct Hp as (_ & _ & _ & Hp); simpl in *;
    [|by eapply geo_inv_quiet|done].
  by eapply taken_over_inv.
Qed.

(** *** [Notify] *)

Definition dst_of (user : User) (info : FileInfo) (name path : string) : string :=
  filepath_Join [dstDir (path_Dir path) (user_ID user) (ti_ID info); name].

(** The upload file is at its new place; the tus info file is removed if that
    did not fail. *)
Definition moved (user : User) (info : FileInfo) (name path : string) (fs fs' : FS) : Prop :=
  ∃ fs1, fs_Rename path (dst_of user info name path) fs = Some fs1 ∧
    (fs' = fs1 ∨ fs' = fs1 ∖ {[filepath_Join [path_Dir path; ti_ID info] +:+ ".info"]}).

Definition accepted_file (user : User) (info : FileInfo) (name path body : string) (s s' : Geo) : Prop :=
  ∃ req params, decode_body body = inr (Some req) ∧ as_map (Params req) = Some params ∧
    taken_over (ti_ID info) (dst_of user info name path) (asUpdate req params) (user_ID user) s s' ∧
    moved user info name path (g_files s) (g_files s').

(** An answer and what it stands for: accepted with [P], or an error object with
    no task queued, or, under the condition [N], a panic with no task queued
    either. *)
Definition answered (N : Prop) (P : Geo → Prop) (s : Geo) (r : result error Writer) (s' : Geo) : Prop :=
  match r with
  | ROk w => (w = WriteHeader 202 newWriter ∧ P s') ∨
             (w_status w = Some 200 ∧ (∃ e, w_body w = [CJSON (Write e)]) ∧ quiet s s')
  | RErr _ => False
  | RPanic _ => N ∧ quiet s s'
  end.

Lemma answered_reply N P s e s' : quiet s s' → answered N P s (ROk (reply e)) s'.
Proof. intros Hq. right. split_and!; [done|by eexists|done]. Qed.

Lemma taken_over_from id path rq uid s s1 s' :
  g_uploads s1 = g_uploads s → g_queries s1 = g_queries s → g_tasks s1 = g_tasks s →
  taken_over id path rq uid s1 s' → taken_over id path rq uid s s'.
Proof. unfold taken_over. by intros -> -> ->. Qed.

Lemma submit_outcome N id user path rq s :
  wp (let! r := try (processUpload env id user path rq) in
      match r with
      | inl err => ret (reply (Some err))
      | inr _ => ret (WriteHeader 202 newWriter)
      end)
    (λ r s', g_lock s' = g_lock s ∧ g_files s' = g_files s ∧
       answered N (taken_over id path rq (user_ID user) s) s r s') s.
Proof.
  go_wp. eapply wp_mono; [apply processUpload_outcome|]. cbv beta. intros r s' (Hf & _ & Hl & Hr).
  destruct r as [x|e|w]; [|go_wp|done].
  - go_wp. split_and!; [done..|]. by left.
  - split_and!; [done..|]. by apply answered_reply.
Qed.

Lemma Notify_file_outcome (N : Prop) user info name path body s :
  (decode_body body = inr None → N) →
  wp (Notify_file env user info name path body)
    (λ r s', g_lock s' = g_lock s ∧ answered N (accepted_file user info name path body s) s r s') s.
Proof.
  intros HN. unfold Notify_file. go_wp. apply wp_geo_op; cbv beta iota.
  { intros e. go_wp. split; [done|]. by apply answered_reply, quiet_tables. }
  intros a s1 [= <- <-]. go_wp. apply wp_geo_op; cbv beta iota.
  { intros e. go_wp. split; [done|]. by apply answered_reply, quiet_tables. }
  intros a s2 H2. simpl in H2. fold (dst_of user info name path) in *.
  destruct (fs_Rename path (dst_of user info name path) (g_files s)) as [fs|] eqn:Hren; [|done].
  injection H2 as <- <-. set (s2 := g_next (set_g_files fs _)).
  assert (quiet s s2) as Hq2 by by apply quiet_tables.
  go_wp; try (split; [done|]; first [by apply answered_reply|by split; [apply HN|]]).
  assert (∀ s3, g_uploads s3 = g_uploads s → g_queries s3 = g_queries s → g_tasks s3 = g_tasks s →
    g_lock s3 = g_lock s →
    (g_files s3 = fs ∨ g_files s3 = fs ∖ {[filepath_Join [path_Dir path; ti_ID info] +:+ ".info"]}) →
    wp (let! r1 := try (processUpload env (ti_ID info) user (dst_of user info name path) (asUpdate r g)) in
        match r1 with
        | inl err => ret (reply (Some err))
        | inr _ => ret (WriteHeader 202 newWriter)
        end)
      (λ r1 s', g_lock s' = g_lock s ∧ answered N (accepted_file user info name path body s) s r1 s') s3) as Hsub.
  { intros s3 Hu3 Hq3 Ht3 Hl3 Hf3. eapply wp_mono; [apply (submit_outcome N)|]. cbv beta. intros r1 s' (Hl & Hf & Ha).
    split; [congruence|]. destruct r1 as [w|e|w]; simpl in *; [|done|].
    - destruct Ha as [[-> Ha]|(? & ? & Hq)].
      + left. split; [done|]. exists r, g. split_and!; [done..| |].
        * by eapply taken_over_from.
        * exists fs. split; [done|]. by rewrite Hf.
      + right. split_and!; [done..|]. etrans; [|exact Hq]. by apply quiet_tables.
    - destruct Ha as [? Ha]. split; [done|]. etrans; [|exact Ha]. by apply quiet_tables. }
  apply wp_geo_op; cbv beta iota.
  - intros e. apply Hsub; try done. by left.
  - intros a s3 H3. simpl in H3.
    destruct (fs_Remove _ fs) as [fs3|] eqn:Hrem; [|done]. injection H3 as <- <-.
    apply Hsub; try done. right. unfold fs_Remove in Hrem. case_bool_decide; [|done]. by injection Hrem as <-.
Qed.

(** An accepted upload: complete, with a name, and taken over for its user. *)
Definition accepted (user : User) (id body : string) (s s' : Geo) : Prop :=
  ∃ n info name path, ge_info env n id = inr info ∧ ti_Offset info = ti_Size info ∧
    ti_MetaData info !! "filename" = Some name ∧ name ≠ "" ∧ ti_Storage info !! "Path" = Some path ∧
    accepted_file user info name path body s s'.

Lemma default_nonempty (o : option string) : String.eqb (default "" o) "" = false → ∃ x, o = Some x ∧ x ≠ "".
Proof. destruct o as [x|]; [|done]. intros Hx%String.eqb_neq. eauto. Qed.

Lemma Notify_locked_outcome user id body s :
  wp (Notify_locked env user id body)
    (λ r s', g_lock s' = g_lock s ∧ answered (decode_body body = inr None) (accepted user id body s) s r s') s.
Proof.
  unfold Notify_locked. go_wp. apply wp_geo_op; cbv beta iota.
  { intros e. go_wp. split; [done|]. by apply answered_reply, quiet_tables. }
  intros info s1 [= Hinfo <-].
  assert (quiet s (g_next s)) as Hq by by apply quiet_tables.
  go_wp; try (split; [done|]; right; split_and!; [done|by eexists|done]).
  apply negb_false_iff, Z.eqb_eq in E. apply default_nonempty in E1 as (name & Hname & Hne).
  apply default_nonempty in E2 as (path & Hpath & _). rewrite Hname, Hpath. simpl.
  eapply wp_mono; [by apply (Notify_file_outcome (decode_body body = inr None))|]. cbv beta. intros r s' (Hl & Ha). split; [done|].
  destruct r as [w|e|w]; simpl in *; [|done|by destruct Ha; split; [|etrans]].
  destruct Ha as [[-> (req & params & Hd & Hp & Ht & Hm)]|(? & ? & Hq')]; [left|right].
  - split; [done|]. exists (g_tick s), info, name, path. split_and!; [done..|]. by exists req, params.
  - split_and!; [done..|]. by etrans.
Qed.

(** The user of a request, when [Notify] goes on with it. *)
Definition accepted_for (r : Req) (id body : string) (s s' : Geo) : Prop :=
  ∃ user, ge_user env (g_tick s) r = (Some user, None) ∧ GetSDKAddress (Some user) ≠ "" ∧
    accepted user id body s s'.

Lemma wp_lockUpload id Q s :
  (∀ e s', quiet s s' → lk_holders (g_lock s') = lk_holders (g_lock s) → Q (RErr e) s') →
  (∀ s', quiet s s' → g_uploads s' = g_uploads s → g_queries s' = g_queries s → g_tasks s' = g_tasks s →
     g_files s' = g_files s → delete id (lk_holders (g_lock s')) = delete id (lk_holders (g_lock s)) →
     Q (ROk tt) s') →
  wp (lockUpload env id) Q s.
Proof.
  intros He Hok. unfold wp, lockUpload, inLock.
  pose proof (Lock_spec (ge_lock env) id (g_tick s) (g_lock s)) as Hl.
  destruct (Lock _ id _ (g_lock s)) as [r l]. destruct Hl as [_ Hl].
  destruct (le_LockContext _ _ _) as [err|].
  - destruct Hl as (Hh & e & -> & _). apply He; [by apply quiet_tables|done].
  - destruct Hl as [-> Hh]. apply Hok; [by apply quiet_tables|done..|]. simpl. rewrite Hh. apply delete_insert_eq.
Qed.

Lemma wp_unlock id (Q : result error unit → Geo → Prop) s :
  (∀ r s', g_uploads s' = g_uploads s → g_queries s' = g_queries s → g_tasks s' = g_tasks s →
     g_files s' = g_files s → lk_holders (g_lock s') = delete id (lk_holders (g_lock s)) → Q r s') →
  wp (inLock (Unlock (ge_lock env) id)) Q s.
Proof.
  intros HQ. unfold wp, inLock. pose proof (Unlock_spec (ge_lock env) id (g_lock s)) as Hl.
  destruct (Unlock _ id (g_lock s)) as [r l]. destruct Hl as (Hh & _). by apply HQ.
Qed.

(** When [Notify] panics: the body is the JSON literal null, or the user getter
    gave neither a user nor an error. *)
Definition panicking (r : Req) (body : string) (s : Geo) : Prop :=
  decode_body body = inr None ∨ ge_user env (g_tick s) r = (None, None).

(** Tables and files decide whether an answer is right. *)
Lemma answered_from r id body user s s1 s2 s' out :
  ge_user env (g_tick s) r = (Some user, None) → GetSDKAddress (Some user) ≠ "" →
  g_uploads s1 = g_uploads s → g_queries s1 = g_queries s → g_tasks s1 = g_tasks s → g_files s1 = g_files s →
  g_uploads s' = g_uploads s2 → g_queries s' = g_queries s2 → g_tasks s' = g_tasks s2 → g_files s' = g_files s2 →
  answered (decode_body body = inr None) (accepted user id body s1) s1 out s2 → answered (panicking r body s) (accepted_for r id body s) s out s'.
Proof.
  intros Hu Ha E1 E2 E3 E4 F1 F2 F3 F4.
  assert (quiet s1 s2 → quiet s s') as Hq.
  { intros Hq. etrans; [by apply quiet_tables|]. etrans; [exact Hq|]. by apply quiet_tables. }
  destruct out as [w|e|w]; simpl; [|done|unfold panicking; naive_solver].
  intros [[-> (n & info & name & path & Hi & Ho & Hn & Hne & Hp & req & ps & Hd & Hps & Ht & Hm)]|(? & ? & ?)];
    [left|right; split_and!; auto].
  split; [done|]. exists user. split_and!; [done..|]. exists n, info, name, path. split_and!; [done..|].
  exists req, ps. split_and!; [done..| |by rewrite <-E4, F4].
  eapply taken_over_from; [exact E1|exact E2|exact E3|]. unfold taken_over in *. by rewrite F1, F2, F3.
Qed.

Lemma Notify_outcome r id body s :
  wp (Notify env r id body) (λ out s',
    (lk_holders (g_lock s') = lk_holders (g_lock s) ∨ lk_holders (g_lock s') = delete id (lk_holders (g_lock s))) ∧
    answered (panicking r body s) (accepted_for r id body s) s out s') s.
Proof.
  unfold Notify. go_wp. unfold wp at 1. simpl.
  assert (quiet s (g_next s)) as Hq by by apply quiet_tables.
  destruct (ge_user env (g_tick s) r) as [user err] eqn:Hu. unfold GetAuthError. simpl.
  go_wp; simplify_eq; try (split; [by left|]; by apply answered_reply).
  2: { split; [by left|]. split; [right|exact Hq]. by destruct err. }
  destruct err; [done|]. apply String.eqb_neq in E1.
  apply wp_lockUpload; cbv beta iota.
  - intros e s' Hs Hh. go_wp. split; [by left|]. apply answered_reply. by etrans.
  - intros s1 _ Hu1 Hq1 Ht1 Hf1 Hl1. go_wp. eapply wp_mono; [apply Notify_locked_outcome|]. cbv beta.
    intros out s2 [Hl2 Ha]. apply wp_unlock. intros _ s' E3 E4 E5 E6 Hl'. split; [right; by rewrite Hl', Hl2, Hl1|].
    by eapply (answered_from r id body u s s1 s2).
Qed.

(** C16: [Notify] answers 202 exactly when it has taken an upload over. Then the
    request has an authenticated user with an SDK, the tus upload is complete and
    named, the upload's row exists and belongs to this user (for user ids above
    zero) and had no query yet; the file has moved to the path that is joined from
    the directory it was in, the user id, the upload id and the file name the client
    gave (which can lead out of that directory), the row
    is received under that path, the query is recorded as received with the
    request (a publish of an existing claim turned into an update), and exactly one
    task is queued, for the row's owner. Otherwise the client gets one JSON-RPC
    error object or the handler panics, the latter only for a body that is the JSON
    literal null or when the user getter gives neither a user nor an error;
    then no task is queued, and rows keep their owner and size. On no path does this
    process remain registered as the holder of the upload's lock; whether Redis
    released it is up to Redis. *)
Theorem Notify_takes_over r id body s :
  let '(out, s') := Notify env r id body s in
  answered (panicking r body s) (accepted_for r id body s) s out s' ∧
  (lk_holders (g_lock s') = lk_holders (g_lock s) ∨ lk_holders (g_lock s') = delete id (lk_holders (g_lock s))).
Proof.
  pose proof (Notify_outcome r id body s) as Hn. unfold wp in Hn.
  destruct (Notify env r id body s) as [out s']. by destruct Hn.
Qed.

Lemma keeps_Notify `{!PayloadIdentity} r id body : extends keeps (Notify env r id body).
Proof.
  intros s Hinv. pose proof (Notify_outcome r id body s) as [_ Ha].
  destruct (Notify env r id body s) as [[w|e|w] s']; simpl in *; [|done|by destruct Ha; eapply geo_inv_quiet].
  destruct Ha as [[_ (user & _ & _ & n & info & name & path & _ & _ & _ & _ & _ & req & ps & _ & _ & Ht & _)]|(_ & _ & Hq)].
  - by eapply taken_over_inv.
  - by eapply geo_inv_quiet.
Qed.
End invariant.

(** ** The worker *)

Section worker.
Context (o : Oracle) `{!Ljsonrpc, !MapOrder, !IAPIDecoders, !ECDSA, !ClaimDecoder, !URLParser,
  !SearchDecoder, !JSONMarshal, !GeoJSON}.
Context (cfg : Config) (env : CarriageEnv) (blobsPath : string).
Import OracleInstances.

(** A worker leaves the tables and the tasks alone and sends the SDK only
    requests that satisfy [P]. *)
Definition works (P : RPCRequest → Prop) : relation (Geo * history) := λ x y, quiet x.1 y.1 ∧ sends P x.2 y.2.

#[export] Instance works_preorder P : PreOrder (works P).
Proof.
  split; [intros x; unfold works; split; reflexivity|].
  intros x y z [? ?] [? ?]. split; by etrans.
Qed.

Lemma works_fst {A} P (c : Go Geo A) : extends quiet c → extends (works P) (on_fst c : Go (Geo * history) A).
Proof. intros Hc [s h]. specialize (Hc s). unfold on_fst. destruct (c s). by split; [|reflexivity]. Qed.
Lemma works_snd {A} P (c : Go history A) : extends (sends P) c → extends (works P) (on_snd c : Go (Geo * history) A).
Proof. intros Hc [s h]. specialize (Hc h). unfold on_snd. destruct (c h). by split; [reflexivity|]. Qed.
Lemma works_ask {A} P (f : nat → A) : extends (works P) (ask (W:=history) f).
Proof. apply works_fst. intros s. by apply quiet_tables. Qed.
Lemma works_op P f : (∀ s, quiet s (g_next (f s))) → extends (works P) (ca_op (W:=history) env f).
Proof.
  intros Hf. apply works_fst. intros s. destruct (ce_fault env (g_tick s)); [by apply quiet_tables|apply Hf].
Qed.
#[local] Hint Resolve works_ask : go.

(** The request sent carries the wallet id of the task's request. *)
Lemma carriageRequest_wallet req pp fileName info src :
  as_map (Params req) = Some pp →
  param (carriageRequest req pp (carriagePatch fileName info src)) ParamWalletID = param req ParamWalletID.
Proof.
  intros Hp. unfold carriageRequest, param. cbn [Params set_Params].
  rewrite lookup_delete_ne by done. rewrite lookup_union_r.
  - by destruct (Params req); simplify_eq/=.
  - unfold carriagePatch. destruct (si_MediaInfo info) as [[[? ?] ?]|];
      rewrite !lookup_insert_ne by done; apply lookup_empty.
Qed.

Lemma Process_works p :
  extends (works (request_bound (user_wallet (upp_UserID p)) (param (upp_Request p) ParamWalletID)))
    (Process (W:=history) cfg env blobsPath p).
Proof.
  unfold Process, Process_blobs, ca_RemoveAll.
  destruct (as_map (Params (upp_Request p))) as [pp|] eqn:Hpp; go_paths;
    [by apply works_fst; intros ?; apply quiet_tables|by apply works_op; intros ?; apply quiet_tables| |
     by apply works_fst; intros ?; apply quiet_tables|by apply works_op; intros ?; apply quiet_tables].
  - apply works_snd. match goal with |- context [carriageRequest ?r ?g (carriagePatch ?f ?i ?s)] =>
      rewrite <-(carriageRequest_wallet r g f i s) by done end. apply caller_bound.
Qed.

Lemma ProcessTask_works t p :
  unmarshal_payload (task_Payload t) = inr p →
  extends (works (request_bound (user_wallet (upp_UserID p)) (param (upp_Request p) ParamWalletID)))
    (ProcessTask (W:=history) cfg env blobsPath t).
Proof.
  intros Hp. unfold ProcessTask. rewrite Hp. unfold errorf.
  pose proof (Process_works p). unfold resultWriter_Write. go_paths; apply works_op; intros ?; by apply quiet_tables.
Qed.
End worker.

(** ** The whole system *)

Section system.
Import OracleInstances.
Context (o : Oracle) `{!Ljsonrpc, !MapOrder, !IAPIDecoders, !ECDSA, !ClaimDecoder, !URLParser,
  !SearchDecoder, !JSONMarshal, !AqJSON, !GeoJSON, !PayloadIdentity}.
Context (cfg : Config) {Req : Type} (env : GeoEnv Req) (cenv : CarriageEnv) (blobsPath : string).

(** The tables, and for every run of a worker so far the id of its task and the
    events of the outside world during that run. *)
Definition GeoSys : Type := Geo * list (string * history).

(** Everything that happened outside. *)
Definition seen (x : GeoSys) : history := concat x.2.*2.

(** A tus event, a notification, a result or a task is handled. *)
Inductive geo_step : GeoSys → GeoSys → Prop :=
| step_event e s runs : geo_step (s, runs) ((onEvent env e s).2, runs)
| step_notify r id body s runs : geo_step (s, runs) ((Notify env r id body s).2, runs)
| step_result s runs : geo_step (s, runs) ((onResult env s).2, runs)
| step_task it s runs s' h' :
    it ∈ g_tasks s → (ProcessTask (W:=history) cfg cenv blobsPath it.2 (s, seen (s, runs))).2 = (s', h') →
    geo_step (s, runs) (s', runs ++ [(it.1, drop (length (seen (s, runs))) h')]).

Definition geo_start (fs : FS) (l : Locker) : GeoSys := (mkGeo ∅ ∅ [] [] fs l 0, []).

(** Rows and tasks only grow. *)
Definition grows (s s' : Geo) : Prop :=
  (∀ id u, g_uploads s !! id = Some u → ∃ u', g_uploads s' !! id = Some u' ∧ row_kept u u') ∧
  g_tasks s `prefix_of` g_tasks s'.

Lemma quiet_grows s s' : quiet s s' → grows s s'.
Proof. intros (Ht & Hu & _). split; [done|]. by rewrite Ht. Qed.

Lemma taken_over_grows id path rq uid s s' : taken_over id path rq uid s s' → grows s s'.
Proof.
  intros (u & j & pb & Hu & _ & _ & _ & _ & Eu & _ & Et). split; [|rewrite Et; by apply prefix_app_r].
  intros i v Hv. rewrite Eu. destruct (decide (i = id)) as [->|Hne].
  - rewrite lookup_insert_eq. simplify_eq. by eexists.
  - rewrite lookup_insert_ne by done. by exists v.
Qed.

Lemma Notify_grows r id body s : grows s (Notify env r id body s).2.
Proof.
  pose proof (Notify_outcome env r id body s) as [_ Ha].
  destruct (Notify env r id body s) as [[w|e|w] s']; simpl in *; [|done|by destruct Ha; apply quiet_grows].
  destruct Ha as [[_ (user & _ & _ & n & info & name & path & _ & _ & _ & _ & _ & req & ps & _ & _ & Ht & _)]|(_ & _ & Hq)].
  - by eapply taken_over_grows.
  - by apply quiet_grows.
Qed.

(** A run of the worker on the task of upload [id]: every request it sent to an
    SDK is bound to the wallet of the owner of this very upload, with the wallet id
    of the task's request where no wallet is accepted. *)
Definition run_for_owner (s : Geo) (run : string * history) : Prop :=
  ∃ t p u uid, (run.1, t) ∈ g_tasks s ∧ unmarshal_payload (task_Payload t) = inr p ∧
    g_uploads s !! run.1 = Some u ∧ gu_UserID u = Some uid ∧
    ∀ ep rq r, EvCall ep rq r ∈ run.2 →
      request_bound (user_wallet uid) (param (upp_Request p) ParamWalletID) rq.

Lemma run_for_owner_grows s s' run : grows s s' → run_for_owner s run → run_for_owner s' run.
Proof.
  intros [Hu [ts Ht]] (t & p & u & uid & Hin & Hp & Hl & Ho & Hok). destruct (Hu _ u Hl) as (u' & Hl' & Hk & _).
  exists t, p, u', uid. rewrite Ht, elem_of_app. split_and!; [by left|done|done|congruence|done].
Qed.

Definition sys_inv (x : GeoSys) : Prop := geo_inv x.1 ∧ Forall (run_for_owner x.1) x.2.

Lemma runs_grow s s' runs : grows s s' → Forall (run_for_owner s) runs → Forall (run_for_owner s') runs.
Proof. intros Hg Hr. eapply Forall_impl; [exact Hr|]. intros run. by apply run_for_owner_grows. Qed.

Lemma sys_inv_step x y : geo_step x y → sys_inv x → sys_inv y.
Proof.
  intros Hstep [Hinv Hh]. destruct Hstep as [e s runs|r id body s runs|s runs|[id t] s runs s' h' Hin Hrun]; simpl in *.
  - pose proof (quiet_onEvent env e s) as Hq. split; [by eapply geo_inv_quiet|].
    eapply runs_grow; [by apply quiet_grows|done].
  - split; [by apply keeps_Notify|]. eapply runs_grow; [apply Notify_grows|done].
  - pose proof (quiet_onResult env s) as Hq. split; [by eapply geo_inv_quiet|].
    eapply runs_grow; [by apply quiet_grows|done].
  - pose proof Hinv as (_ & _ & Hall). rewrite Forall_forall in Hall.
    destruct (Hall _ Hin) as (_ & _ & p & u & Hp & _ & Hu & Ho). simpl in *.
    destruct (ProcessTask_works o cfg cenv blobsPath t p Hp (s, seen (s, runs))) as [Hq Hs].
    rewrite Hrun in Hq, Hs. simpl in Hq, Hs. destruct Hs as (evs & -> & Hevs). rewrite drop_app_length.
    split; [by eapply geo_inv_quiet|]. apply Forall_app. split.
    + eapply runs_grow; [by apply quiet_grows|done].
    + apply Forall_singleton. eapply run_for_owner_grows; [by apply quiet_grows|].
      exists t, p, u, (upp_UserID p). split_and!; [done..|]. exact Hevs.
Qed.

Lemma sys_inv_reachable fs l x : rtc geo_step (geo_start fs l) x → sys_inv x.
Proof.
  intros Hr. assert (sys_inv (geo_start fs l)) as Hst.
  { split; [|constructor]. split_and!; [by intros id u|constructor|constructor]. }
  revert Hst. induction Hr as [|x y z Hxy _ IH]; [done|]. intros Hx. by eapply IH, sys_inv_step.
Qed.

(** C15: Publishing through the v3 handler acts for the owner of the upload, once.
    In every state reached from empty tables by tus events, notifications, results
    and workers in any order, with any failures: every upload has an owner; no
    upload has two tasks; every task stands for an existing upload with a recorded
    query and names its owner; and every request that a run of a worker sent to an
    SDK carries the wallet id of the owner of the upload of the task it ran, where
    the method accepts a wallet; a relaxed method that accepts none carries no
    wallet id or the one of the task's request. *)
Theorem geo_reachable_isolated fs l s runs :
  rtc geo_step (geo_start fs l) (s, runs) →
  (∀ id u, g_uploads s !! id = Some u → is_Some (gu_UserID u)) ∧
  NoDup (g_tasks s).*1 ∧ Forall (task_owned s) (g_tasks s) ∧
  Forall (run_for_owner s) runs.
Proof. intros Hr. destruct (sys_inv_reachable _ _ _ Hr) as [(? & ? & ?) ?]. auto. Qed.
End system.

(** ** Results *)

Section results.
Context `{!GeoJSON} {W : Type} `{!Ljsonrpc, !MapOrder, !SDKClient W, !WalletService W, !Random W, !Monitor W,
  !Arweave W, !IAPITransport W, !IAPIDecoders, !Clock W, !ECDSA, !PaidTokens W,
  !ClaimDecoder, !URLParser, !SearchDecoder, !JSONMarshal, !CacheStore W}.
Context (cfg : Config) (env : CarriageEnv) (blobsPath : string).

Definition bus_same : relation (Geo * W) := λ x y, g_results y.1 = g_results x.1.
#[export] Instance bus_same_preorder : PreOrder bus_same.
Proof. split; [done|]. intros x y z Hxy Hyz. unfold bus_same in *. congruence. Qed.

Lemma bus_ask {A} (f : nat → A) : extends bus_same (ask (W:=W) f).
Proof. by intros [s w]. Qed.
Lemma bus_op f : (∀ s, g_results (f s) = g_results s) → extends bus_same (ca_op (W:=W) env f).
Proof. intros Hf [s w]. unfold ca_op, on_fst, bus_same. destruct (ce_fault env (g_tick s)); simpl; [done|apply Hf]. Qed.
Lemma bus_snd {A} (c : Go W A) : extends bus_same (on_snd c).
Proof. intros [s w]. unfold on_snd. by destruct (c w). Qed.
#[local] Hint Resolve bus_ask bus_snd : go.

Lemma Process_bus p : extends bus_same (Process (W:=W) cfg env blobsPath p).
Proof.
  unfold Process, Process_blobs, ca_RemoveAll. go_paths; [by intros [? ?]|by apply bus_op].
Qed.

(** A result always names the upload and the user of its task. *)
Lemma Process_identity p :
  yields (λ re, upr_UploadID re.1 = upp_UploadID p ∧ upr_UserID re.1 = upp_UserID p ∧ upr_Error re.1 = "")
    (Process (W:=W) cfg env blobsPath p).
Proof. unfold Process, Process_blobs. go_paths; done. Qed.

Lemma ask_noerr {A} (f : nat → A) : noerr (ask (W:=W) f).
Proof. by intros [s w]. Qed.
#[local] Hint Resolve ask_noerr : go.
Lemma Process_noerr p : noerr (Process (W:=W) cfg env blobsPath p).
Proof. unfold Process, Process_blobs. go_paths. by intros [? ?]. Qed.

(** A result as it is sent for a task. *)
Definition sent_result (p : UploadProcessPayload) (s s' : Geo) (ok : bool) : Prop :=
  ∃ res br, g_results s' = g_results s ++ [br] ∧ marshal_result res = inr br ∧
    upr_UploadID res = upp_UploadID p ∧ upr_UserID res = upp_UserID p ∧
    if ok then upr_Error res = "" else upr_Error res ≠ "" ∧ upr_Retry res = false.

Lemma wp_Write br Q s w :
  (∀ e, ce_fault env (g_tick s) = Some e → Q (RErr e) (g_next s, w)) →
  Q (ROk tt) (g_next (set_g_results (g_results s ++ [br]) s), w) →
  wp (resultWriter_Write (W:=W) env br) Q (s, w).
Proof.
  intros He Hok. unfold wp, resultWriter_Write, ca_op, on_fst. destruct (ce_fault env (g_tick s)) eqn:E; simpl; auto.
Qed.

(** C17: A task of the v3 publish queue reports at the end, and only then. When a
    run ends without error it has sent exactly one result, without error text;
    when it fails for good ([asynq.SkipRetry]) it has sent at most one, with an
    error text and not marked for a retry; when it fails and is to be retried, or
    panics, it has sent none. Results name the upload and the user of the task.
    The delay before a retry is ten seconds, whatever failed: the error that would
    make it grow has become text by then. *)
Theorem ProcessTask_reports t s w p :
  (∀ n e, ce_fault env n = Some e → Is e "asynq.SkipRetry" = false ∧ Is e "forklift.ErrUpload" = false) →
  task_Type t = TypeUploadProcess → unmarshal_payload (task_Payload t) = inr p →
  let '(r, (s', _)) := ProcessTask (W:=W) cfg env blobsPath t (s, w) in
  match r with
  | ROk _ => sent_result p s s' true
  | RErr e => (if Is e "asynq.SkipRetry" then g_results s' = g_results s ∨ sent_result p s s' false
               else g_results s' = g_results s) ∧
              ∀ n, ca_RetryDelay n e = 10 * 10 ^ 9
  | RPanic _ => g_results s' = g_results s
  end.
Proof.
  intros Hf Ht Hp.
  assert (wp (ProcessTask (W:=W) cfg env blobsPath t) (λ r x, match r with
    | ROk _ => sent_result p s x.1 true
    | RErr e => (if Is e "asynq.SkipRetry" then g_results x.1 = g_results s ∨ sent_result p s x.1 false
                 else g_results x.1 = g_results s) ∧ ∀ n, ca_RetryDelay n e = 10 * 10 ^ 9
    | RPanic _ => g_results x.1 = g_results s
    end) (s, w)) as Hwp.
  2: { unfold wp in Hwp. by destruct (ProcessTask _ _ _ _ _) as [r [s' w']]. }
  unfold ProcessTask. rewrite Ht, Hp, String.eqb_refl. cbn [negb]. apply wp_bind. unfold wp at 1.
  pose proof (Process_bus p (s, w)) as Hb. unfold bus_same in Hb. simpl in Hb.
  destruct (Process (W:=W) cfg env blobsPath p (s, w)) as [[re|e|pn] [s1 w1]] eqn:Hrun; simpl in *; [| |done].
  2: by destruct (Process_noerr p _ _ _ Hrun).
  destruct (Process_identity p _ _ _ Hrun) as (Hid & Huid & Hnoe).
  set (r := match re.2 with Some err => set_Error re.1 (Error err) | None => re.1 end).
  assert (upr_UploadID r = upp_UploadID p ∧ upr_UserID r = upp_UserID p) as [Hrid Hruid]
    by (subst r; by destruct re.2).
  destruct (marshal_result r) as [e|br] eqn:Hm; [go_wp; split; [by left|done]|].
  destruct (String.eqb (upr_Error r) "") eqn:He; cbn [negb].
  - apply String.eqb_eq in He. apply wp_errorf, wp_Write; cbv beta iota.
    + intros e Hfe. destruct (Hf _ _ Hfe) as [Hs1 Hs2]. simpl. rewrite Hs1. split; [done|].
      intros n. unfold ca_RetryDelay. simpl. by rewrite Hs2.
    + exists r, br. simpl. rewrite Hb. by split_and!.
  - apply String.eqb_neq in He. destruct (upr_Retry r) eqn:Hr; [go_wp; done|]. go_wp.
    apply wp_Write; cbv beta iota; [intros e _|]; go_wp; (split; [|done]); [by left|right].
    exists r, br. simpl. rewrite Hb. by split_and!.
Qed.
End results.
