(* ===== verification/GeoStatus.v ===== *)
(** * What the client of the v3 publish handler sees

    The status endpoint after a result came back, and concrete runs of the whole
    system of [Geopublish.v] and [Carriage.v], among them the ones in which it
    does not do what its comments say. *)

From S2P Require Import Prelude GoLib Rpc Errors Query Router Iapi Services Http Hashes Paid Caller Access AccessSpec Cache Call CallSpec.
From S2P Require Import WalletDB CacheSpec Proxy Asynquery AsynquerySpec Uploads Forklift Files Locks Geopublish Carriage GeopublishSpec.

From Stdlib Require Import Ascii.

Local Open Scope Z_scope.

Section status.
Context {Req : Type} (env : GeoEnv Req) `{!AqJSON, !GeoJSON}.

(** The status endpoint shows an upload to its owner only, whatever fails. *)
Lemma Status_owner_only r id s w s' :
  Status env r id s = (ROk w, s') → w_body w ≠ [] ∨ sent_status w = 202 →
  (∃ e, w_body w = [CJSON (Write e)]) ∨
  ∃ user u, ge_user env (g_tick s) r = (Some user, None) ∧ g_uploads s !! id = Some u ∧
    (0 < user_ID user → gu_UserID u = Some (user_ID user)).
Proof.
  intros Hrun Hw.
  assert (wp (Status env r id) (λ out _, ∀ w, out = ROk w → w_body w ≠ [] ∨ sent_status w = 202 →
    (∃ e, w_body w = [CJSON (Write e)]) ∨
    ∃ user u, ge_user env (g_tick s) r = (Some user, None) ∧ g_uploads s !! id = Some u ∧
      (0 < user_ID user → gu_UserID u = Some (user_ID user))) s) as Hwp.
  2: exact (wp_run _ _ _ _ _ Hwp Hrun w eq_refl Hw).
  clear Hrun Hw w s'. unfold Status. go_wp.
  { intros w [= <-] [?|?]; done. }
  unfold wp at 1. simpl.
  destruct (ge_user env (g_tick s) r) as [[user|] [err|]] eqn:Hu; go_wp; try (intros w [= <-] [?|?]; done).
  apply wp_get; cbv beta iota.
  - intros e s1 _. go_wp; intros w [= <-]; [intros [?|?]; done|]. intros _. left. by eexists.
  - intros u s1 Hs Hl Ho. unfold wp. intros x _ _. right. eauto.
Qed.

Hypothesis no_faults : ∀ n, ge_fault env n = None.

Lemma geo_op_run {A} (f : nat → Geo → (error + A) * Geo) s :
  geo_op env f s = match f (g_tick s) s with
                   | (inl e, _) => (RErr e, g_next s)
                   | (inr a, s') => (ROk a, g_next s')
                   end.
Proof. unfold geo_op. by rewrite no_faults. Qed.

Lemma get_run id uid s u :
  g_uploads s !! id = Some u → (0 < uid → gu_UserID u = Some uid) →
  get env id uid s = (ROk u, g_next (g_next s)).
Proof.
  intros Hu Ho. unfold get, bind. rewrite geo_op_run, Hu.
  destruct ((0 <? uid) && negb (bool_decide (gu_UserID u = Some uid))) eqn:E.
  - apply andb_true_iff in E as [Hpos%Z.ltb_lt E%negb_true_iff%bool_decide_eq_false]. destruct E. auto.
  - by rewrite geo_op_run.
Qed.

(** The row of a query with the result in it. *)
Definition resulted (q : PublishQuery) (res : RPCResponse) (callErr j : string) : PublishQuery :=
  mkPQ (if bool_decide (resp_Error res ≠ None) || negb (String.eqb callErr "") then PQFailed else PQSucceeded)
    callErr (jsonb <$> pq_Query q) (Some (jsonb j)).

Lemma saveResult_run id res callErr j s u q :
  g_uploads s !! id = Some u → g_queries s !! id = Some q → marshal_response res = inr j →
  ∃ s', saveUploadProcessingResult env id (Some res) callErr s = (ROk tt, s') ∧
    g_uploads s' = <[id := with_status u GFinished]> (g_uploads s) ∧
    g_queries s' = <[id := resulted q res callErr j]> (g_queries s) ∧
    g_files s' = fs_RemoveAll (gu_Path u) (g_files s).
Proof.
  intros Hu Hq Hj. unfold saveUploadProcessingResult.
  rewrite (bind_ok _ _ _ _ _ (get_run id 0 s u Hu ltac:(lia))). unfold getQuery, errorf, bind, try.
  rewrite geo_op_run. simpl. rewrite Hq. simpl. rewrite Hj. unfold markUploadFinished, update_row, g_RemoveAll, bind. simpl.
  do 3 (rewrite geo_op_run; simpl). eexists. split; [done|]. simpl.
  split_and!; [| |done]; apply map_eq; intros i; (destruct (decide (i = id)) as [->|Hne];
    [by rewrite lookup_alter_eq, lookup_insert_eq, ?Hu, ?Hq|by rewrite lookup_alter_ne, lookup_insert_ne by done]).
Qed.

Lemma saveResult_nil_run id callErr s u :
  g_uploads s !! id = Some u →
  ∃ s', saveUploadProcessingResult env id None callErr s = (ROk tt, s') ∧ g_queries s' = g_queries s ∧
    g_uploads s' = <[id := mkGUpload (gu_UserID u) (gu_Path u) GFailed callErr (gu_Size u) (gu_Received u)]>
                     (g_uploads s).
Proof.
  intros Hu. unfold saveUploadProcessingResult.
  rewrite (bind_ok _ _ _ _ _ (get_run id 0 s u Hu ltac:(lia))). unfold markUploadFailed, update_row.
  rewrite geo_op_run. eexists. split_and!; [done..|]. simpl. apply map_eq. intros i.
  destruct (decide (i = id)) as [->|Hne];
    [by rewrite lookup_alter_eq, lookup_insert_eq, Hu|by rewrite lookup_alter_ne, lookup_insert_ne by done].
Qed.
(** The answer for a query that is in the table. *)
Definition status_of (q : PublishQuery) : Writer :=
  match pq_Status q with
  | PQSucceeded => WriteBody (CText (default "" (pq_Response q))) (WriteHeader 200 newWriter)
  | PQFailed => match pq_Response q with
                | None => WriteBody (CText "") newWriter
                | Some _ => reply (Some (Errs (sprintf0 Text (pq_Error q))))
                end
  | _ => WriteHeader 202 newWriter
  end.

Lemma Status_run r id user s u q :
  id ≠ "" → ge_user env (g_tick s) r = (Some user, None) → g_uploads s !! id = Some u →
  (0 < user_ID user → gu_UserID u = Some (user_ID user)) → g_queries s !! id = Some q →
  ∃ s', Status env r id s = (ROk (status_of q), s') ∧ same s s'.
Proof.
  intros Hid%String.eqb_neq Hus Hu Ho Hq. unfold Status. rewrite Hid. unfold getUserFromRequest, bind at 1.
  rewrite Hus. unfold bind at 1. rewrite (try_ok _ _ _ _ (get_run id (user_ID user) (g_next s) u Hu Ho)).
  unfold bind, try. rewrite geo_op_run. simpl. rewrite Hq. unfold status_of.
  destruct (pq_Status q); [| |destruct (pq_Response q)|]; eexists; done.
Qed.

(** What the owner of an upload sees once its result is in. When the result
    carries the SDK's answer, the answer itself with status 200 if neither it nor
    the worker reports an error, and otherwise an error object with the worker's
    error text. When the result carries no answer (the file could not be analysed,
    split or stored), the upload is marked failed but the query is not: the
    endpoint goes on answering 202, processing. *)
Theorem status_after_result r id d ds res user s u q :
  g_results s = d :: ds → unmarshal_result d = inr res → upr_UploadID res = id → id ≠ "" →
  g_uploads s !! id = Some u → g_queries s !! id = Some q → pq_Status q = PQReceived →
  (∀ n, ge_user env n r = (Some user, None)) → (0 < user_ID user → gu_UserID u = Some (user_ID user)) →
  (∀ rsp, upr_Response res = Some rsp → ∃ j, marshal_response rsp = inr j) →
  ∃ s1 w s2, onResult env s = (ROk tt, s1) ∧ Status env r id s1 = (ROk w, s2) ∧
    match upr_Response res with
    | None => w = WriteHeader 202 newWriter ∧ gu_Status <$> g_uploads s1 !! id = Some GFailed
    | Some rsp =>
        gu_Status <$> g_uploads s1 !! id = Some GFinished ∧
        if bool_decide (resp_Error rsp = None ∧ upr_Error res = "")
        then ∃ j, marshal_response rsp = inr j ∧ w_status w = Some 200 ∧ w_body w = [CText (jsonb j)]
        else w = reply (Some (Errs (sprintf0 Text (upr_Error res))))
    end.
Proof.
  intros Hres Hun Hid Hne Hu Hq Hst Hus Ho Hm.
  set (s0 := g_next (set_g_results ds s)).
  assert (try (GetUploadProcessResult env) s = (ROk (inr (Some res)), s0)) as Hget.
  { apply try_ok. unfold GetUploadProcessResult, bus_Read, errorf, bind, try.
    rewrite geo_op_run, Hres. simpl. by rewrite Hun. }
  unfold onResult. rewrite (bind_ok _ _ _ _ _ Hget), Hid.
  destruct (upr_Response res) as [rsp|] eqn:Hr.
  - destruct (Hm rsp eq_refl) as [j Hj].
    destruct (saveResult_run id rsp (upr_Error res) j s0 u q Hu Hq Hj) as (s1 & Hsave & Hu1 & Hq1 & _).
    exists s1. rewrite (bind_ok _ _ _ _ _ (try_ok _ _ _ _ Hsave)).
    destruct (Status_run r id user s1 (with_status u GFinished) (resulted q rsp (upr_Error res) j)) as (s2 & Hs2 & _);
      [done|apply Hus|by rewrite Hu1, lookup_insert_eq|done|by rewrite Hq1, lookup_insert_eq|].
    eexists _, s2. split_and!; [done|exact Hs2|by rewrite Hu1, lookup_insert_eq|].
    unfold status_of, resulted. simpl. case_bool_decide as Hb.
    + destruct Hb as [-> ->]. simpl. by exists j.
    + destruct (bool_decide (resp_Error rsp ≠ None)) eqn:E1; [done|]. simpl.
      destruct (String.eqb (upr_Error res) "") eqn:E2; [|done]. destruct Hb. split; [|by apply String.eqb_eq].
      apply bool_decide_eq_false in E1. by apply dec_stable.
  - destruct (saveResult_nil_run id (upr_Error res) s0 u Hu) as (s1 & Hsave & Hq1 & Hu1).
    exists s1. rewrite (bind_ok _ _ _ _ _ (try_ok _ _ _ _ Hsave)).
    destruct (Status_run r id user s1 (mkGUpload (gu_UserID u) (gu_Path u) GFailed (upr_Error res) (gu_Size u)
      (gu_Received u)) q) as (s2 & Hs2 & _);
      [done|apply Hus|by rewrite Hu1, lookup_insert_eq|done|by rewrite Hq1|].
    eexists _, s2. split_and!; [done|exact Hs2| |by rewrite Hu1, lookup_insert_eq].
    unfold status_of. by rewrite Hst.
Qed.
End status.

(** Where an upload goes: with a file name and an upload id that are plain
    names (no slash, not a dot name), to [<store>/<user id>/<upload id>/<name>],
    in the directory made for this upload. *)
Theorem upload_lands_in_own_dir user info name path :
  plain (ti_ID info) = true → plain name = true →
  dst_of user info name path =
    child (child (child (path_Dir path) (Itoa (user_ID user))) (ti_ID info)) name ∧
  path_Dir (dst_of user info name path) = dstDir (path_Dir path) (user_ID user) (ti_ID info).
Proof.
  intros Hid Hn. unfold dst_of, dstDir.
  assert (path_Dir path ≠ "") as Hne by apply path_Clean_nonempty.
  assert (path_Clean (path_Dir path) = path_Dir path) as Hc by apply path_Clean_idemp.
  pose proof (filepath_Join_child2 (path_Dir path) (Itoa (user_ID user)) (ti_ID info) Hne (Itoa_plain _) Hid) as HJ.
  rewrite Hc in HJ.
  assert (path_Clean (filepath_Join [path_Dir path; Itoa (user_ID user); ti_ID info]) =
    filepath_Join [path_Dir path; Itoa (user_ID user); ti_ID info]) as Hc2.
  { unfold filepath_Join. destruct (List.filter _ _) eqn:E; [|apply path_Clean_idemp].
    simpl in E. rewrite (proj2 (String.eqb_neq _ "") Hne) in E. done. }
  assert (filepath_Join [path_Dir path; Itoa (user_ID user); ti_ID info] ≠ "") as Hne2.
  { rewrite <-Hc2. apply path_Clean_nonempty. }
  rewrite (filepath_Join_child _ name Hne2 Hn), Hc2. split; [by rewrite HJ|].
  rewrite <-Hc2 at 1. rewrite path_Dir_child by done. exact Hc2.
Qed.

(** ** Concrete runs *)

Module GeoEx.
#[export] Instance ajson : AqJSON := {|
  marshal_request r := inr (Method r);
  unmarshal_request j := inr (mkRequest j (VMap ∅) 0 "2.0");
  marshal_response r := inr (match resp_Error r with Some e => Message e | None => "{}" end);
  marshal_meta _ := inr "meta";
  unmarshal_meta _ := inl (EText "unused");
  unmarshal_done _ := inl (EText "unused");
  unmarshal_incoming _ := inl (EText "unused");
  decode_body b := if String.eqb b "" then inl (EText "EOF")
                   else inr (Some (mkRequest MethodStreamCreate (VMap {["name" := VStr b]}) 1 "2.0"));
  jsonb s := s |}.

(** The user and the upload, separated by a slash; the request of the example. *)
Definition decode (b : string) : error + UploadProcessPayload :=
  match cut_first b with
  | Some (uid, id) =>
      match ParseInt uid 64 with
      | Some n => inr {| upp_UploadID := id; upp_Path := "/up/7/" +:+ id +:+ "/clip"; upp_UserID := n;
                         upp_Request := mkRequest MethodStreamCreate (VMap {["name" := VStr "n"]}) 1 "2.0" |}
      | None => inl (EText "bad number")
      end
  | None => inl (EText "bad payload")
  end.
Definition same_identity (p : UploadProcessPayload) (x : error + UploadProcessPayload) : bool :=
  match x with
  | inr p' => String.eqb (upp_UploadID p') (upp_UploadID p) && (upp_UserID p' =? upp_UserID p)
  | inl _ => false
  end.
Definition encode (p : UploadProcessPayload) : string := Itoa (upp_UserID p) +:+ "/" +:+ upp_UploadID p.

#[export] Instance gjson : GeoJSON := {|
  marshal_payload p := if same_identity p (decode (encode p)) then inr (encode p) else inl (EText "unsupported value");
  unmarshal_payload := decode;
  marshal_result r := inr (match upr_Response r with
                           | Some _ => "+" +:+ upr_UploadID r
                           | None => "-" +:+ upr_UploadID r
                           end);
  unmarshal_result b := match b with
    | String "+"%char id => inr (mkResult id 7 "sd" (Some (mkResponse "2.0" (VMap ∅) None 0)) "" false)
    | String "-"%char id => inr (mkResult id 7 "" None "error analyzing file: EOF" false)
    | _ => inl (EText "bad result")
    end |}.

#[export] Instance identity : PayloadIdentity.
Proof.
  intros p b. simpl. destruct (same_identity p (decode (encode p))) eqn:E; [|done]. intros [= <-].
  unfold same_identity in E. destruct (decode (encode p)) as [e|p']; [done|]. exists p'.
  apply andb_true_iff in E as [E1%String.eqb_eq E2%Z.eqb_eq]. done.
Qed.

Definition id : string := "u1".
Definition user : User := mkUser 7 (Some 7) None None (Some (Some Concrete.sdk7)).
Definition finished (name : string) : FileInfo := {|
  ti_ID := id; ti_Size := 10; ti_Offset := 10; ti_MetaData := {["filename" := name]};
  ti_Storage := {["Path" := "/up/u1"]} |}.

(** Nothing fails; every request is the user's. *)
Definition env (name : string) : GeoEnv unit := {|
  ge_fault _ := None; ge_user _ _ := (Some user, None); ge_info _ _ := inr (finished name);
  ge_lock := {| le_LockContext _ _ := None; le_Unlock _ _ := (true, None); le_done _ := false |} |}.

Definition cenv (analyzes : bool) : CarriageEnv := {|
  ce_fault _ := None;
  ce_analyze _ := if analyzes then (Some {| si_MIME := "video/mp4"; si_Extension := ".mp4"; si_MediaInfo := None |}, None)
                  else (None, Some (EText "EOF"));
  ce_split _ := inr {| ss_SdHash := bytes_of "sd"; ss_Hash := bytes_of "h"; ss_Size := 10 |};
  ce_upload _ := inr 0;
  ce_user _ _ := inr (Some "http://sdk7:5279") |}.

Definition files : FS := {["/up/u1"; "/up/u1.info"; "/etc/passwd"]}.
Definition locker : Locker := mkLocker ∅ [] 0.
Definition empty : Geo := mkGeo ∅ ∅ [] [] files locker 0.
Definition created := (onEvent (env "clip") (CreatedUploads tt (finished "clip")) empty).2.
Definition notified := Notify (env "clip") tt id "n" created.
Definition the_task : string * Task := default ("", Build_Task "" "") (head (g_tasks notified.2)).
End GeoEx.

Section witnesses.
Import GeoEx OracleInstances WalletDB.Concrete Ex.

Definition worked (analyzes : bool) : result error unit * (Geo * history) :=
  let o := free_oracle in
  let J : JSONMarshal := ex_marshal in
  ProcessTask (W:=history) cfg (cenv analyzes) "/blobs" the_task.2 (notified.2, []).

(** One upload, taken over and published: the task is there, and the one request
    to the SDK is its owner's. *)
Lemma geo_reachable_isolated_witness :
  let o := free_oracle in
  let J : JSONMarshal := ex_marshal in
  NoDup (g_tasks (worked true).2.1).*1 ∧ calls (worked true).2.2 = 1%nat ∧
  run_for_owner (worked true).2.1 (the_task.1, (worked true).2.2).
Proof.
  intros o J. destruct (worked true).2 as [s h] eqn:Hw.
  assert (rtc (geo_step o cfg (env "clip") (cenv true) "/blobs") (geo_start files locker) (s, [(the_task.1, h)])) as Hr.
  { eapply rtc_l; [apply (step_event o cfg (env "clip") (cenv true) "/blobs" (CreatedUploads tt (finished "clip")))|].
    eapply rtc_l; [apply (step_notify o cfg (env "clip") (cenv true) "/blobs" tt GeoEx.id "n")|].
    apply rtc_once. apply (step_task o cfg (env "clip") (cenv true) "/blobs" the_task notified.2 [] s h); [|exact Hw].
    assert (g_tasks notified.2 = [the_task]) as -> by (vm_compute; reflexivity). by apply list_elem_of_singleton. }
  destruct (geo_reachable_isolated o cfg (env "clip") (cenv true) "/blobs" files locker s _ Hr) as (_ & Hnd & _ & Hall).
  split; [exact Hnd|]. split; [|exact (proj1 (Forall_singleton _ _) Hall)].
  change h with (s, h).2. rewrite <-Hw. vm_compute. reflexivity.
Defined.

Lemma ProcessTask_reports_witness :
  let o := free_oracle in
  let J : JSONMarshal := ex_marshal in
  ∃ p, sent_result p notified.2 (worked true).2.1 true.
Proof.
  intros o J.
  assert (∃ p, unmarshal_payload (task_Payload the_task.2) = inr p) as [p Hp] by (eexists; vm_compute; reflexivity).
  exists p.
  pose proof (ProcessTask_reports (W:=history) cfg (cenv true) "/blobs" the_task.2 notified.2 [] p
    ltac:(done) ltac:(vm_compute; reflexivity) Hp) as H.
  assert ((worked true).1 = ROk tt) as Hok by (vm_compute; reflexivity).
  unfold worked in *. destruct (ProcessTask _ _ _ _ _) as [r [s' h']]. simpl in *. rewrite Hok in H. exact H.
Defined.

(** A file that cannot be analysed: the result has no answer. *)
Lemma status_after_result_witness :
  ∃ s1 w s2, onResult (env "clip") (worked false).2.1 = (ROk tt, s1) ∧
    Status (env "clip") tt GeoEx.id s1 = (ROk w, s2) ∧ w_status w = Some 202.
Proof.
  assert (∃ d, g_results (worked false).2.1 = [d]) as [d Hd] by (eexists; vm_compute; reflexivity).
  assert (d = "-u1") as -> by (vm_compute in Hd; by injection Hd as <-).
  assert (∃ u, g_uploads (worked false).2.1 !! GeoEx.id = Some u ∧ gu_UserID u = Some 7) as (u & Hu & Ho)
    by (eexists; split; [vm_compute; reflexivity|reflexivity]).
  assert (∃ q, g_queries (worked false).2.1 !! GeoEx.id = Some q ∧ pq_Status q = PQReceived) as (q & Hq & Hst)
    by (eexists; split; [vm_compute; reflexivity|reflexivity]).
  destruct (status_after_result (env "clip") ltac:(done) tt GeoEx.id "-u1" [] _ GeoEx.user (worked false).2.1 u q
    Hd eq_refl eq_refl ltac:(done) Hu Hq Hst ltac:(done) (λ _, Ho) ltac:(done)) as (s1 & w & s2 & H1 & H2 & -> & _).
  exists s1, (WriteHeader 202 newWriter), s2. split; [exact H1|]. split; [exact H2|reflexivity].
Defined.

Lemma upload_lands_in_own_dir_witness :
  dst_of GeoEx.user (finished "clip") "clip" "/up/u1" = "/up/7/u1/clip" ∧
  path_Dir "/up/7/u1/clip" = dstDir "/up" 7 "u1".
Proof.
  destruct (upload_lands_in_own_dir GeoEx.user (finished "clip") "clip" "/up/u1" eq_refl eq_refl) as [H1 H2].
  split; [exact H1|]. rewrite H1 in H2. exact H2.
Defined.

(** The file name is the client's, and nothing keeps it plain: a name with dot
    segments moves the upload out of the store. *)
Example file_name_escapes :
  dst_of GeoEx.user (finished "clip") "../../../etc/cron.d/job" "/up/u1" = "/etc/cron.d/job".
Proof. vm_compute. reflexivity. Qed.

(** The body of the request is read after the file was moved: a request with a
    malformed body is refused, and so is every later one, for the file is gone. *)
Definition refused := Notify (env "clip") tt GeoEx.id "" created.
Definition repeated := Notify (env "clip") tt GeoEx.id "n" refused.2.
Example refused_is_final :
  w_status <$> (match refused.1 with ROk w => Some w | _ => None end) = Some (Some 200) ∧
  w_status <$> (match repeated.1 with ROk w => Some w | _ => None end) = Some (Some 200) ∧
  length (g_tasks repeated.2) = 0%nat ∧ bool_decide ("/up/u1" ∈ g_files refused.2) = false.
Proof. split_and!; vm_compute; reflexivity. Qed.
End witnesses.
