(* ===== verification/Publish.v ===== *)
(** * The v1 and v2 publish handlers

    Models [app/publish]: the multipart handler, which saves an uploaded or
    remote file and sends the publish request to the user's SDK ([publish.go]),
    the tus handler, which does the same for a finished tus upload ([tus.go]),
    and the policy for repeating a download ([http.go]).

    The state is the set of files, the locks, the number of downloads started and
    of operations so far; an environment answers everything outside.  Metrics,
    log lines and Sentry reports about files are left out.

    Parameters: multipart parsing, URL parsing, the HTTP client, the tus store,
    JSON. *)

From S2P Require Import Prelude GoLib Rpc Errors Query Router Iapi Wallet Services Http Ip Auth Hashes Paid Caller Access Cache Call.
From S2P Require Import Proxy Asynquery Uploads Forklift Files Locks Geopublish.
From Stdlib Require Import Ascii.

Local Open Scope Z_scope.

Definition fetchTryLimit : Z := 5.

(** ** [http.go] *)

(** An error of the HTTP client: its text; for a [*url.Error], whether the
    certificate's authority was unknown. *)
Record clientError := {
  cl_text : string;
  cl_url : option bool;
}.

Fixpoint exists_suffix (p : string → bool) (s : string) : bool :=
  p s || match s with "" => false | String _ s' => exists_suffix p s' end.

Fixpoint drop_digits (s : string) : string :=
  match s with
  | String a s' => if bool_decide (is_Some (digit a)) then drop_digits s' else s
  | "" => ""
  end.

(** [stopped after \d+ redirects\z] *)
Definition redirectsErrorRe : string → bool :=
  exists_suffix (λ t,
    HasPrefix t "stopped after " &&
    let rest := TrimPrefix t "stopped after " in
    match rest with
    | String a _ => bool_decide (is_Some (digit a)) && String.eqb (drop_digits rest) " redirects"
    | "" => false
    end).
Definition schemeErrorRe (s : string) : bool := Contains s "unsupported protocol scheme".
Definition lookupHostErrorRe (s : string) : bool := Contains s "dial tcp: lookup".

Definition retryPolicy (ctxErr : option error) (statusCode : Z) (err : option clientError) : bool * option error :=
  match ctxErr with
  | Some e => (false, Some e)
  | None =>
      match err with
      | Some v =>
          match cl_url v with
          | Some unknownAuthority =>
              if redirectsErrorRe (cl_text v) then (false, Some (EText (cl_text v)))
              else if schemeErrorRe (cl_text v) then (false, Some (EText (cl_text v)))
              else if unknownAuthority then (false, Some (EText (cl_text v)))
              else if lookupHostErrorRe (cl_text v) then (false, Some (EText (cl_text v)))
              else (true, None)
          | None => (true, None)
          end
      | None =>
          if (statusCode =? 0) || ((500 <=? statusCode) && negb (statusCode =? 501))
          then (true, Some (EText ("unexpected HTTP status code " +:+ Itoa statusCode)))
          else (false, None)
      end
  end.

(** ** Errors of [fetchFile] *)

(** [*RequestError], [ErrEmptyRemoteURL] and the other [*FetchError]s. *)
Inductive fetchError :=
| RequestError (err : error) (msg : string)
| EmptyRemoteURL
| FetchError (url : string) (err : error).

Record PubEnv := {
  pe_fault : nat → option error;                            (* the n-th file operation fails *)
  pe_random : nat → string;                                 (* the name MkdirTemp makes up *)
  pe_newRequest : string → error + string;                  (* the path of the URL *)
  pe_fetch : nat → error + Fetched;                         (* the HTTP client's answer *)
  pe_copy : nat → error + Z;                                (* io.Copy of the form's file *)
  pe_timeout : nat → bool;                                  (* ctx.Done() *)
  pe_quote : string → string;                               (* %q *)
  pe_tus_info : nat → string → error + FileInfo;
  pe_lock : LockEnv;
}.

Record Pub := mkPub {
  pb_files : FS;
  pb_lock : Locker;
  pb_fetches : nat;
  pb_tick : nat;
}.

Definition pb_next (s : Pub) : Pub := mkPub (pb_files s) (pb_lock s) (pb_fetches s) (S (pb_tick s)).
Definition set_pb_files (fs : FS) (s : Pub) : Pub := mkPub fs (pb_lock s) (pb_fetches s) (pb_tick s).

(** What the multipart handler reads of a request. *)
Record Form := {
  fm_parse : option error;                 (* ParseMultipartForm *)
  fm_remote_url : string;
  fm_file : error + string;                (* FormFile: the name of the file *)
  fm_json : string;                        (* FormValue(json_payload) *)
  fm_user : userCtx;
  fm_hasCache : bool;
}.

(** [CanHandle] *)
Definition CanHandle (r : Form) : bool :=
  match fm_parse r with
  | Some _ => false
  | None => negb (String.eqb (fm_json r) "")
  end.

Section files.
Context (env : PubEnv) (uploadPath : string).

Definition fetchErrorText (e : fetchError) : string :=
  match e with
  | RequestError err msg => "request error: " +:+ pe_quote env msg +:+ " " +:+ Error err
  | EmptyRemoteURL => "fetch error on " +:+ pe_quote env "" +:+ ": empty remote url"
  | FetchError url err => "fetch error on " +:+ pe_quote env url +:+ ": " +:+ Error err
  end.

Definition pub_op {A} (f : nat → Pub → (error + A) * Pub) : Go Pub A :=
  λ s, match pe_fault env (pb_tick s) with
       | Some e => (RErr e, pb_next s)
       | None => match f (pb_tick s) s with
                 | (inl e, _) => (RErr e, pb_next s)
                 | (inr a, s') => (ROk a, pb_next s')
                 end
       end.

(** The name of the new file. *)
Definition createFile (userID : Z) (origFilename : string) : Go Pub string :=
  let dir := filepath_Join [uploadPath; Itoa userID] in
  pub_op (λ _ s, (inr tt, s)) ;;!
  let! randomDir := pub_op (λ n s, (inr (dir +:+ "/" +:+ pe_random env n), s)) in
  let name := filepath_Join [randomDir; origFilename] in
  pub_op (λ _ s, (inr tt, set_pb_files ({[name]} ∪ pb_files s) s)) ;;!
  ret name.

Definition saveFile (r : Form) (userID : Z) : Go Pub string :=
  match fm_file r with
  | inl err => fail err
  | inr filename =>
      let! f := createFile userID filename in
      let! _ := pub_op (λ n s, (pe_copy env n, s)) in
      pub_op (λ _ s, (inr tt, s)) ;;!
      ret f
  end.

(** The download; the errors of the two kinds are values. *)
Definition fetchFile (r : Form) (userID : Z) : Go Pub (fetchError + string) :=
  match fm_parse r with
  | Some err => ret (inl (RequestError err "invalid request payload"))
  | None =>
      let urlstring := fm_remote_url r in
      if String.eqb urlstring "" then ret (inl EmptyRemoteURL) else
      match pe_newRequest env urlstring with
      | inl err => ret (inl (FetchError urlstring (EWrapf "error creating request: " err "")))
      | inr p =>
          let fname := path_Base p in
          if String.eqb fname "/" || String.eqb fname "." || String.eqb fname "" then
            ret (inl (FetchError urlstring (EText "couldn't determine remote file name"))) else
          modify (λ s, mkPub (pb_files s) (pb_lock s) (S (pb_fetches s)) (pb_tick s)) ;;!
          let! resp := try (pub_op (λ n s, (pe_fetch env n, s))) in
          match resp with
          | inl err => ret (inl (FetchError urlstring err))
          | inr resp =>
              if negb (ft_Status resp =? 200) then
                ret (inl (FetchError urlstring
                       (EText ("remote server returned non-OK status " +:+ Itoa (ft_Status resp))))) else
              let! f := try (createFile userID fname) in
              match f with
              | inl err => ret (inl (FetchError urlstring err))
              | inr f =>
                  match ft_Copy resp with
                  | inl err => ret (inl (FetchError urlstring err))
                  | inr n =>
                      if n =? 0 then
                        try (pub_op (λ _ s, (inr tt, set_pb_files (pb_files s ∖ {[f]}) s))) ;;!
                        ret (inl (FetchError urlstring (EText "remote file is empty")))
                      else
                        let! c := try (pub_op (λ _ s, (inr tt, s))) in
                        match c with
                        | inl err => ret (inl (FetchError urlstring err))
                        | inr _ => ret (inr f)
                        end
                  end
              end
          end
      end
  end.

(** The [retry] label: the file to publish, or the error to answer with.  [left]
    is the number of tries after this one. *)
Fixpoint obtainFile (r : Form) (userID : Z) (left : nat) : Go Pub (error + string) :=
  let! res := fetchFile r userID in
  match res with
  | inr f => ret (inr f)
  | inl (RequestError err msg) => ret (inl (EText (fetchErrorText (RequestError err msg))))
  | inl EmptyRemoteURL => try (saveFile r userID)
  | inl (FetchError url err) =>
      match left with
      | O => ret (inl (EText (fetchErrorText (FetchError url err))))
      | S left' => obtainFile r userID left'
      end
  end.
End files.

(** [getCaller] *)
Definition getCaller (cfg : Config) (sdkAddress filename : string) (uid : Z) (hasCache : bool) : Caller :=
  let c := NewCaller cfg sdkAddress uid in
  let c := set_Cache hasCache c in
  AddPreflightHook AllMethodsHook (HSetFilePath filename) "" c.

Section handlers.
Context {W : Type} `{!Ljsonrpc, !MapOrder, !SDKClient W, !WalletService W, !Random W, !Monitor W,
  !Arweave W, !IAPITransport W, !IAPIDecoders, !Clock W, !ECDSA, !PaidTokens W,
  !ClaimDecoder, !URLParser, !SearchDecoder, !JSONMarshal, !CacheStore W,
  !RequestDecoder, !ResponseEncoder}.
Context (cfg : Config) (env : PubEnv) (uploadPath : string).

(** [w.Write(rpcerrors.NewInternalError(err).JSON())] and the like. *)
Definition write_error (err : error) : Writer := WriteBody (CJSON (ErrorToJSON (Some err))) newWriter.
Definition write_internal (err : error) : Writer := write_error (NewInternalError (Some err)).

Definition noSDKAddress : error := Errs "user does not have sdk address assigned".

Definition pub_RemoveAll (p : string) : Go Pub unit :=
  pub_op env (λ _ s, (inr tt, set_pb_files (fs_RemoveAll p (pb_files s)) s)).

(** The call and its answer. *)
Definition callAndAnswer (c : Caller) (ctx : userCtx) (rpcReq : RPCRequest) : Go W (error + list chunk) :=
  let! res := try (run_caller c (Caller_Call cfg ctx rpcReq)) in
  match res with
  | inl err => ErrorToSentry (Some (EText ("error calling publish: " +:+ Error err))) ;;! ret (inl err)
  | inr rpcRes =>
      match JSONRPCSerialize rpcRes with
      | inl err => ErrorToSentry (Some err) ;;! ret (inl (NewInternalError (Some err)))
      | inr serialized => ret (inr serialized)
      end
  end.

Definition write_chunks (cs : list chunk) : Writer :=
  match cs with
  | [] => WriteHeader 200 newWriter
  | ch :: _ => WriteBody ch newWriter
  end.

(** With the file at hand. *)
Definition Handle_file (r : Form) (user : User) (name : string) : Go (Pub * W) Writer :=
  match decode_Request (fm_json r) with
  | inl err => ret (write_error (NewInvalidParamsError err))
  | inr None => gopanic "nil pointer dereference"
  | inr (Some rpcReq) =>
      let c := getCaller cfg (GetSDKAddress (Some user)) name (user_ID user) (fm_hasCache r) in
      match as_map (Params rpcReq) with
      | None => ret (write_error (NewInvalidParamsError (EText "cannot parse params")))
      | Some params =>
          let! res := on_snd (callAndAnswer c (fm_user r) (asUpdate rpcReq params)) in
          match res with
          | inl err => ret (write_error err)
          | inr serialized => ret (write_chunks serialized)
          end
      end
  end.

Definition Publish_Handle (r : Form) : Go (Pub * W) Writer :=
  let '(user, err) := FromRequest (fm_user r) in
  match GetAuthError user err, user with
  | Some authErr, _ => ret (write_error authErr)
  | None, None =>
      (* sdkrouter.GetSDKAddress(nil) is empty; the log line reads user.ID *)
      gopanic "nil pointer dereference"
  | None, Some user =>
      if String.eqb (GetSDKAddress (Some user)) "" then ret (write_internal noSDKAddress) else
      let! f := on_fst (obtainFile env uploadPath r (user_ID user) (Z.to_nat (fetchTryLimit - 1))) in
      match f with
      | inl err => ret (write_internal err)
      | inr name =>
          let! late := on_fst (gets (λ s, pe_timeout env (pb_tick s))) in
          if (late : bool) then ret (write_internal (EText "context deadline exceeded")) else
          deferred (on_fst (pub_RemoveAll (path_Dir name))) (Handle_file r user name)
      end
  end.

(** ** [tus.go] *)

Record TusRequest := {
  tr_header : Header;
  tr_remote : string;
  tr_id : string;
  tr_body : string;
  tr_user : userCtx;
  tr_hasCache : bool;
}.

Definition multiAuthUser (auther : Authenticator W) (provider : Provider W) (h : Header) (remoteAddr : string)
  : Go W User :=
  match au_GetTokenFromRequest auther h with
  | ROk token =>
      let! r := au_Authenticate auther token (ForRequest h remoteAddr) in
      match r with
      | (_, Some err) => fail err
      | (None, None) => fail ErrNoAuthInfo
      | (Some user, None) => ret user
      end
  | RErr err =>
      if Is err "wallet.ErrNoAuthInfo" then
        match h !! LegacyTokenHeader with
        | Some (token :: _) =>
            let! r := provider token (ForRequest h remoteAddr) in
            match r with
            | (_, Some err) => fail err
            | (None, None) => fail ErrNoAuthInfo
            | (Some user, None) => ret user
            end
        | Some [] => gopanic "index out of range"
        | None => fail (Err ErrNoAuthInfo)
        end
      else fail err
  | RPanic w => gopanic w
  end.

Definition inPubLock {A} (c : Go Locker A) : Go Pub A :=
  λ s, let '(r, l) := c (pb_lock s) in (r, mkPub (pb_files s) l (pb_fetches s) (pb_tick s)).

Definition tus_lockUpload (id : string) : Go Pub unit :=
  λ s, inPubLock (Lock (pe_lock env) id (pb_tick s)) s.

(** From the move of the file to the answer. *)
Definition Tus_file (r : TusRequest) (user : User) (info : FileInfo) (origUploadName origUploadPath : string)
  : Go (Pub * W) Writer :=
  let dir := path_Dir origUploadPath in
  let dst := dstDir dir (user_ID user) (ti_ID info) in
  let! m := try (on_fst (pub_op env (λ _ s, (inr tt, s)))) in
  match m with
  | inl err => ret (write_error err)
  | inr _ =>
      let dstFilepath := filepath_Join [dst; origUploadName] in
      let! m := try (on_fst (pub_op env (λ _ s, match fs_Rename origUploadPath dstFilepath (pb_files s) with
                                                | Some fs => (inr tt, set_pb_files fs s)
                                                | None => (inl (EText "no such file or directory"), s)
                                                end))) in
      match m with
      | inl err => ret (write_error err)
      | inr _ =>
          match decode_Request (tr_body r) with
          | inl err => ret (write_error (NewJSONParseError err))
          | inr None => gopanic "nil pointer dereference"
          | inr (Some rpcReq) =>
              match as_map (Params rpcReq) with
              | None => ret (write_error (NewInvalidParamsError (EText "cannot parse params")))
              | Some params =>
                  let c := getCaller cfg (GetSDKAddress (Some user)) dstFilepath (user_ID user) (tr_hasCache r) in
                  let! res := on_snd (callAndAnswer c (tr_user r) (asUpdate rpcReq params)) in
                  match res with
                  | inl err => ret (write_error err)
                  | inr serialized =>
                      let infoFile := filepath_Join [dir; ti_ID info] +:+ ".info" in
                      try (on_fst (pub_op env (λ _ s, match fs_Remove infoFile (pb_files s) with
                                                      | Some fs => (inr tt, set_pb_files fs s)
                                                      | None => (inl (EText "no such file or directory"), s)
                                                      end))) ;;!
                      try (on_fst (pub_RemoveAll dst)) ;;!
                      ret (write_chunks serialized)
                  end
              end
          end
      end
  end.

Definition Tus_upload (r : TusRequest) (user : User) : Go (Pub * W) Writer :=
  let! info := try (on_fst (pub_op env (λ n s, (pe_tus_info env n (tr_id r), s)))) in
  match info with
  | inl err => ret (write_internal err)
  | inr info =>
      if negb (ti_Offset info =? ti_Size info) then ret (write_error (EText "upload is still in process")) else
      if bool_decide (ti_MetaData info = ∅) then ret (write_error (EText "file metadata is required")) else
      let origUploadName := default "" (ti_MetaData info !! "filename") in
      if String.eqb origUploadName "" then ret (write_error (EText "file name is required")) else
      let origUploadPath := default "" (ti_Storage info !! "Path") in
      if String.eqb origUploadPath "" then ret (WriteBody (CJSON (ErrorToJSON None)) newWriter) else
      Tus_file r user info origUploadName origUploadPath
  end.

Definition Tus_Notify (auther : Authenticator W) (provider : Provider W) (usesLocker : bool) (r : TusRequest)
  : Go (Pub * W) Writer :=
  let! u := try (on_snd (multiAuthUser auther provider (tr_header r) (tr_remote r))) in
  match u with
  | inl authErr => ret (write_error authErr)
  | inr user =>
      if String.eqb (GetSDKAddress (Some user)) "" then ret (write_internal noSDKAddress) else
      if String.eqb (tr_id r) "" then ret (write_error (NewInvalidParamsError (EText "file id is required"))) else
      if usesLocker then
        let! l := try (on_fst (tus_lockUpload (tr_id r))) in
        match l with
        | inl err => ret (write_internal err)
        | inr _ => deferred (on_fst (inPubLock (Unlock (pe_lock env) (tr_id r)))) (Tus_upload r user)
        end
      else Tus_upload r user
  end.
End handlers.
