(* ===== verification/PublishSpec.v ===== *)
(** * Properties of the v1 and v2 publish handlers *)

From S2P Require Import Prelude GoLib Rpc Errors Query Router Iapi Wallet Services Http Ip Auth Hashes Paid Caller Access AccessSpec Cache CacheSpec Call CallSpec.
From S2P Require Import WalletDB Proxy Asynquery AsynquerySpec Uploads Forklift Files Locks Geopublish Carriage GeopublishSpec Publish.

Local Open Scope Z_scope.

(** ** Downloads *)

Section downloads.
Context (env : PubEnv) (uploadPath : string).

(** At most [n] downloads are started. *)
Definition within (n : nat) : relation Pub := λ s s', (pb_fetches s <= pb_fetches s' <= n + pb_fetches s)%nat.

#[export] Instance within_preorder : PreOrder (within 0).
Proof. split; [intros s; unfold within; lia|]. intros s1 s2 s3. unfold within. lia. Qed.

Lemma within_op {A} (f : nat → Pub → (error + A) * Pub) :
  (∀ n s a s', f n s = (inr a, s') → pb_fetches s' = pb_fetches s) → extends (within 0) (pub_op env f).
Proof.
  intros Hf s. unfold pub_op, within. destruct (pe_fault env (pb_tick s)); [simpl; lia|].
  destruct (f _ s) as [[e|a] s'] eqn:E; simpl; [lia|]. apply Hf in E. lia.
Qed.

Ltac no_download := let Heq := fresh "Heq" in apply within_op; intros ? ? ? ? Heq; by injection Heq as _ <-.

Lemma createFile_within uid name : extends (within 0) (createFile env uploadPath uid name).
Proof. unfold createFile. go_paths; no_download. Qed.
#[local] Hint Resolve createFile_within : go.

Lemma saveFile_within r uid : extends (within 0) (saveFile env uploadPath r uid).
Proof. unfold saveFile. go_paths; no_download. Qed.

Lemma fetchFile_within r uid s : within 1 s (fetchFile env uploadPath r uid s).2.
Proof.
  unfold fetchFile. destruct (fm_parse r); [unfold within; simpl; lia|].
  destruct (String.eqb _ _); [unfold within; simpl; lia|].
  destruct (pe_newRequest env _) as [e|p]; [unfold within; simpl; lia|]. cbv zeta.
  destruct (_ || _); [unfold within; simpl; lia|].
  unfold bind at 1. simpl. set (s1 := mkPub _ _ _ _).
  match goal with |- within 1 s (?m s1).2 => assert (extends (within 0) m) as He end.
  { go_paths; no_download. }
  specialize (He s1). unfold within in *. simpl in *. lia.
Qed.

Lemma fetchFile_silent r uid s : fm_remote_url r = "" → within 0 s (fetchFile env uploadPath r uid s).2.
Proof. intros Hu. unfold fetchFile. rewrite Hu. destruct (fm_parse r); unfold within; simpl; lia. Qed.

Lemma obtainFile_within r uid left s : within (S left) s (obtainFile env uploadPath r uid left s).2.
Proof.
  revert s. induction left as [|left IH]; intros s; cbn [obtainFile]; unfold bind at 1;
    pose proof (fetchFile_within r uid s) as Hf; destruct (fetchFile _ _ _ _ _) as [[[e|f]|e|w] s1]; simpl in *;
    try (unfold within in *; lia).
  - destruct e as [err msg| |url err]; try (unfold within in *; simpl; lia).
    pose proof (extends_try _ _ (saveFile_within r uid) s1) as Hs. unfold within in *. lia.
  - destruct e as [err msg| |url err]; try (unfold within in *; simpl; lia).
    + pose proof (extends_try _ _ (saveFile_within r uid) s1) as Hs. unfold within in *. lia.
    + specialize (IH s1). unfold within in *. lia.
Qed.
End downloads.

(** ** What the SDK is sent *)

(** No built-in hook looks at the method. *)
Definition unhooked (m : string) : bool :=
  forallb (λ k, negb (isMatchingHook m (mkHook k HCache ""))) [MethodStatus; MethodGet; MethodClaimSearch; MethodResolve].

(** The file the request is for. *)
Definition with_file (m name : string) (rq : RPCRequest) : Prop :=
  Method rq = m ∧ ∃ ps, as_map (Params rq) = Some ps ∧ ps !! fileNameParam = Some (VStr name).

Section sent.
Import OracleInstances.
Context (o : Oracle) `{!Ljsonrpc, !MapOrder, !IAPIDecoders, !ECDSA, !ClaimDecoder, !URLParser,
  !SearchDecoder, !JSONMarshal, !RequestDecoder, !ResponseEncoder}.
Context (cfg : Config).

Lemma getCaller_wallet a name uid b : caller_wallet (getCaller cfg a name uid b) = user_wallet uid.
Proof. unfold getCaller, NewCaller, addDefaultHooks. by destruct (ArfleetEnabled cfg). Qed.

Lemma getCaller_hooks a name uid b :
  ∃ hs, preflightHooks (getCaller cfg a name uid b) = hs ++ [mkHook AllMethodsHook (HSetFilePath name) ""] ∧
    Forall (λ h, hk_method h ∈ [MethodStatus; MethodGet; MethodClaimSearch; MethodResolve]) hs.
Proof.
  unfold getCaller, NewCaller, addDefaultHooks.
  destruct (ArfleetEnabled cfg); (eexists; split; [reflexivity|]); repeat constructor; set_solver.
Qed.

Lemma applyPreflight_skip ctx hs hs' q s :
  Forall (λ h, isMatchingHook (q_Method q) h = false) hs →
  applyPreflight (W:=history) cfg ctx (hs ++ hs') q s = applyPreflight cfg ctx hs' q s.
Proof. induction 1 as [|h hs Hh _ IH]; [done|]. simpl. by rewrite Hh. Qed.

Lemma getCaller_preflight ctx a name uid b q s :
  unhooked (q_Method q) = true →
  applyPreflight (W:=history) cfg ctx (preflightHooks (getCaller cfg a name uid b)) q s =
    match ParamsAsMap q with
    | None => (RPanic "assignment to entry in nil map", s)
    | Some ps => (ROk (put_params q (<[fileNameParam := VStr name]> ps), None), s)
    end.
Proof.
  intros Hun. destruct (getCaller_hooks a name uid b) as (hs & -> & Hhs). rewrite applyPreflight_skip.
  - simpl. unfold bind, try. simpl. by destruct (ParamsAsMap q).
  - eapply Forall_impl; [exact Hhs|]. intros [m f n] Hm. simpl in *.
    unfold unhooked in Hun. rewrite forallb_forall in Hun.
    apply list_elem_of_In in Hm. specialize (Hun m Hm). by apply negb_true_iff in Hun.
Qed.

(** What may be sent for a publish request: bound to the wallet of the user, and
    for the saved file unless a built-in hook looks at the method. *)
Definition publish_ok (uid : Z) (req : RPCRequest) (name : string) (rq : RPCRequest) : Prop :=
  request_bound (user_wallet uid) (param req ParamWalletID) rq ∧
  (unhooked (Method req) = true → with_file (Method req) name rq).

Lemma call_publish_sends ctx a name uid b req h :
  sends (publish_ok uid req name) h
    (call (W:=history) cfg ctx req (getCaller cfg a name uid b, h)).2.2.
Proof.
  destruct (unhooked (Method req)) eqn:Hun.
  2: { eapply sends_mono; [|pose proof (call_bound o cfg ctx req (getCaller cfg a name uid b, h)) as Hs;
         simpl in Hs; rewrite getCaller_wallet in Hs; exact Hs].
       intros rq Hok. split; [done|]. by rewrite Hun. }
  unfold call. rewrite (bind_ok _ _ _ (getCaller cfg a name uid b) (getCaller cfg a name uid b, h)) by done.
  case_bool_decide; [reflexivity|]. fold (caller_wallet (getCaller cfg a name uid b)). rewrite getCaller_wallet.
  destruct (NewQuery req (user_wallet uid)) as [q|e|p] eqn:Hq; unfold bind at 1, lift; [|reflexivity..].
  pose proof (NewQuery_bound _ _ _ Hq) as Hok. destruct (NewQuery_keeps _ _ _ Hq) as [Hm _].
  unfold bind. rewrite getCaller_preflight by (unfold q_Method; by rewrite Hm).
  pose proof (applyPreflight_bound o cfg ctx (user_wallet uid) _ (preflightHooks (getCaller cfg a name uid b)) q
    (getCaller cfg a name uid b, h) Hok) as Hpre.
  rewrite getCaller_preflight in Hpre by (unfold q_Method; by rewrite Hm).
  destruct (ParamsAsMap q) as [ps|]; [|reflexivity]. destruct Hpre as [_ Hq1].
  destruct (Hq1 _ _ eq_refl) as [_ Hrq].
  pose proof (SendQuery_sends o cfg (publish_ok uid req name)
    (put_params q (<[fileNameParam := VStr name]> ps))) as Hsend.
  apply (Hsend (conj Hrq (λ _, conj Hm (ex_intro _ _ (conj eq_refl (lookup_insert_eq _ _ _))))) (getCaller cfg a name uid b, h)).
Qed.

Lemma callAndAnswer_sends ctx a name uid b req :
  extends (sends (publish_ok uid req name))
    (callAndAnswer (W:=history) cfg (getCaller cfg a name uid b) ctx req).
Proof.
  unfold callAndAnswer. go_paths; try apply sends_sentry. intros h. unfold run_caller, Caller_Call.
  pose proof (call_publish_sends ctx a name uid b req h) as Hs. by destruct (call _ _ _ _) as [? [? ?]].
Qed.

Context (env : PubEnv) (uploadPath : string).

(** Both parts of the state. *)
Definition psends (P : RPCRequest → Prop) : relation (Pub * history) := λ x y, sends P x.2 y.2.
#[export] Instance psends_preorder P : PreOrder (psends P).
Proof.
  split; [intros x; unfold psends; reflexivity|]. intros x y z Hxy Hyz. unfold psends in *. by etrans.
Qed.
Lemma psends_fst {A} P (c : Go Pub A) : extends (psends P) (on_fst c : Go (Pub * history) A).
Proof. intros [s h]. unfold on_fst, psends. destruct (c s). simpl. reflexivity. Qed.
Lemma psends_snd {A} P (c : Go history A) : extends (sends P) c → extends (psends P) (on_snd c : Go (Pub * history) A).
Proof. intros Hc [s h]. specialize (Hc h). unfold on_snd. by destruct (c h). Qed.
#[local] Hint Resolve psends_fst : go.

(** The request a body holds, as it is sent. *)
Definition publishes (body : string) (uid : Z) (name : string) (rq : RPCRequest) : Prop :=
  ∃ req params, decode_Request body = inr (Some req) ∧ as_map (Params req) = Some params ∧
    publish_ok uid (asUpdate req params) name rq.

Lemma publishes_call {A} body uid name a b ctx req params (k : error + list chunk → Go (Pub * history) A) :
  decode_Request body = inr (Some req) → as_map (Params req) = Some params →
  (∀ x, extends (psends (publishes body uid name)) (k x)) →
  extends (psends (publishes body uid name))
    (let! res := on_snd (callAndAnswer (W:=history) cfg (getCaller cfg a name uid b) ctx (asUpdate req params)) in k res).
Proof.
  intros Hd Hp Hk. go_paths. apply psends_snd. intros h.
  eapply sends_mono; [|apply callAndAnswer_sends]. intros rq Hok. by exists req, params.
Qed.

Lemma Handle_file_sends r user name :
  extends (psends (publishes (fm_json r) (user_ID user) name)) (Handle_file (W:=history) cfg r user name).
Proof.
  unfold Handle_file. destruct (decode_Request (fm_json r)) as [e|[req|]] eqn:Hd; [go_paths| |go_paths].
  destruct (as_map (Params req)) as [params|] eqn:Hp; [|go_paths].
  apply publishes_call; [done..|]. intros x. go_paths.
Qed.

Lemma Tus_file_sends r user info name path :
  extends (psends (publishes (tr_body r) (user_ID user) (dst_of user info name path)))
    (Tus_file (W:=history) cfg env r user info name path).
Proof.
  unfold Tus_file. fold (dst_of user info name path). cbv zeta.
  refine (extends_bind _ _ _ _ (λ m, _)); [go_paths|]. destruct m; [go_paths|].
  refine (extends_bind _ _ _ _ (λ m, _)); [go_paths|]. destruct m; [go_paths|].
  destruct (decode_Request (tr_body r)) as [e'|[req|]] eqn:Hd; [go_paths| |go_paths].
  destruct (as_map (Params req)) as [params|] eqn:Hp; [|go_paths].
  apply publishes_call; [done..|]. intros x. go_paths.
Qed.

(** A finished tus upload is published for its user, under the path it was moved
    to. *)
Lemma Tus_upload_sends r user :
  extends (psends (λ rq, ∃ info name path, ti_Offset info = ti_Size info ∧ ti_MetaData info !! "filename" = Some name ∧
      publishes (tr_body r) (user_ID user) (dst_of user info name path) rq))
    (Tus_upload (W:=history) cfg env r user).
Proof.
  unfold Tus_upload. refine (extends_bind _ _ _ _ (λ m, _)); [go_paths|]. destruct m as [e|info]; [go_paths|].
  destruct (ti_Offset info =? ti_Size info) eqn:Hsz; cbn [negb]; [|go_paths]. apply Z.eqb_eq in Hsz.
  case_bool_decide; [go_paths|]. cbv zeta.
  destruct (String.eqb (default "" (ti_MetaData info !! "filename")) "") eqn:Hn; [go_paths|].
  apply default_nonempty in Hn as (name & Hn & _). rewrite Hn. simpl.
  destruct (String.eqb _ ""); [go_paths|]. intros x.
  eapply sends_mono; [|apply Tus_file_sends]. intros rq Hrq. eauto 10.
Qed.

Lemma Handle_file_pub r user name s h : (Handle_file (W:=history) cfg r user name (s, h)).2.1 = s.
Proof.
  unfold Handle_file. destruct (decode_Request _) as [e|[req|]]; [done| |done].
  destruct (as_map _); [|done]. unfold bind, on_snd. destruct (callAndAnswer _ _ _ _ _) as [[[e|x]|e|w] h']; done.
Qed.

(** C18: The multipart handler downloads and publishes within its bounds. Whatever
    the client, the remote server, the file system and the SDK do, a request starts
    at most five downloads ([fetchTryLimit]); every request sent to an SDK is made
    for the authenticated user of the request, who has an SDK assigned, stems from
    the JSON payload (a publish of an existing claim turned into an update), and
    carries this user's wallet id if its method accepts a wallet; the relaxed
    methods that take none carry no wallet id or the payload's.  Unless the payload's method is one a
    built-in hook looks at ([get], [resolve], [claim_search], [status]), every request
    has the payload's method and carries the path of the file the handler saved,
    whatever [file_path] the client sent; for those four nothing is said of the path. *)
Theorem publish_acts_for_user r s h :
  let '(_, (s', h')) := Publish_Handle (W:=history) cfg env uploadPath r (s, h) in
  (pb_fetches s' <= Z.to_nat fetchTryLimit + pb_fetches s)%nat ∧
  ∃ evs, h' = h ++ evs ∧ ∀ ep rq x, EvCall ep rq x ∈ evs →
    ∃ user name s1, FromRequest (fm_user r) = (Some user, None) ∧ GetSDKAddress (Some user) ≠ "" ∧
      obtainFile env uploadPath r (user_ID user) (Z.to_nat (fetchTryLimit - 1)) s = (ROk (inr name), s1) ∧
      publishes (fm_json r) (user_ID user) name rq.
Proof.
  set (P rq := ∃ user name s1, FromRequest (fm_user r) = (Some user, None) ∧ GetSDKAddress (Some user) ≠ "" ∧
    obtainFile env uploadPath r (user_ID user) (Z.to_nat (fetchTryLimit - 1)) s = (ROk (inr name), s1) ∧
    publishes (fm_json r) (user_ID user) name rq).
  assert (wp (Publish_Handle (W:=history) cfg env uploadPath r)
    (λ _ x, (pb_fetches x.1 <= 5 + pb_fetches s)%nat ∧ sends P h x.2) (s, h)) as Hwp.
  2: { unfold wp in Hwp. by destruct (Publish_Handle _ _ _ _ _) as [? [? ?]]. }
  unfold Publish_Handle. destruct (FromRequest (fm_user r)) as [user err] eqn:Hu. unfold GetAuthError.
  go_wp; simplify_eq; try (split; [simpl; lia|reflexivity]).
  destruct err; [done|]. apply String.eqb_neq in E1. unfold wp, on_fst.
  pose proof (obtainFile_within env uploadPath r (user_ID u) 4 s) as Hw. unfold within in Hw.
  change (Z.to_nat (fetchTryLimit - 1)) with 4%nat in *.
  destruct (obtainFile _ _ _ _ _ s) as [[[e|name]|e|w] s1] eqn:Hob; simpl in Hw; try (split; [simpl; lia|reflexivity]).
  simpl. unfold bind, gets. destruct (pe_timeout env (pb_tick s1)); [split; [simpl; lia|reflexivity]|].
  unfold deferred. pose proof (Handle_file_pub r u name s1 h) as Hpub.
  pose proof (Handle_file_sends r u name (s1, h)) as Hs. unfold psends in Hs.
  destruct (Handle_file _ _ _ _ _) as [out [s2 h2]]. simpl in *. subst s2. unfold on_fst.
  assert (extends (within 0) (pub_RemoveAll env (path_Dir name))) as Hrm.
  { apply within_op. intros ? ? ? ? Heq. by injection Heq as _ <-. }
  specialize (Hrm s1). unfold within in Hrm. destruct (pub_RemoveAll _ _ s1) as [x s3]. simpl in *.
  split; [lia|]. eapply sends_mono; [|exact Hs]. intros rq Hrq. exists u, name, s1. auto.
Qed.
End sent.

(** ** Authentication *)

(** The tus handler's own authentication is that of the shared user getter:
    for every request, authenticator, provider and state of the world, both give
    the same user or the same error and have the same effects. *)
Theorem multiAuthUser_agrees {W : Type} (auther : Authenticator W) (provider : Provider W) h remote w :
  multiAuthUser auther provider h remote w = UniversalFromRequest auther provider h remote w.
Proof.
  unfold multiAuthUser, UniversalFromRequest.
  destruct (au_GetTokenFromRequest auther h) as [t|e|p]; [| |done].
  - unfold bind. by destruct (au_Authenticate _ _ _ w) as [[[[u|] [e|]]|e|p] w'].
  - destruct (Is e _); [|done]. destruct (h !! LegacyTokenHeader) as [[|t l]|]; [done| |done].
    unfold bind. by destruct (provider _ _ w) as [[[[u|] [e'|]]|e'|p] w'].
Qed.

(** ** Files *)

Section cleanup.
Context {W : Type} `{!Ljsonrpc, !MapOrder, !SDKClient W, !WalletService W, !Random W, !Monitor W,
  !Arweave W, !IAPITransport W, !IAPIDecoders, !Clock W, !ECDSA, !PaidTokens W,
  !ClaimDecoder, !URLParser, !SearchDecoder, !JSONMarshal, !CacheStore W,
  !RequestDecoder, !ResponseEncoder}.
Context (cfg : Config) (env : PubEnv) (uploadPath : string).
Hypothesis no_faults : ∀ n, pe_fault env n = None.

Lemma pub_op_run {A} (f : nat → Pub → (error + A) * Pub) s :
  pub_op env f s = match f (pb_tick s) s with
                   | (inl e, _) => (RErr e, pb_next s)
                   | (inr a, s') => (ROk a, pb_next s')
                   end.
Proof. unfold pub_op. by rewrite no_faults. Qed.

(** The directory a file of the user is put in, at the step [n]. *)
Definition tempDir (uid : Z) (n : nat) : string :=
  path_Clean (filepath_Join [uploadPath; Itoa uid] +:+ "/" +:+ pe_random env n).

Lemma createFile_run uid fn s :
  uploadPath ≠ "" → plain fn = true →
  ∃ s', createFile env uploadPath uid fn s = (ROk (child (tempDir uid (S (pb_tick s))) fn), s') ∧
    pb_files s' = {[child (tempDir uid (S (pb_tick s))) fn]} ∪ pb_files s ∧ pb_tick s' = (3 + pb_tick s)%nat.
Proof.
  intros Hup Hfn. unfold createFile, bind. do 3 (rewrite pub_op_run; simpl).
  assert (∀ x, filepath_Join [x +:+ "/" +:+ pe_random env (S (pb_tick s)); fn] =
    child (path_Clean (x +:+ "/" +:+ pe_random env (S (pb_tick s)))) fn) as Hj.
  { intros x. apply filepath_Join_child; [by destruct x|done]. }
  rewrite Hj. eexists. split; [done|]. split; [done|]. simpl. lia.
Qed.

Lemma tempDir_not_root uid n : uploadPath ≠ "" → plain (pe_random env n) = true →
  String.eqb (tempDir uid n) "/" = false ∧ String.eqb (tempDir uid n) "." = false.
Proof.
  intros Hup Hr. unfold tempDir.
  rewrite (filepath_Join_child uploadPath (Itoa uid) Hup (Itoa_plain uid)).
  set (d := child (path_Clean uploadPath) (Itoa uid)).
  pose proof (Itoa_plain uid) as (Hi1 & Hi2 & Hi3 & Hi4)%plain_kept.
  pose proof (plain_kept _ Hr) as (Hr1 & Hr2 & Hr3 & Hr4).
  assert (d ≠ "") as Hd.
  { subst d. unfold child. destruct (String.eqb _ _); [done|]. destruct (String.eqb _ _); [done|].
    pose proof (path_Clean_nonempty uploadPath). by destruct (path_Clean uploadPath). }
  rewrite path_Clean_child by done. unfold child. destruct (String.eqb (path_Clean d) "/") eqn:E1.
  { by destruct (pe_random env n). }
  destruct (String.eqb (path_Clean d) ".") eqn:E2.
  { split; apply String.eqb_neq; [intros Heq; rewrite Heq in Hr4; done|done]. }
  pose proof (path_Clean_nonempty d) as Hne.
  split; apply String.eqb_neq; intros Heq; apply (f_equal String.length) in Heq; rewrite !length_app_str in Heq;
    destruct (path_Clean d); simpl in Heq; lia || done.
Qed.

Lemma under_child d fn : String.eqb d "/" = false → String.eqb d "." = false → under d (child d fn) = true.
Proof.
  intros Hr Hd. unfold child, under. rewrite Hr, Hd, app_assoc_str. rewrite HasPrefix_app. by rewrite orb_true_r.
Qed.

(** An uploaded form leaves no files behind. When nothing fails, the file of a
    form without a remote URL, with a plain name, is saved in a fresh directory of
    its user, and after the request the files are exactly those before it, whatever
    the payload is and whatever the SDK answers, panics included. *)
Theorem publish_leaves_no_files r s w user fn :
  uploadPath ≠ "" → (∀ n, plain (pe_random env n) = true) →
  (∀ n, pe_timeout env n = false) → (∀ n, ∃ k, pe_copy env n = inr k) →
  FromRequest (fm_user r) = (Some user, None) → GetSDKAddress (Some user) ≠ "" →
  fm_parse r = None → fm_remote_url r = "" → fm_file r = inr fn → plain fn = true →
  (∀ n p, p ∈ pb_files s → under (tempDir (user_ID user) n) p = false) →
  pb_files (Publish_Handle (W:=W) cfg env uploadPath r (s, w)).2.1 = pb_files s.
Proof.
  intros Hup Hrand Htime Hcopy Hu Hsdk%String.eqb_neq Hparse Hurl Hfile Hfn Hfresh.
  unfold Publish_Handle. rewrite Hu. unfold GetAuthError. rewrite Hsdk.
  destruct (createFile_run (user_ID user) fn s Hup Hfn) as (s1 & Hc & Hf1 & _).
  set (d := tempDir (user_ID user) (S (pb_tick s))) in *.
  assert (∃ s2, obtainFile env uploadPath r (user_ID user) (Z.to_nat (fetchTryLimit - 1)) s = (ROk (inr (child d fn)), s2) ∧
    pb_files s2 = {[child d fn]} ∪ pb_files s) as (s2 & Hob & Hf2).
  { change (Z.to_nat (fetchTryLimit - 1)) with 4%nat. cbn [obtainFile]. unfold fetchFile. rewrite Hparse, Hurl.
    cbn [String.eqb]. unfold bind at 1, ret at 1. unfold saveFile. rewrite Hfile. unfold try, bind. rewrite Hc.
    destruct (Hcopy (pb_tick s1)) as [k Hk]. rewrite pub_op_run, Hk. rewrite pub_op_run. eexists. split; [done|]. done. }
  unfold bind at 1, on_fst at 1. rewrite Hob. unfold bind, gets, on_fst at 1. rewrite Htime.
  unfold deferred. assert (∀ out x, Handle_file (W:=W) cfg r user (child d fn) (s2, w) = (out, x) → x.1 = s2) as Hpub.
  { unfold Handle_file. destruct (decode_Request _) as [e|[req|]]; [by intros ? ? [= _ <-]| |by intros ? ? [= _ <-]].
    destruct (as_map _); [|by intros ? ? [= _ <-]]. unfold bind, on_snd.
    destruct (callAndAnswer _ _ _ _ _) as [[[e|x]|e|q] h']; by intros ? ? [= _ <-]. }
  destruct (Handle_file _ _ _ _ _) as [out [s3 w3]]. specialize (Hpub _ _ eq_refl). simpl in Hpub. subst s3.
  unfold on_fst, pub_RemoveAll. rewrite pub_op_run. simpl. rewrite Hf2.
  pose proof (tempDir_not_root (user_ID user) (S (pb_tick s)) Hup (Hrand _)) as [Hd1 Hd2]. fold d in Hd1, Hd2.
  assert (path_Dir (child d fn) = d) as -> by by apply path_Dir_child.
  apply set_eq. intros p. unfold fs_RemoveAll. rewrite elem_of_filter, elem_of_union, elem_of_singleton. split.
  - intros [Hp [->|Hin]]; [by rewrite under_child in Hp|done].
  - intros Hin. split; [|by right]. by apply Hfresh.
Qed.
End cleanup.

(** ** Concrete runs *)

Module PubEx.
#[export] Instance decoder : RequestDecoder := λ b,
  inr (Some (mkRequest MethodStreamCreate (VMap {["name" := VStr b; "file_path" := VStr "/etc/passwd"]}) 1 "2.0")).
#[export] Instance encoder : ResponseEncoder := λ _, MOk.

Definition user : User := mkUser 7 (Some 7) None None (Some (Some Concrete.sdk7)).
Definition form (url : string) : Form := {|
  fm_parse := None; fm_remote_url := url; fm_file := inr "clip.mp4"; fm_json := "n";
  fm_user := Some (Some (NewCurrentUser (Some user) "203.0.113.9" None None)); fm_hasCache := false |}.

(** Downloads break off; a request is late or not. *)
Definition env (late : bool) : PubEnv := {|
  pe_fault _ := None; pe_random n := Itoa (Z.of_nat n); pe_newRequest _ := inr "/clip.mp4";
  pe_fetch _ := inr {| ft_Status := 200; ft_Copy := inl (EText "unexpected EOF") |};
  pe_copy _ := inr 10; pe_timeout _ := late; pe_quote s := s;
  pe_tus_info _ _ := inl (EText "not found");
  pe_lock := {| le_LockContext _ _ := None; le_Unlock _ _ := (true, None); le_done _ := false |} |}.
Definition store : Pub := mkPub ∅ (mkLocker ∅ [] 0) 0 0.
End PubEx.

Section witnesses.
Import PubEx OracleInstances WalletDB.Concrete Ex.

Definition handled (late : bool) (url : string) : result error Writer * (Pub * history) :=
  let o := free_oracle in
  let J : JSONMarshal := ex_marshal in
  Publish_Handle (W:=history) cfg (env late) "/up" (form url) (store, []).

Lemma publish_leaves_no_files_witness :
  let o := free_oracle in
  let J : JSONMarshal := ex_marshal in
  pb_files (handled false "").2.1 = pb_files store.
Proof.
  intros o J.
  apply (publish_leaves_no_files (W:=history) cfg (env false) "/up" ltac:(done) (form "") store [] PubEx.user "clip.mp4").
  - discriminate.
  - intros n. apply Itoa_plain.
  - reflexivity.
  - intros n. exists 10. reflexivity.
  - reflexivity.
  - vm_compute. discriminate.
  - reflexivity.
  - reflexivity.
  - reflexivity.
  - reflexivity.
  - intros n p Hp. by apply not_elem_of_empty in Hp.
Defined.

(** The one request to the SDK names the file the handler saved. *)
Example file_path_is_overwritten :
  let sent := omap (λ e, match e with EvCall _ rq _ => as_map (Params rq) | _ => None end) (handled false "").2.2 in
  (λ ps, map_get ps "file_path") <$> sent = [VStr "/up/7/1/clip.mp4"].
Proof. vm_compute. reflexivity. Qed.

(** A request that runs into the fifteen minutes leaves its file behind, and a
    download that breaks off leaves one file per attempt. *)
Example files_left_behind :
  size (pb_files (handled true "").2.1) = 1%nat ∧
  size (pb_files (handled false "https://example.com/clip.mp4").2.1) = 5%nat ∧
  pb_fetches (handled false "https://example.com/clip.mp4").2.1 = 5%nat.
Proof. split_and!; vm_compute; reflexivity. Qed.
End witnesses.
