(* ===== verification/Fileanalyzer.v ===== *)
(** * File types and media analysis

    Models [pkg/fileanalyzer]: the table of file types ([mime.go]) and the
    analysis of a file by its header, its name and ffprobe ([fileanalyzer.go]).
    [Analyze] gives what [Forklift.v] and [Carriage.v] take as the answer of their
    environment.

    Parameters: reading the file, the recognition of headers
    ([github.com/h2non/filetype]) and ffprobe. *)

From S2P Require Import Prelude GoLib Rpc Errors Uploads Forklift.
From Stdlib Require Import Ascii.

Local Open Scope Z_scope.

Record MediaType := { mt_MIME : string; mt_Name : string; mt_Extension : string }.

(** Extension, MIME type and kind. *)
Definition extensions : list (string * (string * string)) :=
  [
   (".a", ("application/octet-stream", "binary"));
   (".ai", ("application/postscript", "image"));
   (".aif", ("audio/x-aiff", "audio"));
   (".aifc", ("audio/x-aiff", "audio"));
   (".aiff", ("audio/x-aiff", "audio"));
   (".au", ("audio/basic", "audio"));
   (".avi", ("video/x-msvideo", "video"));
   (".bat", ("text/plain", "document"));
   (".bcpio", ("application/x-bcpio", "binary"));
   (".bin", ("application/octet-stream", "binary"));
   (".bmp", ("image/bmp", "image"));
   (".c", ("text/plain", "document"));
   (".cdf", ("application/x-netcdf", "binary"));
   (".cpio", ("application/x-cpio", "binary"));
   (".csh", ("application/x-csh", "binary"));
   (".css", ("text/css", "document"));
   (".csv", ("text/csv", "document"));
   (".dll", ("application/octet-stream", "binary"));
   (".doc", ("application/msword", "document"));
   (".dot", ("application/msword", "document"));
   (".dvi", ("application/x-dvi", "binary"));
   (".eml", ("message/rfc822", "document"));
   (".eps", ("application/postscript", "document"));
   (".epub", ("application/epub+zip", "document"));
   (".etx", ("text/x-setext", "document"));
   (".exe", ("application/octet-stream", "binary"));
   (".gif", ("image/gif", "image"));
   (".gtar", ("application/x-gtar", "binary"));
   (".h", ("text/plain", "document"));
   (".hdf", ("application/x-hdf", "binary"));
   (".htm", ("text/html", "document"));
   (".html", ("text/html", "document"));
   (".ico", ("image/vnd.microsoft.icon", "image"));
   (".ief", ("image/ief", "image"));
   (".iges", ("model/iges", "model"));
   (".jpe", ("image/jpeg", "image"));
   (".jpeg", ("image/jpeg", "image"));
   (".jpg", ("image/jpeg", "image"));
   (".js", ("application/javascript", "document"));
   (".json", ("application/json", "document"));
   (".ksh", ("text/plain", "document"));
   (".latex", ("application/x-latex", "binary"));
   (".m1v", ("video/mpeg", "video"));
   (".m3u", ("application/x-mpegurl", "audio"));
   (".m3u8", ("application/x-mpegurl", "video"));
   (".man", ("application/x-troff-man", "document"));
   (".markdown", ("text/markdown", "document"));
   (".md", ("text/markdown", "document"));
   (".me", ("application/x-troff-me", "binary"));
   (".mht", ("message/rfc822", "document"));
   (".mhtml", ("message/rfc822", "document"));
   (".mif", ("application/x-mif", "binary"));
   (".mov", ("video/quicktime", "video"));
   (".movie", ("video/x-sgi-movie", "video"));
   (".mp2", ("audio/mpeg", "audio"));
   (".mp3", ("audio/mpeg", "audio"));
   (".mp4", ("video/mp4", "video"));
   (".mpa", ("video/mpeg", "video"));
   (".mpd", ("application/dash+xml", "video"));
   (".mpe", ("video/mpeg", "video"));
   (".mpeg", ("video/mpeg", "video"));
   (".mpg", ("video/mpeg", "video"));
   (".ms", ("application/x-troff-ms", "binary"));
   (".m4s", ("video/iso.segment", "binary"));
   (".nc", ("application/x-netcdf", "binary"));
   (".nws", ("message/rfc822", "document"));
   (".o", ("application/octet-stream", "binary"));
   (".obj", ("application/octet-stream", "model"));
   (".oda", ("application/oda", "binary"));
   (".p12", ("application/x-pkcs12", "binary"));
   (".p7c", ("application/pkcs7-mime", "binary"));
   (".pbm", ("image/x-portable-bitmap", "image"));
   (".pdf", ("application/pdf", "document"));
   (".pfx", ("application/x-pkcs12", "binary"));
   (".pgm", ("image/x-portable-graymap", "image"));
   (".pl", ("text/plain", "document"));
   (".png", ("image/png", "image"));
   (".pnm", ("image/x-portable-anymap", "image"));
   (".pot", ("application/vnd.ms-powerpoint", "document"));
   (".ppa", ("application/vnd.ms-powerpoint", "document"));
   (".ppm", ("image/x-portable-pixmap", "image"));
   (".pps", ("application/vnd.ms-powerpoint", "document"));
   (".ppt", ("application/vnd.ms-powerpoint", "document"));
   (".ps", ("application/postscript", "document"));
   (".pwz", ("application/vnd.ms-powerpoint", "document"));
   (".py", ("text/x-python", "document"));
   (".pyc", ("application/x-python-code", "binary"));
   (".pyo", ("application/x-python-code", "binary"));
   (".qt", ("video/quicktime", "video"));
   (".ra", ("audio/x-pn-realaudio", "audio"));
   (".ram", ("application/x-pn-realaudio", "audio"));
   (".ras", ("image/x-cmu-raster", "image"));
   (".rdf", ("application/xml", "binary"));
   (".rgb", ("image/x-rgb", "image"));
   (".roff", ("application/x-troff", "binary"));
   (".rtx", ("text/richtext", "document"));
   (".sgm", ("text/x-sgml", "document"));
   (".sgml", ("text/x-sgml", "document"));
   (".sh", ("application/x-sh", "document"));
   (".shar", ("application/x-shar", "binary"));
   (".snd", ("audio/basic", "audio"));
   (".so", ("application/octet-stream", "binary"));
   (".src", ("application/x-wais-source", "binary"));
   (".stl", ("model/stl", "model"));
   (".sv4cpio", ("application/x-sv4cpio", "binary"));
   (".sv4crc", ("application/x-sv4crc", "binary"));
   (".svg", ("image/svg+xml", "image"));
   (".swf", ("application/x-shockwave-flash", "binary"));
   (".t", ("application/x-troff", "binary"));
   (".tar", ("application/x-tar", "binary"));
   (".tcl", ("application/x-tcl", "binary"));
   (".tex", ("application/x-tex", "binary"));
   (".texi", ("application/x-texinfo", "binary"));
   (".texinfo", ("application/x-texinfo", "binary"));
   (".tif", ("image/tiff", "image"));
   (".tiff", ("image/tiff", "image"));
   (".tr", ("application/x-troff", "binary"));
   (".ts", ("video/mp2t", "video"));
   (".tsv", ("text/tab-separated-values", "document"));
   (".txt", ("text/plain", "document"));
   (".ustar", ("application/x-ustar", "binary"));
   (".vcf", ("text/x-vcard", "document"));
   (".vtt", ("text/vtt", "document"));
   (".wav", ("audio/x-wav", "audio"));
   (".webm", ("video/webm", "video"));
   (".wiz", ("application/msword", "document"));
   (".wsdl", ("application/xml", "document"));
   (".xbm", ("image/x-xbitmap", "image"));
   (".xlb", ("application/vnd.ms-excel", "document"));
   (".xls", ("application/vnd.ms-excel", "document"));
   (".xml", ("text/xml", "document"));
   (".xpdl", ("application/xml", "document"));
   (".xpm", ("image/x-xpixmap", "image"));
   (".xsl", ("application/xml", "document"));
   (".xwd", ("image/x-xwindowdump", "image"));
   (".zip", ("application/zip", "binary"));
   (".cbr", ("application/vnd.comicbook-rar", "document"));
   (".cbz", ("application/vnd.comicbook+zip", "document"));
   (".flac", ("audio/flac", "audio"));
   (".lbry", ("application/x-ext-lbry", "document"));
   (".m4a", ("audio/mp4", "audio"));
   (".m4v", ("video/m4v", "video"));
   (".mid", ("audio/midi", "audio"));
   (".midi", ("audio/midi", "audio"));
   (".mkv", ("video/x-matroska", "video"));
   (".mobi", ("application/x-mobipocket-ebook", "document"));
   (".oga", ("audio/ogg", "audio"));
   (".ogv", ("video/ogg", "video"));
   (".ogg", ("video/ogg", "video"));
   (".pct", ("image/pict", "image"));
   (".pic", ("image/pict", "image"));
   (".pict", ("image/pict", "image"));
   (".prc", ("application/x-mobipocket-ebook", "document"));
   (".rtf", ("application/rtf", "document"));
   (".xul", ("text/xul", "document"));
   (".wmv", ("video/x-ms-wmv", "video"))
  ].

(** Detected extensions and the ones a file may have instead. *)
Definition synonyms (ext : string) : list string :=
  if String.eqb ext ".zip" then [".cbz"]
  else if String.eqb ext ".rar" then [".cbr"]
  else if String.eqb ext ".ar" then [".a"]
  else [].

Definition defaultType : MediaType :=
  {| mt_MIME := "application/octet-stream"; mt_Name := "binary"; mt_Extension := "" |}.

Fixpoint assoc {A} (k : string) (l : list (string * A)) : option A :=
  match l with
  | [] => None
  | (k', v) :: l' => if String.eqb k k' then Some v else assoc k l'
  end.

(** The zero value when the extension is not in the table. *)
Definition GetExtensionByType (t : string) : MediaType :=
  match assoc t extensions with
  | Some (mime, name) => {| mt_MIME := mime; mt_Name := name; mt_Extension := "" |}
  | None => {| mt_MIME := ""; mt_Name := ""; mt_Extension := "" |}
  end.

(** What ffprobe reports: the duration of the file, if it has a format, and its
    streams with codec type, width and height. *)
Record ProbeData := {
  pd_Duration : option Z;                           (* nanoseconds *)
  pd_Streams : list (string * (Z * Z));
}.

Section analyzer.
(** The extension of a recognised header, without a dot; [None] for
    [filetype.Unknown]. *)
Context (filetype_Match : list byte → option string).
(** The first bytes of a file, and ffprobe. *)
Context (read_header : string → error + list byte) (ProbeURL : string → error + ProbeData).

Definition DetectMediaType (header : list byte) (fileName : string) : MediaType :=
  let fileExt := path_Ext fileName in
  let detExt := match filetype_Match header with
                | None => fileExt
                | Some kind => kind
                end in
  let fileExt := if String.eqb detExt fileExt then fileExt
                 else if existsb (String.eqb fileExt) (synonyms detExt) then fileExt
                 else detExt in
  let fileExt := "." +:+ fileExt in
  match assoc fileExt extensions with
  | None => defaultType
  | Some (mime, name) => {| mt_MIME := mime; mt_Name := name; mt_Extension := fileExt |}
  end.

(** The media attributes, and the error that goes with them. *)
Definition DetectMediaInfo (t : MediaType) (realFilePath : string) : option (Z * Z * Z) * option error :=
  let name := mt_Name t in
  if negb (String.eqb name "video") && negb (String.eqb name "image") && negb (String.eqb name "audio") then
    (None, Some (EText ("no media info for '" +:+ name +:+ "' type")))
  else match ProbeURL realFilePath with
  | inl err => (None, Some (EWrapf "error running ffprobe: " err ""))
  | inr data =>
      match pd_Duration data with
      | None => (None, Some (EText "format data is missing from ffprobe results"))
      | Some duration =>
          if bool_decide (pd_Streams data = []) then
            (None, Some (EText "format data is missing from ffprobe results")) else
          let needStreamType := if String.eqb name "image" then "video" else name in
          match assoc needStreamType (pd_Streams data) with
          | None => (None, None)
          | Some (width, height) => (Some (Z.quot duration (10 ^ 9), width, height), None)
          end
      end
  end.

Definition Analyze (realFilePath fileName : string) : option StreamInfo * option error :=
  let fileName := if String.eqb fileName "" then path_Base realFilePath else fileName in
  match read_header realFilePath with
  | inl err => (None, Some err)
  | inr header =>
      let t := DetectMediaType header fileName in
      let '(info, err) := DetectMediaInfo t realFilePath in
      (Some {| si_MIME := mt_MIME t; si_Extension := mt_Extension t; si_MediaInfo := info |}, err)
  end.
End analyzer.

(** ** Properties *)

Lemma assoc_Some {A} k (l : list (string * A)) v : assoc k l = Some v → (k, v) ∈ l.
Proof.
  induction l as [|[k' v'] l IH]; [done|]. simpl. destruct (String.eqb k k') eqn:E; [|right; auto].
  apply String.eqb_eq in E as ->. intros [= ->]. by left.
Qed.

(** Every key of the table is a dot followed by something that is no dot. *)
Definition one_dot (k : string) : bool :=
  match k with
  | String a (String b _) => Ascii.eqb a "." && negb (Ascii.eqb b ".")
  | _ => false
  end.

Lemma extensions_one_dot k v : assoc k extensions = Some v → one_dot k = true.
Proof.
  intros Hk%assoc_Some. assert (forallb (λ e, one_dot e.1) extensions = true) as Hall by (vm_compute; reflexivity).
  rewrite forallb_forall in Hall. apply list_elem_of_In in Hk. by apply Hall in Hk.
Qed.

(** The table has no key twice, and only six kinds. *)
Lemma extensions_wf : NoDup extensions.*1 ∧
  Forall (λ e, e.2.2 ∈ ["binary"; "image"; "audio"; "video"; "document"; "model"]) extensions.
Proof. split; eapply bool_decide_unpack; vm_compute; exact I. Qed.

Lemma last_dot_dot s e : last_dot s = Some e → ∃ t, e = String "." t.
Proof.
  induction s as [|a s IH]; [done|]. simpl. destruct (last_dot s) as [e'|]; [auto|].
  destruct (Ascii.eqb a ".") eqn:Ea; intros [= <-]. apply Ascii.eqb_eq in Ea as ->. eauto.
Qed.

Lemma path_Ext_dot p : path_Ext p = "" ∨ ∃ t, path_Ext p = String "." t.
Proof.
  unfold path_Ext. destruct (reverse (Split p "/")) as [|seg l]; [by left|].
  destruct (last_dot seg) eqn:E; [right; by eapply last_dot_dot|by left].
Qed.

Lemma synonyms_dot ext : HasPrefix ext "." = false → synonyms ext = [].
Proof.
  intros Hd. unfold synonyms. repeat (destruct (String.eqb ext _) eqn:E; [apply String.eqb_eq in E; subst ext; done|clear E]).
  done.
Qed.

Section properties.
Context (filetype_Match : list byte → option string).
(** Extensions of recognised types are written without a dot. *)
Hypothesis no_dot : ∀ h k, filetype_Match h = Some k → k ≠ "" ∧ HasPrefix k "." = false.

(** The type of a file is decided by its header alone. A recognised header
    gives the entry of its extension, or the default type when the table has none;
    for every other file the result is [application/octet-stream], whatever the
    file's name is: the extension used as a fallback never matches the table,
    because a second dot is put in front of it, and the synonyms never apply. *)
Theorem DetectMediaType_by_header header fileName :
  DetectMediaType filetype_Match header fileName =
    match filetype_Match header with
    | None => defaultType
    | Some kind => match assoc ("." +:+ kind) extensions with
                   | None => defaultType
                   | Some (mime, name) => {| mt_MIME := mime; mt_Name := name; mt_Extension := "." +:+ kind |}
                   end
    end.
Proof.
  unfold DetectMediaType. destruct (filetype_Match header) as [kind|] eqn:Hk; cbv zeta.
  - destruct (no_dot _ _ Hk) as [Hne Hd].
    assert (String.eqb kind (path_Ext fileName) = false) as ->.
    { apply String.eqb_neq. intros ->. destruct (path_Ext_dot fileName) as [|[t Ht]]; [done|].
      rewrite Ht in Hd. simpl in Hd. by destruct t. }
    by rewrite synonyms_dot.
  - rewrite String.eqb_refl.
    destruct (assoc ("." +:+ path_Ext fileName) extensions) as [[mime name]|] eqn:Ha; [|done].
    apply extensions_one_dot in Ha. destruct (path_Ext_dot fileName) as [Hx|[t Hx]]; rewrite Hx in Ha; done.
Qed.

Context (read_header : string → error + list byte) (ProbeURL : string → error + ProbeData).

(** A result of the analysis is there exactly when the file could be read; it
    always has a MIME type of the table or the default one; media attributes come
    without an error, and only for video, image and audio. *)
Lemma Analyze_result path name :
  let '(info, err) := Analyze filetype_Match read_header ProbeURL path name in
  match info with
  | None => err ≠ None ∧ ∃ e, read_header path = inl e
  | Some i => (∃ h, read_header path = inr h) ∧
      (si_MIME i = mt_MIME defaultType ∨ ∃ ext kind, (ext, (si_MIME i, kind)) ∈ extensions ∧ si_Extension i = ext ∧
         (si_MediaInfo i ≠ None → kind ∈ ["video"; "image"; "audio"])) ∧
      (si_MediaInfo i ≠ None → err = None)
  end.
Proof.
  unfold Analyze. destruct (read_header path) as [e|h] eqn:Hr; [eauto|].
  set (fn := if String.eqb name "" then _ else _).
  assert (DetectMediaType filetype_Match h fn = defaultType ∨
    ∃ ext kind, (ext, (mt_MIME (DetectMediaType filetype_Match h fn), kind)) ∈ extensions ∧
      mt_Extension (DetectMediaType filetype_Match h fn) = ext ∧
      mt_Name (DetectMediaType filetype_Match h fn) = kind) as Ht.
  { rewrite DetectMediaType_by_header. destruct (filetype_Match h) as [k|]; [|by left].
    destruct (assoc _ _) as [[mime kind]|] eqn:Ha; [right|by left].
    exists ("." +:+ k), kind. by apply assoc_Some in Ha. }
  set (t := DetectMediaType _ _ _) in *.
  assert (∀ x err, DetectMediaInfo ProbeURL t path = (x, err) → x ≠ None →
    err = None ∧ mt_Name t ∈ ["video"; "image"; "audio"]) as Hi.
  { intros x err. unfold DetectMediaInfo. destruct (_ && _ && _) eqn:Hn; [by intros [= <- _]|].
    assert (mt_Name t ∈ ["video"; "image"; "audio"]) as Hin.
    { rewrite !andb_false_iff, !negb_false_iff, !String.eqb_eq in Hn. set_solver. }
    destruct (ProbeURL path) as [e|d]; [by intros [= <- _]|]. destruct (pd_Duration d); [|by intros [= <- _]].
    case_bool_decide; [by intros [= <- _]|].
    destruct (assoc _ _) as [[? ?]|]; [|by intros [= <- _]]. by intros [= _ <-]. }
  destruct (DetectMediaInfo ProbeURL t path) as [x err] eqn:Hx. simpl. split_and!; [eauto| |naive_solver].
  destruct Ht as [->|(ext & kind & H1 & H2 & H3)]; [by left|right].
  exists ext, kind. split_and!; [done..|]. subst kind. naive_solver.
Qed.
End properties.

(** A recogniser of archives and videos. *)
Definition known (h : list byte) : option string :=
  match string_of h with
  | String "P"%char _ => Some "zip"
  | String "f"%char _ => Some "mp4"
  | _ => None
  end.

Lemma known_no_dot h k : known h = Some k → k ≠ "" ∧ HasPrefix k "." = false.
Proof. unfold known. destruct (string_of h) as [|[[] [] [] [] [] [] [] []] ?]; intros [=]; by subst. Qed.

Lemma DetectMediaType_by_header_witness :
  mt_MIME (DetectMediaType known (bytes_of "ftypmp42") "clip") = "video/mp4" ∧
  mt_MIME (DetectMediaType known (bytes_of "hello") "readme.txt") = "application/octet-stream" ∧
  mt_MIME (DetectMediaType known (bytes_of "PK") "comic.cbz") = "application/zip".
Proof.
  split; [|split]; rewrite (DetectMediaType_by_header known known_no_dot); vm_compute; reflexivity.
Defined.
