(* ===== verification/Keybox.v ===== *)
(** * Upload tokens

    Models [pkg/keybox]: the keys and the tokens that let a client of the API
    upload files.  The API signs a token with the user's id ([Keyfob]), the upload
    service checks it ([Validator]).

    Parameters: elliptic curve keys with their encodings, PEM, and the JWT
    library; numbers and base64 are written out. *)

From S2P Require Import Prelude GoLib Rpc Errors Http Hashes Asynquery Uploads.
From Stdlib Require Import Ascii.

Local Open Scope Z_scope.

(** ** [strconv.Itoa] and [strconv.ParseInt] *)

Lemma digit_pretty n : (n < 10)%N → digit (pretty_N_char n) = Some (Z.of_N n).
Proof.
  intros Hn. destruct n as [|p]; [done|]. do 4 (destruct p as [p|p|]; try done); lia.
Qed.

Lemma digits_pretty n s : digits 0 (pretty_N_go n s) = digits (Z.of_N n) s.
Proof.
  revert s. induction (N.lt_wf_0 n) as [n _ IH]; intros s.
  destruct (decide (n = 0)%N) as [->|Hn]; [by rewrite pretty_N_go_0|].
  rewrite pretty_N_go_step by lia. rewrite IH by (apply N.div_lt; lia). cbn [digits].
  rewrite digit_pretty by (apply N.mod_lt; lia). f_equal.
  rewrite N2Z.inj_div, N2Z.inj_mod. pose proof (Z.div_mod (Z.of_N n) 10 ltac:(lia)). lia.
Qed.

Lemma digits_pretty_pos p : digits 0 (pretty (N.pos p)) = Some (Z.pos p).
Proof. unfold pretty, pretty_N. rewrite decide_False by done. rewrite digits_pretty. done. Qed.

Lemma pretty_head n s : (0 < n)%N → ∃ d s', (d < 10)%N ∧ pretty_N_go n s = String (pretty_N_char d) s'.
Proof.
  revert s. induction (N.lt_wf_0 n) as [n _ IH]; intros s Hn. rewrite pretty_N_go_step by done.
  destruct (decide (n / 10 = 0)%N) as [Hz|Hz].
  - rewrite Hz, pretty_N_go_0. eexists _, _. split; [|done]. apply N.mod_lt. lia.
  - apply IH; [apply N.div_lt; lia|by apply N.neq_0_lt_0].
Qed.

Lemma unsigned_digit a s k : digit a = Some k →
  (match String a s with
   | String "+" s' => (false, s')
   | String "-" s' => (true, s')
   | _ => (false, String a s)
   end) = (false, String a s).
Proof. destruct a as [[] [] [] [] [] [] [] []]; vm_compute; done. Qed.

(** A number of the given width is read back as it was written. *)
Lemma ParseInt_Itoa bits z : - 2 ^ (bits - 1) <= z < 2 ^ (bits - 1) → ParseInt (Itoa z) bits = Some z.
Proof.
  intros Hz. assert (∀ v, v = z → (if (- 2 ^ (bits - 1) <=? v) && (v <? 2 ^ (bits - 1)) then Some v else None) = Some z) as Hfit.
  { intros v ->. rewrite (proj2 (Z.leb_le _ _)), (proj2 (Z.ltb_lt _ _)) by lia. done. }
  unfold ParseInt, Itoa. destruct z as [|p|p].
  - apply (Hfit 0). done.
  - change (pretty (Z.pos p)) with (pretty (N.pos p)). pose proof (digits_pretty_pos p) as Hd.
    unfold pretty, pretty_N in *. rewrite decide_False in * by done.
    destruct (pretty_head (N.pos p) "" ltac:(lia)) as (d & s' & Hd10 & Hs). rewrite Hs in *.
    rewrite (unsigned_digit _ _ _ (digit_pretty d Hd10)), Hd. by apply Hfit.
  - change (pretty (Z.neg p)) with (String "-" (pretty (N.pos p))). pose proof (digits_pretty_pos p) as Hd.
    destruct (pretty (N.pos p)) eqn:E; [done|]. rewrite Hd. by apply Hfit.
Qed.

(** ** [base64.StdEncoding.DecodeString] *)

Definition b64_val (a : ascii) : option Z :=
  let n := Z.of_N (N_of_ascii a) in
  if (65 <=? n) && (n <=? 90) then Some (n - 65)
  else if (97 <=? n) && (n <=? 122) then Some (n - 71)
  else if (48 <=? n) && (n <=? 57) then Some (n + 4)
  else if n =? 43 then Some 62
  else if n =? 47 then Some 63
  else None.

Fixpoint b64_decode (s : string) : option (list Z) :=
  match s with
  | "" => Some []
  | String a (String b (String c (String d s'))) =>
      match b64_val a, b64_val b with
      | Some x, Some y =>
          if Ascii.eqb c "=" then
            if Ascii.eqb d "=" && String.eqb s' "" then Some [x * 4 + y / 16] else None
          else match b64_val c with
          | None => None
          | Some z =>
              if Ascii.eqb d "=" then
                if String.eqb s' "" then Some [x * 4 + y / 16; (y `mod` 16) * 16 + z / 4] else None
              else match b64_val d with
              | None => None
              | Some w => (λ l, x * 4 + y / 16 :: (y `mod` 16) * 16 + z / 4 :: (z `mod` 4) * 64 + w :: l) <$> b64_decode s'
              end
          end
      | _, _ => None
      end
  | _ => None
  end.

(** Line breaks are ignored. *)
Fixpoint strip_newlines (s : string) : string :=
  match s with
  | "" => ""
  | String a s' => if Ascii.eqb a "010" || Ascii.eqb a "013" then strip_newlines s' else String a (strip_newlines s')
  end.

Definition StdEncoding_DecodeString (s : string) : option (list byte) :=
  match b64_decode (strip_newlines s) with
  | Some l => Some (val_byte <$> l)
  | None => None
  end.

Definition in_byte (z : Z) : Prop := 0 <= z < 256.

Lemma b64_char_cases n : 0 <= n < 64 →
  b64_val (b64_char n) = Some n ∧ Ascii.eqb (b64_char n) "=" = false ∧
  Ascii.eqb (b64_char n) "010" = false ∧ Ascii.eqb (b64_char n) "013" = false.
Proof.
  intros Hn.
  assert (forallb (λ k, bool_decide (b64_val (b64_char (Z.of_nat k)) = Some (Z.of_nat k)) &&
    negb (Ascii.eqb (b64_char (Z.of_nat k)) "=") && negb (Ascii.eqb (b64_char (Z.of_nat k)) "010") &&
    negb (Ascii.eqb (b64_char (Z.of_nat k)) "013")) (seq 0 64) = true) as Hall by (vm_compute; reflexivity).
  rewrite forallb_forall in Hall. specialize (Hall (Z.to_nat n) ltac:(apply in_seq; lia)).
  rewrite Z2Nat.id in Hall by lia.
  apply andb_true_iff in Hall as [Hall H4%negb_true_iff]. apply andb_true_iff in Hall as [Hall H3%negb_true_iff].
  apply andb_true_iff in Hall as [H1%bool_decide_eq_true H2%negb_true_iff]. done.
Qed.

(** Induction by threes. *)
Lemma list_ind3 {A} (P : list A → Prop) :
  P [] → (∀ a, P [a]) → (∀ a b, P [a; b]) → (∀ a b c l, P l → P (a :: b :: c :: l)) → ∀ l, P l.
Proof.
  intros Hnil H1 H2 H3. fix IH 1. intros [|a [|b [|c l]]]; [exact Hnil|apply H1|apply H2|apply H3, IH].
Qed.

Lemma sextets a b c : in_byte a → in_byte b → in_byte c →
  (0 <= a / 4 < 64) ∧ (0 <= (a `mod` 4) * 16 + b / 16 < 64) ∧ (0 <= (b `mod` 16) * 4 + c / 64 < 64) ∧
  (0 <= c `mod` 64 < 64).
Proof. unfold in_byte. intros. Z.to_euclidean_division_equations. lia. Qed.

Lemma strip_encode bs : Forall in_byte bs → strip_newlines (b64_encode bs) = b64_encode bs.
Proof.
  induction bs as [|a|a b|a b c l IH] using list_ind3; intros Hb; [done|..].
  - apply Forall_cons in Hb as [Ha _]. destruct (sextets a 0 0 Ha ltac:(done) ltac:(done)) as (H1 & H2 & _).
    change (0 / 16) with 0 in H2. rewrite Z.add_0_r in H2.
    apply b64_char_cases in H1 as (_ & _ & E1 & E2), H2 as (_ & _ & E3 & E4). simpl. by rewrite E1, E2, E3, E4.
  - apply Forall_cons in Hb as [Ha [Hb _]%Forall_cons].
    destruct (sextets a b 0 Ha Hb ltac:(done)) as (H1 & H2 & H3 & _).
    change (0 / 64) with 0 in H3. rewrite Z.add_0_r in H3.
    apply b64_char_cases in H1 as (_ & _ & E1 & E2), H2 as (_ & _ & E3 & E4), H3 as (_ & _ & E5 & E6).
    simpl. by rewrite E1, E2, E3, E4, E5, E6.
  - apply Forall_cons in Hb as [Ha [Hb [Hc Hl]%Forall_cons]%Forall_cons].
    destruct (sextets a b c Ha Hb Hc) as (H1 & H2 & H3 & H4).
    apply b64_char_cases in H1 as (_ & _ & E1 & E2), H2 as (_ & _ & E3 & E4), H3 as (_ & _ & E5 & E6), H4 as (_ & _ & E7 & E8).
    simpl. by rewrite E1, E2, E3, E4, E5, E6, E7, E8, (IH Hl).
Qed.

Lemma b64_decode_encode bs : Forall in_byte bs → b64_decode (b64_encode bs) = Some bs.
Proof.
  induction bs as [|a|a b|a b c l IH] using list_ind3; intros Hb; [done|..].
  - apply Forall_cons in Hb as [Ha _]. destruct (sextets a 0 0 Ha ltac:(done) ltac:(done)) as (H1 & H2 & _).
    change (0 / 16) with 0 in H2. rewrite Z.add_0_r in H2.
    apply b64_char_cases in H1 as (E1 & _), H2 as (E2 & _). simpl. rewrite E1, E2. simpl. do 2 f_equal.
    unfold in_byte in Ha. Z.to_euclidean_division_equations. lia.
  - apply Forall_cons in Hb as [Ha [Hb _]%Forall_cons].
    destruct (sextets a b 0 Ha Hb ltac:(done)) as (H1 & H2 & H3 & _).
    change (0 / 64) with 0 in H3. rewrite Z.add_0_r in H3.
    apply b64_char_cases in H1 as (E1 & _), H2 as (E2 & _), H3 as (E3 & E4 & _).
    simpl. rewrite E1, E2, E4, E3. unfold in_byte in *.
    do 2 f_equal; [|f_equal]; Z.to_euclidean_division_equations; lia.
  - apply Forall_cons in Hb as [Ha [Hb [Hc Hl]%Forall_cons]%Forall_cons].
    destruct (sextets a b c Ha Hb Hc) as (H1 & H2 & H3 & H4).
    apply b64_char_cases in H1 as (E1 & _), H2 as (E2 & _), H3 as (E3 & E4 & _), H4 as (E5 & E6 & _).
    simpl. rewrite E1, E2, E4, E3, E6, E5, (IH Hl). simpl. unfold in_byte in *.
    f_equal. f_equal; [|f_equal; [|f_equal]]; Z.to_euclidean_division_equations; lia.
Qed.

Lemma byte_val_range b : in_byte (byte_val b).
Proof. unfold in_byte, byte_val. pose proof (N_ascii_bounded b). lia. Qed.

Lemma val_byte_val b : val_byte (byte_val b) = b.
Proof.
  pose proof (byte_val_range b) as Hb. unfold val_byte. rewrite Z.mod_small by exact Hb.
  unfold byte_val. rewrite N2Z.id. apply ascii_N_embedding.
Qed.

Lemma DecodeString_EncodeToString bs : StdEncoding_DecodeString (StdEncoding_EncodeToString bs) = Some bs.
Proof.
  unfold StdEncoding_DecodeString, StdEncoding_EncodeToString.
  assert (Forall in_byte (byte_val <$> bs)) as Hb.
  { apply Forall_fmap, Forall_forall. intros b _. apply byte_val_range. }
  rewrite strip_encode, b64_decode_encode by done. f_equal. rewrite <-list_fmap_compose.
  rewrite <-(list_fmap_id bs) at 2. apply list_fmap_ext. intros i b _. apply val_byte_val.
Qed.

(** ** Keys and tokens *)

(** A value of [crypto.PrivateKey] or [crypto.PublicKey]: nil, an ECDSA key, or a
    key of another type. *)
Inductive anyKey (K : Type) := KeyNil | KeyECDSA (k : K) | KeyOther.
Arguments KeyNil {K}. Arguments KeyECDSA {K} k. Arguments KeyOther {K}.

Record Token := mkToken {
  tok_Issuer : string;
  tok_Subject : string;
  tok_Expiration : Z;
  tok_Claims : gmap string string;
}.

(** [crypto/ecdsa], [crypto/x509] and [encoding/pem]. *)
Class KeyCodec (Priv Pub : Type) := {
  PublicOf : Priv → Pub;
  pem_Decode : list byte → option (string * list byte);     (* type and bytes *)
  pem_Encode : string → list byte → list byte;
  ParseECPrivateKey : list byte → error + Priv;
  ParsePKIXPublicKey : list byte → error + anyKey Pub;
  MarshalPKIXPublicKey : anyKey Pub → error + list byte;
}.

(** The JWT library: building and signing a token, parsing it with a key, and
    checking its claims. *)
Class JWT (Priv Pub : Type) := {
  jwt_Build : Token → error + Token;
  jwt_Sign : Priv → Token → error + string;
  jwt_Parse : anyKey Pub → string → option Token * option error;
  jwt_Check : Token → option error;
}.

Record Keyfob (Priv : Type) := mkKeyfob { kf_privateKey : Priv }.
Arguments mkKeyfob {Priv}. Arguments kf_privateKey {Priv}.
Record Validator (Pub : Type) := mkValidator { va_publicKey : anyKey Pub }.
Arguments mkValidator {Pub}. Arguments va_publicKey {Pub}.

Section keybox.
Context {Priv Pub : Type} `{!KeyCodec Priv Pub, !JWT Priv Pub}.
(** An error formatted with [%e]. *)
Context (fmt_e : error → string).

Definition NewKeyfob (privateKey : anyKey Priv) : error + Keyfob Priv :=
  match privateKey with
  | KeyNil => inl (EText "empty private key supplied")
  | KeyOther => inl (EText "private key is not an ecdsa private key")
  | KeyECDSA k => inr (mkKeyfob k)
  end.

Definition NewValidator (publicKey : anyKey Pub) : error + Validator Pub :=
  match publicKey with
  | KeyECDSA k => inr (mkValidator (KeyECDSA k))
  | _ => inl (EText "not an ECDSA public key")
  end.

Definition PublicKey (kf : Keyfob Priv) : anyKey Pub := KeyECDSA (PublicOf (kf_privateKey kf)).
Definition keyfob_Validator (kf : Keyfob Priv) : Validator Pub := mkValidator (PublicKey kf).

(** A block that is not PEM is not checked for. *)
Definition privateKeyFromString (key : string) : result error Priv :=
  match StdEncoding_DecodeString key with
  | None => RErr (EText "base64 input is corrupt")
  | Some privateKeyBytes =>
      match pem_Decode privateKeyBytes with
      | None => RPanic "nil pointer dereference"
      | Some (_, bytes) => match ParseECPrivateKey bytes with
                           | inl err => RErr err
                           | inr k => ROk k
                           end
      end
  end.

Definition KeyfobFromString (privateKey : string) : result error (Keyfob Priv) :=
  match privateKeyFromString privateKey with
  | RPanic w => RPanic w
  | RErr err => RErr (EWrapf "unable to load private key from string: " err "")
  | ROk pvk =>
      match NewKeyfob (KeyECDSA pvk) with
      | inl err => RErr (EText ("unable to create keyfob: " +:+ fmt_e err))
      | inr kf => ROk kf
      end
  end.

Definition CorruptInputError : error := EText "illegal base64 data".

Definition publicKeyFromString (key : string) : error + anyKey Pub :=
  match StdEncoding_DecodeString key with
  | None => inl CorruptInputError
  | Some publicKeyBytes =>
      match ParsePKIXPublicKey publicKeyBytes with
      | inl err => inl err
      | inr (KeyECDSA k) => inr (KeyECDSA k)
      | inr _ => inl (EText "public key is not an ECDSA key")
      end
  end.

Definition ValidatorFromPublicKeyString (publicKey : string) : error + Validator Pub :=
  match publicKeyFromString publicKey with
  | inl err => inl (EWrapf "unable to load public key: " err "")
  | inr k => inr (mkValidator k)
  end.

(** The reply of the server: an error, or the body or the error of reading it. *)
Definition PublicKeyFromURL (reply : error + (error + list byte)) : error + anyKey Pub :=
  match reply with
  | inl err => inl (EWrapf "unable to retrieve public key: " err "")
  | inr (inl err) => inl (EWrapf "unable to read public key: " err "")
  | inr (inr pemData) =>
      match pem_Decode pemData with
      | None => inl (EText "invalid PEM-encoded public key")
      | Some (ty, bytes) =>
          if negb (String.eqb ty "PUBLIC KEY") then inl (EText "invalid PEM-encoded public key") else
          match ParsePKIXPublicKey bytes with
          | inl err => inl (EWrapf "unable to parse public key: " err "")
          | inr k => inr k
          end
      end
  end.

Definition PublicKeyHandler (kf : Keyfob Priv) : Writer :=
  match MarshalPKIXPublicKey (PublicKey kf) with
  | inl err => http_Error newWriter ("error marshaling pubkey: " +:+ Error err) 500
  | inr pkb =>
      WriteBody (CText (string_of (pem_Encode "PUBLIC KEY" pkb)))
        (SetHeader "Content-Type" "application/x-pem-file" newWriter)
  end.

(** The fields in pairs; an odd one is an index out of range. *)
Fixpoint add_claims (fields : list string) (m : gmap string string) : option (gmap string string) :=
  match fields with
  | [] => Some m
  | [_] => None
  | k :: v :: rest => add_claims rest (<[k := v]> m)
  end.

Definition GenerateToken (kf : Keyfob Priv) (userID expiry : Z) (fields : list string) : result error string :=
  match add_claims fields ∅ with
  | None => RPanic "index out of range"
  | Some claims =>
      match jwt_Build (mkToken "api.odysee.com" (Itoa userID) expiry claims) with
      | inl err => RErr (EWrapf "unable to build token: " err "")
      | inr t => match jwt_Sign (kf_privateKey kf) t with
                 | inl err => RErr (EWrapf "unable to sign token: " err "")
                 | inr bt => ROk bt
                 end
      end
  end.

(** The token comes with an error when both are there. *)
Definition Validator_ParseToken (v : Validator Pub) (token : string) : option Token * option error :=
  match jwt_Parse (va_publicKey v) token with
  | (None, Some err) => (None, Some (EWrapf "unable to parse token: " err ""))
  | (None, None) => (None, Some (EText "unable to parse token: %!w(<nil>)"))
  | (Some t, err) => (Some t, err)
  end.

(** What the upload service asks of its validator ([Uploads.v]); requests are
    their tokens. *)
#[export] Instance keybox_tokens (v : Validator Pub) : UploadTokens string := {|
  TokenFromHeader r := r;
  ParseToken s := match Validator_ParseToken v s with
                  | (_, Some err) => inl err
                  | (Some t, None) => inr (tok_Subject t)
                  | (None, None) => inl (EText "unable to parse token")
                  end;
  jwt_Validate s := match Validator_ParseToken v s with
                    | (Some t, _) => jwt_Check t
                    | (None, _) => None
                    end |}.

(** ** Properties *)

(** The claims that are fields of a token and that [Claim] sets as such. *)
Definition registered_claims : list string := ["aud"; "exp"; "iat"; "iss"; "jti"; "nbf"; "sub"].

(** What the libraries document: what is encoded decodes to itself; a builder
    builds what it was given, when no further claim is one of the fields; a signed
    token that is valid parses with the signer's public key to a valid token with
    the same subject (its times keep only their seconds). *)
Class CodecLaws : Prop := {
  pem_roundtrip ty bs : pem_Decode (pem_Encode ty bs) = Some (ty, bs);
  pkix_roundtrip k bs : MarshalPKIXPublicKey k = inr bs → ParsePKIXPublicKey bs = inr k;
}.
Class JWTLaws : Prop := {
  build_same t t' :
    (∀ c, c ∈ registered_claims → tok_Claims t !! c = None) → jwt_Build t = inr t' → t' = t;
  sign_parse k t s : jwt_Sign k t = inr s → jwt_Check t = None →
    ∃ t', jwt_Parse (KeyECDSA (PublicOf k)) s = (Some t', None) ∧
      tok_Subject t' = tok_Subject t ∧ jwt_Check t' = None;
}.

(** The published key is the one a validator fetches. *)
Lemma public_key_roundtrip `{!CodecLaws} kf :
  w_status (PublicKeyHandler kf) = Some 200 →
  ∃ body, w_body (PublicKeyHandler kf) = [CText body] ∧
    PublicKeyFromURL (inr (inr (bytes_of body))) = inr (PublicKey kf).
Proof.
  unfold PublicKeyHandler. destruct (MarshalPKIXPublicKey (PublicKey kf)) as [e|pkb] eqn:Hm; [done|]. intros _.
  eexists. split; [done|]. unfold PublicKeyFromURL. rewrite bytes_of_string_of, pem_roundtrip. simpl.
  by rewrite (pkix_roundtrip _ _ Hm).
Qed.

(** A key in the format of the configuration is read. *)
Lemma private_key_roundtrip `{!CodecLaws} ty der k :
  ParseECPrivateKey der = inr k →
  KeyfobFromString (StdEncoding_EncodeToString (pem_Encode ty der)) = ROk (mkKeyfob k).
Proof.
  intros Hk. unfold KeyfobFromString, privateKeyFromString.
  by rewrite DecodeString_EncodeToString, pem_roundtrip, Hk.
Qed.

(** C22: A token issued for a user is read back as this user. For every user id of
    the 32-bit type, every expiry and every further claims that do not replace a
    field of the token, the token the API generates, as long as it is valid, makes
    the upload service attribute the request to the same id. *)
Theorem upload_token_roundtrip `{HJ : !JWTLaws} kf uid expiry fields claims s :
  - 2 ^ 31 <= uid < 2 ^ 31 → add_claims fields ∅ = Some claims →
  (∀ c, c ∈ registered_claims → claims !! c = None) →
  GenerateToken kf uid expiry fields = ROk s → s ≠ "" →
  jwt_Check (mkToken "api.odysee.com" (Itoa uid) expiry claims) = None →
  extractUserIDFromRequest (UploadTokens0 := keybox_tokens (keyfob_Validator kf)) s = inr uid.
Proof.
  intros Huid Hc Hreg Hgen Hs Hv. unfold GenerateToken in Hgen. rewrite Hc in Hgen.
  destruct (jwt_Build _) as [e|t] eqn:Hb; [done|]. pose proof (build_same (mkToken _ _ _ claims) t Hreg Hb) as ->.
  destruct (jwt_Sign _ _) as [e|bt] eqn:Hsg; [done|]. injection Hgen as ->.
  destruct (sign_parse _ _ _ Hsg Hv) as (t' & Hp & Hsub & Hv').
  assert (Validator_ParseToken (keyfob_Validator kf) s = (Some t', None)) as Hpt.
  { unfold Validator_ParseToken, keyfob_Validator, PublicKey. simpl. by rewrite Hp. }
  unfold extractUserIDFromRequest. simpl. rewrite (proj2 (String.eqb_neq s "") Hs), Hpt, Hv', Hsub. simpl.
  pose proof (ParseInt_Itoa 32 uid Huid) as Hi.
  destruct (String.eqb (Itoa uid) "") eqn:He; [apply String.eqb_eq in He; by rewrite He in Hi|].
  rewrite Hi. f_equal. by apply to_signed_small.
Qed.

(** Nothing but a key in PEM form keeps the service from panicking at its start. *)
Lemma KeyfobFromString_panics key bs :
  StdEncoding_DecodeString key = Some bs → pem_Decode bs = None →
  KeyfobFromString key = RPanic "nil pointer dereference".
Proof. intros Hd Hp. unfold KeyfobFromString, privateKeyFromString. by rewrite Hd, Hp. Qed.
End keybox.

(** *** A concrete instance: a token is its subject in the clear *)
Module example.
Definition codec : KeyCodec unit unit := {|
  PublicOf _ := tt;
  pem_Decode bs := Some ("PUBLIC KEY", bs);
  pem_Encode _ bs := bs;
  ParseECPrivateKey _ := inr tt;
  ParsePKIXPublicKey _ := inr (KeyECDSA tt);
  MarshalPKIXPublicKey _ := inr [] |}.

Definition clear (now : Z) : JWT unit unit := {|
  jwt_Build t := inr t;
  jwt_Sign _ t := inr (tok_Subject t);
  jwt_Parse _ s := (Some (mkToken "api.odysee.com" s (now + 1) ∅), None);
  jwt_Check t := if tok_Expiration t <=? now then Some (EText "exp not satisfied") else None |}.

Lemma clear_laws now : @JWTLaws unit unit codec (clear now).
Proof.
  split; [by intros t t' _ [= ->]|]. intros k t s [= <-] _. eexists. split; [done|]. split; [done|].
  simpl. by rewrite (proj2 (Z.leb_gt (now + 1) now)) by lia.
Qed.
End example.

(** Witness of [upload_token_roundtrip]: user 42 with a token for one upload. *)
Lemma upload_token_roundtrip_witness :
  extractUserIDFromRequest
    (UploadTokens0 := keybox_tokens (JWT0 := example.clear 100) (keyfob_Validator (KeyCodec0 := example.codec) (mkKeyfob tt)))
    "42" = inr 42.
Proof.
  apply (upload_token_roundtrip (KeyCodec0 := example.codec) (JWT0 := example.clear 100)
    (HJ := example.clear_laws 100) (mkKeyfob tt) 42 200 ["file"; "a.mp4"] {["file" := "a.mp4"]} "42").
  - lia.
  - reflexivity.
  - intros c Hc. unfold registered_claims in Hc. repeat (apply elem_of_cons in Hc as [->|Hc]; [reflexivity|]).
    by apply elem_of_nil in Hc.
  - reflexivity.
  - done.
  - reflexivity.
Defined.
