(* ===== verification/Watchman.v ===== *)
(** * Playback reports

    Models [apps/watchman]: the service that collects playback reports.  A report
    arrives over HTTP ([gen/http/reporter/server], [reporter.go],
    [middleware.go]), becomes a row of the table [playback] ([olapdb/olapdb.go],
    [olapdb/geoip.go]) and is written in batches ([olapdb/batch.go]).

    Parameters: the ClickHouse database, the location database, [time.Parse], the
    decoder and the error encoder of the web framework. *)

From S2P Require Import Prelude GoLib Rpc Errors Http Ip.
From Stdlib Require Import Ascii.

Local Open Scope Z_scope.

(** ** Reports *)

Record PlaybackReport := mkReport {
  pr_URL : string;
  pr_Duration : Z;
  pr_Position : Z;
  pr_RelPosition : Z;
  pr_RebufCount : Z;
  pr_RebufDuration : Z;
  pr_Protocol : string;
  pr_Cache : option string;
  pr_Player : string;
  pr_UserID : string;
  pr_Bandwidth : option Z;
  pr_Bitrate : option Z;
  pr_Device : string;
}.

Record AddRequestBody := mkBody {
  ab_URL : option string;
  ab_Duration : option Z;
  ab_Position : option Z;
  ab_RelPosition : option Z;
  ab_RebufCount : option Z;
  ab_RebufDuration : option Z;
  ab_Protocol : option string;
  ab_Cache : option string;
  ab_Player : option string;
  ab_UserID : option string;
  ab_Bandwidth : option Z;
  ab_Bitrate : option Z;
  ab_Device : option string;
}.

(** The numbers of a decoded body are of type [int32]. *)
Definition int32 (z : Z) : Prop := - 2 ^ 31 <= z < 2 ^ 31.
Definition int32_opt (o : option Z) : Prop := ∀ z, o = Some z → int32 z.
Definition decoded_body (b : AddRequestBody) : Prop :=
  int32_opt (ab_Duration b) ∧ int32_opt (ab_Position b) ∧ int32_opt (ab_RelPosition b) ∧
  int32_opt (ab_RebufCount b) ∧ int32_opt (ab_RebufDuration b) ∧ int32_opt (ab_Bandwidth b) ∧
  int32_opt (ab_Bitrate b).

(** *** [utf8.RuneCountInString] *)

Definition code (a : ascii) : Z := Z.of_N (N_of_ascii a).
Definition between (lo hi c : Z) : bool := (lo <=? c) && (c <=? hi).

(** The length of an encoding by its first byte, and what its second may be. *)
Definition first_byte (c : Z) : option (nat * Z * Z) :=
  if between 194 223 c then Some (2%nat, 128, 191) else
  if c =? 224 then Some (3%nat, 160, 191) else
  if between 225 236 c then Some (3%nat, 128, 191) else
  if c =? 237 then Some (3%nat, 128, 159) else
  if between 238 239 c then Some (3%nat, 128, 191) else
  if c =? 240 then Some (4%nat, 144, 191) else
  if between 241 243 c then Some (4%nat, 128, 191) else
  if c =? 244 then Some (4%nat, 128, 143) else None.

(** The length of the first rune; a byte that starts none counts as one. *)
Definition rune_len (s : string) : nat :=
  match s with
  | "" => 0
  | String c0 s1 =>
      match first_byte (code c0) with
      | None => 1
      | Some (size, lo, hi) =>
          if (String.length s <? size)%nat then 1 else
          match s1 with
          | String c1 s2 =>
              if negb (between lo hi (code c1)) then 1 else if (size =? 2)%nat then 2 else
              match s2 with
              | String c2 s3 =>
                  if negb (between 128 191 (code c2)) then 1 else if (size =? 3)%nat then 3 else
                  match s3 with
                  | String c3 _ => if negb (between 128 191 (code c3)) then 1 else 4
                  | "" => 1
                  end
              | "" => 1
              end
          | "" => 1
          end
      end
  end%nat.

(** [skip] bytes of the current rune are still to come. *)
Fixpoint rune_count (skip : nat) (s : string) : Z :=
  match s with
  | "" => 0
  | String _ s' =>
      match skip with
      | S k => rune_count k s'
      | O => 1 + rune_count (rune_len s - 1) s'
      end
  end.
Definition RuneCountInString (s : string) : Z := rune_count 0 s.

(** *** Validation *)

Inductive fieldError :=
| MissingFieldError (name : string)
| InvalidLengthError (name : string) (len bound : Z)
| InvalidRangeError (name : string) (v bound : Z)
| InvalidEnumValueError (name v : string).

(** One check of the generated code: nothing when the field is absent. *)
Definition when {A} (o : option A) (bad : A → bool) (e : A → fieldError) : list fieldError :=
  match o with
  | Some v => if bad v then [e v] else []
  | None => []
  end.
Definition require {A} (name : string) (o : option A) : list fieldError :=
  match o with Some _ => [] | None => [MissingFieldError name] end.

Definition too_long (name : string) (o : option string) (n : Z) : list fieldError :=
  when o (λ s, n <? RuneCountInString s) (λ s, InvalidLengthError name (RuneCountInString s) n).
Definition too_short (name : string) (o : option string) (n : Z) : list fieldError :=
  when o (λ s, RuneCountInString s <? n) (λ s, InvalidLengthError name (RuneCountInString s) n).
Definition too_small (name : string) (o : option Z) (n : Z) : list fieldError :=
  when o (λ z, z <? n) (λ z, InvalidRangeError name z n).
Definition too_large (name : string) (o : option Z) (n : Z) : list fieldError :=
  when o (λ z, n <? z) (λ z, InvalidRangeError name z n).
Definition not_among (name : string) (o : option string) (l : list string) : list fieldError :=
  when o (λ s, negb (mem s l)) (λ s, InvalidEnumValueError name s).

(** The merged errors, in order; none is a valid body. *)
Definition ValidateAddRequestBody (body : AddRequestBody) : list fieldError :=
  require "url" (ab_URL body) ++
  require "duration" (ab_Duration body) ++
  require "position" (ab_Position body) ++
  require "rel_position" (ab_RelPosition body) ++
  require "rebuf_count" (ab_RebufCount body) ++
  require "rebuf_duration" (ab_RebufDuration body) ++
  require "protocol" (ab_Protocol body) ++
  require "player" (ab_Player body) ++
  require "user_id" (ab_UserID body) ++
  require "device" (ab_Device body) ++
  too_long "body.url" (ab_URL body) 512 ++
  too_small "body.duration" (ab_Duration body) 0 ++
  too_large "body.duration" (ab_Duration body) 60000 ++
  too_small "body.position" (ab_Position body) 0 ++
  too_small "body.rel_position" (ab_RelPosition body) 0 ++
  too_large "body.rel_position" (ab_RelPosition body) 100 ++
  too_small "body.rebuf_count" (ab_RebufCount body) 0 ++
  too_small "body.rebuf_duration" (ab_RebufDuration body) 0 ++
  too_large "body.rebuf_duration" (ab_RebufDuration body) 60000 ++
  not_among "body.protocol" (ab_Protocol body) ["stb"; "hls"; "lvs"] ++
  not_among "body.cache" (ab_Cache body) ["local"; "player"; "miss"] ++
  too_long "body.player" (ab_Player body) 128 ++
  too_short "body.user_id" (ab_UserID body) 1 ++
  too_long "body.user_id" (ab_UserID body) 45 ++
  not_among "body.device" (ab_Device body) ["ios"; "adr"; "web"; "dsk"; "stb"].

(** Required fields are dereferenced; [None] is a nil dereference. *)
Definition NewAddPlaybackReport (body : AddRequestBody) : option PlaybackReport :=
  match ab_URL body, ab_Duration body, ab_Position body, ab_RelPosition body, ab_RebufCount body with
  | Some url, Some d, Some p, Some rp, Some rc =>
      match ab_RebufDuration body, ab_Protocol body, ab_Player body, ab_UserID body, ab_Device body with
      | Some rd, Some pt, Some pl, Some u, Some dev =>
          Some (mkReport url d p rp rc rd pt (ab_Cache body) pl u (ab_Bandwidth body) (ab_Bitrate body) dev)
      | _, _, _, _, _ => None
      end
  | _, _, _, _, _ => None
  end.

(** ** Rows *)

Inductive arg := AString (s : string) | AUInt8 (z : Z) | AUInt32 (z : Z) | ATime (t : Z).
Definition row := list arg.

Record City := mkCity { ci_Country : string; ci_Subdivisions : list string }.

(** What is outside: the clock, [time.Parse], the location database and the
    answers of ClickHouse, by the number of the operation.  A commit that fails may
    have stored the rows or not. *)
Record OlapEnv := {
  oe_now : nat → Z;
  oe_Parse : string → error + Z;
  oe_City : option Z → error + City;
  oe_begin : nat → option error;
  oe_prepare : nat → string → option error;
  oe_exec : nat → row → option error;
  oe_commit : nat → option (error * bool);
}.

(** [regexp.MustCompile(`,.*$`)] replaced by nothing: the first comma with no line
    break after it, and all that follows. *)
Definition newline : ascii := "010"%char.
Definition has_newline (s : string) : bool := Contains s (String newline "").
Fixpoint cut_player (s : string) : string :=
  match s with
  | "" => ""
  | String c s' => if Ascii.eqb c "," && negb (has_newline s') then "" else String c (cut_player s')
  end.

(** [strings.Repeat] *)
Fixpoint Repeat (s : string) (n : nat) : string :=
  match n with O => "" | S n => s +:+ Repeat s n end.

(** The queue of the batch writer, its batch, and the loop's variables. *)
Record BatchWriter := mkBW {
  bw_width : Z;
  bw_capacity : nat;
  bw_batch : list row;
  bw_rcvChan : list row;
  bw_closed : bool;
  bw_counter : nat;
  bw_stop : bool;
}.

Definition NewBatchWriter (width : Z) : BatchWriter :=
  let capacity := Z.to_nat 100000 in
  mkBW width capacity [] [] false 0 false.

Record Olap := mkOlap {
  ol_bw : BatchWriter;
  ol_rows : list row;
  ol_tick : nat;
}.

Definition set_batch (b : list row) (w : BatchWriter) : BatchWriter :=
  mkBW (bw_width w) (bw_capacity w) b (bw_rcvChan w) (bw_closed w) (bw_counter w) (bw_stop w).
Definition set_chan (q : list row) (w : BatchWriter) : BatchWriter :=
  mkBW (bw_width w) (bw_capacity w) (bw_batch w) q (bw_closed w) (bw_counter w) (bw_stop w).
Definition set_counter (n : nat) (w : BatchWriter) : BatchWriter :=
  mkBW (bw_width w) (bw_capacity w) (bw_batch w) (bw_rcvChan w) (bw_closed w) n (bw_stop w).
Definition close_chan (w : BatchWriter) : BatchWriter :=
  mkBW (bw_width w) (bw_capacity w) (bw_batch w) (bw_rcvChan w) true (bw_counter w) (bw_stop w).
Definition upd_bw (f : BatchWriter → BatchWriter) (s : Olap) : Olap :=
  mkOlap (f (ol_bw s)) (ol_rows s) (ol_tick s).
Definition upd_rows (f : list row → list row) (s : Olap) : Olap :=
  mkOlap (ol_bw s) (f (ol_rows s)) (ol_tick s).
Definition ol_next (s : Olap) : Olap := mkOlap (ol_bw s) (ol_rows s) (S (ol_tick s)).

Section olapdb.
Context (env : OlapEnv) (database : string).

Definition getArea (ip : string) : string * string :=
  match oe_City env (ParseIP ip) with
  | inl _ => ("", "")
  | inr record =>
      let subarea := match ci_Subdivisions record with _ :: s :: _ => s | _ => "" end in
      (ToLower (ci_Country record), ToLower subarea)
  end.

(** [now] is the time when the report carries none. *)
Definition prepareArgs (now : Z) (r : PlaybackReport) (addr ts : string) : error + row :=
  match (if negb (String.eqb ts "") then oe_Parse env ts else inr now) with
  | inl err => inl err
  | inr t =>
      let '(area, subarea) := getArea addr in
      let bandwidth := match pr_Bandwidth r with Some b => to_unsigned 32 b | None => 0 end in
      let bitrate := match pr_Bitrate r with Some b => to_unsigned 32 b | None => 0 end in
      let cache := match pr_Cache r with Some c => c | None => "miss" end in
      inr [AString (pr_URL r);
           AUInt32 (to_unsigned 32 (pr_Duration r));
           ATime t;
           AUInt32 (to_unsigned 32 (pr_Position r));
           AUInt8 (to_unsigned 8 (pr_RelPosition r));
           AUInt8 (to_unsigned 8 (pr_RebufCount r));
           AUInt32 (to_unsigned 32 (pr_RebufDuration r));
           AString (pr_Protocol r);
           AString cache;
           AString (cut_player (pr_Player r));
           AString (pr_UserID r);
           AUInt32 bandwidth;
           AUInt32 bitrate;
           AString (pr_Device r);
           AString area;
           AString subarea;
           AString addr]
  end.

Definition nl : string := String newline "".
Definition tab : string := String "009"%char "".

Definition prepareInsertQuery (values : string) : string :=
  nl +:+ tab +:+ tab +:+ "INSERT INTO " +:+ database +:+ ".playback" +:+ nl +:+
  Repeat tab 3 +:+ "(URL, Duration, Timestamp, Position, RelPosition, RebufCount," +:+ nl +:+
  Repeat tab 4 +:+ "RebufDuration, Protocol, Cache, Player, UserID, Bandwidth, Bitrate, Device, Area, SubArea, IP)" +:+ nl +:+
  tab +:+ tab +:+ "VALUES " +:+ values +:+ nl +:+ tab.

(** Operations of the database. *)
Definition BeginTx : Go Olap unit :=
  λ s, match oe_begin env (ol_tick s) with
       | Some err => (RErr (ETraced "cannot begin" err), ol_next s)
       | None => (ROk tt, ol_next s)
       end.
Definition Prepare (q : string) : Go Olap unit :=
  λ s, match oe_prepare env (ol_tick s) q with
       | Some err => (RErr (ETraced "cannot prepare" err), ol_next s)
       | None => (ROk tt, ol_next s)
       end.
Definition Exec (r : row) : Go Olap unit :=
  λ s, match oe_exec env (ol_tick s) r with
       | Some err => (RErr err, ol_next s)
       | None => (ROk tt, ol_next s)
       end.
(** The rows of the transaction become visible. *)
Definition Commit (pending : list row) : Go Olap unit :=
  λ s, match oe_commit env (ol_tick s) with
       | Some (err, stored) =>
           (RErr (ETraced "cannot commit" err), ol_next (if stored then upd_rows (.++ pending) s else s))
       | None => (ROk tt, ol_next (upd_rows (.++ pending) s))
       end.

Fixpoint execRows (rows : list row) : Go Olap unit :=
  match rows with
  | [] => ret tt
  | r :: rest => Exec r;;! execRows rest
  end.

(** The batch is cleared on every way out. *)
Definition writeBatch : Go Olap unit :=
  let! width := gets (λ s, bw_width (ol_bw s)) in
  if width - 1 <? 0 then gopanic "strings: negative Repeat count" else
  let ph := "(" +:+ "?" +:+ Repeat ", ?" (Z.to_nat (width - 1)) +:+ ")" in
  deferred (modify (upd_bw (set_batch [])) : Go Olap unit) (
    BeginTx;;!
    Prepare (prepareInsertQuery ph);;!
    let! rows := gets (λ s, bw_batch (ol_bw s)) in
    execRows rows;;!
    Commit rows).

(** One turn of the loop of [Start]: what [select] chose. *)
Definition Start_receive : Go Olap unit :=
  λ s, match bw_rcvChan (ol_bw s) with
       | el :: q => (ROk tt, upd_bw (λ w, set_counter (S (bw_counter w)) (set_batch (bw_batch w ++ [el]) (set_chan q w))) s)
       | [] => (ROk tt, s)         (* a closed channel: el is nil *)
       end.

Definition Start_tick : Go Olap unit :=
  let! counter := gets (λ s, bw_counter (ol_bw s)) in
  if (counter =? 0)%nat then ret tt else
  let! _ := try writeBatch in
  modify (upd_bw (set_counter 0)).

(** What follows the loop. *)
Definition Start_rest : Go Olap unit :=
  let! counter := gets (λ s, bw_counter (ol_bw s)) in
  if (0 <? counter)%nat then
    let! _ := try writeBatch in ret tt
  else ret tt.

Definition Stop : Go Olap unit :=
  λ s, if bw_closed (ol_bw s) then (RPanic "close of closed channel", s)
       else (ROk tt, upd_bw close_chan s).

(** The channel holds three times the capacity; a full one blocks the sender. *)
Definition chan_full (w : BatchWriter) : bool := (bw_capacity w * 3 <=? length (bw_rcvChan w))%nat.

Definition BatchWriter_Write (r : PlaybackReport) (addr ts : string) : Go Olap unit :=
  λ s, match prepareArgs (oe_now env (ol_tick s)) r addr ts with
       | inl err => (RErr err, ol_next s)
       | inr args => if bw_closed (ol_bw s) then (RPanic "send on closed channel", ol_next s)
                     else (ROk tt, ol_next (upd_bw (λ w, set_chan (bw_rcvChan w ++ [args]) w) s))
       end.

(** Writing one report in its own transaction. *)
Definition Write (r : PlaybackReport) (addr ts : string) : Go Olap row :=
  λ s, match prepareArgs (oe_now env (ol_tick s)) r addr ts with
       | inl err => (RErr err, ol_next s)
       | inr args => bind (Exec args) (λ _, ret args) (ol_next s)
       end.

Definition prepareWrite : Go Olap unit :=
  Prepare (prepareInsertQuery "(?, ?, ?, ?, ?, ?, ?, ?, ?, ?, ?, ?, ?, ?, ?, ?, ?)").

Definition WriteOne (r : PlaybackReport) (addr ts : string) : Go Olap unit :=
  BeginTx;;!
  prepareWrite;;!
  let! w := try (Write r addr ts) in
  match w with
  | inl err => fail (ETraced "cannot exec" err)
  | inr args => Commit [args]
  end.
End olapdb.

(** ** The service and its HTTP layer *)

(** A named error of the service, one of the framework, or any other. *)
Inductive addError :=
| MultiFieldError (message : string)
| MissingPayload
| DecodePayload (message : string)
| Invalid (l : list fieldError)
| ServiceError (name message : string)
| OtherError (e : error).

(** What the body decodes to: an empty body, an error of the framework, another
    error, or fields. *)
Inductive decoded :=
| DecodeEOF
| DecodeService (name message : string)
| DecodeError (e : error)
| Decoded (b : AddRequestBody).

Record WRequest := mkWRequest {
  wr_Header : Header;
  wr_RemoteAddr : string;
  wr_body : decoded;
}.

(** The framework: how it writes an error that is not the service's own, how it
    writes a body and whether that fails, and the id of a request. *)
Record Goa := {
  goa_ErrorEncoder : addError → Writer → Writer * option error;
  goa_Encode : string → Writer → Writer * option error;
  goa_RequestID : string;
}.

(** [net.SplitHostPort], the host. *)
Definition has_char (c : ascii) (s : string) : bool := Contains s (String c "").
Fixpoint cut (c : ascii) (s : string) : option (string * string) :=
  match s with
  | "" => None
  | String a s' => if Ascii.eqb a c then Some ("", s')
                   else match cut c s' with
                        | Some (l, r) => Some (String a l, r)
                        | None => None
                        end
  end.
Definition SplitHost (hostport : string) : option string :=
  match hostport with
  | String "["%char rest =>
      match cut "]" rest with
      | Some (host, String ":"%char port) =>
          if has_char ":" port || has_char "[" rest || has_char "]" port then None else Some host
      | _ => None
      end
  | _ => match Split hostport ":" with
         | [host; port] => if has_char "[" hostport || has_char "]" hostport then None else Some host
         | _ => None
         end
  end.

Definition from (req : WRequest) : string :=
  let f := Header_Get (wr_Header req) "X-Forwarded-For" in
  if negb (String.eqb f "") then f else
  match SplitHost (wr_RemoteAddr req) with
  | None => wr_RemoteAddr req
  | Some ip => ip
  end.

Definition DecodeAddRequest (r : WRequest) : addError + option PlaybackReport :=
  match wr_body r with
  | DecodeEOF => inl MissingPayload
  | DecodeService n m => inl (ServiceError n m)
  | DecodeError e => inl (DecodePayload (Error e))
  | Decoded body =>
      match ValidateAddRequestBody body with
      | [] => inr (NewAddPlaybackReport body)
      | errs => inl (Invalid errs)
      end
  end.

Section reporter.
Context (env : OlapEnv) (goa : Goa).

(** [addr] is the value of [RemoteAddressKey], absent without the middleware. *)
Definition Add (addr : option string) (p : PlaybackReport) : Go Olap (option addError) :=
  if pr_Duration p <? pr_RebufDuration p then
    ret (Some (MultiFieldError "rebufferung duration cannot be larger than duration"))
  else
    match addr with
    | None => gopanic "interface conversion"
    | Some addr =>
        let! r := try (BatchWriter_Write env p addr "") in
        match r with
        | inl err => ret (Some (OtherError err))
        | inr _ => ret None
        end
    end.

(** The encoder of the service's errors; no formatter is configured. *)
Definition EncodeAddError (v : addError) (w : Writer) : Writer * option error :=
  match v with
  | MultiFieldError m => goa_Encode goa m (WriteHeader 400 (SetHeader "Goa-Error" "multi_field_error" w))
  | _ => goa_ErrorEncoder goa v w
  end.

Definition errorHandler (w : Writer) (err : error) : Writer :=
  WriteBody (CText ("[" +:+ goa_RequestID goa +:+ "] encoding: " +:+ Error err)) w.

Definition encodeFailure (v : addError) (w : Writer) : Writer :=
  match EncodeAddError v w with
  | (w, Some err) => errorHandler w err
  | (w, None) => w
  end.

Definition EncodeAddResponse (w : Writer) : Writer := WriteHeader 201 w.

(** [NewAddHandler] behind [RemoteAddressMiddleware]. *)
Definition AddHandler (r : WRequest) (w : Writer) : Go Olap Writer :=
  match DecodeAddRequest r with
  | inl err => ret (encodeFailure err w)
  | inr None => gopanic "nil pointer dereference"
  | inr (Some payload) =>
      let! res := Add (Some (from r)) payload in
      match res with
      | Some err => ret (encodeFailure err w)
      | None => ret (EncodeAddResponse w)
      end
  end.

(** *** Cross-origin requests *)

(** [.] of a regular expression: one rune that is no line break. *)
Definition dot (s : string) : option string :=
  match s with
  | "" => None
  | String c _ => if Ascii.eqb c newline then None else Some (drop_str (rune_len s) s)
  end.
Definition lit (p s : string) : option string :=
  if HasPrefix s p then Some (drop_str (String.length p) s) else None.
Definition is_digit (s : string) : bool :=
  match s with String c _ => between 48 57 (code c) | "" => false end.

(** The rest of a match of [host.tld] where the dot of the name is any rune. *)
Definition host_dot (host tld s : string) : bool :=
  match lit host s with
  | Some s => match dot s with Some s => HasPrefix s tld | None => false end
  | None => false
  end.

(** [.+] followed by the host, from the place after the scheme: [n] bounds the
    number of runes. *)
Fixpoint dots_host (n : nat) (host tld s : string) : bool :=
  match n with
  | O => false
  | S n => match dot s with
           | None => false
           | Some s => host_dot host tld s || dots_host n host tld s
           end
  end.

Definition spec0_at (s : string) : bool :=
  match lit "http://localhost:" s with Some r => is_digit r | None => false end ||
  host_dot "https://odysee" "com" s ||
  match lit "https://" s with
  | Some r => dots_host (String.length r) ".odysee" "com" r || dots_host (String.length r) ".lbry" "tv" r
  | None => false
  end.

(** The expression is not anchored: it may match anywhere. *)
Fixpoint spec0 (s : string) : bool :=
  spec0_at s || match s with "" => false | String _ s' => spec0 s' end.

Definition HandleReporterOrigin (h : Writer → Go Olap Writer) (r : WRequest) (w : Writer) : Go Olap Writer :=
  let origin := Header_Get (wr_Header r) "Origin" in
  if String.eqb origin "" then h w else
  if spec0 origin then
    let w := SetHeader "Access-Control-Max-Age" "600"
               (SetHeader "Vary" "Origin" (SetHeader "Access-Control-Allow-Origin" origin w)) in
    let acrm := Header_Get (wr_Header r) "Access-Control-Request-Method" in
    if negb (String.eqb acrm "") then
      ret (WriteHeader 204 (SetHeader "Access-Control-Allow-Headers" "content-type"
             (SetHeader "Access-Control-Allow-Methods" "GET, POST" w)))
    else h w
  else h w.

(** [POST /reports/playback] *)
Definition AddEndpoint (r : WRequest) (w : Writer) : Go Olap Writer :=
  HandleReporterOrigin (AddHandler r) r w.
End reporter.
