(* ===== verification/WatchmanSpec.v ===== *)
(** * Playback reports: types, bounds and delivery

    Properties of [Watchman.v]: what a row holds of a report, that every row has
    the types of the table's columns, and what becomes of acknowledged reports in
    any interleaving of requests with the batch writer. *)

From S2P Require Import Prelude GoLib Rpc Errors Http Ip Watchman.
From Stdlib Require Import Ascii.

Local Open Scope Z_scope.

(** ** Values *)

Lemma to_unsigned_small bits z : 0 <= z < 2 ^ bits → to_unsigned bits z = z.
Proof. intros. by apply Z.mod_small. Qed.

Lemma to_unsigned_range bits z : 0 <= bits → 0 <= to_unsigned bits z < 2 ^ bits.
Proof. intros. apply Z.mod_pos_bound. lia. Qed.

Lemma to_unsigned_eq_iff bits z : 0 <= bits → to_unsigned bits z = z ↔ 0 <= z < 2 ^ bits.
Proof.
  intros Hb. split; [|apply to_unsigned_small]. intros <-. by apply to_unsigned_range.
Qed.

(** *** Valid bodies *)

Lemma require_nil {A} n (o : option A) : require n o = [] → ∃ v, o = Some v.
Proof. destruct o; [eauto|done]. Qed.

Lemma when_nil {A} (o : option A) bad e v : when o bad e = [] → o = Some v → bad v = false.
Proof. intros Hw ->. simpl in Hw. by destruct (bad v). Qed.

Record valid_report (r : PlaybackReport) : Prop := {
  vr_duration : 0 <= pr_Duration r <= 60000;
  vr_position : 0 <= pr_Position r;
  vr_rel : 0 <= pr_RelPosition r <= 100;
  vr_count : 0 <= pr_RebufCount r;
  vr_rebuf : 0 <= pr_RebufDuration r <= 60000;
  vr_user : 1 <= RuneCountInString (pr_UserID r) <= 45;
  vr_position32 : int32 (pr_Position r);
  vr_count32 : int32 (pr_RebufCount r);
  vr_bandwidth : int32_opt (pr_Bandwidth r);
  vr_bitrate : int32_opt (pr_Bitrate r);
}.

(** A body without errors has all fields, in the ranges of the design. *)
Lemma valid_body_report b :
  decoded_body b → ValidateAddRequestBody b = [] → ∃ r, NewAddPlaybackReport b = Some r ∧ valid_report r.
Proof.
  intros (Hd & Hp & Hrp & Hrc & Hrd & Hbw & Hbr) Hv. unfold ValidateAddRequestBody in Hv.
  repeat match goal with H : _ ++ _ = [] |- _ => apply app_eq_nil in H as [? H] end.
  repeat match goal with H : require _ _ = [] |- _ => apply require_nil in H as [? H] end.
  unfold NewAddPlaybackReport.
  repeat match goal with H : _ = Some _ |- _ => rewrite H; simpl end.
  eexists. split; [done|].
  unfold too_small, too_large, too_long, too_short in *.
  repeat match goal with
  | H : when ?o ?bad _ = [], H' : ?o = Some ?v |- _ => apply (when_nil _ _ _ v) in H; [cbv beta in H|exact H']
  end.
  repeat match goal with
  | H : (_ <? _) = false |- _ => apply Z.ltb_ge in H
  end.
  split; simpl; first [lia | by auto].
Qed.

(** ** Rows have the types of the columns *)

Inductive column := CString | CFixedString (n : nat) | CUInt8 | CUInt32 | CTimestamp | CIPv6.

Definition playback_columns : list (string * column) :=
  [("URL", CString); ("Duration", CUInt32); ("Timestamp", CTimestamp); ("Position", CUInt32);
   ("RelPosition", CUInt8); ("RebufCount", CUInt8); ("RebufDuration", CUInt32);
   ("Protocol", CFixedString 3); ("Cache", CString); ("Player", CFixedString 16); ("UserID", CString);
   ("Bandwidth", CUInt32); ("Bitrate", CUInt32); ("Device", CFixedString 3); ("Area", CFixedString 2);
   ("SubArea", CFixedString 3); ("IP", CIPv6)].

(** The Go type a column takes, with the range of its integers. *)
Definition arg_typed (c : column) (a : arg) : Prop :=
  match c, a with
  | (CString | CFixedString _ | CIPv6), AString _ => True
  | CUInt8, AUInt8 z => 0 <= z < 2 ^ 8
  | CUInt32, AUInt32 z => 0 <= z < 2 ^ 32
  | CTimestamp, ATime _ => True
  | _, _ => False
  end.
Definition row_typed (r : row) : Prop := Forall2 arg_typed (snd <$> playback_columns) r.

(** A value the driver can write to a column: it has the column's type, and a
    string for a [FixedString(n)] has at most [n] bytes.  (The form of an IPv6
    address is not looked at.) *)
Definition arg_fits (c : column) (a : arg) : Prop :=
  arg_typed c a ∧
  match c, a with
  | CFixedString n, AString s => (String.length s <= n)%nat
  | _, _ => True
  end.
Definition row_fits (r : row) : Prop := Forall2 arg_fits (snd <$> playback_columns) r.

(** The three fixed strings that the validation of a report does not bound. *)
Definition unbounded_fits (r : row) : Prop :=
  ∃ player area subarea, r !! 9%nat = Some (AString player) ∧ (String.length player <= 16)%nat ∧
    r !! 14%nat = Some (AString area) ∧ (String.length area <= 2)%nat ∧
    r !! 15%nat = Some (AString subarea) ∧ (String.length subarea <= 3)%nat.
Definition player_fits (r : row) : Prop :=
  ∃ player, r !! 9%nat = Some (AString player) ∧ (String.length player <= 16)%nat.

Lemma prepareArgs_typed env now r addr ts args : prepareArgs env now r addr ts = inr args → row_typed args.
Proof.
  unfold prepareArgs. destruct (if negb _ then _ else _) as [e|t]; [done|].
  destruct (getArea env addr) as [area sub]. intros [= <-]. unfold row_typed, playback_columns. simpl.
  repeat constructor; simpl; try (apply to_unsigned_range; lia); try lia;
    match goal with |- context [match ?o with _ => _ end] => destruct o end; try lia;
    apply to_unsigned_range; lia.
Qed.

(** *** The enumerations have three letters *)

Lemma mem_three x l : mem x l = true → Forall (λ y, String.length y = 3%nat) l → String.length x = 3%nat.
Proof.
  unfold mem. intros (y & Hy & ->%String.eqb_eq)%existsb_exists Hl. rewrite Forall_forall in Hl.
  apply Hl. by apply list_elem_of_In.
Qed.

Lemma not_among_nil n o l v : not_among n o l = [] → o = Some v → mem v l = true.
Proof. intros Hn Ho. apply (when_nil _ _ _ _ Hn) in Ho. by apply negb_false_iff in Ho. Qed.

Lemma valid_body_enums b p :
  ValidateAddRequestBody b = [] → NewAddPlaybackReport b = Some p →
  String.length (pr_Protocol p) = 3%nat ∧ String.length (pr_Device p) = 3%nat.
Proof.
  intros Hv Hp. unfold ValidateAddRequestBody in Hv.
  repeat match goal with H : _ ++ _ = [] |- _ => apply app_eq_nil in H as [? H] end.
  unfold NewAddPlaybackReport in Hp.
  destruct (ab_URL b), (ab_Duration b), (ab_Position b), (ab_RelPosition b), (ab_RebufCount b); try done.
  destruct (ab_RebufDuration b), (ab_Protocol b) as [pt|] eqn:Hpt, (ab_Player b), (ab_UserID b), (ab_Device b) as [dv|] eqn:Hdv; try done.
  injection Hp as <-. cbn [pr_Protocol pr_Device].
  split; (eapply mem_three;
    [match goal with H : not_among _ (Some ?v) _ = [] |- mem ?v _ = _ => exact (not_among_nil _ _ _ _ H eq_refl) end
    |repeat constructor]).
Qed.

Lemma ToLower_length s : String.length (ToLower s) = String.length s.
Proof. induction s as [|a s IH]; [done|]. simpl. by rewrite IH. Qed.

(** A location database with two-letter countries and subdivisions of at most
    three letters. *)
Definition location_codes (env : OlapEnv) : Prop :=
  ∀ ip c, oe_City env ip = inr c →
    (String.length (ci_Country c) <= 2)%nat ∧ Forall (λ d, (String.length d <= 3)%nat) (ci_Subdivisions c).

Lemma getArea_codes env addr :
  location_codes env →
  (String.length (getArea env addr).1 <= 2)%nat ∧ (String.length (getArea env addr).2 <= 3)%nat.
Proof.
  intros Hl. unfold getArea. destruct (oe_City env (ParseIP addr)) as [e|c] eqn:Hc; [simpl; lia|].
  destruct (Hl _ _ Hc) as [H1 H2]. cbn [fst snd]. rewrite !ToLower_length. split; [done|].
  destruct (ci_Subdivisions c) as [|d1 [|d2 ds]]; [simpl; lia..|].
  apply Forall_cons in H2 as [_ [H2 _]%Forall_cons]. done.
Qed.

(** What the row of a valid report leaves to the database: the width of the
    player's name, and that of the location codes. *)
Lemma prepareArgs_fits env now b p addr ts args :
  ValidateAddRequestBody b = [] → NewAddPlaybackReport b = Some p → prepareArgs env now p addr ts = inr args →
  row_typed args ∧ (row_fits args ↔ unbounded_fits args) ∧
  (location_codes env → row_fits args ↔ player_fits args).
Proof.
  intros Hv Hp Ha. pose proof (prepareArgs_typed _ _ _ _ _ _ Ha) as Ht. split; [done|].
  destruct (valid_body_enums b p Hv Hp) as [H1 H2]. pose proof (getArea_codes env addr) as Hcodes.
  unfold prepareArgs in Ha. destruct (if negb _ then _ else _) as [e|t]; [done|].
  destruct (getArea env addr) as [area sub]. injection Ha as Heq.
  assert (row_fits args ↔ unbounded_fits args) as Hiff.
  { rewrite <-Heq in Ht |- *. unfold row_typed, playback_columns in Ht. unfold row_fits, playback_columns, unbounded_fits.
    cbn [fmap list_fmap snd] in *. rewrite !Forall2_cons in Ht. destruct_and!.
    rewrite !Forall2_cons. unfold arg_fits. split.
    - intros ([_ _] & [_ _] & [_ _] & [_ _] & [_ _] & [_ _] & [_ _] & [_ _] & [_ _] & [_ Hpl] & [_ _] & [_ _] & [_ _] & [_ _] & [_ Har] & [_ Hsub] & _).
      eexists _, _, _. split_and!; [reflexivity|done|reflexivity|done|reflexivity|done].
    - intros (player & ar & sb & [= <-] & Hpl & [= <-] & Har & [= <-] & Hsub). split_and!; try done; lia. }
  split; [done|]. intros Hl. rewrite Hiff. specialize (Hcodes Hl). rewrite <-Heq.
  unfold unbounded_fits, player_fits. split; [naive_solver|]. intros (pl & [= <-] & Hpl).
  eexists _, _, _. split_and!; [reflexivity|done|reflexivity|apply Hcodes|reflexivity|apply Hcodes].
Qed.

(** C20: The numbers of a report are stored as they were sent, up to the width of
    the columns. For every body that passes the validation, the row keeps duration,
    position, relative position and rebuffering duration whatever they are; the
    rebuffering count is stored modulo 256, so it is kept exactly when it is below
    256; bandwidth and bit rate are stored modulo 2^32, so they are kept exactly
    when they are not negative, and as zero when they are absent. *)
Theorem playback_values_kept env now b addr ts args :
  decoded_body b → ValidateAddRequestBody b = [] →
  (∃ r, NewAddPlaybackReport b = Some r ∧ prepareArgs env now r addr ts = inr args) →
  ∃ r, NewAddPlaybackReport b = Some r ∧ length args = length playback_columns ∧
    args !! 1%nat = Some (AUInt32 (pr_Duration r)) ∧
    args !! 3%nat = Some (AUInt32 (pr_Position r)) ∧
    args !! 4%nat = Some (AUInt8 (pr_RelPosition r)) ∧
    args !! 6%nat = Some (AUInt32 (pr_RebufDuration r)) ∧
    args !! 5%nat = Some (AUInt8 (pr_RebufCount r `mod` 2 ^ 8)) ∧
    args !! 11%nat = Some (AUInt32 (default 0 (pr_Bandwidth r) `mod` 2 ^ 32)) ∧
    args !! 12%nat = Some (AUInt32 (default 0 (pr_Bitrate r) `mod` 2 ^ 32)) ∧
    (args !! 5%nat = Some (AUInt8 (pr_RebufCount r)) ↔ pr_RebufCount r < 256) ∧
    (∀ v, pr_Bandwidth r = Some v → args !! 11%nat = Some (AUInt32 v) ↔ 0 <= v) ∧
    (∀ v, pr_Bitrate r = Some v → args !! 12%nat = Some (AUInt32 v) ↔ 0 <= v).
Proof.
  intros Hb Hv (r & Hr & Ha). destruct (valid_body_report b Hb Hv) as (r' & Hr' & V).
  rewrite Hr in Hr'. injection Hr' as <-. exists r. split; [done|].
  destruct V as [V1 V2 V3 V4 V5 V6 V7 V8 V9 V10]. unfold int32 in *.
  unfold prepareArgs in Ha. destruct (if negb _ then _ else _) as [e|t]; [done|].
  destruct (getArea env addr) as [area sub]. injection Ha as <-. cbn [lookup list_lookup].
  assert (∀ b x y, 0 <= b → Some (AUInt8 (to_unsigned b x)) = Some (AUInt8 y) ↔ to_unsigned b x = y) as E8.
  { intros. split; [by intros [=]|by intros ->]. }
  assert (∀ b x y, 0 <= b → Some (AUInt32 (to_unsigned b x)) = Some (AUInt32 y) ↔ to_unsigned b x = y) as E32.
  { intros. split; [by intros [=]|by intros ->]. }
  rewrite (to_unsigned_small 32 (pr_Duration r)), (to_unsigned_small 32 (pr_Position r)),
    (to_unsigned_small 8 (pr_RelPosition r)), (to_unsigned_small 32 (pr_RebufDuration r)) by lia.
  split_and!; try done.
  - by destruct (pr_Bandwidth r).
  - by destruct (pr_Bitrate r).
  - rewrite E8, to_unsigned_eq_iff by lia. lia.
  - intros v Hbv. rewrite Hbv, E32, to_unsigned_eq_iff by lia. specialize (V9 v Hbv). unfold int32 in V9. lia.
  - intros v Hbv. rewrite Hbv, E32, to_unsigned_eq_iff by lia. specialize (V10 v Hbv). unfold int32 in V10. lia.
Qed.

(** ** Delivery *)

(** Nothing the batch writer asks of the database fails. *)
Definition healthy (env : OlapEnv) : Prop :=
  ∀ n q r, oe_begin env n = None ∧ oe_prepare env n q = None ∧ oe_exec env n r = None ∧ oe_commit env n = None.

(** What the service relies on of the framework: its error encoder sends a status
    of the client or server error classes, whether or not it then fails to write the
    body, and writing a body keeps the status that was sent. *)
Class GoaSpec (goa : Goa) : Prop := {
  goa_error_status v w : w_status w = None →
    ∃ c, w_status (goa_ErrorEncoder goa v w).1 = Some c ∧ 400 <= c < 600;
  goa_encode_status m w c : w_status w = Some c → w_status (goa_Encode goa m w).1 = Some c;
}.

Section delivery.
Context (env : OlapEnv) (database : string) (goa : Goa) `{!GoaSpec goa}.

(** The batch writer but for its batch. *)
Definition same_bw (w w' : BatchWriter) : Prop := set_batch [] w = set_batch [] w'.

Lemma execRows_frame rows s :
  wp (execRows env rows) (λ o s', ol_bw s' = ol_bw s ∧ ol_rows s' = ol_rows s ∧
    match o with ROk _ => True | RErr _ => ¬ healthy env | RPanic _ => False end) s.
Proof.
  revert s. induction rows as [|r rows IH]; intros s; simpl; [by apply wp_ret|].
  apply wp_bind. unfold wp at 1, Exec. destruct (oe_exec env (ol_tick s) r) as [e|] eqn:He; simpl.
  - split_and!; [done..|]. intros Hh. destruct (Hh (ol_tick s) "" r) as (_ & _ & Hx & _). by rewrite He in Hx.
  - eapply wp_mono; [apply IH|]. by simpl.
Qed.

(** A batch is stored whole or dropped whole; a healthy database stores it. *)
Lemma writeBatch_spec s :
  1 <= bw_width (ol_bw s) →
  wp (writeBatch env database) (λ o s', ∃ stored : bool,
    ol_rows s' = ol_rows s ++ (if stored then bw_batch (ol_bw s) else []) ∧
    ol_bw s' = set_batch [] (ol_bw s) ∧ (∀ w, o ≠ RPanic w) ∧ (healthy env → stored = true) ∧
    (o = ROk tt → stored = true)) s.
Proof.
  intros Hw. unfold writeBatch. apply wp_bind, wp_gets. cbv beta.
  destruct (Z.ltb_spec (bw_width (ol_bw s) - 1) 0); [lia|]. apply wp_deferred, wp_bind.
  assert (∀ o : result error unit, (∀ w, o ≠ RPanic w) → o ≠ ROk tt → ¬ healthy env → ∀ s', ol_bw s' = ol_bw s → ol_rows s' = ol_rows s →
    wp (modify (upd_bw (set_batch [])) : Go Olap unit) (λ _ s'', ∃ stored : bool,
      ol_rows s'' = ol_rows s ++ (if stored then bw_batch (ol_bw s) else []) ∧
      ol_bw s'' = set_batch [] (ol_bw s) ∧ (∀ w, o ≠ RPanic w) ∧ (healthy env → stored = true) ∧
      (o = ROk tt → stored = true)) s') as Hfail.
  { intros o Ho Ho' Hu s' Hb Hr. apply wp_modify. exists false. simpl. by rewrite Hb, Hr, app_nil_r. }
  unfold wp at 1, BeginTx. destruct (oe_begin env (ol_tick s)) as [e|] eqn:E1; simpl.
  { apply Hfail; try done. intros Hh. destruct (Hh (ol_tick s) "" []) as (Hx & _). by rewrite E1 in Hx. }
  apply wp_bind. unfold wp at 1, Prepare. set (q := prepareInsertQuery _ _).
  destruct (oe_prepare env _ q) as [e|] eqn:E2; simpl.
  { apply Hfail; try done. intros Hh. destruct (Hh (ol_tick (ol_next s)) q []) as (_ & Hx & _). by rewrite E2 in Hx. }
  apply wp_bind, wp_gets, wp_bind. simpl. eapply wp_mono; [apply execRows_frame|]. simpl.
  intros [[]|e|w] s' (Hb & Hr & Hok); [|by apply Hfail|done].
  unfold wp at 1, Commit. destruct (oe_commit env (ol_tick s')) as [[e st]|] eqn:E3; simpl; apply wp_modify.
  - exists st. destruct st; simpl; rewrite ?Hb, ?Hr, ?app_nil_r; split_and!; try done.
    intros Hh. destruct (Hh (ol_tick s') "" []) as (_ & _ & _ & Hx). by rewrite E3 in Hx.
  - exists true. simpl. by rewrite Hb, Hr.
Qed.

(** The client is told that its report was taken. *)
Definition acknowledged (o : result error Writer) : bool :=
  match o with ROk w => bool_decide (w_status w = Some 201) | _ => false end.

Lemma encodeFailure_status v w : w_status w = None → acknowledged (ROk (encodeFailure goa v w)) = false.
Proof.
  intros Hw. assert (∃ c, w_status (encodeFailure goa v w) = Some c ∧ 400 <= c < 600) as (c & Hc & Hr).
  2: { simpl. apply bool_decide_eq_false_2. rewrite Hc. intros [= ->]. lia. }
  assert (∃ c, w_status (EncodeAddError goa v w).1 = Some c ∧ 400 <= c < 600) as (c & Hc & Hr).
  { destruct v; try (by apply goa_error_status). exists 400. split; [|lia]. apply goa_encode_status.
    by apply WriteHeader_fresh. }
  exists c. split; [|done]. unfold encodeFailure. destruct (EncodeAddError goa v w) as [w' [err|]]; [|done].
  simpl in *. unfold WriteHeader. by rewrite Hc.
Qed.

(** The row of a request, when its report is one to store. *)
Definition row_of (r : WRequest) (now : Z) (args : row) : Prop :=
  ∃ p, DecodeAddRequest r = inr (Some p) ∧ pr_RebufDuration p <= pr_Duration p ∧
    prepareArgs env now p (from r) "" = inr args.

(** A request is acknowledged and its row is put at the end of the channel, or it
    is not and leaves the writer and the table alone. *)
Definition taken (r : WRequest) (s : Olap) (o : result error Writer) (s' : Olap) : Prop :=
  ol_rows s' = ol_rows s ∧
  (acknowledged o = false ∧ ol_bw s' = ol_bw s ∨
   ∃ args, acknowledged o = true ∧ row_of r (oe_now env (ol_tick s)) args ∧
     ol_bw s' = set_chan (bw_rcvChan (ol_bw s) ++ [args]) (ol_bw s)).

Lemma AddHandler_frame r w s : w_status w = None → wp (AddHandler env goa r w) (taken r s) s.
Proof using GoaSpec0.
  intros Hw. unfold AddHandler. destruct (DecodeAddRequest r) as [err|[p|]] eqn:Hd.
  - apply wp_ret. split; [done|]. left. by rewrite encodeFailure_status.
  - unfold Add. destruct (Z.ltb_spec (pr_Duration p) (pr_RebufDuration p)).
    { apply wp_bind, wp_ret, wp_ret. split; [done|]. left. by rewrite encodeFailure_status. }
    apply wp_bind, wp_bind, wp_try. unfold wp at 1, BatchWriter_Write.
    destruct (prepareArgs _ _ p (from r) "") as [err|args] eqn:Ha; simpl.
    { apply wp_ret, wp_ret. split; [done|]. left. by rewrite encodeFailure_status. }
    destruct (bw_closed (ol_bw s)); simpl; [split; [done|by left]|].
    apply wp_ret, wp_ret. simpl. split; [done|]. right. exists args. split_and!; [|by exists p|done].
    simpl. apply bool_decide_eq_true_2. by apply WriteHeader_fresh.
  - apply wp_gopanic. split; [done|by left].
Qed.

Lemma AddEndpoint_frame r s : wp (AddEndpoint env goa r newWriter) (taken r s) s.
Proof using GoaSpec0.
  unfold AddEndpoint, HandleReporterOrigin. destruct (String.eqb _ ""); [by apply AddHandler_frame|].
  destruct (spec0 _); [|by apply AddHandler_frame]. destruct (negb _); [|by apply AddHandler_frame].
  apply wp_ret. split; [done|by left].
Qed.

(** *** Interleavings

    Requests with any outcome, turns of the writer's loop and [Stop], in any order;
    [acc] are the requests that were answered 201, in order, each with the time at
    which it was handled.  A full channel blocks the request.  The loop receives only
    when there is something to receive or the channel is closed. *)
Inductive wreach : list (WRequest * Z) → Olap → Prop :=
| wr_start : wreach [] (mkOlap (NewBatchWriter 16) [] 0)
| wr_request acc s r o s' :
    wreach acc s → chan_full (ol_bw s) = false → AddEndpoint env goa r newWriter s = (o, s') →
    wreach (acc ++ if acknowledged o then [(r, oe_now env (ol_tick s))] else []) s'
| wr_receive acc s s' :
    wreach acc s → bw_rcvChan (ol_bw s) ≠ [] ∨ bw_closed (ol_bw s) = true →
    Start_receive s = (ROk tt, s') → wreach acc s'
| wr_tick acc s o s' : wreach acc s → Start_tick env database s = (o, s') → wreach acc s'
| wr_stop acc s o s' : wreach acc s → Stop s = (o, s') → wreach acc s'.

(** The rows of the acknowledged requests, one for each and in order. *)
Definition rows_of : list (WRequest * Z) → list row → Prop := Forall2 (λ a, row_of a.1 a.2).

(** Batches in order, each with whether it was stored. *)
Definition all_rows (bs : list (list row * bool)) : list row := concat (fst <$> bs).
Definition stored_rows (bs : list (list row * bool)) : list row :=
  concat ((λ b : list row * bool, if b.2 then b.1 else []) <$> bs).

Lemma all_rows_snoc bs b : all_rows (bs ++ [b]) = all_rows bs ++ b.1.
Proof. unfold all_rows. rewrite fmap_app, concat_app. simpl. by rewrite app_nil_r. Qed.
Lemma stored_rows_snoc bs b : stored_rows (bs ++ [b]) = stored_rows bs ++ (if b.2 then b.1 else []).
Proof. unfold stored_rows. rewrite fmap_app, concat_app. simpl. by rewrite app_nil_r. Qed.
Lemma stored_all bs : Forall (λ b, b.2 = true) bs → stored_rows bs = all_rows bs.
Proof.
  induction 1 as [|b bs Hb _ IH]; [done|]. unfold stored_rows, all_rows in *. rewrite !fmap_cons. simpl.
  by rewrite Hb, IH.
Qed.

Record delivered (acc : list (WRequest * Z)) (s : Olap) (bs : list (list row * bool)) : Prop := {
  dl_all : rows_of acc (all_rows bs ++ bw_batch (ol_bw s) ++ bw_rcvChan (ol_bw s));
  dl_stored : ol_rows s = stored_rows bs;
  dl_counter : bw_counter (ol_bw s) = length (bw_batch (ol_bw s));
  dl_healthy : healthy env → Forall (λ b, b.2 = true) bs;
  dl_loop : bw_width (ol_bw s) = 16 ∧ bw_stop (ol_bw s) = false;
}.

Lemma delivered_request acc s bs r o s' :
  delivered acc s bs → AddEndpoint env goa r newWriter s = (o, s') →
  delivered (acc ++ if acknowledged o then [(r, oe_now env (ol_tick s))] else []) s' bs.
Proof using GoaSpec0.
  intros [D1 D2 D3 D5 D6] Hrun.
  pose proof (wp_run _ _ _ _ _ (AddEndpoint_frame r s) Hrun) as [Hrows [[-> Hb]|(args & -> & Hrow & Hb)]].
  - rewrite app_nil_r. split; rewrite ?Hb, ?Hrows; done.
  - split; rewrite ?Hb, ?Hrows; try done. simpl.
    rewrite !app_assoc, <-(app_assoc (all_rows bs)). apply Forall2_app; [done|]. by repeat constructor.
Qed.

Lemma delivered_tick acc s bs o s' :
  delivered acc s bs → Start_tick env database s = (o, s') → ∃ bs', delivered acc s' bs'.
Proof.
  intros D. pose proof D as [D1 D2 D3 D5 [Hw Hst]]. revert o s'.
  enough (wp (Start_tick env database) (λ _ s', ∃ bs', delivered acc s' bs') s) as Hwp.
  { intros o s' Hrun. exact (wp_run _ _ _ _ _ Hwp Hrun). }
  unfold Start_tick. apply wp_bind, wp_gets. cbv beta. destruct (Nat.eqb_spec (bw_counter (ol_bw s)) 0).
  { apply wp_ret. by exists bs. }
  apply wp_bind, wp_try. eapply wp_mono; [apply writeBatch_spec; lia|]. simpl.
  intros o s' (st & Hr & Hb & Hp & Hh & _).
  assert (∃ bs', delivered acc (upd_bw (set_counter 0) s') bs') as Hd.
  { exists (bs ++ [(bw_batch (ol_bw s), st)]). split; simpl; rewrite ?Hb; simpl; try done.
    - by rewrite all_rows_snoc, <-app_assoc.
    - by rewrite Hr, D2, stored_rows_snoc.
    - intros H'. apply Forall_app. split; [by apply D5|]. constructor; [by apply Hh|constructor]. }
  destruct o as [?|?|w]; [by apply wp_modify..|by destruct (Hp w)].
Qed.

(** Every reachable state delivers. *)
Lemma wreach_delivered acc s : wreach acc s → ∃ bs, delivered acc s bs.
Proof using GoaSpec0.
  induction 1 as [|acc s r o s' _ [bs D] _ Hrun|acc s s' _ [bs D] _ Hrun|acc s o s' _ [bs D] Hrun|acc s o s' _ [bs D] Hrun].
  - exists []. by split; [constructor|..].
  - exists bs. by eapply delivered_request.
  - exists bs. destruct D as [D1 D2 D3 D5 D6]. unfold Start_receive in Hrun.
    destruct (bw_rcvChan (ol_bw s)) as [|el q] eqn:Hq; injection Hrun as <-; split; simpl; rewrite ?Hq; try done.
    + by rewrite <-(app_assoc _ [el]).
    + rewrite length_app, D3. simpl. lia.
  - by eapply delivered_tick.
  - exists bs. unfold Stop in Hrun. destruct (bw_closed _); injection Hrun as <- <-; [done|].
    by destruct D as [D1 D2 D3 D5 D6]; split.
Qed.

(** C19: Acknowledged reports are stored at most once, in order and in whole
    batches. In any interleaving of requests, turns of the batch writer and [Stop],
    with any failures of the database, the requests that were answered 201 have one row
    each, and these rows are, in the order of the answers, exactly: a sequence of past
    batches, each stored entirely or not at all, then the current batch, then the
    channel; the table holds the stored batches in order and nothing else. If no
    database operation fails, nothing is lost: the table, the batch and the channel
    together are the rows of the acknowledged requests. *)
Theorem reports_stored_once acc s :
  wreach acc s →
  ∃ rows bs, rows_of acc rows ∧
    rows = all_rows bs ++ bw_batch (ol_bw s) ++ bw_rcvChan (ol_bw s) ∧ ol_rows s = stored_rows bs ∧
    (healthy env → rows = ol_rows s ++ bw_batch (ol_bw s) ++ bw_rcvChan (ol_bw s)).
Proof using GoaSpec0.
  intros (bs & [D1 D2 D3 D5 D6])%wreach_delivered. eexists _, bs. split_and!; [exact D1|done|done|].
  intros Hh. by rewrite D2, stored_all by auto.
Qed.

(** A row comes from a validated report. *)
Lemma row_of_fits r now args :
  row_of r now args → row_typed args ∧ (row_fits args ↔ unbounded_fits args) ∧
    (location_codes env → row_fits args ↔ player_fits args).
Proof.
  intros (p & Hd & _ & Ha). unfold DecodeAddRequest in Hd. destruct (wr_body r) as [| | |b]; try done.
  destruct (ValidateAddRequestBody b) eqn:Hv; [|done]. injection Hd as Hp. by eapply prepareArgs_fits.
Qed.

Lemma stored_sub bs r : r ∈ stored_rows bs → r ∈ all_rows bs.
Proof.
  induction bs as [|[b st] bs IH]; [done|]. unfold stored_rows, all_rows in *. simpl.
  rewrite !elem_of_app. destruct st; simpl; [naive_solver|]. intros [Hn|?]; [by apply not_elem_of_nil in Hn|auto].
Qed.

(** C36: What the rows of the service fit. In every reachable state each row of the
    table, of the batch and of the channel has one value per column of the schema, of
    the Go type the column takes, with unsigned integers in the column's range; all its
    strings fit their [FixedString] columns exactly when the
    player's name has at most 16 bytes and the codes of the area and subarea have at
    most 2 and 3, and with a location database of such codes exactly when the player's
    name has at most 16, which the validation does not ensure: it allows 128
    characters. The loop's counter is the length of the batch. *)
Theorem rows_well_typed acc s :
  wreach acc s →
  (∀ r, r ∈ ol_rows s ++ bw_batch (ol_bw s) ++ bw_rcvChan (ol_bw s) →
     row_typed r ∧ (row_fits r ↔ unbounded_fits r) ∧ (location_codes env → row_fits r ↔ player_fits r)) ∧
  bw_counter (ol_bw s) = length (bw_batch (ol_bw s)).
Proof using GoaSpec0.
  intros (bs & [D1 D2 D3 D5 D6])%wreach_delivered. split; [|done]. intros r Hr.
  assert (r ∈ all_rows bs ++ bw_batch (ol_bw s) ++ bw_rcvChan (ol_bw s)) as Hin.
  { rewrite D2 in Hr. rewrite !elem_of_app in *. destruct Hr as [?%stored_sub|[?|?]]; auto. }
  apply list_elem_of_lookup in Hin as [i Hi].
  destruct (Forall2_lookup_r _ _ _ _ _ D1 Hi) as (a & _ & Hrow). by eapply row_of_fits.
Qed.

(** The loop of the writer, left alone: it receives what waits, then the ticker
    fires. *)
Fixpoint receive_all (n : nat) : Go Olap unit :=
  match n with O => ret tt | S n => Start_receive;;! receive_all n end.

Lemma receive_all_spec acc s :
  wreach acc s → ∃ s', receive_all (length (bw_rcvChan (ol_bw s))) s = (ROk tt, s') ∧ wreach acc s' ∧
    bw_rcvChan (ol_bw s') = [] ∧ ol_rows s' = ol_rows s.
Proof.
  remember (length (bw_rcvChan (ol_bw s))) as n eqn:Hn. revert s Hn. induction n as [|n IH]; intros s Hn Hr; simpl.
  { exists s. by destruct (bw_rcvChan (ol_bw s)). }
  destruct (bw_rcvChan (ol_bw s)) as [|el q] eqn:Hq; [done|]. unfold bind at 1, Start_receive at 1. rewrite Hq.
  set (s1 := upd_bw _ s).
  destruct (IH s1) as (s' & Hrun & Hr' & Hq' & Hrows).
  - simpl in *. lia.
  - eapply wr_receive; [exact Hr|left; by rewrite Hq|]. unfold Start_receive. by rewrite Hq.
  - eauto 10.
Qed.

(** Acknowledged reports reach the table. From any reachable state, with a
    healthy database, once the loop of the batch writer has received what waits on
    the channel the next tick of its timer leaves exactly the rows of the acknowledged
    requests in the table, in the order of their acknowledgement, and nothing
    waiting; also after [Stop]. *)
Theorem reports_reach_table acc s :
  healthy env → wreach acc s →
  ∃ s', bind (receive_all (length (bw_rcvChan (ol_bw s)))) (λ _, Start_tick env database) s = (ROk tt, s') ∧
    rows_of acc (ol_rows s') ∧ bw_batch (ol_bw s') = [] ∧ bw_rcvChan (ol_bw s') = [].
Proof using GoaSpec0.
  intros Hh Hr. destruct (receive_all_spec acc s Hr) as (s1 & Hrun & Hr1 & Hq & _).
  apply wreach_delivered in Hr1 as (bs & [D1 D2 D3 D5 [D6 _]]). rewrite Hq, app_nil_r in D1.
  rewrite (bind_ok _ _ _ _ _ Hrun). rewrite <-(stored_all bs), <-D2 in D1 by auto. clear Hrun Hr.
  enough (wp (Start_tick env database) (λ o s', o = ROk tt ∧ rows_of acc (ol_rows s') ∧ bw_batch (ol_bw s') = [] ∧
    bw_rcvChan (ol_bw s') = []) s1) as Hwp.
  { destruct (Start_tick env database s1) as [o s'] eqn:Ht. unfold wp in Hwp. rewrite Ht in Hwp.
    simpl in Hwp. destruct Hwp as (-> & ?). by exists s'. }
  unfold Start_tick. apply wp_bind, wp_gets. cbv beta. destruct (Nat.eqb_spec (bw_counter (ol_bw s1)) 0) as [H0|H0].
  { apply wp_ret. rewrite D3 in H0. apply nil_length_inv in H0. rewrite H0, app_nil_r in D1. done. }
  apply wp_bind, wp_try. eapply wp_mono; [apply writeBatch_spec; lia|]. simpl.
  intros o s' (st & Hrows & Hb & Hp & Hst & _). rewrite (Hst Hh) in Hrows.
  destruct o as [?|?|w]; [apply wp_modify..|by destruct (Hp w)]; simpl; by rewrite Hb, Hrows.
Qed.
End delivery.

(** ** Concrete runs *)

Module runs.
Definition goa0 : Goa := {|
  goa_ErrorEncoder _ w := (WriteHeader 400 w, None);
  goa_Encode m w := (WriteBody (CText m) w, None);
  goa_RequestID := "r1" |}.

(** A database that takes the rows [ok] accepts. *)
Definition db (ok : row → bool) : OlapEnv := {|
  oe_now n := Z.of_nat n;
  oe_Parse _ := inl (EText "cannot parse");
  oe_City _ := inr (mkCity "GB" ["ENG"; "WBK"]);
  oe_begin _ := None;
  oe_prepare _ _ := None;
  oe_exec _ r := if ok r then None else Some (EText "invalid IPv6");
  oe_commit _ := None |}.
Definition env0 : OlapEnv := db (λ _, true).

(** A column of type IPv6. *)
Definition address_ok (r : row) : bool :=
  match last r with Some (AString a) => bool_decide (is_Some (ParseIP a)) | _ => false end.

Definition body0 : AddRequestBody :=
  mkBody (Some "@veritasium#f/driverless-cars-are-already-here#1") (Some 30000) (Some 90000) (Some 50) (Some 300)
    (Some 1000) (Some "stb") None (Some "sg-p2,proxy") (Some "432521") (Some (-1)) (Some 500000) (Some "web").

Definition request (xff : string) : WRequest :=
  mkWRequest (if String.eqb xff "" then ∅ else {["X-Forwarded-For" := [xff]]}) "81.2.69.142:4711" (Decoded body0).

Definition start : Olap := mkOlap (NewBatchWriter 16) [] 0.
Definition after (env : OlapEnv) (r : WRequest) (s : Olap) : Olap := (AddEndpoint env goa0 r newWriter s).2.
Definition status (env : OlapEnv) (r : WRequest) (s : Olap) : option Z :=
  match (AddEndpoint env goa0 r newWriter s).1 with ROk w => w_status w | _ => None end.
Definition row0 : row :=
  [AString "@veritasium#f/driverless-cars-are-already-here#1"; AUInt32 30000; ATime 0; AUInt32 90000; AUInt8 50;
   AUInt8 44; AUInt32 1000; AString "stb"; AString "miss"; AString "sg-p2"; AString "432521"; AUInt32 4294967295;
   AUInt32 500000; AString "web"; AString "gb"; AString "wbk"; AString "81.2.69.142"].

Lemma healthy0 : healthy env0.
Proof. by intros n q r. Qed.

#[export] Instance goa0_spec : GoaSpec goa0.
Proof.
  split.
  - intros v w Hw. exists 400. split; [|lia]. by apply WriteHeader_fresh.
  - intros m w c Hw. simpl. unfold WriteHeader. by rewrite Hw.
Qed.

Definition acc0 : list (WRequest * Z) := [(request "", 0)].

Lemma one_request : wreach env0 "watchman" goa0 acc0 (after env0 (request "") start).
Proof.
  apply (wr_request env0 "watchman" goa0 [] start (request "") (AddEndpoint env0 goa0 (request "") newWriter start).1).
  - apply wr_start.
  - reflexivity.
  - apply surjective_pairing.
Qed.

Lemma codes0 : location_codes env0.
Proof. intros ip c [= <-]. simpl. split; [lia|]. repeat constructor; simpl; lia. Qed.

(** A driver that refuses a row that does not fit. *)
Definition fits (r : row) : bool :=
  match r !! 9%nat with Some (AString player) => (String.length player <=? 16)%nat | _ => false end.
Definition long_player : WRequest :=
  mkWRequest ∅ "81.2.69.142:4711" (Decoded
    (mkBody (ab_URL body0) (ab_Duration body0) (ab_Position body0) (ab_RelPosition body0) (ab_RebufCount body0)
       (ab_RebufDuration body0) (ab_Protocol body0) (ab_Cache body0) (Some "player-with-a-long-name") (ab_UserID body0)
       (ab_Bandwidth body0) (ab_Bitrate body0) (ab_Device body0))).
End runs.
#[local] Existing Instance runs.goa0_spec.

(** Witness of [playback_values_kept]: 300 rebuffering events are stored as 44. *)
Lemma playback_values_kept_witness :
  ∃ r, NewAddPlaybackReport runs.body0 = Some r ∧
    runs.row0 !! 5%nat = Some (AUInt8 (pr_RebufCount r `mod` 2 ^ 8)) ∧ pr_RebufCount r `mod` 2 ^ 8 = 44.
Proof.
  destruct (playback_values_kept runs.env0 0 runs.body0 "81.2.69.142" "" runs.row0) as (r & Hr & _ & _ & _ & _ & _ & Hc & _).
  - unfold decoded_body, int32_opt, int32. split_and!; intros z Hz; simpl in Hz; injection Hz as <-; lia.
  - vm_compute. reflexivity.
  - eexists. split; [reflexivity|]. vm_compute. reflexivity.
  - exists r. split; [exact Hr|]. split; [exact Hc|]. vm_compute in Hr. injection Hr as <-. reflexivity.
Defined.

(** Witness of [reports_stored_once]: one acknowledged report waits. *)
Lemma reports_stored_once_witness :
  ∃ rows, rows_of runs.env0 runs.acc0 rows ∧
    rows = ol_rows (runs.after runs.env0 (runs.request "") runs.start) ++
      bw_batch (ol_bw (runs.after runs.env0 (runs.request "") runs.start)) ++
      bw_rcvChan (ol_bw (runs.after runs.env0 (runs.request "") runs.start)).
Proof.
  destruct (reports_stored_once runs.env0 "watchman" runs.goa0 runs.acc0
    (runs.after runs.env0 (runs.request "") runs.start) runs.one_request) as (rows & bs & Hrows & _ & _ & Hh).
  exists rows. split; [exact Hrows|]. exact (Hh runs.healthy0).
Defined.

(** Witness of [rows_well_typed] in the same state: the row fits. *)
Lemma rows_well_typed_witness :
  bw_rcvChan (ol_bw (runs.after runs.env0 (runs.request "") runs.start)) = [runs.row0] ∧ row_fits runs.row0.
Proof.
  assert (bw_rcvChan (ol_bw (runs.after runs.env0 (runs.request "") runs.start)) = [runs.row0]) as Hc
    by (vm_compute; reflexivity).
  split; [exact Hc|].
  destruct (rows_well_typed runs.env0 "watchman" runs.goa0 runs.acc0 _ runs.one_request) as [Hall _].
  destruct (Hall runs.row0) as (_ & _ & Hf).
  - rewrite Hc. rewrite !elem_of_app, list_elem_of_singleton. auto.
  - apply (Hf runs.codes0). exists "sg-p2". split; [reflexivity|]. simpl. lia.
Defined.

(** Witness of [reports_reach_table]. *)
Lemma reports_reach_table_witness :
  ∃ s', bind (receive_all (length (bw_rcvChan (ol_bw (runs.after runs.env0 (runs.request "") runs.start)))))
      (λ _, Start_tick runs.env0 "watchman") (runs.after runs.env0 (runs.request "") runs.start) = (ROk tt, s') ∧
    rows_of runs.env0 runs.acc0 (ol_rows s') ∧ bw_batch (ol_bw s') = [] ∧ bw_rcvChan (ol_bw s') = [].
Proof.
  apply (reports_reach_table runs.env0 "watchman" runs.goa0 runs.acc0 _ runs.healthy0 runs.one_request).
Defined.

(** A player's name of more than 16 bytes passes the validation; the driver refuses
    the row, and with it the batch: the acknowledged report of another client is
    lost. *)
Example long_player_loses_batch :
  let env := runs.db runs.fits in
  let s1 := runs.after env (runs.request "") runs.start in
  let s2 := runs.after env runs.long_player s1 in
  let s3 := ((receive_all 2;;! Start_tick env "watchman") s2).2 in
  runs.status env (runs.request "") runs.start = Some 201 ∧
  runs.status env runs.long_player s1 = Some 201 ∧
  ol_rows s3 = [] ∧ bw_batch (ol_bw s3) = [] ∧ bw_rcvChan (ol_bw s3) = [].
Proof. vm_compute. done. Qed.

(** The address of a row is the client's [X-Forwarded-For] as it came. One that is
    no address makes the database refuse the row, and with it the batch: the
    acknowledged report of another client is lost. *)
Example one_bad_address_loses_batch :
  let env := runs.db runs.address_ok in
  let s1 := runs.after env (runs.request "") runs.start in
  let s2 := runs.after env (runs.request "unknown") s1 in
  let s3 := ((receive_all 2;;! Start_tick env "watchman") s2).2 in
  runs.status env (runs.request "") runs.start = Some 201 ∧
  runs.status env (runs.request "unknown") s1 = Some 201 ∧
  ol_rows s3 = [] ∧ bw_batch (ol_bw s3) = [] ∧ bw_rcvChan (ol_bw s3) = [].
Proof. vm_compute. done. Qed.

(** The origins of other domains that only begin like an allowed one pass. *)
Example origins_not_anchored :
  spec0 "https://odysee.com" = true ∧ spec0 "https://evil.example" = false ∧
  spec0 "https://odysee.com.evil.example" = true ∧ spec0 "https://odysee-com.example" = true.
Proof. vm_compute. done. Qed.

(** The loop never ends: [stop] is never set, so nothing reports back to [Stop],
    and after [Stop] a closed channel is received from without pause. *)
Lemma loop_never_ends env database goa `{!GoaSpec goa} acc s : wreach env database goa acc s → bw_stop (ol_bw s) = false.
Proof. intros (bs & D)%wreach_delivered; [apply D|done]. Qed.
