(* ===== verification/Admin.v ===== *)
(** * The admin endpoint

    Models [internal/admin/admin.go] (moving a user to the next SDK server behind
    a token) and [pkg/iprate/iprate.go] (a rate limiter per client address).

    Parameters: the token bucket of [golang.org/x/time/rate], the database and the
    SDKs.  The entries of the limiter are pointers, so they are kept in a heap. *)

From S2P Require Import Prelude GoLib Rpc Errors Router Http Ip Asynquery Keybox.
From Stdlib Require Import Ascii.

Local Open Scope Z_scope.

(** ** [pkg/iprate] *)

(** [rate.NewLimiter(r, b)] and [Allow] at a time. *)
Class RateLimiter (L : Type) := {
  rate_NewLimiter : L;
  rate_Allow : Z → L → bool * L;
}.

Section iprate.
Context {L : Type} `{!RateLimiter L}.

Record rateLimiterEntry := mkEntry { en_limiter : positive; en_lastSeen : Z }.
Record Limiter := mkLimiter {
  li_ips : gmap string rateLimiterEntry;
  li_heap : gmap positive L;
  li_next : positive;               (* the next address to allocate *)
}.

Definition NewLimiter : Limiter := mkLimiter ∅ ∅ 1.

Definition hour : Z := 3600 * 10 ^ 9.

Definition cleanup (now : Z) (i : Limiter) : Limiter :=
  let expirationTime := now - hour in
  mkLimiter (filter (λ p, ¬ en_lastSeen p.2 < expirationTime) (li_ips i)) (li_heap i) (li_next i).

Definition GetLimiter (now : Z) (ip : string) (i : Limiter) : positive * Limiter :=
  match li_ips i !! ip with
  | None =>
      (li_next i, mkLimiter (<[ip := mkEntry (li_next i) now]> (li_ips i))
                    (<[li_next i := rate_NewLimiter]> (li_heap i)) (Pos.succ (li_next i)))
  | Some entry =>
      (en_limiter entry, mkLimiter (<[ip := mkEntry (en_limiter entry) now]> (li_ips i)) (li_heap i) (li_next i))
  end.

(** [limiter.Allow()] through the pointer. *)
Definition Allow (now : Z) (p : positive) (i : Limiter) : option (bool * Limiter) :=
  match li_heap i !! p with
  | None => None
  | Some l => let '(ok, l') := rate_Allow now l in
              Some (ok, mkLimiter (li_ips i) (<[p := l']> (li_heap i)) (li_next i))
  end.
End iprate.
Arguments Limiter : clear implicits.

(** ** [internal/admin] *)

Record sdkDetails := mkDetails { sd_group : string; sd_id : Z }.

Fixpoint leading_digits (s : string) : string :=
  match s with
  | String c s' => match digit c with Some _ => String c (leading_digits s') | None => "" end
  | "" => ""
  end.

(** [^lbrynet\-([a-z])\-(\d+)]: the group and the digits. *)
Definition sdkNameMatch (name : string) : option (string * string) :=
  if negb (HasPrefix name "lbrynet-") then None else
  match drop_str 8 name with
  | String g (String "-"%char rest) =>
      let n := Z.of_N (N_of_ascii g) in
      if (97 <=? n) && (n <=? 122) && negb (String.eqb (leading_digits rest) "")
      then Some (String g "", leading_digits rest) else None
  | _ => None
  end.

Definition parseSDKDetails (name : string) : error + sdkDetails :=
  match sdkNameMatch name with
  | None => inl (EText ("weird lbrynet server name: " +:+ name +:+ " (matched: [])"))
  | Some (group, digits) =>
      match ParseInt digits 64 with
      | None => inl (EWrapf ("cannot parse lbrynet server name '" +:+ name +:+ "': ") (EText "value out of range") "")
      | Some id => inr (mkDetails group id)
      end
  end.

Definition bumpID (d : sdkDetails) : sdkDetails := mkDetails (sd_group d) (to_signed 64 (sd_id d + 1)).
Definition zeroID (d : sdkDetails) : sdkDetails := mkDetails (sd_group d) 0.
Definition sdk_String (d : sdkDetails) : string := "lbrynet-" +:+ sd_group d +:+ "-" +:+ Itoa (sd_id d).

(** The tables, and the wallet commands sent. *)
Inductive walletCall := WLoad (addr : string) (uid : Z) | WUnload (addr : string) (uid : Z).
Record AdminDB := mkAdminDB {
  ad_users : gmap Z User;
  ad_servers : list LbrynetServer;
  ad_wallets : list walletCall;
  ad_tick : nat;
}.
Record AdminEnv := {
  ae_fault : nat → option error;              (* the n-th statement fails *)
  ae_wallet : nat → walletCall → option error;
}.

Record AdminReq := mkAdminReq {
  ar_Header : Header;
  ar_RemoteAddr : string;
  ar_user_id : string;                        (* the path variable *)
}.

Section admin.
Context (env : AdminEnv).

Definition ad_next (s : AdminDB) : AdminDB :=
  mkAdminDB (ad_users s) (ad_servers s) (ad_wallets s) (S (ad_tick s)).

Definition ErrNoRows : error := ENamed "sql.ErrNoRows" "sql: no rows in result set" false.

(** The user with the server loaded; [None] when it has none. *)
Definition Users_OneG (uid : Z) : Go AdminDB (User * option LbrynetServer) :=
  λ s, match ae_fault env (ad_tick s) with
       | Some err => (RErr err, ad_next s)
       | None => match ad_users s !! uid with
                 | None => (RErr ErrNoRows, ad_next s)
                 | Some u =>
                     let srv := match user_LbrynetServerID u with
                                | Some id => find (λ x, srv_ID x =? id) (ad_servers s)
                                | None => None
                                end in
                     (ROk (u, srv), ad_next s)
                 end
       end.

Definition LbrynetServers_OneG (name : string) : Go AdminDB LbrynetServer :=
  λ s, match ae_fault env (ad_tick s) with
       | Some err => (RErr err, ad_next s)
       | None => match find (λ x, String.eqb (srv_Name x) name) (ad_servers s) with
                 | None => (RErr ErrNoRows, ad_next s)
                 | Some srv => (ROk srv, ad_next s)
                 end
       end.

Definition setServer (u : User) (sid : Z) : User :=
  mkUser (user_ID u) (Some sid) (user_IdpID u) (user_LastSeenAt u) (user_R u).

(** [UPDATE users SET .. WHERE id = ..] with every column; no row is no error. *)
Definition User_UpdateG (u : User) : Go AdminDB unit :=
  λ s, match ae_fault env (ad_tick s) with
       | Some err => (RErr err, ad_next s)
       | None => (ROk tt, ad_next (mkAdminDB (alter (λ _, u) (user_ID u) (ad_users s)) (ad_servers s) (ad_wallets s) (ad_tick s)))
       end.

Definition walletCommand (c : walletCall) : Go AdminDB (option error) :=
  λ s, (ROk (ae_wallet env (ad_tick s) c),
        ad_next (mkAdminDB (ad_users s) (ad_servers s) (ad_wallets s ++ [c]) (ad_tick s))).

Definition note (what : string) (err : option error) (w : Writer) : Writer :=
  match err with
  | Some e => WriteBody (CText (String "010"%char ("error encountered " +:+ what +:+ " wallet: " +:+ Error e))) w
  | None => w
  end.

(** The next server of the group, or its first when there is no next. *)
Definition nextServer (d : sdkDetails) : Go AdminDB (Writer + sdkDetails * LbrynetServer) :=
  let! r := try (LbrynetServers_OneG (sdk_String d)) in
  match r with
  | inr srv => ret (inr (d, srv))
  | inl err =>
      if Is err "sql.ErrNoRows" then
        let d := zeroID d in
        let! r := try (LbrynetServers_OneG (sdk_String d)) in
        match r with
        | inl err => ret (inl (http_Error newWriter ("failed to select " +:+ sdk_String d +:+ ": " +:+ Error err) 500))
        | inr srv => ret (inr (d, srv))
        end
      else ret (inl (http_Error newWriter (Error err) 500))
  end.

(** The message for what is not a number; one too large has another ending. *)
Definition atoiError (s : string) : string :=
  let quote := String "034"%char "" in
  "strconv.Atoi: parsing " +:+ quote +:+ s +:+ quote +:+ ": invalid syntax".

Definition BumpSDK (r : AdminReq) : Go AdminDB Writer :=
  match ParseInt (ar_user_id r) 64 with
  | None => ret (http_Error newWriter (atoiError (ar_user_id r)) 404)
  | Some userID =>
      let! u := try (Users_OneG userID) in
      match u with
      | inl _ => ret (http_Error newWriter "user not found" 404)
      | inr (_, None) => gopanic "nil pointer dereference"
      | inr (user, Some origSDK) =>
          match parseSDKDetails (srv_Name origSDK) with
          | inl err => ret (http_Error newWriter (Error err) 500)
          | inr d =>
              let! n := nextServer (bumpID d) in
              match n with
              | inl w => ret w
              | inr (d, newSDK) =>
                  let user := setServer user (srv_ID newSDK) in
                  let! upd := try (User_UpdateG user) in
                  match upd with
                  | inl err => ret (http_Error newWriter ("failed to set sdk instance to " +:+ sdk_String d +:+ ": " +:+ Error err) 500)
                  | inr _ =>
                      let! loadWalletErr := walletCommand (WLoad (srv_Address newSDK) (user_ID user)) in
                      let! unloadWalletErr := walletCommand (WUnload (srv_Address origSDK) (user_ID user)) in
                      ret (note "unloading" unloadWalletErr (note "loading" loadWalletErr
                        (WriteBody (CText ("bumped user " +:+ Itoa (user_ID user) +:+ " from " +:+ srv_Name origSDK +:+
                          " to " +:+ sdk_String d)) newWriter)))
                  end
              end
          end
      end
  end.

(** *** The token *)

Section middleware.
Context {L S : Type} `{!RateLimiter L}.

(** [now] is the time of the request; [next] runs on the rest of the state. *)
Definition SimpleAdminAuthMiddleware (token : string) (now : Z) (next : AdminReq → Go S Writer) (r : AdminReq) :
    Go (Limiter L * S) Writer :=
  if String.eqb token "" then ret (http_Error newWriter "simple admin token not configured" 500) else
  let clientIP := ForRequest (ar_Header r) (ar_RemoteAddr r) in
  let authHeader := Header_Get (ar_Header r) "Authorization" in
  if negb (HasPrefix authHeader "Bearer ") then ret (http_Error newWriter "Unauthorized" 401) else
  let requestToken := TrimPrefix authHeader "Bearer " in
  if negb (String.eqb requestToken token) then
    λ '(lim, s),
      let '(p, lim) := GetLimiter now clientIP lim in
      match Allow now p lim with
      | None => (RPanic "nil pointer dereference", (lim, s))
      | Some (ok, lim) =>
          if negb ok then (ROk (http_Error newWriter "too many attempts" 429), (lim, s))
          else (ROk (http_Error newWriter "Unauthorized" 401), (lim, s))
      end
  else on_snd (next r).
End middleware.
End admin.

(** ** Properties *)

(** *** The limiter keeps a bucket per address *)

Section limiter.
Context {L : Type} `{!RateLimiter L}.
Implicit Types i : Limiter L.

(** Every entry points to a bucket of its own. *)
Record limiter_wf i : Prop := {
  lw_heap ip e : li_ips i !! ip = Some e → is_Some (li_heap i !! en_limiter e);
  lw_next p : is_Some (li_heap i !! p) → (p < li_next i)%positive;
  lw_own ip1 ip2 e1 e2 : li_ips i !! ip1 = Some e1 → li_ips i !! ip2 = Some e2 →
    en_limiter e1 = en_limiter e2 → ip1 = ip2;
}.

(** What the limiter stands for: a bucket and the last attempt per address. *)
Definition bucket i (ip : string) : option (L * Z) :=
  match li_ips i !! ip with
  | Some e => match li_heap i !! en_limiter e with Some l => Some (l, en_lastSeen e) | None => None end
  | None => None
  end.

(** An attempt: the bucket of the address, a full one if it has none, decides. *)
Definition attempt (now : Z) (ip : string) (b : string → option (L * Z)) : bool * (string → option (L * Z)) :=
  let '(ok, l) := rate_Allow now (match b ip with Some (l, _) => l | None => rate_NewLimiter end) in
  (ok, λ ip', if decide (ip' = ip) then Some (l, now) else b ip').

Lemma limiter_wf_new : limiter_wf NewLimiter.
Proof. split; [by intros ??|by intros p [??]|by intros ????]. Qed.

Lemma limiter_wf_cleanup now i : limiter_wf i → limiter_wf (cleanup now i).
Proof.
  intros [W1 W2 W3]. split; simpl.
  - intros ip e [He _]%map_lookup_filter_Some. by apply (W1 ip).
  - done.
  - intros ip1 ip2 e1 e2 [H1 _]%map_lookup_filter_Some [H2 _]%map_lookup_filter_Some. by eapply W3.
Qed.

Lemma GetLimiter_spec now ip i :
  limiter_wf i →
  let p := (GetLimiter now ip i).1 in let i' := (GetLimiter now ip i).2 in
  limiter_wf i' ∧ li_ips i' !! ip = Some (mkEntry p now) ∧
  li_heap i' !! p = Some (match bucket i ip with Some (l, _) => l | None => rate_NewLimiter end) ∧
  (∀ ip', ip' ≠ ip → bucket i' ip' = bucket i ip' ∧ ∀ e, li_ips i' !! ip' = Some e → en_limiter e ≠ p).
Proof.
  intros [W1 W2 W3]. unfold GetLimiter, bucket. destruct (li_ips i !! ip) as [e|] eqn:Hip; simpl.
  - destruct (W1 ip e Hip) as [l Hl]. rewrite Hl, lookup_insert_eq. split_and!; [|done..|].
    + split; simpl; [|done|].
      * intros ip' e' [[-> <-]|[Hne He']]%lookup_insert_Some; simpl; [by rewrite Hl|by apply (W1 ip')].
      * intros ip1 ip2 e1 e2 [[-> <-]|[Hn1 H1]]%lookup_insert_Some [[-> <-]|[Hn2 H2]]%lookup_insert_Some; simpl; intros Heq;
          [done|by eapply (W3 ip1)|by eapply (W3 _ ip2)|by eapply W3].
    + intros ip' Hne. rewrite lookup_insert_ne by done. split; [done|]. intros e' He' Heq. by destruct Hne; eapply W3.
  - rewrite !lookup_insert_eq. split_and!; [|done..|].
    + assert (∀ ip e, li_ips i !! ip = Some e → en_limiter e ≠ li_next i) as Hfresh.
      { intros ip' e' He' Heq. destruct (W1 ip' e' He') as [l Hl]. rewrite Heq in Hl.
        pose proof (W2 (li_next i) ltac:(by rewrite Hl)). lia. }
      split; simpl.
      * intros ip' e' [[-> <-]|[Hne He']]%lookup_insert_Some; simpl; [by rewrite lookup_insert_eq|].
        rewrite lookup_insert_ne by (symmetry; by eapply Hfresh). by apply (W1 ip').
      * intros p [l [[<- _]|[_ Hp]]%lookup_insert_Some]; [lia|]. pose proof (W2 p ltac:(by rewrite Hp)). lia.
      * intros ip1 ip2 e1 e2 [[-> <-]|[Hn1 H1]]%lookup_insert_Some [[-> <-]|[Hn2 H2]]%lookup_insert_Some; simpl; intros Heq;
          [done|by destruct (Hfresh ip2 e2)|by destruct (Hfresh ip1 e1)|by eapply W3].
    + intros ip' Hne. rewrite lookup_insert_ne by done. split.
      * destruct (li_ips i !! ip') as [e'|] eqn:He'; [|done]. destruct (W1 ip' e' He') as [l Hl].
        rewrite lookup_insert_ne; [done|]. intros Heq. pose proof (W2 (en_limiter e') ltac:(by rewrite Hl)). lia.
      * intros e' He' Heq. destruct (W1 ip' e' He') as [l Hl]. pose proof (W2 (en_limiter e') ltac:(by rewrite Hl)). lia.
Qed.

(** An attempt finds its bucket. *)
Lemma limiter_bucket_found now ip i :
  limiter_wf i → ∃ ok i', Allow now (GetLimiter now ip i).1 (GetLimiter now ip i).2 = Some (ok, i') ∧ limiter_wf i'.
Proof.
  intros Hwf. destruct (GetLimiter_spec now ip i Hwf) as ([W1 W2 W3] & Hip & Hl & _).
  destruct (GetLimiter now ip i) as [p i']. simpl in *. unfold Allow. rewrite Hl.
  destruct (rate_Allow now _) as [ok l']. eexists ok, _. split; [done|].
  split; simpl; [|intros q; rewrite lookup_insert_is_Some'|done].
  - intros ip' e He. destruct (decide (en_limiter e = p)) as [->|Hne]; [by rewrite lookup_insert_eq|].
    rewrite lookup_insert_ne by done. by apply (W1 ip').
  - intros [->|Hq]; [|by apply W2]. apply W2. by rewrite Hl.
Qed.

(** C38: The limiter is a token bucket per client address. In every state its
    operations can reach, an attempt finds its bucket (it never dereferences nil),
    is decided by the bucket of its own address (a full one for a new address),
    and changes no bucket but that one; the cleanup drops exactly the buckets
    without an attempt for an hour. *)
Theorem limiter_refines_buckets now ip i :
  limiter_wf i →
  (∃ ok i', Allow now (GetLimiter now ip i).1 (GetLimiter now ip i).2 = Some (ok, i') ∧ limiter_wf i' ∧
    ok = (attempt now ip (bucket i)).1 ∧ ∀ ip', bucket i' ip' = (attempt now ip (bucket i)).2 ip') ∧
  limiter_wf (cleanup now i) ∧
  (∀ ip', bucket (cleanup now i) ip' =
     match bucket i ip' with Some (l, t) => if decide (t < now - hour) then None else Some (l, t) | None => None end).
Proof.
  intros Hwf. split.
  - destruct (limiter_bucket_found now ip i Hwf) as (ok & i2 & Ha & Hwf').
    destruct (GetLimiter_spec now ip i Hwf) as (_ & Hip & Hl & Hother).
    exists ok, i2. split; [exact Ha|]. split; [exact Hwf'|].
    destruct (GetLimiter now ip i) as [p i']. simpl in *. unfold Allow in Ha. rewrite Hl in Ha. unfold attempt.
    destruct (rate_Allow now _) as [ok' l'] eqn:Hr. injection Ha as <- <-. split; [done|].
    intros ip'. simpl. destruct (decide (ip' = ip)) as [->|Hne].
    + unfold bucket. simpl. by rewrite Hip, lookup_insert_eq.
    + destruct (Hother ip' Hne) as [<- Hp]. unfold bucket. simpl. destruct (li_ips i' !! ip') as [e|] eqn:He; [|done].
      by rewrite lookup_insert_ne by (symmetry; by apply Hp).
  - split; [by apply limiter_wf_cleanup|]. intros ip'. unfold bucket. simpl. rewrite map_lookup_filter.
    destruct (li_ips i !! ip') as [e|] eqn:He; simpl; [|done]. destruct (lw_heap i Hwf ip' e He) as [l Hl]. rewrite Hl.
    unfold guard. repeat case_decide; simpl; rewrite ?Hl; try done; by exfalso; auto.
Qed.
End limiter.

(** *** Server names *)

Lemma leading_digits_all acc s z : digits acc s = Some z → leading_digits s = s.
Proof.
  revert acc. induction s as [|c s IH]; intros acc; simpl; [done|].
  destruct (digit c) as [d|]; [|done]. intros H. f_equal. by eapply IH.
Qed.

Lemma Itoa_digits z : 0 <= z → leading_digits (Itoa z) = Itoa z ∧ Itoa z ≠ "".
Proof.
  intros Hz. destruct z as [|p|p]; [by vm_compute| |lia].
  assert (digits 0 (Itoa (Z.pos p)) = Some (Z.pos p)) as Hd by exact (digits_pretty_pos p).
  split; [by eapply leading_digits_all|]. intros He. by rewrite He in Hd.
Qed.

Definition lower_letter (a : ascii) : bool :=
  let n := Z.of_N (N_of_ascii a) in (97 <=? n) && (n <=? 122).

(** The name of a server is parsed back to the group and the number it was built
    from. *)
Lemma parse_sdk_String a id :
  lower_letter a = true → 0 <= id < 2 ^ 63 →
  parseSDKDetails (sdk_String (mkDetails (String a "") id)) = inr (mkDetails (String a "") id).
Proof.
  intros Ha Hid. destruct (Itoa_digits id) as [Hl Hne]; [lia|].
  pose proof (ParseInt_Itoa 64 id ltac:(lia)) as Hp.
  unfold parseSDKDetails, sdkNameMatch, sdk_String. simpl sd_group. simpl sd_id. remember (Itoa id) as t.
  rewrite HasPrefix_app. unfold lower_letter in Ha. simpl.
  change ("" +:+ t) with t. rewrite Ha, Hl.
  rewrite (proj2 (String.eqb_neq _ "") Hne). simpl. by rewrite Hp.
Qed.

(** *** Moving a user *)

Section bump.
Context (env : AdminEnv).

(** No statement fails. *)
Definition calm : Prop := ∀ n, ae_fault env n = None.

(** The servers of a group are numbered from 0 to [n - 1]. *)
Definition named (s : AdminDB) (name : string) : option LbrynetServer :=
  find (λ x, String.eqb (srv_Name x) name) (ad_servers s).
Definition group_numbered (s : AdminDB) (a : ascii) (n : Z) : Prop :=
  0 < n < 2 ^ 63 ∧ ∀ i, 0 <= i < 2 ^ 63 → is_Some (named s (sdk_String (mkDetails (String a "") i))) ↔ i < n.

Lemma LbrynetServers_calm name s :
  calm → LbrynetServers_OneG env name s =
    (match named s name with Some srv => ROk srv | None => RErr ErrNoRows end, ad_next s).
Proof. intros Hc. unfold LbrynetServers_OneG, named. rewrite Hc. by destruct (find _ _). Qed.

Lemma nextServer_cycles a i n srv s :
  calm → group_numbered s a n → 0 <= i < n →
  named s (sdk_String (mkDetails (String a "") ((i + 1) `mod` n))) = Some srv →
  ∃ s', nextServer env (bumpID (mkDetails (String a "") i)) s =
    (ROk (inr (mkDetails (String a "") ((i + 1) `mod` n), srv)), s') ∧
    ad_users s' = ad_users s ∧ ad_wallets s' = ad_wallets s.
Proof.
  intros Hc [Hn Hg] Hi Hsrv. unfold nextServer, bumpID. simpl.
  destruct (decide (i + 1 = n)) as [<-|Hlt].
  - rewrite Z.mod_same in * by lia. destruct (decide (i + 1 < 2 ^ 63 )); [|lia].
    rewrite to_signed_small by lia. unfold bind, try. rewrite !LbrynetServers_calm by done.
    destruct (named s (sdk_String (mkDetails (String a "") (i + 1)))) as [x|] eqn:Hx.
    { exfalso. assert (is_Some (named s (sdk_String (mkDetails (String a "") (i + 1))))) as Hs by (by rewrite Hx).
      apply Hg in Hs; lia. }
    simpl. unfold zeroID. simpl. rewrite LbrynetServers_calm by done.
    change (named (ad_next s)) with (named s). rewrite Hsrv. eexists. done.
  - rewrite Z.mod_small in * by lia. rewrite to_signed_small by lia. unfold bind, try.
    rewrite LbrynetServers_calm, Hsrv by done. eexists. done.
Qed.

(** Bumping a user cycles through the servers of its group. When the servers
    of the group are numbered from 0 to n-1 and no statement fails, a user on server
    i is moved to server i+1, or to server 0 from the last one; only this user's row
    changes and only its server, and its wallet is loaded on the new server and
    unloaded from the old one, whatever those commands answer. *)
Theorem BumpSDK_cycles r uid u a n i srv srv' s :
  calm → ParseInt (ar_user_id r) 64 = Some uid →
  ad_users s !! uid = Some u → user_ID u = uid →
  user_LbrynetServerID u = Some (srv_ID srv) → find (λ x, srv_ID x =? srv_ID srv) (ad_servers s) = Some srv →
  lower_letter a = true → 0 <= i < n → srv_Name srv = sdk_String (mkDetails (String a "") i) →
  group_numbered s a n → named s (sdk_String (mkDetails (String a "") ((i + 1) `mod` n))) = Some srv' →
  ∃ w s', BumpSDK env r s = (ROk w, s') ∧ w_status w = Some 200 ∧
    ad_users s' = <[uid := setServer u (srv_ID srv')]> (ad_users s) ∧
    ad_wallets s' = ad_wallets s ++ [WLoad (srv_Address srv') uid; WUnload (srv_Address srv) uid].
Proof.
  intros Hc Huid Hu Hid Hsid Hfind Ha Hi Hname Hg Hnext. unfold BumpSDK. rewrite Huid.
  assert (Users_OneG env uid s = (ROk (u, Some srv), ad_next s)) as Hone.
  { unfold Users_OneG. by rewrite Hc, Hu, Hsid, Hfind. }
  rewrite (bind_ok _ _ _ _ _ (try_ok _ _ _ _ Hone)). rewrite Hname, parse_sdk_String by (done || destruct Hg; lia).
  destruct (nextServer_cycles a i n srv' (ad_next s)) as (s1 & Hn & Hu1 & Hw1); [done..|].
  rewrite (bind_ok _ _ _ _ _ Hn). unfold bind, try, User_UpdateG, walletCommand. rewrite Hc. simpl.
  eexists _, _. split; [done|]. split_and!.
  - unfold note. repeat case_match; done.
  - simpl. rewrite Hu1. apply map_eq. intros k. destruct (decide (k = uid)) as [->|Hne].
    + rewrite Hid, lookup_alter_eq, lookup_insert_eq. simpl. by rewrite Hu.
    + by rewrite Hid, lookup_alter_ne, lookup_insert_ne.
  - simpl. by rewrite Hw1, Hid, <-app_assoc.
Qed.

(** Whatever fails, the tables and the wallets change together or not at all. *)
Definition bump_frame (s s' : AdminDB) : Prop :=
  (ad_users s' = ad_users s ∧ ad_wallets s' = ad_wallets s) ∨
  ∃ u sid a a', ad_users s' = alter (λ _, setServer u sid) (user_ID u) (ad_users s) ∧
    ad_wallets s' = ad_wallets s ++ [WLoad a (user_ID u); WUnload a' (user_ID u)].

Lemma nextServer_frame d s :
  wp (nextServer env d) (λ o s', ad_users s' = ad_users s ∧ ad_wallets s' = ad_wallets s) s.
Proof.
  assert (∀ name s, wp (LbrynetServers_OneG env name) (λ _ s', ad_users s' = ad_users s ∧ ad_wallets s' = ad_wallets s) s) as Hl.
  { intros name t. unfold wp, LbrynetServers_OneG. by repeat case_match. }
  unfold nextServer. apply wp_bind, wp_try. eapply wp_mono; [apply Hl|]. simpl. intros [srv|err|w] s1 [E1 E2]; [|destruct (Is err _)|done].
  - by apply wp_ret.
  - apply wp_bind, wp_try. eapply wp_mono; [apply Hl|]. simpl.
    intros [srv|err'|w] s2 [E3 E4]; [apply wp_ret|apply wp_ret|]; by rewrite E3, E4.
  - by apply wp_ret.
Qed.

Lemma BumpSDK_atomic r s : wp (BumpSDK env r) (λ _ s', bump_frame s s') s.
Proof.
  unfold BumpSDK. destruct (ParseInt _ 64) as [uid|]; [|apply wp_ret; by left].
  apply wp_bind, wp_try. unfold wp at 1, Users_OneG.
  destruct (ae_fault env (ad_tick s)); simpl; [by left|].
  destruct (ad_users s !! uid) as [u|]; simpl; [|by left].
  set (osrv := match user_LbrynetServerID u with Some _ => _ | None => _ end). destruct osrv as [srv|]; [|by left].
  destruct (parseSDKDetails _) as [err|d]; [by left|].
  apply wp_bind. eapply wp_mono; [apply nextServer_frame|]. simpl. intros [[w|[d' new]]|e|w] s1 [E1 E2]; try (by left).
  apply wp_bind, wp_try. unfold wp at 1, User_UpdateG. destruct (ae_fault env (ad_tick s1)); simpl; [by left|].
  apply wp_bind. unfold wp at 1, walletCommand. simpl. apply wp_bind. unfold wp at 1. simpl. apply wp_ret.
  right. exists u, (srv_ID new), (srv_Address new), (srv_Address srv). simpl. by rewrite E1, E2, <-app_assoc.
Qed.
End bump.

(** *** Who is admitted *)

Section admission.
Context {L S : Type} `{!RateLimiter L}.

Lemma TrimPrefix_inv s p : HasPrefix s p = true → s = p +:+ TrimPrefix s p.
Proof. intros H. unfold TrimPrefix. rewrite H. apply HasPrefix_true in H as [r ->]. by rewrite drop_str_app. Qed.

(** C21: The admin routes run exactly for requests with the configured token. With
    a token configured and sent as the Bearer token, the route runs whatever the
    state of the limiter: the limiter never keeps a right guess out. Otherwise the
    route does not run, the rest of the state is as before and the answer is 401,
    429 or 500. *)
Theorem admin_admits_token token now (next : AdminReq → Go S Writer) r (lim : Limiter L) (s : S) :
  (token ≠ "" ∧ Header_Get (ar_Header r) "Authorization" = "Bearer " +:+ token →
     SimpleAdminAuthMiddleware token now next r (lim, s) = ((next r s).1, (lim, (next r s).2))) ∧
  (token = "" ∨ Header_Get (ar_Header r) "Authorization" ≠ "Bearer " +:+ token → limiter_wf lim →
     ∃ w lim', SimpleAdminAuthMiddleware token now next r (lim, s) = (ROk w, (lim', s)) ∧ limiter_wf lim' ∧
       (w_status w = Some 401 ∨ w_status w = Some 429 ∨ w_status w = Some 500)).
Proof.
  unfold SimpleAdminAuthMiddleware. split.
  - intros [Ht ->]. rewrite (proj2 (String.eqb_neq token "") Ht), HasPrefix_app, TrimPrefix_app, String.eqb_refl.
    simpl. by destruct (next r s).
  - intros Hbad Hwf. destruct (String.eqb_spec token "") as [->|Ht]; [by eexists _, _; split_and!; eauto|].
    destruct (HasPrefix (Header_Get _ _) "Bearer ") eqn:Hp; simpl; [|by eexists _, _; split_and!; eauto].
    destruct (String.eqb_spec (TrimPrefix (Header_Get (ar_Header r) "Authorization") "Bearer ") token) as [Heq|Hne]; simpl.
    { exfalso. destruct Hbad as [?|Hbad]; [done|]. apply TrimPrefix_inv in Hp. by rewrite Heq in Hp. }
    set (ip := ForRequest _ _). destruct (limiter_bucket_found now ip lim Hwf) as (ok & lim' & Ha & Hwf').
    destruct (GetLimiter now ip lim) as [p lim1]. simpl in Ha. rewrite Ha.
    destruct ok; simpl; eexists _, _; split_and!; eauto.
Qed.
End admission.

(** *** Concrete runs *)

Module admin_runs.
(** A bucket of one token that is never refilled. *)
#[local] Instance one_token : RateLimiter bool := {| rate_NewLimiter := true; rate_Allow _ b := (b, false) |}.

Definition env0 : AdminEnv := {| ae_fault _ := None; ae_wallet _ _ := None |}.
Definition server (i : Z) : LbrynetServer :=
  mkServer (i + 10) (sdk_String (mkDetails "a" i)) ("http://a" +:+ Itoa i) false.
Definition alice : User := mkUser 7 (Some 11) None None None.
Definition db0 : AdminDB := mkAdminDB {[7 := alice]} [server 0; server 1] [] 0.
Definition req0 : AdminReq := mkAdminReq ∅ "10.0.0.1:99" "7".
Definition guess (token : string) : AdminReq :=
  mkAdminReq {["Authorization" := ["Bearer " +:+ token]]} "203.0.113.9:99" "7".

Lemma two_servers : group_numbered db0 "a"%char 2.
Proof.
  split; [lia|]. intros i Hi. unfold named. simpl.
  destruct (decide (i = 0)) as [->|H0]; [split; [lia|by eexists]|].
  destruct (decide (i = 1)) as [->|H1]; [split; [lia|by eexists]|].
  assert (∀ k, k ≠ i → String.eqb (srv_Name (server k)) (sdk_String (mkDetails "a" i)) = false) as Hk.
  { intros k Hne. apply String.eqb_neq. unfold server, sdk_String. simpl. intros [= Heq].
    by apply Itoa_inj in Heq. }
  pose proof (Hk 0 ltac:(lia)) as E0. pose proof (Hk 1 ltac:(lia)) as E1. simpl in E0, E1. rewrite E0, E1.
  split; [by intros []|lia].
Qed.
End admin_runs.
#[local] Existing Instance admin_runs.one_token.

(** Witness of [limiter_refines_buckets]: the first attempt of an address. *)
Lemma limiter_refines_buckets_witness :
  ∃ ok i', Allow 0 (GetLimiter 0 "203.0.113.9" (NewLimiter : Limiter bool)).1
      (GetLimiter 0 "203.0.113.9" (NewLimiter : Limiter bool)).2 = Some (ok, i') ∧ limiter_wf i'.
Proof.
  destruct (limiter_refines_buckets 0 "203.0.113.9" (NewLimiter : Limiter bool) limiter_wf_new)
    as [(ok & i' & Ha & Hw & _) _].
  exists ok, i'. split; [exact Ha|exact Hw].
Defined.

(** Witness of [BumpSDK_cycles]: user 7 goes from the last server to the first. *)
Lemma BumpSDK_cycles_witness :
  ∃ w s', BumpSDK admin_runs.env0 admin_runs.req0 admin_runs.db0 = (ROk w, s') ∧ w_status w = Some 200 ∧
    ad_users s' = <[7 := setServer admin_runs.alice 10]> (ad_users admin_runs.db0) ∧
    ad_wallets s' = [] ++ [WLoad "http://a0" 7; WUnload "http://a1" 7].
Proof.
  apply (BumpSDK_cycles admin_runs.env0 admin_runs.req0 7 admin_runs.alice "a"%char 2 1
    (admin_runs.server 1) (admin_runs.server 0) admin_runs.db0).
  - intros n. reflexivity.
  - reflexivity.
  - reflexivity.
  - reflexivity.
  - reflexivity.
  - reflexivity.
  - reflexivity.
  - lia.
  - reflexivity.
  - exact admin_runs.two_servers.
  - reflexivity.
Defined.

(** The limiter does not slow down guessing: after its attempts are used up, a
    client is answered 429 for wrong guesses and still let in by the right one. *)
Example limited_client_may_still_guess :
  let next := λ _ : AdminReq, ret (WriteHeader 200 newWriter) : Go unit Writer in
  let go t st := SimpleAdminAuthMiddleware "secret" 0 next (admin_runs.guess t) st in
  let st1 := (go "a" (NewLimiter : Limiter bool, tt)).2 in
  let st2 := (go "b" st1).2 in
  let status o := match o with ROk w => w_status w | _ => None end in
  status (go "a" (NewLimiter : Limiter bool, tt)).1 = Some 401 ∧ status (go "b" st1).1 = Some 429 ∧
  status (go "secret" st2).1 = Some 200.
Proof. done. Qed.

(** A user without a server is a nil dereference. *)
Example bump_without_server :
  (BumpSDK admin_runs.env0 admin_runs.req0
     (mkAdminDB {[7 := mkUser 7 None None None None]} [admin_runs.server 0] [] 0)).1 = RPanic "nil pointer dereference".
Proof. done. Qed.
