(* ===== verification/Monitor.v ===== *)
(** * Recording responses and recovering panics

    Models [internal/monitor/middleware.go]: a middleware around all handlers records what
    they write, sends it when they return and answers with an error
    when they panic.

    A handler is what it does to its [http.ResponseWriter], and how it ends.  The
    writer of [net/http] and the recorder are both written out, because they treat
    headers differently: [net/http] sends the headers there are at the first
    [WriteHeader] or [Write]. *)

From S2P Require Import Prelude GoLib Rpc Errors Http.

Local Open Scope Z_scope.

Inductive wop :=
| OSet (k v : string)               (* w.Header().Set *)
| OAdd (k v : string)               (* w.Header().Add *)
| ODel (k : string)                 (* w.Header().Del *)
| OWriteHeader (code : Z)
| OWrite (s : string).

Definition edit (o : wop) (h : Header) : Header :=
  match o with
  | OSet k v => <[k := [v]]> h
  | OAdd k v => <[k := default [] (h !! k) ++ [v]]> h
  | ODel k => delete k h
  | _ => h
  end.

(** ** The writer of [net/http] *)

Record RespWriter := mkRW {
  rw_header : Header;
  rw_sent : option (Z * Header);    (* status and headers that went out *)
  rw_body : string;
}.
Definition newRW : RespWriter := mkRW ∅ None "".

(** Codes of less or more than three digits panic; only the first call counts. *)
Definition rw_WriteHeader (code : Z) (w : RespWriter) : option RespWriter :=
  if (code <? 100) || (999 <? code) then None else
  match rw_sent w with
  | Some _ => Some w
  | None => Some (mkRW (rw_header w) (Some (code, rw_header w)) (rw_body w))
  end.
Definition rw_Write (s : string) (w : RespWriter) : option RespWriter :=
  match rw_WriteHeader 200 w with
  | Some w => Some (mkRW (rw_header w) (rw_sent w) (rw_body w +:+ s))
  | None => None
  end.
Definition rw_op (o : wop) (w : RespWriter) : option RespWriter :=
  match o with
  | OWriteHeader code => rw_WriteHeader code w
  | OWrite s => rw_Write s w
  | _ => Some (mkRW (edit o (rw_header w)) (rw_sent w) (rw_body w))
  end.
Fixpoint rw_run (ops : list wop) (w : RespWriter) : option RespWriter :=
  match ops with
  | [] => Some w
  | o :: ops => match rw_op o w with Some w => rw_run ops w | None => None end
  end.

(** The response the client gets: one that was never written is 200. *)
Definition response (w : RespWriter) : Z * Header * string :=
  let '(code, h) := default (200, rw_header w) (rw_sent w) in (code, h, rw_body w).

(** ** The recorder *)

Record responseRecorder := mkRecorder {
  rr_StatusCode : Z;
  rr_Body : option string;          (* nil until the first Write *)
  rr_headerMap : Header;
  rr_wroteHeader : bool;
}.
Definition newRecorder : responseRecorder := mkRecorder 0 None ∅ false.

Definition rr_WriteHeader (code : Z) (rr : responseRecorder) : responseRecorder :=
  if rr_wroteHeader rr then rr else mkRecorder code (rr_Body rr) (rr_headerMap rr) true.

Definition rr_Write (buf : string) (rr : responseRecorder) : responseRecorder :=
  let rr := rr_WriteHeader 200 rr in
  mkRecorder (rr_StatusCode rr) (Some (default "" (rr_Body rr) +:+ buf)) (rr_headerMap rr) (rr_wroteHeader rr).

Definition rr_op (o : wop) (rr : responseRecorder) : responseRecorder :=
  match o with
  | OWriteHeader code => rr_WriteHeader code rr
  | OWrite s => rr_Write s rr
  | _ => mkRecorder (rr_StatusCode rr) (rr_Body rr) (edit o (rr_headerMap rr)) (rr_wroteHeader rr)
  end.
Definition rr_run (ops : list wop) (rr : responseRecorder) : responseRecorder := foldl (flip rr_op) rr ops.

(** Every recorded value is added to what the writer has. *)
Definition add_all (h1 h2 : Header) : Header :=
  merge (λ v1 v2, match v1, v2 with
                  | Some l1, Some l2 => Some (l1 ++ l2)
                  | Some l1, None => Some l1
                  | None, Some l2 => if decide (l2 = []) then None else Some l2
                  | None, None => None
                  end) h1 h2.

Definition send (rr : responseRecorder) (w : RespWriter) : option RespWriter :=
  let w := mkRW (add_all (rw_header w) (rr_headerMap rr)) (rw_sent w) (rw_body w) in
  match (if 0 <? rr_StatusCode rr then rw_WriteHeader (rr_StatusCode rr) w else Some w) with
  | None => None
  | Some w => match rr_Body rr with Some b => rw_Write b w | None => Some w end
  end.

(** ** The middleware *)

(** [rec.Body.String()[:snippetLen]]; the string of a nil buffer is ["<nil>"]. *)
Definition slice (s : string) (n : nat) : option string :=
  if (n <=? String.length s)%nat then Some (String.substring 0 n s) else None.
Definition snippet (rr : responseRecorder) : option string :=
  let s := default "<nil>" (rr_Body rr) in
  let snippetLen := String.length s in
  let snippetLen := if (500 <? snippetLen)%nat then 500%nat else snippetLen in
  slice s snippetLen.

Record handler := mkHandler { h_ops : list wop; h_panic : option string }.

Section middleware.
(** Encoding the error response cannot fail; the trace is for developers. *)
Context (marshal : RPCResponse → string) (isProduction : bool) (trace : error → string).

Definition panicResponse (err : error) : RPCResponse :=
  mkResponse "2.0" VNil (Some (mkRPCError (-1) (Error err) (VStr (if isProduction then "" else trace err)))) 0.

(** [None] is a panic of the middleware itself. *)
Definition ErrorLoggingMiddleware (next : handler) (w : RespWriter) : option RespWriter :=
  let recorder := rr_run (h_ops next) newRecorder in
  match h_panic next with
  | None => send recorder w
  | Some p =>
      let recoveredErr := Recover p in
      match snippet recorder with
      | None => None
      | Some _ =>
          match rw_op (OAdd "Content-Type" "application/json; charset=utf-8") w with
          | None => None
          | Some w => match rw_WriteHeader 500 w with
                      | None => None
                      | Some w => rw_Write (marshal (panicResponse recoveredErr)) w
                      end
          end
      end
  end.

(** ** Properties *)

(** Headers come before the first write, and codes are final ones. *)
Fixpoint headers_first (written : bool) (ops : list wop) : bool :=
  match ops with
  | [] => true
  | OWriteHeader code :: ops => (200 <=? code) && (code <=? 999) && headers_first true ops
  | OWrite _ :: ops => headers_first true ops
  | _ :: ops => negb written && headers_first written ops
  end.

Lemma snippet_total rr : is_Some (snippet rr).
Proof.
  unfold snippet, slice. set (s := default _ _). destruct (Nat.ltb_spec 500 (String.length s)).
  - by rewrite (proj2 (Nat.leb_le _ _)) by lia.
  - by rewrite Nat.leb_refl.
Qed.

(** No key is bound to no value: what [Set], [Add] and [Del] leave. *)
Definition header_ok (h : Header) : Prop := ∀ k, h !! k ≠ Some [].

Lemma edit_ok o h : header_ok h → header_ok (edit o h).
Proof.
  intros Hh. destruct o as [k v|k v|k|?|?]; simpl; try done; intros k'.
  - destruct (decide (k = k')) as [->|]; [by rewrite lookup_insert_eq|by rewrite lookup_insert_ne].
  - destruct (decide (k = k')) as [->|]; [|by rewrite lookup_insert_ne]. rewrite lookup_insert_eq. intros [= Hnil].
    by apply app_eq_nil in Hnil as [_ ?].
  - destruct (decide (k = k')) as [->|]; [by rewrite lookup_delete_eq|by rewrite lookup_delete_ne].
Qed.

Lemma add_all_empty h : header_ok h → add_all ∅ h = h.
Proof.
  intros Hh. apply map_eq. intros k. unfold add_all. rewrite lookup_merge, lookup_empty.
  specialize (Hh k). destruct (h !! k) as [l|]; simpl; [|done]. by case_decide; [subst|].
Qed.

(** The recorder and the writer after the same operations. *)
Record agree (rr : responseRecorder) (w : RespWriter) : Prop := {
  ag_ok : header_ok (rr_headerMap rr);
  ag_wrote : rr_wroteHeader rr = bool_decide (is_Some (rw_sent w));
  ag_header : rr_headerMap rr = rw_header w;
  ag_body : default "" (rr_Body rr) = rw_body w;
  ag_sent : match rw_sent w with
            | Some (code, h) => rr_StatusCode rr = code ∧ 200 <= code <= 999 ∧ h = rw_header w
            | None => rr_StatusCode rr = 0 ∧ rr_Body rr = None
            end;
}.

Lemma agree_WriteHeader code rr w :
  agree rr w → 200 <= code <= 999 → ∃ w', rw_WriteHeader code w = Some w' ∧ agree (rr_WriteHeader code rr) w' ∧
    is_Some (rw_sent w').
Proof.
  intros [A1 A2 A3 A4 A5] Hc. unfold rw_WriteHeader, rr_WriteHeader. rewrite A2.
  rewrite (proj2 (Z.ltb_ge _ _)), (proj2 (Z.ltb_ge _ _)) by lia. simpl.
  destruct (rw_sent w) as [[c h]|] eqn:Hs.
  - rewrite bool_decide_eq_true_2 by done. eexists. split; [done|]. split; [|by rewrite Hs].
    split; rewrite ?Hs; done.
  - rewrite bool_decide_eq_false_2 by (by intros []). eexists. split; [done|]. split; [|done]. by split.
Qed.

Lemma agree_run ops rr w :
  agree rr w → headers_first (bool_decide (is_Some (rw_sent w))) ops = true →
  ∃ w', rw_run ops w = Some w' ∧ agree (rr_run ops rr) w'.
Proof.
  revert rr w. induction ops as [|o ops IH]; intros rr w Ha Hf; [by exists w|].
  assert (∀ w', is_Some (rw_sent w') → headers_first true ops = true →
    headers_first (bool_decide (is_Some (rw_sent w'))) ops = true) as Hw.
  { intros w' Hs Ht. by rewrite bool_decide_eq_true_2. }
  assert (negb (bool_decide (is_Some (rw_sent w))) && headers_first (bool_decide (is_Some (rw_sent w))) ops = true →
    rw_op o w = Some (mkRW (edit o (rw_header w)) (rw_sent w) (rw_body w)) →
    rr_op o rr = mkRecorder (rr_StatusCode rr) (rr_Body rr) (edit o (rr_headerMap rr)) (rr_wroteHeader rr) →
    ∃ w', rw_run (o :: ops) w = Some w' ∧ agree (rr_run (o :: ops) rr) w') as Hedit.
  { intros [Hn Hf']%andb_prop Hop Hrr. unfold rr_run. cbn [rw_run foldl]. unfold flip at 2. rewrite Hop, Hrr. apply IH; [|done].
    destruct Ha as [A1 A2 A3 A4 A5]. apply negb_true_iff, bool_decide_eq_false in Hn.
    destruct (rw_sent w) eqn:Hs; [by destruct Hn|]. split; simpl; rewrite ?Hs; try done; [by apply edit_ok|by rewrite A3]. }
  destruct o as [k v|k v|k|code|s]; simpl in Hf; try (by apply Hedit); clear Hedit.
  - apply andb_prop in Hf as [[H1 H2]%andb_prop Hf]. destruct (agree_WriteHeader code rr w Ha) as (w' & Hop & Ha' & Hs); [lia|].
    simpl. rewrite Hop. by apply IH; auto.
  - destruct (agree_WriteHeader 200 rr w Ha) as (w' & Hop & Ha' & Hs); [lia|]. simpl. unfold rw_Write. rewrite Hop.
    apply IH; [|by apply Hw]. destruct Ha' as [A1 A2 A3 A4 A5].
    destruct Hs as [[c h] Hs]. rewrite Hs in *. split; simpl; rewrite ?Hs; try done. by rewrite A4.
Qed.

(** C23: The recorder is transparent for handlers that return, and nothing of a
    panicking handler gets out. For every handler that sets its headers before it
    writes, the response through the middleware is, in status, headers and body,
    the one the handler would have produced on the connection itself. For every
    handler that panics, whatever it wrote before, the middleware itself does not
    panic and the response is a JSON-RPC error with status 500. *)
Theorem middleware_transparent next :
  (h_panic next = None → headers_first false (h_ops next) = true →
     ∃ w w', rw_run (h_ops next) newRW = Some w ∧ ErrorLoggingMiddleware next newRW = Some w' ∧
       response w' = response w) ∧
  (∀ p, h_panic next = Some p →
     ∃ w', ErrorLoggingMiddleware next newRW = Some w' ∧
       response w' = (500, {["Content-Type" := ["application/json; charset=utf-8"]]},
                      marshal (panicResponse (Recover p)))).
Proof.
  unfold ErrorLoggingMiddleware. split.
  - intros -> Hf. destruct (agree_run (h_ops next) newRecorder newRW) as (w & Hrun & Ha); [by split|done|].
    exists w. destruct Ha as [A1 A2 A3 A4 A5]. set (rr := rr_run _ _) in *.
    unfold send. simpl. rewrite add_all_empty by done. unfold response. destruct (rw_sent w) as [[c h]|] eqn:Hs.
    + destruct A5 as (Hc & Hr & ->). rewrite Hc, (proj2 (Z.ltb_lt 0 c)) by lia. unfold rw_WriteHeader at 1.
      rewrite (proj2 (Z.ltb_ge _ _)), (proj2 (Z.ltb_ge _ _)) by lia. simpl.
      destruct (rr_Body rr) as [b|]; simpl in *; eexists; (split; [done|]); (split; [done|]); simpl; by rewrite A3, ?A4, <-?A4.
    + destruct A5 as [-> Hb]. rewrite Hb in *. simpl in *. eexists. split; [done|]. split; [done|]. simpl. by rewrite A3, <-A4.
  - intros p ->. destruct (snippet_total (rr_run (h_ops next) newRecorder)) as [sn ->]. simpl.
    eexists. split; [done|]. done.
Qed.
End middleware.

(** A header set after the first write is sent by the recorder only. *)
Example late_header_differs :
  let h := mkHandler [OWrite "x"; OSet "A" "1"] None in
  option_map response (rw_run (h_ops h) newRW) = Some (200, ∅, "x") ∧
  option_map response (ErrorLoggingMiddleware (λ _, "") true (λ _, "") h newRW) = Some (200, {["A" := ["1"]]}, "x").
Proof. done. Qed.

(** A header that an outer middleware has set is replaced by a handler on the
    connection, and doubled through the recorder. *)
Example preset_header_doubled :
  let w := mkRW {["A" := ["0"]]} None "" in
  let h := mkHandler [OSet "A" "1"] None in
  option_map (λ w, rw_header w !! "A") (rw_run (h_ops h) w) = Some (Some ["1"]) ∧
  option_map (λ w, rw_header w !! "A") (ErrorLoggingMiddleware (λ _, "") true (λ _, "") h w) = Some (Some ["0"; "1"]).
Proof. done. Qed.
