(* ===== verification/Status.v ===== *)
(** * Status endpoints

    Models [internal/status/status.go]: [StatusV2] checks the SDK of the caller
    with a resolve call, [WhoAmI] tells a client how the service sees it.
    Timestamps are left out.

    Parameters: those of a call ([Call.v]) and the router. *)

From S2P Require Import Prelude GoLib Rpc Errors Query Router Iapi Http Ip Services Wallet Auth Hashes Paid Caller Access AccessSpec Cache CacheSpec Call CallSpec Proxy.

Local Open Scope Z_scope.

Definition resolveURL : string := "what#19b9c243bea0c45175e6a6027911abbad53e983e".
Definition statusOK : string := "ok".
Definition statusNotReady : string := "not_ready".
Definition statusOffline : string := "offline".
Definition statusFailing : string := "failing".

Record serverItem := mkItem { si_Name : string; si_Status : string; si_Error : string }.
Record userData := mkUserData { ud_ID : Z; ud_Server : string }.
Record statusResponse := mkStatus {
  sr_lbrynet : serverItem;
  sr_GeneralState : string;
  sr_User : option userData;
}.

Record whoAmIResponse := mkWhoAmI {
  wa_DetectedIP : string;
  wa_UserID : string;
  wa_SDK : string;
  wa_RequestHeaders : gmap string string;
  wa_RemoteIP : string;
}.

(** ** [WhoAmI] *)

Definition hiddenHeaders : list string := [AuthorizationHeader; LegacyTokenHeader; "Cookie"].

Definition WhoAmI (headers : Header) (remoteAddr : string) (ctx : userCtx) : result error whoAmIResponse :=
  let shown := omap (λ vs, Some (match vs with v :: _ => v | [] => "" end))
                 (filter (λ p : string * list string, p.1 ∉ hiddenHeaders) headers) in
  match GetCurrentUserData ctx with
  | ROk cu =>
      match cu_user cu with
      | None => ROk (mkWhoAmI (ForRequest headers remoteAddr) "" "" shown remoteAddr)
      | Some u =>
          match GetLbrynetServer (Some u) with
          | None => RPanic "nil pointer dereference"
          | Some srv => ROk (mkWhoAmI (ForRequest headers remoteAddr) (Itoa (user_ID u)) (srv_Name srv) shown remoteAddr)
          end
      end
  | _ => ROk (mkWhoAmI (ForRequest headers remoteAddr) "" "" shown remoteAddr)
  end.

(** ** [StatusV2] *)

Section status.
Context {W : Type} `{!Ljsonrpc, !MapOrder, !SDKClient W, !WalletService W, !Random W, !Monitor W,
  !Arweave W, !IAPITransport W, !IAPIDecoders, !Clock W, !ECDSA, !PaidTokens W,
  !ClaimDecoder, !URLParser, !SearchDecoder, !JSONMarshal, !CacheStore W, !ProxyRouter W}.
Context (cfg : Config).

Definition resolveRequest : RPCRequest := NewRequest MethodResolve {["urls" := VStr resolveURL]}.

(** The server to check and the user to check it for. *)
Definition statusTarget (user : option User) (err : option error) : Go W (option LbrynetServer * Z) :=
  match err, user with
  | None, Some u => ret (GetLbrynetServer (Some u), user_ID u)
  | _, _ => let! srv := px_RandomServer in ret (Some srv, 0)
  end.

Definition statusOf (name : string) (user : option User) (res : error + RPCResponse) : statusResponse :=
  match res with
  | inl err => mkStatus (mkItem name statusOffline (Error err)) statusFailing None
  | inr rpcRes =>
      match resp_Error rpcRes with
      | Some e => mkStatus (mkItem name statusNotReady (Message e)) statusFailing None
      | None => mkStatus (mkItem name statusOK "") statusOK
                  (match user with Some u => Some (mkUserData (user_ID u) name) | None => None end)
      end
  end.

(** The status sent with it is 200 in all cases. *)
Definition StatusV2 (ctx : userCtx) (hasCache : bool) : Go W (Z * statusResponse) :=
  let '(user, err) := FromRequest ctx in
  let! t := statusTarget user err in
  match t with
  | (None, _) => gopanic "nil pointer dereference"
  | (Some srv, uid) =>
      let c := NewCaller cfg (srv_Address srv) uid in
      let c := if hasCache then set_Cache true c else c in
      let! res := try (run_caller c (Caller_Call cfg ctx resolveRequest)) in
      ret (200, statusOf (srv_Name srv) user res)
  end.
End status.

(** ** Properties *)

(** The whoami endpoint shows the request's headers but no credentials.
    Whatever the headers and whoever the user, a response contains neither the
    OAuth nor the legacy token header nor a cookie, and every other header with its
    first value; and it names the user whom the middlewares attached to the request
    and its server, or nobody. *)
Theorem WhoAmI_hides_credentials headers remoteAddr ctx :
  match WhoAmI headers remoteAddr ctx with
  | ROk res =>
      (∀ k, k ∈ hiddenHeaders → wa_RequestHeaders res !! k = None) ∧
      (∀ k, k ∉ hiddenHeaders → is_Some (headers !! k) → wa_RequestHeaders res !! k = Some (Header_Get headers k)) ∧
      match (FromRequest ctx).1 with
      | Some u => wa_UserID res = Itoa (user_ID u) ∧ Some (wa_SDK res) = srv_Name <$> GetLbrynetServer (Some u)
      | None => wa_UserID res = "" ∧ wa_SDK res = ""
      end
  | RErr _ => False
  | RPanic _ => ∃ u, (FromRequest ctx).1 = Some u ∧ GetLbrynetServer (Some u) = None
  end.
Proof.
  unfold WhoAmI, FromRequest. set (shown := omap _ _).
  assert ((∀ k, k ∈ hiddenHeaders → shown !! k = None) ∧
    (∀ k, k ∉ hiddenHeaders → is_Some (headers !! k) → shown !! k = Some (Header_Get headers k))) as [Hh Hs].
  { unfold shown. split; intros k Hk; [|intros [vs Hv]]; rewrite lookup_omap.
    - rewrite map_lookup_filter_None_2; [done|]. right. intros vs _ Hn. simpl in Hn. done.
    - rewrite (map_lookup_filter_Some_2 _ headers k vs) by done. simpl. unfold Header_Get. by rewrite Hv. }
  destruct (GetCurrentUserData ctx) as [cu|e|w] eqn:Hcu; simpl; [|by split_and!..].
  destruct (cu_user cu) as [u|]; [|by split_and!].
  destruct (user_R u) as [[srv|]|] eqn:Hr; simpl; [|by exists u; rewrite ?Hr..]. by split_and!.
Qed.

Section properties.
Import OracleInstances.
Context (o : Oracle) `{!Ljsonrpc, !MapOrder, !IAPIDecoders, !ECDSA, !ClaimDecoder, !URLParser,
  !SearchDecoder, !JSONMarshal}.
Context (server : history → LbrynetServer) (addresses : history → list string) (cfg : Config).

#[local] Instance status_router : ProxyRouter history := px server addresses.

(** The wallet the check acts for. *)
Definition status_wallet (ctx : userCtx) : string :=
  match FromRequest ctx with
  | (Some u, None) => if negb (user_ID u =? 0) then wallet_id_of (user_ID u) else ""
  | _ => ""
  end.

(** The status check sends only requests of the authenticated user's wallet, and a
    user with a server makes it panic never. *)
Lemma StatusV2_isolation ctx hc h :
  sends (request_ok (status_wallet ctx)) h (StatusV2 (W:=history) cfg ctx hc h).2.
Proof.
  unfold StatusV2, status_wallet. destruct (FromRequest ctx) as [user err].
  assert (∃ srv uid, statusTarget (W:=history) user err h = (ROk (srv, uid), h) ∧
    (if negb (uid =? 0) then wallet_id_of uid else "") =
    match user, err with Some u, None => if negb (user_ID u =? 0) then wallet_id_of (user_ID u) else "" | _, _ => "" end)
    as (srv & uid & Ht & Hw).
  { unfold statusTarget. destruct err as [e|], user as [u|]; by eexists _, _. }
  rewrite (bind_ok _ _ _ _ _ Ht). replace (match user with Some u => _ | None => _ end) with
    (if negb (uid =? 0) then wallet_id_of uid else "") by (rewrite Hw; by destruct user, err).
  destruct srv as [srv|]; [|apply sends_none].
  apply handle_tail; [|intros x s; apply sends_none].
  eapply sends_mono; [|apply (call_sends o cfg ctx resolveRequest (_, h))].
  intros rq Hok. unfold caller_wallet, NewCaller, addDefaultHooks in Hok. by destruct hc, (ArfleetEnabled cfg).
Qed.
End properties.
