(* ===== verification/Queue.v ===== *)
(** * Task queues

    Models [pkg/queue/queue.go]: queues of tasks over Redis connections, with one
    connection to send and serve requests and another to send responses.

    Parameters: the connections (parsing a URL, a ping, enqueueing), JSON encoding
    and the task server of [asynq]; what they answer is arbitrary.  Inspecting a
    queue for metrics and log lines are left out. *)

From S2P Require Import Prelude GoLib Rpc Errors.

Local Open Scope Z_scope.

Definition second : Z := 10 ^ 9.
Definition asHours (h : Z) : Z := h * 3600 * second.

Section queue.
(** A connection, a retry delay, a payload and a handler are opaque. *)
Context {Conn Delay Payload Handler : Type}.
Context (ParseRedisURI : string → error + Conn) (Ping : Conn → option error)
  (json_Marshal : Payload → error + string) (tenSeconds : Delay).

Record Options := mkOptions {
  o_concurrency : Z;
  o_delayFunc : Delay;
  o_requestsConnOpts : option Conn;
  o_requestsConnURL : string;
  o_responsesConnOpts : option Conn;
  o_responsesConnURL : string;
}.

Record MessageOptions := mkMessageOptions { mo_retry : Z; mo_timeout : Z; mo_retention : Z }.

Record Queue := mkQueue {
  q_options : Options;
  q_requestsClient : option Conn;
  q_responsesClient : option Conn;
  q_asynqInspector : option Conn;
  q_handlers : gmap string Handler;
  q_stopped : bool;                 (* handlerStopChan is closed *)
}.

(** ** Options *)

Definition OptionFunc := Options → result error Options.

Definition set_requests (c : option Conn) (url : string) (o : Options) : Options :=
  mkOptions (o_concurrency o) (o_delayFunc o) c url (o_responsesConnOpts o) (o_responsesConnURL o).
Definition set_responses (c : option Conn) (url : string) (o : Options) : Options :=
  mkOptions (o_concurrency o) (o_delayFunc o) (o_requestsConnOpts o) (o_requestsConnURL o) c url.

Definition WithRequestsConnOpts (c : option Conn) : OptionFunc := λ o, ROk (set_requests c (o_requestsConnURL o) o).
Definition WithResponsesConnOpts (c : option Conn) : OptionFunc := λ o, ROk (set_responses c (o_responsesConnURL o) o).
Definition WithRequestsConnURL (url : string) : OptionFunc :=
  λ o, match ParseRedisURI url with
       | inl err => RPanic (Error err)
       | inr c => ROk (set_requests (Some c) url o)
       end.
Definition WithResponsesConnURL (url : string) : OptionFunc :=
  λ o, match ParseRedisURI url with
       | inl err => RPanic (Error err)
       | inr c => ROk (set_responses (Some c) url o)
       end.
Definition WithConcurrency (n : Z) : OptionFunc :=
  λ o, ROk (mkOptions n (o_delayFunc o) (o_requestsConnOpts o) (o_requestsConnURL o)
              (o_responsesConnOpts o) (o_responsesConnURL o)).
Definition WithDelayFunc (f : Delay) : OptionFunc :=
  λ o, ROk (mkOptions (o_concurrency o) f (o_requestsConnOpts o) (o_requestsConnURL o)
              (o_responsesConnOpts o) (o_responsesConnURL o)).

Definition WithRequestRetry (n : Z) (o : MessageOptions) : MessageOptions :=
  mkMessageOptions n (mo_timeout o) (mo_retention o).
Definition WithRequestTimeout (t : Z) (o : MessageOptions) : MessageOptions :=
  mkMessageOptions (mo_retry o) t (mo_retention o).
Definition WithRequestRetention (t : Z) (o : MessageOptions) : MessageOptions :=
  mkMessageOptions (mo_retry o) (mo_timeout o) t.

(** ** Construction *)

Fixpoint applyOptions (fs : list OptionFunc) (o : Options) : result error Options :=
  match fs with
  | [] => ROk o
  | f :: fs => match f o with ROk o => applyOptions fs o | RErr e => RErr e | RPanic w => RPanic w end
  end.

Definition connect (what : string) (c : option Conn) : error + option Conn :=
  match c with
  | None => inr None
  | Some c => match Ping c with
              | Some err => inl (EWrapf ("redis " +:+ what +:+ " connection failed: ") err "")
              | None => inr (Some c)
              end
  end.

Definition New (optionFuncs : list OptionFunc) : result error Queue :=
  match applyOptions optionFuncs (mkOptions 3 tenSeconds None "" None "") with
  | RErr e => RErr e
  | RPanic w => RPanic w
  | ROk options =>
      match connect "responses" (o_responsesConnOpts options) with
      | inl err => RErr err
      | inr responsesClient =>
          match connect "requests" (o_requestsConnOpts options) with
          | inl err => RErr err
          | inr requestsClient =>
              match requestsClient, responsesClient with
              | None, None => RErr (EText "either requests or responses connection options must be provided")
              | _, _ => ROk (mkQueue options requestsClient responsesClient requestsClient ∅ false)
              end
          end
      end
  end.

Definition NewWithResponses (requestsConnURL responsesConnURL : string) (optionFuncs : list OptionFunc) : result error Queue :=
  if String.eqb requestsConnURL "" || String.eqb responsesConnURL "" then
    RErr (EText "both requests and responses connection URL must be provided")
  else New (optionFuncs ++ [WithRequestsConnURL requestsConnURL; WithResponsesConnURL responsesConnURL]).

(** ** Serving *)

Definition AddHandler (requestType : string) (h : Handler) (q : Queue) : Queue :=
  mkQueue (q_options q) (q_requestsClient q) (q_responsesClient q) (q_asynqInspector q)
    (<[requestType := h]> (q_handlers q)) (q_stopped q).

(** What the task server is started with, or why it is not; [run] is its result. *)
Record ServerConfig := mkServerConfig {
  sc_conn : Conn;
  sc_Concurrency : Z;
  sc_RetryDelayFunc : Delay;
  sc_handlers : gmap string Handler;
}.
Definition ServeUntilShutdown (run : ServerConfig → option error) (q : Queue) : option error * option ServerConfig :=
  match o_requestsConnOpts (q_options q) with
  | None => (Some (EText "requests connection options must be provided"), None)
  | Some c =>
      if decide (q_handlers q = ∅) then (Some (EText "no request handlers registered"), None) else
      let cfg := mkServerConfig c (o_concurrency (q_options q)) (o_delayFunc (q_options q)) (q_handlers q) in
      (run cfg, Some cfg)
  end.

Definition Shutdown (q : Queue) : result error Queue :=
  if q_stopped q then RPanic "close of closed channel" else
  ROk (mkQueue (q_options q) (q_requestsClient q) (q_responsesClient q) (q_asynqInspector q) (q_handlers q) true).

(** ** Sending *)

Record QTask := mkQTask {
  qt_type : string;
  qt_payload : string;
  qt_retry : Z;
  qt_timeout : Z;
  qt_retention : Z;
}.

(** What was put on the connections, in order; [enqueue] is what the n-th attempt
    answers. *)
Definition Sent := list (Conn * QTask).
Context (enqueue : nat → option error).

Definition sendMessage (client : Conn) (messageType : string) (payload : Payload)
    (optionFuncs : list (MessageOptions → MessageOptions)) : Go (Sent * nat) unit :=
  let options := foldl (λ o f, f o) (mkMessageOptions 3 (asHours 1) (asHours 72)) optionFuncs in
  match json_Marshal payload with
  | inl err => fail err
  | inr pb =>
      let t := mkQTask messageType pb (mo_retry options) (mo_timeout options) (mo_retention options) in
      λ '(sent, n), match enqueue n with
                    | Some err => (RErr (EWrapf ("failed to enqueue " +:+ messageType +:+ " request: ") err ""), (sent, S n))
                    | None => (ROk tt, (sent ++ [(client, t)], S n))
                    end
  end.

Definition SendResponse (q : Queue) (responseType : string) (payload : Payload)
    (optionFuncs : list (MessageOptions → MessageOptions)) : Go (Sent * nat) unit :=
  match q_responsesClient q with
  | None => fail (EText "response client is missing")
  | Some c => sendMessage c responseType payload optionFuncs
  end.

Definition SendRequest (q : Queue) (requestType : string) (payload : Payload)
    (optionFuncs : list (MessageOptions → MessageOptions)) : Go (Sent * nat) unit :=
  match q_requestsClient q with
  | None => fail (EText "requests client is missing")
  | Some c => sendMessage c requestType payload optionFuncs
  end.

(** ** Properties *)

(** Every operation keeps the clients those of the options. *)
Record queue_wf (q : Queue) : Prop := {
  qw_requests : q_requestsClient q = o_requestsConnOpts (q_options q);
  qw_responses : q_responsesClient q = o_responsesConnOpts (q_options q);
  qw_inspector : q_asynqInspector q = q_requestsClient q;
  qw_some : q_requestsClient q ≠ None ∨ q_responsesClient q ≠ None;
  qw_live c : q_requestsClient q = Some c ∨ q_responsesClient q = Some c → Ping c = None;
}.

Lemma connect_ok what c c' : connect what c = inr c' → c' = c ∧ ∀ x, c' = Some x → Ping x = None.
Proof.
  unfold connect. destruct c as [c|]; [|by intros [= <-]]. destruct (Ping c) eqn:Hp; [done|]. intros [= <-].
  split; [done|]. by intros x [= <-].
Qed.

Lemma New_wf fs q : New fs = ROk q → queue_wf q ∧ q_handlers q = ∅ ∧ q_stopped q = false.
Proof.
  unfold New. destruct (applyOptions fs _) as [o|e|w]; [|done..].
  destruct (connect "responses" _) as [e|rs] eqn:H1; [done|]. destruct (connect "requests" _) as [e|rq] eqn:H2; [done|].
  apply connect_ok in H1 as [-> L1]. apply connect_ok in H2 as [-> L2]. intros Hq.
  assert (q = mkQueue o (o_requestsConnOpts o) (o_responsesConnOpts o) (o_requestsConnOpts o) ∅ false ∧
    (o_requestsConnOpts o ≠ None ∨ o_responsesConnOpts o ≠ None)) as [-> Hs].
  { destruct (o_requestsConnOpts o), (o_responsesConnOpts o); simplify_eq; auto. }
  split; [|done]. split; try done. intros c [Hc|Hc]; [by apply L2|by apply L1].
Qed.

Lemma AddHandler_wf t h q : queue_wf q → queue_wf (AddHandler t h q).
Proof. by intros [Q1 Q2 Q3 Q4 Q5]; split. Qed.

(** Options are applied in order, so the later ones win. *)
Lemma applyOptions_app fs gs o :
  applyOptions (fs ++ gs) o = match applyOptions fs o with
                              | ROk o' => applyOptions gs o' | RErr e => RErr e | RPanic w => RPanic w
                              end.
Proof. revert o. induction fs as [|f fs IH]; intros o; simpl; [done|]. by destruct (f o). Qed.

(** A queue made by [NewWithResponses] sends requests and responses to the two
    given servers and nowhere else. Whatever options come along, both clients are
    the connections of the two URLs and both answered a ping; a request or response
    is put, if no error is returned, exactly once and only on its own connection,
    as a task with the encoded payload and the given options over the defaults; and
    if an error is returned nothing was put anywhere. *)
Theorem NewWithResponses_sends reqURL resURL fs q :
  NewWithResponses reqURL resURL fs = ROk q →
  ∃ creq cres, ParseRedisURI reqURL = inr creq ∧ ParseRedisURI resURL = inr cres ∧
    Ping creq = None ∧ Ping cres = None ∧
    ∀ (isRequest : bool) ty p opts sent n,
      let out := (if isRequest then SendRequest q ty p opts else SendResponse q ty p opts) (sent, n) in
      let o := foldl (λ o f, f o) (mkMessageOptions 3 (asHours 1) (asHours 72)) opts in
      match out.1 with
      | ROk _ => ∃ pb, json_Marshal p = inr pb ∧
          out.2.1 = sent ++ [(if isRequest then creq else cres,
                              mkQTask ty pb (mo_retry o) (mo_timeout o) (mo_retention o))]
      | RErr _ => out.2.1 = sent
      | RPanic _ => False
      end.
Proof.
  unfold NewWithResponses. destruct (_ || _); [done|]. intros Hq.
  pose proof (New_wf _ _ Hq) as ([Q1 Q2 Q3 Q4 Q5] & _ & _).
  unfold New in Hq. rewrite applyOptions_app in Hq.
  destruct (applyOptions fs _) as [o|e|w]; [|done..]. simpl in Hq. unfold WithRequestsConnURL, WithResponsesConnURL in Hq.
  destruct (ParseRedisURI reqURL) as [e|creq] eqn:P1; [done|]. destruct (ParseRedisURI resURL) as [e|cres] eqn:P2; [done|].
  simpl in Hq. destruct (Ping cres) eqn:L1; [done|]. destruct (Ping creq) eqn:L2; [done|]. injection Hq as <-.
  exists creq, cres. split_and!; [done..|]. intros isReq ty p opts sent n.
  assert ((if isReq then SendRequest (mkQueue (set_responses (Some cres) resURL (set_requests (Some creq) reqURL o)) (Some creq) (Some cres) (Some creq) ∅ false) ty p opts
           else SendResponse (mkQueue (set_responses (Some cres) resURL (set_requests (Some creq) reqURL o)) (Some creq) (Some cres) (Some creq) ∅ false) ty p opts) =
          sendMessage (if isReq then creq else cres) ty p opts) as -> by (by destruct isReq).
  unfold sendMessage. destruct (json_Marshal p) as [e|pb]; simpl; [done|]. destruct (enqueue n); simpl; [done|]. by exists pb.
Qed.

(** Serving needs a connection for requests and a handler; then every registered
    handler is served. *)
Lemma ServeUntilShutdown_spec run q :
  queue_wf q →
  match (ServeUntilShutdown run q).2 with
  | Some cfg => q_requestsClient q = Some (sc_conn cfg) ∧ sc_handlers cfg = q_handlers q ∧
      (ServeUntilShutdown run q).1 = run cfg
  | None => (q_requestsClient q = None ∨ q_handlers q = ∅) ∧ is_Some (ServeUntilShutdown run q).1
  end.
Proof.
  intros [Q1 Q2 Q3 Q4 Q5]. unfold ServeUntilShutdown. rewrite <-Q1. destruct (q_requestsClient q) as [c|]; simpl; [|auto].
  destruct (decide _); simpl; auto.
Qed.
End queue.

(** Witness of [NewWithResponses_sends]: a connection is its URL. *)
Lemma NewWithResponses_sends_witness :
  ∃ creq cres : string, creq = "redis://req" ∧ cres = "redis://res".
Proof.
  destruct (NewWithResponses_sends (Payload := string) (Handler := unit) (λ url, inr url) (λ _, None) (λ p, inr p) tt (λ _, None)
    "redis://req" "redis://res" [WithConcurrency 5]
    (mkQueue (mkOptions 5 tt (Some "redis://req") "redis://req" (Some "redis://res") "redis://res")
       (Some "redis://req") (Some "redis://res") (Some "redis://req") ∅ false)
    eq_refl) as (creq & cres & H1 & H2 & _).
  exists creq, cres. injection H1 as <-. injection H2 as <-. split; reflexivity.
Defined.
