(* ===== verification/Sturdycache.v ===== *)
(** * The replicated cache

    Models [pkg/sturdycache/sturdycache.go]: writes go to the master, reads try
    the replicas in order and then the master ([rc_Get] of [Cache.v]).

    Parameters: a store (its states, what an operation does to them and what a
    read finds), and which nodes answer.  The replicas copy the master at their own
    pace: each holds a state the master has been in, and moves forward only. *)

From S2P Require Import Prelude GoLib Rpc Errors Hashes Caller Access Cache.

Section sturdy.
Context {St V O : Type}.

(** The operations of a store with their options. *)
Inductive storeOp := SSet (key : string) (value : V) (options : O) | SInvalidate (options : O) | SDelete (key : string) | SClear.
Context (apply_op : storeOp → St → St) (read : St → string → option V).

(** The states of the master, oldest first, and how far each replica is. *)
Record Cluster := mkCluster { cl_past : list St; cl_master : St; cl_replicas : list nat }.
Definition history_of (c : Cluster) : list St := cl_past c ++ [cl_master c].
Definition state_at (c : Cluster) (i : nat) : St := default (cl_master c) (history_of c !! i).

Definition NewReplicatedCache (master : St) (replicas : nat) : Cluster := mkCluster [] master (replicate replicas 0%nat).

(** Whether the master is reached, and whether the operation took effect there. *)
Inductive reach := Reached | Refused (e : error) | Lost (e : error).

(** [Set], [Invalidate], [Delete] and [Clear]. *)
Definition rc_write (op : storeOp) (r : reach) : Go Cluster unit :=
  λ c, let done_ := mkCluster (cl_past c ++ [cl_master c]) (apply_op op (cl_master c)) (cl_replicas c) in
       match r with
       | Reached => (ROk tt, done_)
       | Refused e => (RErr e, c)
       | Lost e => (RErr e, done_)
       end.

(** A read of one node. *)
Definition node_Get (up : bool) (i : Cluster → nat) (key : string) : Go Cluster V :=
  λ c, if negb up then (RErr (EText "connection refused"), c) else
       match read (state_at c (i c)) key with
       | Some v => (ROk v, c)
       | None => (RErr (EStoreNotFound "value not found"), c)
       end.

Definition replica_Get (up : bool) (n : nat) : string → Go Cluster V :=
  node_Get up (λ c, nth n (cl_replicas c) 0%nat).
Definition master_Get (up : bool) : string → Go Cluster V := node_Get up (λ c, length (cl_past c)).

(** [Get]: [ups] tells which replicas answer, in order. *)
Fixpoint replicas_from (n : nat) (ups : list bool) : list (string → Go Cluster V) :=
  match ups with [] => [] | up :: ups => replica_Get up n :: replicas_from (S n) ups end.
Definition Get (ups : list bool) (master_up : bool) (key : string) : Go Cluster V :=
  rc_Get (replicas_from 0 ups) (master_Get master_up) key.

(** ** Interleavings of writes and replication *)

Inductive clreach (s0 : St) (n : nat) : Cluster → Prop :=
| cl_new : clreach s0 n (NewReplicatedCache s0 n)
| cl_write c op r o c' : clreach s0 n c → rc_write op r c = (o, c') → clreach s0 n c'
| cl_replicate c i k :
    clreach s0 n c → (nth i (cl_replicas c) 0 <= k <= length (cl_past c))%nat →
    clreach s0 n (mkCluster (cl_past c) (cl_master c) (<[i := k]> (cl_replicas c))).

Definition cluster_wf (c : Cluster) : Prop := Forall (λ k, (k <= length (cl_past c))%nat) (cl_replicas c).

Lemma clreach_wf s0 n c : clreach s0 n c → cluster_wf c.
Proof.
  unfold cluster_wf. induction 1 as [|c op r o c' _ IH Hw|c i k _ IH Hk].
  - simpl. by apply Forall_replicate.
  - destruct r; injection Hw as _ <-; simpl; try done; rewrite length_app; simpl;
      (eapply Forall_impl; [exact IH|]; simpl; intros; lia).
  - simpl. apply Forall_insert; [done|lia].
Qed.

Lemma node_Get_spec up i key c :
  node_Get up i key c = (if up then match read (state_at c (i c)) key with Some v => ROk v | None => RErr (EStoreNotFound "value not found") end
                         else RErr (EText "connection refused"), c).
Proof. unfold node_Get. destruct up; simpl; [|done]. by destruct (read _ key). Qed.

(** The first replica that answers with a value wins; the master is asked last. *)
Lemma replicas_Get_spec ups : ∀ m mup key c,
  (∃ j, (m <= j)%nat ∧ ups !! (j - m)%nat = Some true ∧ ∃ v, read (state_at c (nth j (cl_replicas c) 0%nat)) key = Some v ∧
     rc_Get (replicas_from m ups) (master_Get mup) key c = (ROk v, c)) ∨
  ((∀ j, (m <= j)%nat → ups !! (j - m)%nat = Some true → read (state_at c (nth j (cl_replicas c) 0%nat)) key = None) ∧
   rc_Get (replicas_from m ups) (master_Get mup) key c = master_Get mup key c).
Proof.
  induction ups as [|up ups IH]; intros m mup key c; [by right|]. cbn [replicas_from rc_Get].
  unfold bind, try, replica_Get. rewrite !node_Get_spec.
  assert (∀ j x, (S m <= j)%nat → (x :: ups) !! (j - m)%nat = ups !! (j - S m)%nat) as Hshift.
  { intros j x Hj. by replace (j - m)%nat with (S (j - S m)) by lia. }
  destruct up; [destruct (read (state_at c (nth m (cl_replicas c) 0%nat)) key) as [v|] eqn:Hm|].
  { left. exists m. split; [lia|]. rewrite Nat.sub_diag. eauto. }
  all: destruct (IH (S m) mup key c) as [(j & Hj & Hu & v & Hv & Hg)|[Hn Hg]];
    [left; exists j; split; [lia|]; rewrite Hshift by lia; eauto|right; split; [|done]]; intros j Hj Hu;
    (destruct (decide (j = m)) as [->|]; [|rewrite Hshift in Hu by lia; apply Hn; [lia|done]]); try done.
  by rewrite Nat.sub_diag in Hu.
Qed.

Lemma state_at_master c : state_at c (length (cl_past c)) = cl_master c.
Proof. unfold state_at, history_of. by rewrite lookup_app_r, Nat.sub_diag. Qed.

Lemma state_at_in c i : cluster_wf c → state_at c (nth i (cl_replicas c) 0%nat) ∈ history_of c.
Proof.
  intros Hwf. unfold state_at. destruct (history_of c !! _) as [s|] eqn:Hs; simpl.
  - by eapply list_elem_of_lookup_2.
  - unfold history_of. set_solver.
Qed.

(** A read of the replicated cache never invents a value, and sees the master
    once the replicas have caught up. After any interleaving of writes (with lost
    and refused ones) and replication, and whichever nodes answer, a value that is
    read is one that some state of the master, now or earlier, has for the key, and
    reading changes nothing; if every replica that answers holds the master's state
    and the master answers, the read is the master's own. *)
Theorem reads_are_master_states s0 n c ups mup key :
  clreach s0 n c →
  (∀ v c', Get ups mup key c = (ROk v, c') → c' = c ∧ ∃ s, s ∈ history_of c ∧ read s key = Some v) ∧
  ((∀ i, ups !! i = Some true → state_at c (nth i (cl_replicas c) 0%nat) = cl_master c) → mup = true →
     Get ups mup key c =
       (match read (cl_master c) key with Some v => ROk v | None => RErr (EStoreNotFound "value not found") end, c)).
Proof.
  intros Hwf%clreach_wf. unfold Get. destruct (replicas_Get_spec ups 0 mup key c) as [(j & _ & Hu & v & Hv & Hg)|[Hn Hg]].
  - rewrite Hg. split.
    + intros v' c' [= <- <-]. split; [done|]. eexists. split; [by apply (state_at_in c j)|done].
    + intros Hc _. rewrite Nat.sub_0_r in Hu. rewrite (Hc j Hu) in Hv. by rewrite Hv.
  - rewrite Hg. unfold master_Get. rewrite node_Get_spec, state_at_master. split.
    + intros v c' Heq. destruct mup; [|done]. destruct (read (cl_master c) key) as [v'|] eqn:Hr; [|done].
      injection Heq as <- <-. split; [done|]. exists (cl_master c). unfold history_of. split; [set_solver|done].
    + by intros _ ->.
Qed.
End sturdy.

(** ** A concrete store: keys and values, invalidated as a whole *)
Module sturdy_runs.
Definition apply (op : storeOp (V := string) (O := unit)) (s : gmap string string) : gmap string string :=
  match op with SSet k v _ => <[k := v]> s | SInvalidate _ => ∅ | SDelete k => delete k s | SClear => ∅ end.
Definition read (s : gmap string string) (k : string) : option string := s !! k.

(** A value is set, copied to the replica, and invalidated on the master. *)
Definition c1 := (rc_write apply (SSet "k" "v" tt) Reached (NewReplicatedCache ∅ 1)).2.
Definition c2 := mkCluster (cl_past c1) (cl_master c1) [1%nat].
Definition c3 := (rc_write apply (SInvalidate tt) Reached c2).2.

Lemma c3_reach : clreach apply ∅ 1 c3.
Proof.
  apply (cl_write apply ∅ 1 c2 (SInvalidate tt) Reached (ROk tt)); [|done].
  apply (cl_replicate apply ∅ 1 c1 0 1); [|simpl; lia].
  by apply (cl_write apply ∅ 1 (NewReplicatedCache ∅ 1) (SSet "k" "v" tt) Reached (ROk tt)); [apply cl_new|].
Qed.
End sturdy_runs.

(** Witness of [reads_are_master_states]: the replica is behind. *)
Lemma reads_are_master_states_witness :
  ∃ s, s ∈ history_of sturdy_runs.c3 ∧ sturdy_runs.read s "k" = Some "v".
Proof.
  destruct (reads_are_master_states sturdy_runs.apply sturdy_runs.read ∅ 1 sturdy_runs.c3 [true] true "k" sturdy_runs.c3_reach)
    as [H _].
  destruct (H "v" sturdy_runs.c3) as (_ & s & Hs & Hr); [reflexivity|]. exists s. split; [exact Hs|exact Hr].
Defined.

(** An invalidated value is still read while a replica lags, and reads can go
    backwards when the replica that had answered does not. *)
Example invalidated_value_is_read :
  Get sturdy_runs.read [true] true "k" sturdy_runs.c3 = (ROk "v", sturdy_runs.c3) ∧
  (Get sturdy_runs.read [false] true "k" sturdy_runs.c3).1 = RErr (EStoreNotFound "value not found").
Proof. done. Qed.
