(* ===== verification/Chainquery.v ===== *)
(** * The height of the chain and the cache invalidator

    Models [pkg/chainquery/chainquery.go], which asks a web service for the height
    of the chain, and the life of a query cache with an invalidator
    ([NewQueryCacheWithInvalidator] of [app/query/cache.go]) on top of it.

    Parameters: the web service's replies and JSON decoding. *)

From S2P Require Import Prelude GoLib Rpc Errors Query Services Hashes Caller Access Cache CacheSpec.
From Stdlib Require Import Ascii.

Local Open Scope Z_scope.

Definition apiUrl : string := "https://chainquery.odysee.tv/api/sql".

Record HeightResponse := mkHeightResponse {
  hr_Success : bool;
  hr_Error : option string;
  hr_Data : list Z;                  (* the heights of the rows *)
}.

(** [url.QueryEscape] *)
Definition hex_upper (n : N) : string :=
  String (ascii_of_N (if (n <? 10)%N then 48 + n else 55 + n)) "".
Definition escape_char (a : ascii) : string :=
  let n := N_of_ascii a in
  let z := Z.of_N n in
  if ((48 <=? z) && (z <=? 57)) || ((65 <=? z) && (z <=? 90)) || ((97 <=? z) && (z <=? 122)) ||
     (z =? 45) || (z =? 95) || (z =? 46) || (z =? 126) then String a ""
  else if z =? 32 then "+"
  else "%" +:+ hex_upper (n / 16) +:+ hex_upper (n mod 16).
Fixpoint QueryEscape (s : string) : string :=
  match s with "" => "" | String a s' => escape_char a +:+ QueryEscape s' end.

(** A reply: a transport error, or a status and the body or the error of reading
    it. *)
Definition Reply : Type := error + (Z * (error + string)).
Class ChainService (W : Type) := chain_Do : string → Go W Reply.
Class HeightDecoder := decode_Height : string → error + HeightResponse.

Section chainquery.
Context {W : Type} `{!ChainService W, !HeightDecoder}.

Definition makeRequest (query : string) : Go W HeightResponse :=
  let! resp := chain_Do (apiUrl +:+ "?query=" +:+ QueryEscape query) in
  match resp with
  | inl err => fail (EWrapf "error sending request: " err "")
  | inr (_, inl err) => fail (EWrapf "error reading response: " err "")
  | inr (status, inr body) =>
      if negb (status =? 200) then
        fail (EText ("unexpected status code: got " +:+ Itoa status +:+ ", want 200"))
      else match decode_Height body with
           | inl err => fail err
           | inr r => ret r
           end
  end.

Definition cq_GetHeight : Go W Z :=
  let! r := try (makeRequest "select height from block order by id desc limit 1") in
  match r with
  | inl err => fail (ETraced "error retrieving latest height" err)
  | inr r =>
      match hr_Data r with
      | [h] => ret h
      | l => fail (EText ("error retrieving latest height, expected 1 items in response, got " +:+
                          Itoa (Z.of_nat (length l))))
      end
  end.

(** The cache takes it as its source of heights. *)
#[export] Instance chain_heights : Chainquery W := cq_GetHeight.

Definition NewQueryCacheWithInvalidator : Go W Z :=
  let! r := try GetHeight in
  match r with
  | inl err => fail (EWrapf "failed to get current height: " err "")
  | inr height => ret height
  end.
End chainquery.

(** The request that is sent. *)
Example height_url :
  apiUrl +:+ "?query=" +:+ QueryEscape "select height from block order by id desc limit 1" =
  "https://chainquery.odysee.tv/api/sql?query=select+height+from+block+order+by+id+desc+limit+1".
Proof. reflexivity. Qed.

(** ** The life of a cache *)

Section life.
Context `{!HeightDecoder} (replies : nat → Reply) (invalidate_fails : nat → option error).

(** The number of requests made, and the tags of every invalidation with whether
    it succeeded. *)
Record Chain := mkChain { ch_asked : nat; ch_invalidated : list (list string * bool) }.

#[local] Instance chain_service : ChainService Chain :=
  λ _ w, (ROk (replies (ch_asked w)), mkChain (S (ch_asked w)) (ch_invalidated w)).
#[local] Instance chain_store : CacheStore Chain := {|
  store_Get _ := fail (EStoreNotFound "");
  store_Set _ _ _ _ := ret tt;
  store_Invalidate tags := λ w,
    match invalidate_fails (ch_asked w) with
    | Some err => (RErr err, mkChain (ch_asked w) (ch_invalidated w ++ [(tags, false)]))
    | None => (ROk tt, mkChain (ch_asked w) (ch_invalidated w ++ [(tags, true)]))
    end |}.

(** The height a reply stands for: status 200 and exactly one row. *)
Definition height_of (r : Reply) : option Z :=
  match r with
  | inr (status, inr body) =>
      if status =? 200 then
        match decode_Height body with
        | inr d => match hr_Data d with [h] => Some h | _ => None end
        | inl _ => None
        end
      else None
  | _ => None
  end.

Lemma GetHeight_run w :
  let w' := mkChain (S (ch_asked w)) (ch_invalidated w) in
  match height_of (replies (ch_asked w)) with
  | Some h => (GetHeight : Go Chain Z) w = (ROk h, w')
  | None => ∃ e, (GetHeight : Go Chain Z) w = (RErr e, w')
  end.
Proof.
  unfold GetHeight, chain_heights, cq_GetHeight, makeRequest, chain_Do, chain_service. unfold bind, try. simpl.
  destruct (replies (ch_asked w)) as [e|[st [e|body]]]; simpl; [by eexists..|].
  destruct (st =? 200); simpl; [|by eexists]. destruct (decode_Height body) as [e|d]; simpl; [by eexists|].
  by destruct (hr_Data d) as [|h [|h' l]]; simpl; [eexists| |eexists].
Qed.

(** [n] ticks of the invalidator; its errors are only logged. *)
Fixpoint ticks (n : nat) (s : Z * Chain) : Z * Chain :=
  match n with O => s | S n => (runInvalidator (ticks n s)).2 end.

(** The highest of the heights reported from request 0 to [n]. *)
Fixpoint highest (h0 : Z) (n : nat) : Z :=
  match n with
  | O => h0
  | S n => match height_of (replies (S n)) with Some h => Z.max (highest h0 n) h | None => highest h0 n end
  end.

(** The requests whose height exceeded all before. *)
Fixpoint new_heights (h0 : Z) (n : nat) : nat :=
  match n with
  | O => 0
  | S n => new_heights h0 n + match height_of (replies (S n)) with
                              | Some h => if (highest h0 n <? h)%Z then 1 else 0
                              | None => 0
                              end
  end%nat.

(** The cache remembers the highest height the chain service has reported in a
    well-formed reply, whatever else it answers, and has invalidated the search
    results exactly once for each time the height grew, whether or not the
    invalidation succeeded. *)
Theorem invalidator_follows_chain h0 s1 n :
  NewQueryCacheWithInvalidator (W:=Chain) (mkChain 0 []) = (ROk h0, s1) →
  let '(height, w) := ticks n (h0, s1) in
  height = highest h0 n ∧ ch_asked w = S n ∧
  length (ch_invalidated w) = new_heights h0 n ∧ Forall (λ i, i.1 = [method_tag MethodClaimSearch]) (ch_invalidated w).
Proof.
  intros Hnew. assert (s1 = mkChain 1 []) as ->.
  { pose proof (GetHeight_run (mkChain 0 [])) as Hg. unfold NewQueryCacheWithInvalidator, bind, try in Hnew.
    simpl in Hg. destruct (height_of _) as [h|].
    - rewrite Hg in Hnew. by injection Hnew as _ <-.
    - destruct Hg as [e Hg]. by rewrite Hg in Hnew. }
  clear Hnew. induction n as [|n IH]; [by cbn|]. cbn [ticks highest new_heights].
  destruct (ticks n (h0, mkChain 1 [])) as [height w]. destruct IH as (-> & Ha & Hl & Hf).
  pose proof (GetHeight_run w) as Hg. rewrite Ha in Hg. unfold runInvalidator, bind at 1, try at 1. rewrite atW_run.
  destruct (height_of (replies (S n))) as [h|]; [|destruct Hg as [e Hg]]; rewrite Hg; cbn [fst snd fail].
  2: { split_and!; [done|done|simpl; lia|done]. }
  unfold bind at 1, gets. cbn [fst snd]. destruct (Z.leb_spec h (highest h0 n)) as [Hle|Hgt].
  { rewrite (proj2 (Z.ltb_ge _ _)) by lia. split_and!; [lia|done|simpl; lia|done]. }
  rewrite (proj2 (Z.ltb_lt _ _)) by lia. unfold bind, modify, try. rewrite atW_run. cbn [store_Invalidate chain_store ch_asked].
  destruct (invalidate_fails _); cbn [fst snd ret fail]; (split_and!; [lia|done|simpl; rewrite length_app; simpl; lia|]);
    simpl; apply Forall_app; (split; [done|]); by constructor.
Qed.
End life.
