(* ===== verification/Server.v ===== *)
(** * Routes and middlewares of the API server

    Models [api/routes.go], [server/server.go] (the middlewares of [NewServer]),
    [internal/middleware], [app/asynquery/routes.go], [app/geopublish/routes.go], the
    routes of [internal/status] and [internal/admin], the base path of the tus
    handlers, and the middlewares that attach values to a request's context.

    A router is the list of its routes in the order they were added, each with its
    matchers and a handler or a subrouter with middlewares of its own.

    Parameters: the handlers (an [Endpoint] each; the other files model them), the
    authentication backends, what fails at start-up, and the libraries: gorilla/mux
    (matching of path templates and the dispatch, [Mux]), rs/cors, Sentry and tusd's
    middleware.  Metrics and log lines are left out. *)

From S2P Require Import Prelude GoLib Rpc Errors Query Router Iapi Http Ip Services Wallet Auth Asynquery Admin Monitor Publish.
From Stdlib Require Import Ascii String.

Local Open Scope Z_scope.
Local Open Scope string_scope.

(** ** Requests and handlers *)

Abbreviation Vars := (gmap string string).

Record HttpReq := mkReq {
  hr_Method : string;
  hr_Path : string;
  hr_Header : Header;
  hr_RemoteAddr : string;
  hr_Body : option (error + string);
  hr_Form : Form;                    (* what ParseMultipartForm finds *)
  hr_Vars : Vars;                    (* mux.Vars *)
  ctx_timer : bool;                  (* values of the context *)
  ctx_ip : option string;
  ctx_router : bool;
  ctx_user : userCtx;
  ctx_cache : bool;
}.
Definition set_Path (p : string) (q : HttpReq) : HttpReq :=
  mkReq (hr_Method q) p (hr_Header q) (hr_RemoteAddr q) (hr_Body q) (hr_Form q) (hr_Vars q) (ctx_timer q) (ctx_ip q) (ctx_router q) (ctx_user q) (ctx_cache q).
Definition set_Vars (v : Vars) (q : HttpReq) : HttpReq :=
  mkReq (hr_Method q) (hr_Path q) (hr_Header q) (hr_RemoteAddr q) (hr_Body q) (hr_Form q) v (ctx_timer q) (ctx_ip q) (ctx_router q) (ctx_user q) (ctx_cache q).
Definition with_timer (q : HttpReq) : HttpReq :=
  mkReq (hr_Method q) (hr_Path q) (hr_Header q) (hr_RemoteAddr q) (hr_Body q) (hr_Form q) (hr_Vars q) true (ctx_ip q) (ctx_router q) (ctx_user q) (ctx_cache q).
Definition with_ip (a : option string) (q : HttpReq) : HttpReq :=
  mkReq (hr_Method q) (hr_Path q) (hr_Header q) (hr_RemoteAddr q) (hr_Body q) (hr_Form q) (hr_Vars q) (ctx_timer q) a (ctx_router q) (ctx_user q) (ctx_cache q).
Definition with_router (q : HttpReq) : HttpReq :=
  mkReq (hr_Method q) (hr_Path q) (hr_Header q) (hr_RemoteAddr q) (hr_Body q) (hr_Form q) (hr_Vars q) (ctx_timer q) (ctx_ip q) true (ctx_user q) (ctx_cache q).
Definition with_user (u : userCtx) (q : HttpReq) : HttpReq :=
  mkReq (hr_Method q) (hr_Path q) (hr_Header q) (hr_RemoteAddr q) (hr_Body q) (hr_Form q) (hr_Vars q) (ctx_timer q) (ctx_ip q) (ctx_router q) u (ctx_cache q).
Definition with_cache (q : HttpReq) : HttpReq :=
  mkReq (hr_Method q) (hr_Path q) (hr_Header q) (hr_RemoteAddr q) (hr_Body q) (hr_Form q) (hr_Vars q) (ctx_timer q) (ctx_ip q) (ctx_router q) (ctx_user q) true.

(** The handlers the routes lead to. *)
Inductive Endpoint :=
| EIndex | EEmpty | EPreflight       (* the three handlers written in place *)
| EPublish | EProxy | ETrackUIMetric | EPaidPubkey
| EPrometheus | EPprof (profile : string)
| EStatusV2 | EWhoAmI
| ETus (version : nat) (operation : string)
| EUploadPubkey | ECreateUpload | EGetQuery | ECreateQuery
| EBumpSDK.
#[export] Instance Endpoint_eq : EqDecision Endpoint.
Proof. solve_decision. Defined.

Record RoutesOptions := { EnableV3Publish : bool; EnableProfiling : bool }.

Record CorsOptions := mkCorsOptions {
  co_AllowedOrigins : list string; co_AllowCredentials : bool; co_AllowedHeaders : list string;
  co_AllowedMethods : list string; co_ExposedHeaders : list string; co_MaxAge : Z }.

(** What the start-up finds broken: the value is the error. *)
Record Startup := mkStartup {
  st_oauth : option error;             (* wallet.NewOauthAuthenticator *)
  st_cache : option error;             (* sturdycache.NewReplicatedCache *)
  st_redisOpts : option error;         (* config.GetRedisLockerOpts *)
  st_locker : option error;            (* redislocker.New *)
  st_tus : option error;               (* publish.NewTusHandler *)
  st_busOpts : option error;           (* config.GetRedisBusOpts *)
  st_forklift : option error;          (* forklift.NewForklift *)
  st_forkliftStart : option error;
  st_geoLocker : option error;         (* its redislocker.New *)
  st_geo : option error;               (* geopublish.NewHandler *)
  st_privateKey : option error;        (* keybox.KeyfobFromString *)
  st_asynqOpts : option error;         (* config.GetAsynqueryRequestsConnOpts *)
  st_keyfob : option error;            (* keybox.NewKeyfob *)
  st_manager : option error;           (* asynquery.NewCallManager *)
}.

Definition emptyHandler {W} (_ : HttpReq) : Go W Writer := ret newWriter.

Section server.
Context {L S : Type} `{!RateLimiter L}.

(** The limiter of the admin routes, and the state of everything else. *)
Definition SrvState : Type := Limiter L * S.
Definition Handler : Type := HttpReq → Go SrvState Writer.
Definition Middleware : Type := Handler → Handler.

(** *** [internal/middleware] *)

(** [for i := len(mws) - 1; i >= 0; i-- { next = mws[i](next) }] *)
Definition Chain (mws : list Middleware) : Middleware := λ next, foldl (λ next mw, mw next) next (reverse mws).
Definition Apply (mw : Middleware) (handler : Handler) : Handler := mw handler.

(** *** Routers *)

Inductive Matcher :=
| Path (tpl : string)
| PathPrefix (tpl : string)
| Methods (ms : list string)
| MatcherFunc (f : HttpReq → bool).

#[warnings="-register-all"]
Inductive Route :=
| Leaf (ms : list Matcher) (h : Handler)
| Subrouter (ms : list Matcher) (mws : list Middleware) (routes : list Route).

(** [r.HandleFunc(path, h)], with the methods of a following [Methods]. *)
Definition HandleFunc (path : string) (h : Handler) (methods : list string) : Route :=
  Leaf (Path path :: match methods with [] => [] | _ => [Methods methods] end) h.

Class Mux := {
  tpl_match : bool → string → string → option Vars;      (* a whole path or a prefix of it *)
  mux_clean : string → bool;                             (* other paths are redirected *)
  mux_ServeHTTP : list Middleware → list Route → Handler }.

Class ServerLibs := {
  cors_Handler : CorsOptions → Middleware;
  sentry_Handle : Middleware;
  tusd_Middleware : nat → Middleware }.

Context `{!Mux, !ServerLibs}.
Context (handlers : Endpoint → HttpReq → Go S Writer) (auther : Authenticator S) (provider : Provider S).
(** Settings, the time of the request, and what [panicResponse] tells developers. *)
Context (adminToken uploadServiceURL : string) (corsDomains : list string) (now : Z) (isProduction : bool) (trace : error → string).

Definition endpoint (e : Endpoint) : HttpReq → Go S Writer :=
  match e with
  | EIndex => λ _, ret (WriteBody (CText "odysee api") newWriter)
  | EEmpty | EPreflight => emptyHandler
  | _ => handlers e
  end.
Definition run (e : Endpoint) : Handler := λ q, on_snd (endpoint e q).

(** *** Middlewares that attach values *)

Definition MeasureMiddleware : Middleware := λ next q, next (with_timer q).
Definition ip_Attach : Middleware := λ next q, next (with_ip (ip_Middleware (hr_Header q) (hr_RemoteAddr q)) q).
Definition sdkrouter_AddToRequest : Middleware := λ next q, next (with_router q).
Definition sdkrouter_Middleware : Middleware := λ next, sdkrouter_AddToRequest next.
Definition auth_Attach : Middleware := λ next q,
  let! cu := on_snd (Auth.Middleware auther (hr_Header q) (ctx_ip q)) in next (with_user cu q).
Definition auth_LegacyAttach : Middleware := λ next q,
  let! cu := on_snd (LegacyMiddleware provider (hr_Header q) (ctx_ip q) (ctx_user q)) in next (with_user cu q).
Definition AddCacheToRequest : Middleware := λ next q, next (with_cache q).
Definition CacheMiddleware : Middleware := λ next, AddCacheToRequest next.

(** [sdkrouter.FromRequest] panics without its middleware, [query.HasCache] asks. *)
Definition sdkrouter_FromRequest (q : HttpReq) : Go SrvState unit :=
  if ctx_router q then ret tt else gopanic "sdkrouter.Middleware is required".
Definition HasCache (q : HttpReq) : bool := ctx_cache q.
Definition CacheFromRequest (q : HttpReq) : Go SrvState unit :=
  if ctx_cache q then ret tt else gopanic "query.CacheMiddleware is required".

Definition preflightDuration : Z := 86400.
Definition TusHeaders : list string :=
  ["Http-Method-Override"; "Upload-Length"; "Upload-Offset"; "Tus-Resumable"; "Upload-Metadata"; "Upload-Defer-Length"; "Upload-Concat"].

Definition corsOptions : CorsOptions :=
  mkCorsOptions corsDomains true
    ([LegacyTokenHeader; "Authorization"; "X-Requested-With"; "Content-Type"; "Accept"] ++ TusHeaders)%list
    ["GET"; "POST"; "PATCH"; "HEAD"; "DELETE"]
    ["Location"; "Upload-Offset"; "Upload-Length"; "Tus-Version"; "Tus-Resumable"; "Tus-Max-Size"; "Tus-Extension"; "Upload-Metadata";
     "Upload-Defer-Length"; "Upload-Concat"; "Upload-Incomplete"; "Upload-Complete"; "Upload-Draft-Interop-Version"]
    preflightDuration.

Definition defaultMiddlewares (st : Startup) : result error Middleware :=
  match st_cache st with
  | Some err => RPanic (Error err)
  | None =>
    ROk (Chain [MeasureMiddleware; cors_Handler corsOptions; ip_Attach; sdkrouter_Middleware; auth_Attach; auth_LegacyAttach; CacheMiddleware])
  end.

(** *** The tus handlers *)

(** [http.StripPrefix]: other paths are not found. *)
Definition StripPrefix (prefix : string) : Middleware := λ next q,
  let p := TrimPrefix (hr_Path q) prefix in
  if (String.length p <? String.length (hr_Path q))%nat then next (set_Path p q)
  else ret (http_Error newWriter "404 page not found" 404).

(** [strings.TrimSuffix] *)
Definition TrimSuffix (s p : string) : string :=
  if HasSuffix s p then String.substring 0 (String.length s - String.length p) s else s.
(** The base path [NewTusHandler] and [geopublish.NewHandler] compute. *)
Definition basePath (bp : string) : string :=
  let bp := match bp with
            | EmptyString => bp
            | String c _ => if Ascii.eqb c "/" then bp else "/" +:+ bp
            end in
  TrimSuffix bp "/".
Example basePath_v2 : basePath "/api/v2/publish/" = "/api/v2/publish".
Proof. reflexivity. Qed.
Definition tus_Middleware (version : nat) (bp : string) : Middleware :=
  λ next, StripPrefix (basePath bp) (tusd_Middleware version next).

(** *** Routes *)

Definition status_InstallRoutes : list Route :=
  [HandleFunc "/status" (run EStatusV2) ["GET"];
   HandleFunc "/whoami" (run EWhoAmI) ["GET"];
   Leaf [Methods ["OPTIONS"]] (run EPreflight)].

Definition admin_request (q : HttpReq) : AdminReq :=
  mkAdminReq (hr_Header q) (hr_RemoteAddr q) (default "" (hr_Vars q !! "user_id")).

(** The handler behind it leaves the limiter alone. *)
Definition adminAuth : Middleware := λ next q '(lim, s),
  SimpleAdminAuthMiddleware adminToken now (λ _ s, let '(r, (_, s)) := next q (lim, s) in (r, s)) (admin_request q) (lim, s).
Definition admin_InstallRoutes : list Middleware * list Route :=
  ([adminAuth], [HandleFunc "/users/{user_id}/bump-sdk" (run EBumpSDK) ["POST"]]).

Definition tus_routes (v : nat) : list Route :=
  [HandleFunc "/" (run (ETus v "PostFile")) ["POST"];
   HandleFunc "/{id}" (run (ETus v "HeadFile")) ["HEAD"];
   HandleFunc "/{id}" (run (ETus v "PatchFile")) ["PATCH"];
   HandleFunc "/{id}" (run (ETus v "DelFile")) ["DELETE"];
   HandleFunc "/{id}/notify" (run (ETus v "Notify")) ["POST"]].
Definition tus_options : Route := Leaf [PathPrefix "/"; Methods ["OPTIONS"]] (run EPreflight).

(** [if err != nil { return nil, fmt.Errorf("...: %w", err) }] *)
Definition or_return {A} (what : string) (e : option error) (k : error + A) : error + A :=
  match e with Some err => inl (EWrapf what err "") | None => k end.

Definition geopublish_InstallRoutes (st : Startup) (urlPrefix : string) : error + (list Middleware * list Route) :=
  or_return "cannot get redis config: " (st_redisOpts st) (
  or_return "cannot get redis config: " (st_busOpts st) (
  or_return "cannot initialize forklift: " (st_forklift st) (
  or_return "cannot start forklift: " (st_forkliftStart st) (
  or_return "cannot start redislocker: " (st_geoLocker st) (
  or_return "cannot initialize tus handler: " (st_geo st) (
  inr ([tus_Middleware 3 urlPrefix],
       (tus_routes 3 ++ [HandleFunc "/{id}/status" (run (ETus 3 "Status")) ["GET"]; tus_options])%list))))))).

(** [asynquery.Launcher] *)
Record Launcher := mkLauncher {
  la_requestsConnOpts : bool; la_db : bool; la_logger : bool; la_privateKey : bool; la_readyCancel : bool;     (* set? *)
  la_uploadServiceURL : string }.
Variant LauncherOption := WithPrivateKey | WithDB | WithRequestsConnOpts | WithLogger | WithReadyCancel | WithUploadServiceURL (url : string).
Definition apply_option (l : Launcher) (o : LauncherOption) : Launcher :=
  let '(mkLauncher c d g k r u) := l in
  match o with
  | WithPrivateKey => mkLauncher c d g true r u
  | WithDB => mkLauncher c true g k r u
  | WithRequestsConnOpts => mkLauncher true d g k r u
  | WithLogger => mkLauncher c d true k r u
  | WithReadyCancel => mkLauncher c d g k true u
  | WithUploadServiceURL url => mkLauncher c d g k r url
  end.
Definition NewLauncher (options : list LauncherOption) : Launcher :=
  foldl apply_option (mkLauncher false false false false false "https://uploads-v4.na-backend.odysee.com/v1/") options.

Definition launcher_InstallRoutes (st : Startup) (l : Launcher) : error + list Route :=
  if negb (la_requestsConnOpts l) then inl (Errs "missing redis requests connection options") else
  match st_keyfob st, st_manager st with
  | Some err, _ => inl err
  | None, Some err => inl err
  | None, None =>
    inr [Subrouter [PathPrefix "/asynqueries"] []
          [Leaf [PathPrefix "/"; Methods ["OPTIONS"]] (run EPreflight);
           HandleFunc "/auth/pubkey" (run EUploadPubkey) ["GET"];
           HandleFunc "/{type:(?:urls)|(?:uploads)}/" (run ECreateUpload) ["POST"];
           HandleFunc "/{id}" (run EGetQuery) ["GET"];
           HandleFunc "/" (run ECreateQuery) ["POST"]]]
  end.

Definition pprof_routes : list Route :=
  [HandleFunc "/symbol" (run (EPprof "symbol")) ["POST"]; HandleFunc "/" (run (EPprof "index")) [];
   HandleFunc "/cmdline" (run (EPprof "cmdline")) []; HandleFunc "/profile" (run (EPprof "profile")) [];
   HandleFunc "/symbol" (run (EPprof "symbol")) []; HandleFunc "/trace" (run (EPprof "trace")) [];
   HandleFunc "/allocs" (run (EPprof "allocs")) []; HandleFunc "/block" (run (EPprof "block")) [];
   HandleFunc "/goroutine" (run (EPprof "goroutine")) []; HandleFunc "/heap" (run (EPprof "heap")) [];
   HandleFunc "/mutex" (run (EPprof "mutex")) []; HandleFunc "/threadcreate" (run (EPprof "threadcreate")) []].

Definition publish_CanHandle (q : HttpReq) : bool := CanHandle (hr_Form q).

(** [if err != nil { panic(err) }]; [Fatal] ends the process as well. *)
Definition must {A} (e : option error) (k : result error A) : result error A :=
  match e with Some err => RPanic (Error err) | None => k end.
Definition must_inr {A B} (r : error + A) (k : A → result error B) : result error B :=
  match r with inl err => RPanic (Error err) | inr a => k a end.

(** The middlewares and the routes of the main router. *)
Definition InstallRoutes (st : Startup) (opts : option RoutesOptions) : result error (list Middleware * list Route) :=
  let opts := default {| EnableV3Publish := false; EnableProfiling := false |} opts in
  must (st_oauth st) (
  match defaultMiddlewares st with
  | RErr e => RErr e
  | RPanic why => RPanic why
  | ROk allMiddlewares =>
    must (st_redisOpts st) (must (st_locker st) (must (st_tus st) (
    must_inr (if EnableV3Publish opts then geopublish_InstallRoutes st "/api/v3/publish/" else inr ([], [])) (λ '(v3mws, v3routes),
    must (st_privateKey st) (must (st_asynqOpts st) (
    must_inr (launcher_InstallRoutes st (NewLauncher [WithRequestsConnOpts; WithLogger; WithPrivateKey; WithDB; WithUploadServiceURL uploadServiceURL])) (λ asynqueryRoutes,
    ROk ([(λ next, next); sentry_Handle],
     [HandleFunc "/" (run EIndex) [];
      HandleFunc "" (run EEmpty) [];
      Subrouter [PathPrefix "/api/v1"] [allMiddlewares]
        ([Leaf [Path "/proxy"; MatcherFunc publish_CanHandle] (run EPublish);
          HandleFunc "/proxy" (run EProxy) ["POST"];
          HandleFunc "/proxy" (run EPreflight) ["OPTIONS"];
          HandleFunc "/metric/ui" (run ETrackUIMetric) ["POST"];
          HandleFunc "/metric/ui" (run EPreflight) ["OPTIONS"];
          HandleFunc "/paid/pubkey" (run EPaidPubkey) ["GET"]] ++ asynqueryRoutes)%list;
      Subrouter [PathPrefix "/internal"] []
        (HandleFunc "/metrics" (run EPrometheus) [] ::
         if EnableProfiling opts then [Subrouter [PathPrefix "/pprof"] [] pprof_routes] else []);
      Subrouter [PathPrefix "/api/v2"] [allMiddlewares]
        (status_InstallRoutes ++
         [Subrouter [PathPrefix "/publish"] [tus_Middleware 2 "/api/v2/publish/"] (tus_routes 2 ++ [tus_options])%list])%list] ++
     (if EnableV3Publish opts then [Subrouter [PathPrefix "/api/v3"] [allMiddlewares] [Subrouter [PathPrefix "/publish"] v3mws v3routes]] else []) ++
     [Subrouter [PathPrefix "/admin/v1"] admin_InstallRoutes.1 admin_InstallRoutes.2])%list)))))))
  end).

(** *** The server *)

Definition defaultHeaders : Header :=
  {["Server" := ["api.odysee.com"]; "Access-Control-Allow-Origin" := ["*"]; "Access-Control-Allow-Headers" := ["content-type"]]}.
(** The headers are there when the handler starts, which may set others or set them again. *)
Definition defaultHeadersMiddleware (hs : Header) : Middleware := λ next q,
  let! w := next q in ret {| w_status := w_status w; w_header := w_header w ∪ hs; w_body := w_body w |}.

(** [monitor.ErrorLoggingMiddleware] as [Monitor.middleware_transparent] describes it:
    a response is passed on, a panic is answered. *)
Definition recoverPanics : Middleware := λ next q s,
  match next q s with
  | (RPanic p, s) =>
    (ROk (WriteBody (CJSON (panicResponse isProduction trace (Recover p)))
      (WriteHeader 500 (SetHeader "Content-Type" "application/json; charset=utf-8" newWriter))), s)
  | r => r
  end.

(** The handler of [NewServer]'s listener. *)
Definition NewServer (st : Startup) (opts : option RoutesOptions) : result error Handler :=
  match InstallRoutes st opts with
  | ROk (mws, routes) => ROk (mux_ServeHTTP (mws ++ [recoverPanics; defaultHeadersMiddleware defaultHeaders])%list routes)
  | RErr e => RErr e
  | RPanic why => RPanic why
  end.
End server.
