(* ===== verification/ServerSpec.v ===== *)
(** * What the routes guarantee

    The documented behaviour of gorilla/mux (routes are tried in the order they were
    added and the first match wins; the middlewares of a router wrap its matches in
    the order they were added, a subrouter's inside its parent's; other requests are
    answered by the router itself), and what follows for the installed routes: which
    middlewares every request to a handler has passed. *)

From S2P Require Import Prelude GoLib Rpc Errors Query Router Iapi Http Ip Services Wallet Auth Asynquery Admin Monitor Publish Server.
From Stdlib Require Import Ascii String.

Local Open Scope Z_scope.
Local Open Scope string_scope.

Section first.
Context {A B : Type} (f : A → option B).
Fixpoint first_some (l : list A) : option B :=
  match l with [] => None | a :: l => match f a with Some b => Some b | None => first_some l end end.
Lemma first_some_elem l b : first_some l = Some b → ∃ a, a ∈ l ∧ f a = Some b.
Proof.
  induction l as [|a l IH]; [done|]. cbn. destruct (f a) eqn:E.
  - intros [= <-]. exists a. split; [by left|done].
  - intros (a' & Ha & Hf)%IH. exists a'. split; [by right|done].
Qed.
End first.

Section spec.
Context {L S : Type} `{!RateLimiter L}.
Abbreviation Handler := (Handler (L := L) (S := S)).
Abbreviation Middleware := (Middleware (L := L) (S := S)).
Abbreviation Route := (Route (L := L) (S := S)).

(** ** Matching *)

Section matching.
Context {M : Mux (L := L) (S := S)}.

Definition match_one (prefix : string) (m : Matcher) (q : HttpReq) : option Vars :=
  match m with
  | Path t => tpl_match true (prefix +:+ t) (hr_Path q)
  | PathPrefix t => tpl_match false (prefix +:+ t) (hr_Path q)
  | Methods l => if bool_decide (hr_Method q ∈ l) then Some ∅ else None
  | MatcherFunc f => if f q then Some ∅ else None
  end.
Fixpoint match_all (prefix : string) (ms : list Matcher) (q : HttpReq) : option Vars :=
  match ms with
  | [] => Some ∅
  | m :: ms => match match_one prefix m q, match_all prefix ms q with
               | Some v, Some v' => Some (v ∪ v')
               | _, _ => None
               end
  end.
Definition prefix_of (ms : list Matcher) : string :=
  match ms with PathPrefix t :: _ => t | _ => "" end.

(** The handler of the first route that matches, with the middlewares of the
    subrouters it is in and the variables of its path. *)
Fixpoint route_match (prefix : string) (q : HttpReq) (rt : Route) : option (list Middleware * Handler * Vars) :=
  match rt with
  | Leaf ms h => match match_all prefix ms q with Some v => Some ([], h, v) | None => None end
  | Subrouter ms mws rs =>
    match match_all prefix ms q with
    | None => None
    | Some v => match first_some (route_match (prefix +:+ prefix_of ms) q) rs with
                | Some (ms', h, v') => Some ((mws ++ ms')%list, h, v' ∪ v)
                | None => None
                end
    end
  end.
Definition first_match (rs : list Route) (q : HttpReq) := first_some (route_match "" q) rs.

Definition no_brace (t : string) : bool := all_chars (λ c, negb (Ascii.eqb c "{")) t.

Class MuxSpec := {
  mux_found mws rs q s ms h v :
    mux_clean (hr_Path q) = true → first_match rs q = Some (ms, h, v) →
    mux_ServeHTTP mws rs q s = Chain (mws ++ ms)%list h (set_Vars v q) s;
  mux_else mws rs q s :
    mux_clean (hr_Path q) = false ∨ first_match rs q = None → ∃ w, mux_ServeHTTP mws rs q s = (ROk w, s);
  tpl_literal full t p : no_brace t = true →
    tpl_match full t p = if (if full then String.eqb t p else HasPrefix p t) then Some ∅ else None }.

(** Every handler of a router with the middlewares around it. *)
Fixpoint leaves (rt : Route) : list (list Middleware * Handler) :=
  match rt with
  | Leaf _ h => [([], h)]
  | Subrouter _ mws rs => map (λ '(ms, h), ((mws ++ ms)%list, h)) (flat_map leaves rs)
  end.

Lemma route_match_leaf rt : ∀ prefix q ms h v, route_match prefix q rt = Some (ms, h, v) → (ms, h) ∈ leaves rt.
Proof.
  revert rt. fix IH 1. intros [mt h0|mt mws rs] prefix q ms h v; cbn.
  - destruct (match_all _ _ _); [|done]. intros [= <- <- <-]. by left.
  - destruct (match_all _ _ _); [|done].
    destruct (first_some _ rs) as [[[ms' h'] v']|] eqn:E; [|done]. intros [= <- <- <-].
    apply list_elem_of_fmap. exists (ms', h'). split; [done|].
    revert E. generalize (prefix +:+ prefix_of mt). intros prefix'. induction rs as [|r rs IHr]; [done|]. cbn.
    destruct (route_match prefix' q r) as [[[? ?] ?]|] eqn:Er; intros E; apply elem_of_app; [left|right; by apply IHr].
    injection E as -> -> ->. by apply (IH r prefix' q ms' h' v').
Qed.

Lemma first_match_leaf rs q ms h v : first_match rs q = Some (ms, h, v) → (ms, h) ∈ flat_map leaves rs.
Proof.
  intros (r & Hr & E)%first_some_elem. apply route_match_leaf in E. apply list_elem_of_In, in_flat_map.
  exists r. by split; apply list_elem_of_In.
Qed.
End matching.

(** ** Chains *)

Lemma Chain_nil (h : Handler) : Chain [] h = h.
Proof. done. Qed.
Lemma Chain_cons (m : Middleware) ms h : Chain (m :: ms) h = m (Chain ms h).
Proof. unfold Chain. rewrite reverse_cons, foldl_app. done. Qed.
(** Chaining middlewares is chaining the chains. *)
Lemma Chain_app (ms1 ms2 : list Middleware) h : Chain (ms1 ++ ms2)%list h = Chain ms1 (Chain ms2 h).
Proof. induction ms1 as [|m ms1 IH]; [done|]. by rewrite <-app_comm_cons, !Chain_cons, IH. Qed.

(** ** What a handler may do to the state behind the limiter *)

Definition does (h : Handler) (P : HttpReq → S → S → Prop) : Prop := ∀ q lim s, P q s (h q (lim, s)).2.2.

(** The same request, with the same values attached. *)
Definition same_request (q q' : HttpReq) : Prop :=
  hr_Header q' = hr_Header q ∧ hr_RemoteAddr q' = hr_RemoteAddr q ∧ hr_Body q' = hr_Body q ∧ hr_Form q' = hr_Form q.
Definition same_ctx (q q' : HttpReq) : Prop :=
  ctx_ip q' = ctx_ip q ∧ ctx_router q' = ctx_router q ∧ ctx_user q' = ctx_user q ∧ ctx_cache q' = ctx_cache q.

(** A middleware that answers by itself, or hands the request on and then only
    touches the response. *)
Definition benign (mw : Middleware) : Prop := ∀ next q s,
  (∃ w, mw next q s = (ROk w, s)) ∨
  (∃ q' f, same_request q q' ∧ same_ctx q q' ∧ mw next q s = (f (next q' s).1, (next q' s).2)).

Class LibsSpec {B : ServerLibs (L := L) (S := S)} := {
  cors_benign o : benign (cors_Handler o);
  sentry_benign : benign sentry_Handle;
  tusd_benign v : benign (tusd_Middleware v) }.

Lemma benign_id : benign (λ next, next).
Proof. intros next q s. right. exists q, id. split_and!; try done. by destruct (next q s). Qed.

Lemma benign_does mw next (P : HttpReq → S → S → Prop) :
  benign mw → (∀ q s, P q s s) → (∀ q q' s s', same_request q q' → same_ctx q q' → P q' s s' → P q s s') →
  does next P → does (mw next) P.
Proof.
  intros Hb Hr Hs Hn q lim s. destruct (Hb next q (lim, s)) as [[w ->]|(q' & f & Hq & Hc & ->)]; [apply Hr|].
  cbn. eapply Hs; eauto.
Qed.

Lemma benign_chain ms next (P : HttpReq → S → S → Prop) :
  Forall benign ms → (∀ q s, P q s s) → (∀ q q' s s', same_request q q' → same_ctx q q' → P q' s s' → P q s s') →
  does next P → does (Chain ms next) P.
Proof.
  intros Hms Hr Hs Hn. induction Hms as [|mw ms Hmw _ IH]; [done|]. rewrite Chain_cons. by apply benign_does.
Qed.

Section routes.
Context {M : Mux (L := L) (S := S)} {B : ServerLibs (L := L) (S := S)} {MS : MuxSpec} {LS : LibsSpec}.
Context (handlers : Endpoint → HttpReq → Go S Writer) (auther : Authenticator S) (provider : Provider S).
Context (adminToken uploadServiceURL : string) (corsDomains : list string) (now : Z) (isProduction : bool) (trace : error → string).

Abbreviation ep := (endpoint handlers).
Abbreviation install := (InstallRoutes handlers auther provider adminToken uploadServiceURL corsDomains now).
Abbreviation serve := (NewServer handlers auther provider adminToken uploadServiceURL corsDomains now isProduction trace).

(** Who may call an endpoint, and which option it needs. *)
Inductive Zone := ZPublic | ZApi | ZAdmin.
Definition zone (e : Endpoint) : Zone :=
  match e with
  | EIndex | EEmpty | EPrometheus | EPprof _ => ZPublic
  | EBumpSDK => ZAdmin
  | _ => ZApi
  end.
Definition enabled (opts : option RoutesOptions) (e : Endpoint) : bool :=
  match e, opts with
  | EPprof _, Some o => EnableProfiling o
  | EPprof _, None => false
  | ETus 3 _, Some o => EnableV3Publish o
  | ETus 3 _, None => false
  | _, _ => true
  end.

(** The address and the user attached to requests of the API. *)
Definition request_ip (q : HttpReq) : option string := ip_Middleware (hr_Header q) (hr_RemoteAddr q).
Definition authenticate (q : HttpReq) : Go S userCtx := authChain auther provider (hr_Header q) (request_ip q).
Definition authenticated (q q' : HttpReq) (u : userCtx) : Prop :=
  ctx_ip q' = request_ip q ∧ ctx_user q' = u ∧ ctx_router q' = true ∧ ctx_cache q' = true.

(** What serving a request can do to the state. *)
Inductive reached (opts : option RoutesOptions) (q : HttpReq) (s s' : S) : Prop :=
| reached_nothing : s' = s → reached opts q s s'
| reached_auth r : authenticate q s = (r, s') → reached opts q s s'
| reached_public e q' r : zone e = ZPublic → enabled opts e = true → same_request q q' → ep e q' s = (r, s') → reached opts q s s'
| reached_api e q' u s1 r : zone e = ZApi → enabled opts e = true → same_request q q' → authenticate q s = (ROk u, s1) →
    authenticated q q' u → ep e q' s1 = (r, s') → reached opts q s s'
| reached_admin e q' r : zone e = ZAdmin → adminToken ≠ "" → Header_Get (hr_Header q) "Authorization" = "Bearer " +:+ adminToken →
    same_request q q' → ep e q' s = (r, s') → reached opts q s s'.

Lemma reached_refl opts q s : reached opts q s s.
Proof. by constructor. Qed.

Lemma same_request_trans q1 q2 q3 : same_request q1 q2 → same_request q2 q3 → same_request q1 q3.
Proof. intros (? & ? & ? & ?) (? & ? & ? & ?). split_and!; congruence. Qed.
Lemma same_ctx_trans q1 q2 q3 : same_ctx q1 q2 → same_ctx q2 q3 → same_ctx q1 q3.
Proof. intros (? & ? & ? & ?) (? & ? & ? & ?). split_and!; congruence. Qed.

Lemma reached_same opts q q' s s' : same_request q q' → reached opts q' s s' → reached opts q s s'.
Proof.
  intros Hq H. pose proof Hq as (Hh & Hr & _ & _).
  assert (request_ip q' = request_ip q) as Hip by (unfold request_ip; congruence).
  assert (authenticate q' = authenticate q) as Ha by (unfold authenticate; congruence).
  assert (∀ q2 u, authenticated q' q2 u → authenticated q q2 u) as Hau by (intros q2 u (? & ? & ? & ?); split_and!; congruence).
  destruct H as [?|r Hr1|e q2 r|e q2 u s1 r Hz He Hq2 Hr1 Hu|e q2 r Hz Ht Hb]; rewrite ?Ha in *.
  - by eapply reached_nothing.
  - by eapply reached_auth.
  - eapply (reached_public _ _ _ _ e q2 r); eauto using same_request_trans.
  - eapply (reached_api _ _ _ _ e q2 u s1 r); eauto using same_request_trans.
  - eapply (reached_admin _ _ _ _ e q2 r); eauto using same_request_trans. by rewrite <-Hh.
Qed.

Lemma run_snd e q (lim : Limiter L) s : (run handlers e q (lim, s)).2.2 = (ep e q s).2.
Proof. unfold run, on_snd. by destruct (ep e q s). Qed.

(** *** The three kinds of routes *)

Lemma public_does opts e : zone e = ZPublic → enabled opts e = true → does (run (L := L) handlers e) (reached opts).
Proof.
  intros Hz He q lim s. rewrite run_snd. destruct (ep e q s) as [r s'] eqn:E. by eapply (reached_public _ _ _ _ e q r).
Qed.

(** After the middlewares of the API: the endpoint, or an answer before it. *)
Definition api_leaf (e : Endpoint) (q : HttpReq) (s s' : S) : Prop :=
  s' = s ∨ ∃ q' r, same_request q q' ∧ same_ctx q q' ∧ ep e q' s = (r, s').

Lemma api_leaf_does e ms : Forall benign ms → does (Chain ms (run (L := L) handlers e)) (api_leaf e).
Proof.
  intros Hms. apply benign_chain; [done|by left| |].
  - intros q q' s s' Hq Hc [->|(q2 & r & Hq2 & Hc2 & E)]; [by left|]. right. exists q2, r.
    eauto using same_request_trans, same_ctx_trans.
  - intros q lim s. rewrite run_snd. destruct (ep e q s) as [r s'] eqn:E. right. by exists q, r.
Qed.

(** Both authentication middlewares are [authChain] on the request. *)
Lemma auth_attach (next : Handler) q lim s :
  auth_Attach auther (auth_LegacyAttach provider next) q (lim, s) =
  match authChain auther provider (hr_Header q) (ctx_ip q) s with
  | (ROk u, s1) => next (with_user u q) (lim, s1)
  | (RErr e, s1) => (RErr e, (lim, s1))
  | (RPanic p, s1) => (RPanic p, (lim, s1))
  end.
Proof.
  unfold auth_Attach, auth_LegacyAttach, authChain, bind, on_snd.
  destruct (Auth.Middleware _ _ _ s) as [[u|?|?] s1]; [|done..]. cbn.
  by destruct (LegacyMiddleware _ _ _ _ s1) as [[u'|?|?] s2].
Qed.

Definition allMiddlewares : Middleware :=
  Chain [MeasureMiddleware; cors_Handler (corsOptions corsDomains); ip_Attach; sdkrouter_Middleware;
         auth_Attach auther; auth_LegacyAttach provider; CacheMiddleware].

(** Serving an API endpoint: an answer before authentication, one after it, or the
    endpoint on the authenticated request. *)
Definition api_reached (e : Endpoint) (q : HttpReq) (s s' : S) : Prop :=
  s' = s ∨ (∃ r, authenticate q s = (r, s')) ∨
  ∃ q' u s1 r, same_request q q' ∧ authenticate q s = (ROk u, s1) ∧ authenticated q q' u ∧ ep e q' s1 = (r, s').

Lemma api_reached_same e q q' s s' : same_request q q' → api_reached e q' s s' → api_reached e q s s'.
Proof.
  intros Hq H. pose proof Hq as (Hh & Hr & _ & _).
  assert (request_ip q' = request_ip q) as Hip by (unfold request_ip; congruence).
  unfold api_reached, authenticate, authenticated in *. rewrite Hip, Hh in H.
  destruct H as [|[|(q2 & u & s1 & r & Hq2 & H)]]; [by left|by right; left|]. right. right. exists q2, u, s1, r.
  eauto using same_request_trans.
Qed.

Lemma api_does e (next : Handler) : does next (api_leaf e) → does (allMiddlewares next) (api_reached e).
Proof using LS.
  intros Hn. unfold allMiddlewares. rewrite !Chain_cons, Chain_nil. unfold MeasureMiddleware at 1.
  intros q lim s. eapply (api_reached_same _ q (with_timer q)); [done|]. generalize (with_timer q). clear q. intros q. revert q lim s.
  refine (benign_does _ _ _ (cors_benign _) _ _ _); [by left|intros q q' s s' Hq _; by apply api_reached_same|].
  intros q lim s. unfold ip_Attach, sdkrouter_Middleware, sdkrouter_AddToRequest. rewrite auth_attach.
  fold (request_ip q). set (q1 := with_router (with_ip (request_ip q) q)).
  change (authChain auther provider (hr_Header q1) (ctx_ip q1)) with (authenticate q). unfold api_reached.
  destruct (authenticate q s) as [[u|e'|p] s1] eqn:Ha; [|right; left; by eexists..].
  unfold CacheMiddleware, AddCacheToRequest. set (q2 := with_cache (with_user u q1)).
  destruct (Hn q2 lim s1) as [E|(q' & r & Hq & Hc & E)]; [rewrite E; right; left; by eexists|].
  right. right. exists q', u, s1, r. unfold authenticated. by destruct Hc as (-> & -> & -> & ->).
Qed.

Lemma api_reached_ok opts e q s s' : zone e = ZApi → enabled opts e = true → api_reached e q s s' → reached opts q s s'.
Proof.
  intros Hz He [->|[[r Hr]|(q' & u & s1 & r & Hq & Ha & Hu & E)]]; [by constructor|by eapply reached_auth|].
  by eapply (reached_api _ _ _ _ e q' u s1 r).
Qed.

Lemma admin_does opts : does (adminAuth adminToken now (run (L := L) handlers EBumpSDK)) (reached opts).
Proof using Type.
  intros q lim s. unfold adminAuth, SimpleAdminAuthMiddleware.
  destruct (String.eqb_spec adminToken "") as [|Ht]; [by constructor|].
  cbn [admin_request ar_Header ar_RemoteAddr]. destruct (HasPrefix (Header_Get (hr_Header q) "Authorization") "Bearer ") eqn:Hp; [|by constructor].
  cbn [negb]. destruct (String.eqb_spec (TrimPrefix (Header_Get (hr_Header q) "Authorization") "Bearer ") adminToken) as [Heq|Hne]; cbn [negb].
  - unfold on_snd at 1. unfold run, on_snd. destruct (ep EBumpSDK q s) as [r s'] eqn:E. cbn.
    eapply (reached_admin _ _ _ _ EBumpSDK q r); try done. apply TrimPrefix_inv in Hp. by rewrite Heq in Hp.
  - destruct (GetLimiter _ _ _) as [p lim']. destruct (Allow _ _ _) as [[[] ?]|]; by constructor.
Qed.

(** *** The installed routes *)

Lemma defaultHeaders_benign hs : benign (defaultHeadersMiddleware hs).
Proof using Type.
  intros next q s. right. exists q, (λ r, match r with ROk w => ROk {| w_status := w_status w; w_header := w_header w ∪ hs; w_body := w_body w |} | r => r end).
  split_and!; try done. unfold defaultHeadersMiddleware, bind. by destruct (next q s) as [[]].
Qed.

Lemma recoverPanics_benign : benign (recoverPanics isProduction trace).
Proof using Type.
  intros next q s. right. exists q, (λ r, match r with RPanic p => (recoverPanics (S := S) isProduction trace (λ _, lift (RPanic p)) q s).1 | r => r end).
  split_and!; try done. unfold recoverPanics. by destruct (next q s) as [[]].
Qed.

Lemma tus_benign v bp : benign (tus_Middleware v bp).
Proof using LS.
  intros next q s. unfold tus_Middleware, StripPrefix. destruct (_ <? _)%nat; [|left; by eexists].
  destruct (tusd_benign v next (set_Path (TrimPrefix (hr_Path q) (basePath bp)) q) s) as [[w ->]|(q' & f & Hq & Hc & ->)];
    [left; by eexists|right]. by exists q', f.
Qed.

Definition guarded (opts : option RoutesOptions) (l : list Middleware * Handler) : Prop := does (Chain l.1 l.2) (reached opts).
(** A route inside a subrouter of the API. *)
Definition api_route (opts : option RoutesOptions) (l : list Middleware * Handler) : Prop :=
  ∃ e, l.2 = run handlers e ∧ zone e = ZApi ∧ enabled opts e = true ∧ Forall benign l.1.

Lemma api_subrouter opts ms rs :
  Forall (api_route opts) (flat_map leaves rs) → Forall (guarded opts) (leaves (Subrouter ms [allMiddlewares] rs)).
Proof using LS.
  intros H. cbn [leaves]. apply Forall_fmap. apply (Forall_impl _ _ _ H). intros [mws h] (e & E & Hz & He & Hb). cbn in E, Hb. subst h.
  cbn. unfold guarded. cbn [fst snd]. rewrite Chain_cons.
  intros q lim s. eapply (api_reached_ok opts e); [done..|]. by apply api_does, api_leaf_does.
Qed.
Lemma public_subrouter opts ms rs :
  Forall (guarded opts) (flat_map leaves rs) → Forall (guarded opts) (leaves (Subrouter ms [] rs)).
Proof using Type. intros H. cbn [leaves]. apply Forall_fmap. apply (Forall_impl _ _ _ H). by intros [mws h]. Qed.

Ltac benign_list := repeat (apply Forall_nil_2 || (apply Forall_cons_2; [apply tus_benign|])).
Ltac api_leaf := eexists; split_and!; [reflexivity|reflexivity|reflexivity|benign_list].
Ltac public_leaf := apply public_does; reflexivity.

Lemma asynquery_routes_ok opts st l rs : launcher_InstallRoutes handlers st l = inr rs → Forall (api_route opts) (flat_map leaves rs).
Proof using Type.
  unfold launcher_InstallRoutes. destruct (la_requestsConnOpts l), (st_keyfob st), (st_manager st); try done. intros [= <-]. cbn.
  repeat apply Forall_cons_2; try apply Forall_nil_2; api_leaf.
Qed.

Lemma geo_routes_ok opts st urlPrefix mws rs :
  geopublish_InstallRoutes handlers st urlPrefix = inr (mws, rs) →
  EnableV3Publish opts = true → Forall (api_route (Some opts)) (leaves (Subrouter [PathPrefix "/publish"] mws rs)).
Proof using LS.
  unfold geopublish_InstallRoutes, or_return. intros H He. repeat case_match; try done. injection H as <- <-. cbn.
  repeat apply Forall_cons_2; try apply Forall_nil_2; (eexists; split_and!; [reflexivity|reflexivity|exact He || reflexivity|benign_list]).
Qed.

Lemma installed_routes_guarded st opts mws rs :
  install st opts = ROk (mws, rs) → Forall benign mws ∧ Forall (guarded opts) (flat_map leaves rs).
Proof using LS.
  unfold InstallRoutes, must, must_inr, defaultMiddlewares. fold allMiddlewares. intros H.
  destruct (st_oauth st); [done|]. destruct (st_cache st); [done|]. destruct (st_redisOpts st) eqn:?; [done|].
  destruct (st_locker st) eqn:?; [done|]. destruct (st_tus st); [done|].
  destruct (if EnableV3Publish _ then _ else _) as [e3|[v3mws v3routes]] eqn:Ev3; [done|].
  destruct (st_privateKey st); [done|]. destruct (st_asynqOpts st); [done|].
  destruct (launcher_InstallRoutes _ _ _) as [ea|ars] eqn:Ea; [done|]. injection H as <- <-. split.
  { apply Forall_cons_2; [apply benign_id|]. apply Forall_cons_2; [apply sentry_benign|apply Forall_nil_2]. }
  apply (asynquery_routes_ok opts) in Ea. cbn [flat_map]. rewrite flat_map_app. cbn [flat_map].
  repeat (apply Forall_app; split); try apply Forall_nil_2.
  - apply Forall_cons_2; [public_leaf|apply Forall_nil_2].
  - apply Forall_cons_2; [public_leaf|apply Forall_nil_2].
  - apply api_subrouter. cbn [flat_map]. repeat (apply Forall_app; split); [..|done]; cbn; repeat apply Forall_cons_2; try apply Forall_nil_2; api_leaf.
  - apply public_subrouter. cbn [flat_map]. apply Forall_app. split; [apply Forall_cons_2; [public_leaf|apply Forall_nil_2]|].
    destruct opts as [o|]; [|apply Forall_nil_2]. change (default _ (Some o)) with o. destruct (EnableProfiling o) eqn:Ep; [|apply Forall_nil_2]. cbn [flat_map].
    rewrite app_nil_r. apply public_subrouter. cbn.
    repeat apply Forall_cons_2; try apply Forall_nil_2; (apply public_does; [reflexivity|exact Ep]).
  - apply api_subrouter. cbn. repeat apply Forall_cons_2; try apply Forall_nil_2; api_leaf.
  - destruct opts as [o|]; [|apply Forall_nil_2]. change (default _ (Some o)) with o in *. destruct (EnableV3Publish o) eqn:E3; [|apply Forall_nil_2].
    cbn [flat_map]. rewrite app_nil_r. apply api_subrouter. cbn [flat_map]. rewrite app_nil_r. by eapply geo_routes_ok.
  - cbn. apply Forall_cons_2; [apply admin_does|apply Forall_nil_2].
Qed.

(** Serving runs the first match, inside middlewares that leave the state alone. *)
Lemma serve_found st opts h q lim s rs mws ms h0 v (P : HttpReq → S → S → Prop) :
  serve st opts = ROk h → install st opts = ROk (mws, rs) → mux_clean (hr_Path q) = true → first_match rs q = Some (ms, h0, v) →
  (∀ q s, P q s s) → (∀ q q' s s', same_request q q' → P q' s s' → P q s s') →
  does (Chain ms h0) P → P q s (h q (lim, s)).2.2.
Proof using LS MS.
  unfold NewServer. intros Hs E Hc Ef Hr Hsame Hd. rewrite E in Hs. injection Hs as <-. apply installed_routes_guarded in E as [Hm _].
  rewrite (mux_found _ _ _ _ _ _ _ Hc Ef). apply (Hsame q (set_Vars v q)); [done|]. rewrite Chain_app. apply benign_chain; [|done|eauto|done].
  apply Forall_app. split; [done|]. apply Forall_cons_2; [apply recoverPanics_benign|].
  apply Forall_cons_2; [apply defaultHeaders_benign|apply Forall_nil_2].
Qed.

(** C25: Whatever a request is, the server either answers it without running anything, or
    runs one endpoint: one of the API only after authenticating the request by its own
    headers, with the result, the client's address, the SDK router and the cache
    attached; the admin endpoint only for the configured token; profiles and the v3
    endpoints only when enabled. *)
Theorem requests_reach_endpoints st opts h q lim s :
  serve st opts = ROk h → reached opts q s (h q (lim, s)).2.2.
Proof using LS MS.
  intros Hs. pose proof Hs as Hn. unfold NewServer in Hn. destruct (install st opts) as [[mws rs]|?|?] eqn:E; [|done..].
  destruct (decide (mux_clean (hr_Path q) = true)) as [Hc|Hc]; [destruct (first_match rs q) as [[[ms h0] v]|] eqn:Ef|].
  - apply (serve_found st opts h q lim s rs mws ms h0 v (reached opts)); try done; [apply reached_refl|intros; by eapply reached_same|].
    apply installed_routes_guarded in E as [_ Hg]. apply first_match_leaf in Ef. rewrite Forall_forall in Hg. apply (Hg _ Ef).
  - injection Hn as <-. edestruct mux_else as [w ->]; [by right|apply reached_refl].
  - injection Hn as <-. edestruct mux_else as [w ->]; [left; by destruct (mux_clean _)|apply reached_refl].
Qed.

(** *** A route in full *)

Lemma match_lit full prefix t q : no_brace (prefix +:+ t) = true →
  tpl_match full (prefix +:+ t) (hr_Path q) = if (if full then String.eqb (prefix +:+ t) (hr_Path q) else HasPrefix (hr_Path q) (prefix +:+ t)) then Some ∅ else None.
Proof using MS. apply tpl_literal. Qed.

(** A posted request without a form goes to the proxy handler. *)
Lemma proxy_route st opts mws rs q :
  install st opts = ROk (mws, rs) → hr_Path q = "/api/v1/proxy" → hr_Method q = "POST" → publish_CanHandle q = false →
  first_match rs q = Some ([allMiddlewares], run handlers EProxy, ∅).
Proof using MS.
  unfold InstallRoutes, must, must_inr, defaultMiddlewares. fold allMiddlewares. intros H Hp Hm Hf.
  repeat case_match; simplify_eq; unfold first_match, HandleFunc; cbn [first_some route_match match_all match_one prefix_of app];
    rewrite !match_lit by reflexivity; by rewrite Hp, Hm, Hf.
Qed.
End routes.
End spec.
