(* ===== verification/Blobs.v ===== *)
(** * Splitting files into blobs

    Models [pkg/blobs/blobs.go]: [Source] with [Split], [Uploader.Upload] and the stores
    of the configuration.

    The disk is a map from paths to contents with the set of directories on it.
    Parameters: the stream encoder ([StreamEncoder]), which hands every blob to a
    callback and stops at the first error of it, the reflector's uploader, the S3 store
    factory, and which operations of the disk fail. *)

From S2P Require Import Prelude GoLib Errors Paid Uploads Files.
From Stdlib Require Import Ascii String.
From stdpp Require Import sorting.

Local Open Scope string_scope.
Local Open Scope Z_scope.

Record Disk := mkDisk { dk_files : gmap string string; dk_dirs : gset string }.

Record BlobEnv := {
  be_open : string → option error;
  be_mkdir : string → option error;
  be_write : string → option error;
  be_stat : string → option error }.

(** What encoding a file under a name yields: the blobs in the order they are made, and
    the hashes of the descriptor and of the file. *)
Class StreamEncoder := {
  enc_blobs : string → string → list (string * string);
  enc_SDHash : string → string → string;
  enc_SourceHash : string → string → string }.

(** [pb.Stream] *)
Record Stream := mkStream { sm_SdHash : string; sm_Name : string; sm_Size : Z; sm_Hash : string }.
Record Source := mkSource {
  so_filePath : string; so_blobPath : string; so_finalPath : string; so_encodedFileName : string;
  so_stream : option Stream; so_blobsManifest : list string }.

Definition NewSource (filePath blobPath encodedFileName : string) : Source :=
  mkSource filePath blobPath "" encodedFileName None [].

Section blobs.
Context `{!StreamEncoder} (env : BlobEnv).

(** [os.ReadFile], [os.MkdirAll] and [os.WriteFile]. *)
Definition readFile (p : string) : Go (Source * Disk) string := λ s,
  match be_open env p, dk_files s.2 !! p with
  | Some err, _ => (RErr err, s)
  | None, None => (RErr (EText ("open " +:+ p +:+ ": no such file or directory")), s)
  | None, Some content => (ROk content, s)
  end.
Definition mkdirAll (p : string) : Go (Source * Disk) unit := λ '(src, d),
  match be_mkdir env p with
  | Some err => (RErr err, (src, d))
  | None => (ROk tt, (src, mkDisk (dk_files d) ({[p]} ∪ dk_dirs d)))
  end.
Definition writeFile (p content : string) : Go (Source * Disk) unit := λ '(src, d),
  match be_write env p with
  | Some err => (RErr err, (src, d))
  | None => (ROk tt, (src, mkDisk (<[p := content]> (dk_files d)) (dk_dirs d)))
  end.

(** [enc.Encode(callback)]: the manifest, or the callback's error. *)
Fixpoint Encode (write : string → string → Go (Source * Disk) unit) (blobs : list (string * string)) : Go (Source * Disk) (list string) :=
  match blobs with
  | [] => ret []
  | (h, b) :: blobs => write h b ;;! let! rest := Encode write blobs in ret (h :: rest)
  end.

Definition wrapped {A} (what : string) (c : Go (Source * Disk) A) : Go (Source * Disk) A := λ s,
  match c s with (RErr err, s) => (RErr (EWrapf what err ""), s) | r => r end.

Definition set_finalPath (p : string) (s : Source) : Source :=
  mkSource (so_filePath s) (so_blobPath s) p (so_encodedFileName s) (so_stream s) (so_blobsManifest s).
Definition set_manifest (m : list string) (s : Source) : Source :=
  mkSource (so_filePath s) (so_blobPath s) (so_finalPath s) (so_encodedFileName s) (so_stream s) m.
Definition set_stream (st : Stream) (s : Source) : Source :=
  mkSource (so_filePath s) (so_blobPath s) (so_finalPath s) (so_encodedFileName s) (Some st) (so_blobsManifest s).

Definition blob_file (dir h : string) : string := filepath_Join [dir; h].

(** The manifest an encoding that fails may leave behind is not modelled: it is read
    only after success. *)
Definition Split : Go (Source * Disk) Stream :=
  let! s := gets fst in
  let! content := wrapped "cannot open source: " (readFile (so_filePath s)) in
  modify (λ '(s, d), (set_finalPath (so_blobPath s) s, d)) ;;!
  wrapped "cannot create directory for blobs: " (mkdirAll (so_blobPath s)) ;;!
  let! manifest := wrapped "cannot encode stream: "
    (Encode (λ h b, writeFile (blob_file (so_blobPath s) h) b) (enc_blobs content (so_encodedFileName s))) in
  let st := mkStream (enc_SDHash content (so_encodedFileName s)) (so_encodedFileName s) (Z.of_nat (String.length content))
                     (enc_SourceHash content (so_encodedFileName s)) in
  modify (λ '(s, d), (set_stream st (set_manifest manifest s), d)) ;;!
  ret st.

(** ** Uploading *)

Section upload.
Context {Summary : Type}.
(** [uploader.Upload(dir)] and [GetSummary]. *)
Context (reflect : string → Disk → option error * Summary).

Definition Upload (source : Source) (d : Disk) : error + Summary :=
  if String.eqb (so_finalPath source) "" || bool_decide (so_stream source = None) then inl (EText "source is not split to blobs") else
  let fi := match be_stat env (so_finalPath source) with
            | Some err => inl err
            | None => if decide (so_finalPath source ∈ dk_dirs d) then inr true
                      else if decide (is_Some (dk_files d !! so_finalPath source)) then inr false
                      else inl (EText ("stat " +:+ so_finalPath source +:+ ": no such file or directory"))
            end in
  match fi with
  | inl err => inl (EWrapf "cannot stat source blobs: " err "")
  | inr false => inl (EText ("blob source " +:+ so_finalPath source +:+ " is not a directory"))
  | inr true =>
    match reflect (so_finalPath source) d with
    | (Some err, _) => inl (EWrapf "cannot upload blobs: " err "")
    | (None, summary) => inr summary
    end
  end.
End upload.
End blobs.

(** ** Stores of the configuration *)

Section stores.
Context {Cfg BlobStore : Type}.
(** [Sub], the keys of [AllSettings] in the order of a map, and the factory on a
    section that was given its name. *)
Context (Sub : Cfg → string → option Cfg) (AllKeys : Cfg → list string) (S3StoreFactory : string → Cfg → error + BlobStore).

Fixpoint make_stores (destinations : Cfg) (path : string) (keys : list string) : error + list BlobStore :=
  match keys with
  | [] => inr []
  | subKey :: keys =>
    match Sub destinations subKey with
    | None => inl (EText ("empty config path: " +:+ path +:+ "." +:+ subKey))
    | Some subCfg =>
      match S3StoreFactory subKey subCfg with
      | inl err => inl (EWrapf ("failed to create S3 store from " +:+ path +:+ "." +:+ subKey +:+ ": ") err "")
      | inr bs => match make_stores destinations path keys with inl e => inl e | inr l => inr (bs :: l) end
      end
    end
  end.
(** [sort.Strings] *)
Definition sort_Strings (l : list string) : list string := merge_sort String.le l.
Definition CreateStoresFromConfig (cfg : Cfg) (path : string) : error + list BlobStore :=
  match Sub cfg path with
  | None => inl (EText ("empty config path: " +:+ path))
  | Some destinations => make_stores destinations path (sort_Strings (AllKeys destinations))
  end.

(** [NewStore] writes to the only destination, or to all of them. *)
Inductive MainStore := SingleStore (b : BlobStore) | MultiWriterStore (l : list BlobStore).
Record Store := mkStore { sr_mainStore : MainStore; sr_blobStores : list BlobStore; sr_workers : Z }.
Definition NewStore (connect : option error) (destinations : list BlobStore) : error + Store :=
  match connect with
  | Some err => inl err
  | None => inr (mkStore (match destinations with [b] => SingleStore b | l => MultiWriterStore l end) destinations 1)
  end.
Definition SetWorkers (workers : Z) (s : Store) : Store := mkStore (sr_mainStore s) (sr_blobStores s) workers.
Definition BlobStores (s : Store) : list BlobStore := sr_blobStores s.
End stores.

(** ** Properties *)

(** Blobs are named by the hash of their contents, in hexadecimal. *)
Class StreamEncoderSpec {SE : StreamEncoder} := {
  enc_named content name h b b' : (h, b) ∈ enc_blobs content name → (h, b') ∈ enc_blobs content name → b = b';
  enc_plain content name h b : (h, b) ∈ enc_blobs content name → plain h = true }.

Section properties.
Context {SE : StreamEncoder} {SS : StreamEncoderSpec} (env : BlobEnv).

Lemma child_inj d a b : child d a = child d b → a = b.
Proof.
  unfold child. destruct (String.eqb d "/"); [apply (inj (String.append _))|].
  destruct (String.eqb d "."); [done|]. by intros H%(inj (String.append _))%(inj (String.append _)).
Qed.
Lemma blob_file_inj dir a b : dir ≠ "" → plain a = true → plain b = true → blob_file dir a = blob_file dir b → a = b.
Proof. intros Hd Ha Hb. unfold blob_file. rewrite !filepath_Join_child by done. apply child_inj. Qed.

Definition written (dir : string) (blobs : list (string * string)) (m : gmap string string) : gmap string string :=
  foldl (λ m '(h, b), <[blob_file dir h := b]> m) m blobs.

Lemma Encode_ok dir blobs s d r s' :
  Encode (λ h b, writeFile env (blob_file dir h) b) blobs (s, d) = (ROk r, s') →
  r = blobs.*1 ∧ s' = (s, mkDisk (written dir blobs (dk_files d)) (dk_dirs d)).
Proof using Type.
  revert d r s'. induction blobs as [|[h b] blobs IH]; intros d r s'; [by intros [= <- <-]; destruct d|]. cbn [Encode].
  intros (u & s1 & Hw & Hrest)%bind_ok_inv. apply bind_ok_inv in Hrest as (rest & s2 & Hrest & [= <- <-]).
  unfold writeFile in Hw. destruct (be_write env _); [done|]. injection Hw as _ <-. by apply IH in Hrest as [-> ->].
Qed.

Lemma Encode_total dir blobs s d :
  (∀ p, be_write env p = None) →
  Encode (λ h b, writeFile env (blob_file dir h) b) blobs (s, d) = (ROk blobs.*1, (s, mkDisk (written dir blobs (dk_files d)) (dk_dirs d))).
Proof using Type.
  intros Hw. revert d. induction blobs as [|[h b] blobs IH]; intros d; [by destruct d|]. cbn [Encode].
  rewrite (bind_ok _ _ _ tt (s, mkDisk (<[blob_file dir h := b]> (dk_files d)) (dk_dirs d))) by (unfold writeFile; by rewrite Hw).
  by rewrite (bind_ok _ _ _ _ _ (IH _)).
Qed.

Lemma written_other dir blobs m p : (∀ h, h ∈ blobs.*1 → p ≠ blob_file dir h) → written dir blobs m !! p = m !! p.
Proof using Type.
  revert m. induction blobs as [|[h b] blobs IH]; intros m Hp; [done|].
  change (written dir _ m) with (written dir blobs (<[blob_file dir h := b]> m)). rewrite IH by (intros h' Hh; apply Hp; by right).
  apply lookup_insert_ne. intros E. by apply (Hp h); [left|].
Qed.

Lemma written_blob dir blobs m h b :
  dir ≠ "" → (∀ h b, (h, b) ∈ blobs → plain h = true) → (∀ h b b', (h, b) ∈ blobs → (h, b') ∈ blobs → b = b') →
  (h, b) ∈ blobs → written dir blobs m !! blob_file dir h = Some b.
Proof using Type.
  intros Hd. revert m. induction blobs as [|[h0 b0] blobs IH]; intros m Hpl Hn Hin; [by apply not_elem_of_nil in Hin|].
  change (written dir _ m) with (written dir blobs (<[blob_file dir h0 := b0]> m)).
  destruct (decide (h ∈ blobs.*1)) as [Hh|Hh].
  - apply list_elem_of_fmap in Hh as ([h' b'] & -> & Hin'). cbn in *.
    assert (b = b') as -> by (eapply Hn; [exact Hin|by right]). apply IH; [| |done].
    + intros h1 b1 H1. eapply Hpl. by right.
    + intros h1 b1 b2 H1 H2. by eapply Hn; right.
  - assert ((h, b) = (h0, b0)) as [= -> ->].
    { apply elem_of_cons in Hin as [|Hin]; [done|]. destruct Hh. by apply (list_elem_of_fmap_2 fst _ (h, b)). }
    rewrite written_other; [by rewrite lookup_insert_eq|]. intros h' Hh' E. apply blob_file_inj in E as ->; [done|done|by eapply Hpl|].
    apply list_elem_of_fmap in Hh' as ([h1 b1] & -> & Hin1). eapply Hpl. right. exact Hin1.
Qed.

(** When [Split] returns a stream, every blob of the encoding is a file of the blob
    directory and nothing else on the disk has changed; the manifest names the blobs
    in order and the stream has the size of the file. *)
Theorem Split_writes_blobs s d st s' d' :
  so_blobPath s ≠ "" → Split env (s, d) = (ROk st, (s', d')) →
  ∃ content, let blobs := enc_blobs content (so_encodedFileName s) in
    dk_files d !! so_filePath s = Some content ∧
    sm_Size st = Z.of_nat (String.length content) ∧ sm_SdHash st = enc_SDHash content (so_encodedFileName s) ∧
    so_stream s' = Some st ∧ so_finalPath s' = so_blobPath s ∧ so_blobsManifest s' = blobs.*1 ∧ so_blobPath s ∈ dk_dirs d' ∧
    (∀ h b, (h, b) ∈ blobs → dk_files d' !! blob_file (so_blobPath s) h = Some b) ∧
    (∀ p, (∀ h, h ∈ blobs.*1 → p ≠ blob_file (so_blobPath s) h) → dk_files d' !! p = dk_files d !! p).
Proof using SS.
  intros Hdir. unfold Split. intros H. apply bind_ok_inv in H as (s0 & s1 & [= <- <-] & H). cbn [fst] in H.
  apply bind_ok_inv in H as (content & s2 & Hread & H). unfold wrapped at 1, readFile in Hread. cbn [snd] in Hread.
  destruct (be_open env _); [done|]. destruct (dk_files d !! so_filePath s) as [c|] eqn:Hc; [|done]. injection Hread as -> <-.
  apply bind_ok_inv in H as (u & s3 & [= <- <-] & H). apply bind_ok_inv in H as (u & s4 & Hmk & H).
  unfold wrapped, mkdirAll in Hmk. destruct (be_mkdir env _); [done|]. injection Hmk as _ <-.
  apply bind_ok_inv in H as (manifest & s5 & Henc & H). unfold wrapped in Henc.
  destruct (Encode _ _ _) as [[m|?|?] s6] eqn:He; [|done..]. injection Henc as -> <-. apply Encode_ok in He as [-> ->].
  apply bind_ok_inv in H as (u1 & s7 & [= <- <-] & [= <- <- <-]). exists content. cbv zeta. cbn.
  split_and!; try done; [set_solver| |].
  - intros h b Hin. apply written_blob; [done| | |done]; intros; [by eapply enc_plain|by eapply enc_named].
  - intros p Hp. by apply written_other.
Qed.

(** A file that is there is split if nothing fails, and what is then uploaded is the
    directory with its blobs. *)
Theorem Split_then_Upload {Summary} (reflect : string → Disk → option error * Summary) s d content :
  (∀ p, be_open env p = None ∧ be_mkdir env p = None ∧ be_write env p = None ∧ be_stat env p = None) →
  dk_files d !! so_filePath s = Some content → so_blobPath s ≠ "" →
  ∃ st s' d', Split env (s, d) = (ROk st, (s', d')) ∧ so_stream s' = Some st ∧
    Upload env reflect s' d' = match reflect (so_blobPath s) d' with
                               | (Some err, _) => inl (EWrapf "cannot upload blobs: " err "")
                               | (None, summary) => inr summary
                               end.
Proof using Type.
  intros Hok Hc Hdir. assert (∀ p, be_write env p = None) as Hw by (intros p; apply Hok).
  destruct (Hok (so_filePath s)) as (Ho & _). destruct (Hok (so_blobPath s)) as (_ & Hm & _ & Hst).
  eexists _, _, _. split.
  - unfold Split. rewrite (bind_ok _ _ _ s (s, d)) by done.
    rewrite (bind_ok _ _ _ content (s, d)) by (unfold wrapped, readFile; cbn [snd]; by rewrite Ho, Hc).
    rewrite (bind_ok _ _ _ tt (set_finalPath (so_blobPath s) s, d)) by done.
    rewrite (bind_ok _ _ _ tt (set_finalPath (so_blobPath s) s, mkDisk (dk_files d) ({[so_blobPath s]} ∪ dk_dirs d)))
      by (unfold wrapped, mkdirAll; by rewrite Hm).
    erewrite bind_ok by (unfold wrapped; rewrite Encode_total by done; reflexivity). reflexivity.
  - split; [done|]. unfold Upload. cbn. rewrite (proj2 (String.eqb_neq _ _) Hdir). cbn. rewrite Hst.
    by rewrite decide_True by (by apply elem_of_union_l, elem_of_singleton_2).
Qed.

(** Nothing is uploaded for a source that was not split. *)
Lemma Upload_needs_Split {Summary} (reflect : string → Disk → option error * Summary) filePath blobPath name d :
  Upload env reflect (NewSource filePath blobPath name) d = inl (EText "source is not split to blobs").
Proof. done. Qed.
End properties.

(** ** A concrete encoder *)

Module OneBlob.
(** A file is one blob and a descriptor that names it. *)
#[export] Instance encoder : StreamEncoder := {|
  enc_blobs content name := [("aa", content); ("bb", "sd:aa")];
  enc_SDHash _ _ := "bb"; enc_SourceHash _ _ := "cc" |}.
#[export] Instance encoder_spec : StreamEncoderSpec.
Proof.
  split.
  - intros c n h b b' H1 H2. cbn in H1, H2. set_unfold in H1. set_unfold in H2. naive_solver.
  - intros c n h b H1. cbn in H1. set_unfold in H1. naive_solver.
Qed.
Definition healthy : BlobEnv := {| be_open _ := None; be_mkdir _ := None; be_write _ := None; be_stat _ := None |}.
Definition disk0 : Disk := mkDisk {["/tmp/u1" := "video"]} ∅.
Definition source0 : Source := NewSource "/tmp/u1" "/blobs/u1" "cat.mp4".

Lemma Split_writes_blobs_witness :
  ∃ st s' d', Split healthy (source0, disk0) = (ROk st, (s', d')) ∧ sm_Size st = 5 ∧
    dk_files d' !! "/blobs/u1/aa" = Some "video" ∧ dk_files d' !! "/tmp/u1" = Some "video".
Proof.
  eexists _, _, _. split; [vm_compute; reflexivity|].
  edestruct (Split_writes_blobs healthy source0 disk0) as (content & Hc & Hsize & _ & _ & _ & _ & _ & Hb & Ho);
    [discriminate|vm_compute; reflexivity|].
  vm_compute in Hc. injection Hc as <-. split; [exact Hsize|]. split.
  - apply (Hb "aa" "video"). by left.
  - etrans; [apply Ho|vm_compute; reflexivity]. intros h Hh. cbn in Hh. set_unfold in Hh. by destruct Hh as [->|[->|[]]].
Defined.

Lemma Split_then_Upload_witness :
  ∃ st s' d', Split healthy (source0, disk0) = (ROk st, (s', d')) ∧ so_stream s' = Some st ∧
    Upload healthy (λ dir d, (None, size (dk_files d))) s' d' = inr 3%nat.
Proof.
  destruct (Split_then_Upload healthy (λ dir d, (None, size (dk_files d))) source0 disk0 "video") as (st & s' & d' & H1 & H2 & H3);
    [done|reflexivity|discriminate|].
  exists st, s', d'. split; [exact H1|]. split; [exact H2|]. rewrite H3. cbn.
  assert (d' = (Split healthy (source0, disk0)).2.2) as -> by (by rewrite H1). vm_compute. reflexivity.
Defined.
End OneBlob.
