(* ===== verification/ServerProxy.v ===== *)
(** * From the listener to the SDK

    The composition of the routes ([Server.v], [ServerSpec.v]) with the proxy handler
    ([Proxy.v]): what a posted JSON-RPC request makes the server send to an SDK, and
    a concrete router and libraries that meet the laws. *)

From S2P Require Import Prelude GoLib Rpc Errors Query Router Iapi Http Ip Services Wallet Auth Hashes Paid Caller Access AccessSpec Cache CacheSpec Call CallSpec Proxy Asynquery Admin Monitor Publish Server ServerSpec.
From Stdlib Require Import Ascii String.

Local Open Scope Z_scope.
Local Open Scope string_scope.

(** What the proxy handler reads of a request. *)
Definition proxy_request (q : HttpReq) : ProxyRequest :=
  {| pr_body := hr_Body q; pr_user := ctx_user q; pr_ip := ctx_ip q; pr_hasCache := HasCache q |}.

Section isolation.
Import OracleInstances.
Context (o : Oracle) `{!Ljsonrpc, !MapOrder, !IAPIDecoders, !ECDSA, !ClaimDecoder, !URLParser,
  !SearchDecoder, !JSONMarshal, !RequestDecoder, !ResponseEncoder}.
Context (server : history → LbrynetServer) (addresses : history → list string) (cfg : Config).
Context {L : Type} `{!RateLimiter L}.
Context {M : Mux (L := L) (S := history)} {B : ServerLibs (L := L) (S := history)} {MS : MuxSpec} {LS : LibsSpec}.
Context (others : Endpoint → HttpReq → Go history Writer) (auther : Authenticator history) (provider : Provider history).
Context (adminToken uploadServiceURL : string) (corsDomains : list string) (now : Z) (isProduction : bool) (trace : error → string).

#[local] Instance srv_px : ProxyRouter history := px server addresses.

(** The endpoints of the server, with the proxy handler of [Proxy.v]. *)
Definition api_handlers (e : Endpoint) : HttpReq → Go history Writer :=
  match e with EProxy => λ q, Proxy.Handle cfg (proxy_request q) | _ => others e end.

(** The wallet of an authenticated user, for a method that takes one. *)
Definition user_wallet (u : option User) (m : string) : string :=
  match u with
  | Some u => if MethodAcceptsWallet m && negb (user_ID u =? 0)%Z then wallet_id_of (user_ID u) else ""
  | None => ""
  end.

(** C2: A JSON-RPC request posted to the server: if it makes requests to an SDK, the
    middlewares authenticated it first, and a user they attached, trusted or not, was
    named by a backend given the OAuth token or the legacy token of its own headers.
    Where that user has a wallet and the method accepts one, every SDK request that
    accepts a wallet carries the id of this wallet, whatever wallet id the client sent;
    in every other case only relaxed methods are sent, with no wallet id or the one
    the client sent.  A method that requires a wallet makes no SDK request unless
    authentication gave a user without error. *)
Theorem server_isolates_wallets st opts h q lim s body req :
  NewServer api_handlers auther provider adminToken uploadServiceURL corsDomains now isProduction trace st opts = ROk h →
  mux_clean "/api/v1/proxy" = true → hr_Path q = "/api/v1/proxy" → hr_Method q = "POST" → publish_CanHandle q = false →
  hr_Body q = Some (inr body) → decode_Request body = inr (Some req) →
  let s' := (h q (lim, s)).2.2 in
  s' = s ∨ (∃ r, authenticate auther provider q s = (r, s')) ∨
  ∃ cu s1 evs, authenticate auther provider q s = (ROk (Some (Some cu)), s1) ∧ s' = (s1 ++ evs)%list ∧
    user_named auther provider (hr_Header q) (Ip.FromRequest (request_ip q)) s cu ∧
    ∀ ep rq a, EvCall ep rq a ∈ evs →
      request_bound (user_wallet (cu_user cu) (Method req)) (param req ParamWalletID) rq ∧
      (MethodRequiresWallet (Method req) = true → cu_err cu = None ∧ cu_user cu ≠ None).
Proof using LS MS.
  intros Hs Hc Hp Hm Hf Hb Hd s'. pose proof Hs as Hi. unfold NewServer in Hi.
  destruct (InstallRoutes _ _ _ _ _ _ _ st opts) as [[mws rs]|?|?] eqn:E; [|done..]. clear Hi.
  pose proof (proxy_route _ _ _ _ _ _ _ _ _ _ _ q E Hp Hm Hf) as Hr.
  destruct (serve_found api_handlers auther provider adminToken uploadServiceURL corsDomains now isProduction trace st opts h q lim s rs mws _ _ _
    (api_reached api_handlers auther provider EProxy) Hs E ltac:(by rewrite Hp) Hr) as [Hn|[Hn|(q' & u & s1 & r & Hq & Ha & Hu & He)]].
  - by left.
  - intros; by eapply api_reached_same.
  - rewrite Chain_cons. apply api_does, api_leaf_does. constructor.
  - by left.
  - by right; left.
  - right; right. pose proof Ha as Hcu. unfold authenticate in Hcu. apply authChain_cu in Hcu as (cu & -> & Hprov).
    destruct Hu as (Hip & Hu & _ & _). destruct Hq as (_ & _ & Hbody & _).
    pose proof (Handle_sends o server addresses cfg (proxy_request q') body req s1) as Hh. cbn [proxy_request pr_body pr_user] in Hh.
    rewrite Hu in Hh. destruct Hh as (evs & Hevs & Hall); [by rewrite Hbody|done|].
    exists cu, s1, evs. split; [done|]. split; [|split; [done|]].
    + fold s' in He. cbn [endpoint api_handlers] in He. unfold srv_px in He. by rewrite He in Hevs.
    + intros ep rq a Hin. destruct (Hall ep rq a Hin) as [Hw Hr2]. split; [|done].
      unfold request_wallet in Hw. cbn [proxy_request pr_user] in Hw. by rewrite Hu in Hw.
Qed.
End isolation.

(** ** A router and libraries that meet the laws *)

Module Plain.
Section plain.
Context {L S : Type} `{!RateLimiter L}.

(** Templates without variables; libraries that only pass requests on. *)
Definition plain_match (full : bool) (t p : string) : option Vars :=
  if no_brace t && (if full then String.eqb t p else HasPrefix p t) then Some ∅ else None.
Definition matcher : Mux (L := L) (S := S) :=
  {| tpl_match := plain_match; mux_clean _ := true; mux_ServeHTTP _ _ _ := ret newWriter |}.
#[export] Instance router : Mux (L := L) (S := S) := {|
  tpl_match := plain_match; mux_clean _ := true;
  mux_ServeHTTP mws rs q :=
    match first_match (M := matcher) rs q with
    | Some (ms, h, v) => Chain (mws ++ ms)%list h (set_Vars v q)
    | None => ret (http_Error newWriter "404 page not found" 404)
    end |}.
#[export] Instance libs : ServerLibs (L := L) (S := S) :=
  {| cors_Handler _ next := next; sentry_Handle next := next; tusd_Middleware _ next := next |}.

Lemma match_all_same prefix ms q : match_all (M := matcher) prefix ms q = match_all (M := router) prefix ms q.
Proof. induction ms as [|m ms IH]; [done|]. cbn [match_all]. rewrite IH. by destruct m. Qed.
Lemma route_match_same rt : ∀ prefix q, route_match (M := matcher) prefix q rt = route_match (M := router) prefix q rt.
Proof.
  revert rt. fix IH 1. intros [mt h|mt mws rs] prefix q; cbn [route_match]; rewrite match_all_same; [done|].
  destruct (match_all _ _ _); [|done]. generalize (prefix +:+ prefix_of mt). intros prefix'.
  enough (first_some (route_match (M := matcher) prefix' q) rs = first_some (route_match (M := router) prefix' q) rs) as -> by done.
  induction rs as [|r rs IHr]; [done|]. cbn [first_some]. by rewrite (IH r prefix' q), IHr.
Qed.
Lemma first_match_same rs q : first_match (M := matcher) rs q = first_match (M := router) rs q.
Proof. unfold first_match. induction rs as [|r rs IH]; [done|]. cbn [first_some]. by rewrite route_match_same, IH. Qed.

#[export] Instance router_spec : MuxSpec (M := router).
Proof.
  split.
  - intros mws rs q s ms h v _ E. cbn. by rewrite first_match_same, E.
  - intros mws rs q s [?|E]; [done|]. cbn. rewrite first_match_same, E. by eexists.
  - intros full t p Ht. cbn. unfold plain_match. by rewrite Ht.
Qed.
#[export] Instance libs_spec : LibsSpec (B := libs).
Proof. split; intros; apply benign_id. Qed.
End plain.

(** Everything starts. *)
Definition up : Startup := mkStartup None None None None None None None None None None None None None None.

(** The state records which endpoints ran. *)
Definition recording (e : Endpoint) (q : HttpReq) : Go (list Endpoint) Writer := λ s, (ROk newWriter, (s ++ [e])%list).
Definition nobody {W} : Authenticator W := {| au_Authenticate _ _ := ret (None, None); au_GetTokenFromRequest _ := RErr ErrNoAuthInfo |}.
#[local] Instance no_limit : RateLimiter bool := {| rate_NewLimiter := true; rate_Allow _ b := (true, b) |}.
Definition no_form : Form := Build_Form (Some (EText "not multipart")) "" (inl (EText "no file")) "" None false.
Definition posted (path : string) (h : Header) : HttpReq :=
  mkReq "POST" path h "10.1.2.3:4711" (Some (inr "{}")) no_form ∅ false None false None false.
Definition lim0 : Limiter bool := NewLimiter.

Definition server0 := NewServer (L := bool) recording nobody nilProvider "secret" "" [] 0 true (λ _, "") up None.

Definition handler0 : Server.Handler (L := bool) (S := list Endpoint) :=
  match server0 with ROk h => h | _ => λ _, ret newWriter end.

Lemma requests_reach_endpoints_witness :
  server0 = ROk handler0 ∧ (handler0 (posted "/api/v1/proxy" ∅) (lim0, [])).2.2 = [EProxy] ∧
    reached recording nobody nilProvider "secret" None (posted "/api/v1/proxy" ∅) [] [EProxy].
Proof.
  assert (server0 = ROk handler0) as E by reflexivity. split; [exact E|].
  assert ((handler0 (posted "/api/v1/proxy" ∅) (lim0, [])).2.2 = [EProxy]) as Hrun by (vm_compute; reflexivity).
  split; [exact Hrun|].
  pose proof (requests_reach_endpoints recording nobody nilProvider "secret" "" [] 0 true (λ _, "") up None handler0
    (posted "/api/v1/proxy" ∅) lim0 [] E) as H.
  rewrite Hrun in H. exact H.
Defined.
End Plain.

Section witnesses.
Import OracleInstances WalletDB.Concrete Ex Plain.
#[local] Existing Instance Plain.no_limit.

Definition alice : User := mkUser 7 (Some 7) None None (Some (Some sdk7)).
(** A backend that knows one OAuth token. *)
Definition one_user : Authenticator history := {|
  au_Authenticate t _ := ret (if String.eqb t "Bearer a" then (Some alice, None) else (None, Some ErrNoAuthInfo));
  au_GetTokenFromRequest h := ROk (Header_Get h "Authorization") |}.
Definition balance : RPCRequest := mkRequest "wallet_balance" (VMap ∅) 1 "2.0".

(** Alice asks for her balance: one request, on her wallet. *)
Lemma server_isolates_wallets_witness :
  let o := free_oracle in
  let J : JSONMarshal := ex_marshal in
  let D : RequestDecoder := λ _, inr (Some balance) in
  let E : ResponseEncoder := λ _, MOk in
  let hs := api_handlers o (λ _, sdk7) (λ _, ["http://sdk7:5279"]) cfg (λ _, emptyHandler) in
  let q := posted "/api/v1/proxy" {["Authorization" := ["Bearer a"]]} in
  ∃ h evs, NewServer (L := bool) hs one_user nilProvider "secret" "" [] 0 true (λ _, "") up None = ROk h ∧
    (h q (lim0, [])).2.2 = evs ∧ (calls evs = 1)%nat ∧
    ∀ ep rq a, EvCall ep rq a ∈ evs → request_bound (wallet_id_of 7) None rq.
Proof.
  intros o J D E hs q.
  set (h := match NewServer (L := bool) hs one_user nilProvider "secret" "" [] 0 true (λ _, "") up None with ROk h => h | _ => λ _, ret newWriter end).
  assert (NewServer (L := bool) hs one_user nilProvider "secret" "" [] 0 true (λ _, "") up None = ROk h) as Hs by reflexivity.
  pose proof (server_isolates_wallets o (λ _, sdk7) (λ _, ["http://sdk7:5279"]) cfg (λ _, emptyHandler) one_user nilProvider
    "secret" "" [] 0 true (λ _, "") up None h q lim0 [] "{}" balance Hs eq_refl eq_refl eq_refl eq_refl eq_refl eq_refl) as Hw.
  assert (calls (h q (lim0, [])).2.2 = 1%nat) as Hc by (vm_compute; reflexivity).
  exists h, (h q (lim0, [])).2.2. split; [exact Hs|]. split; [reflexivity|]. split; [exact Hc|].
  assert (match authenticate one_user nilProvider q [] with
          | (ROk (Some (Some cu)), s1) => Some (cu_user cu, s1) | _ => None end = Some (Some alice, [])) as Hauth by (vm_compute; reflexivity).
  cbv zeta in Hw. destruct Hw as [Hn|[[r Hn]|(cu & s1 & evs & Ha & Hev & _ & Hall)]].
  - revert Hn Hc. generalize ((h q (lim0, [])).2.2). intros s' -> Hc. discriminate Hc.
  - revert Hn Hc. generalize ((h q (lim0, [])).2.2). intros s' Hn Hc. rewrite Hn in Hauth.
    destruct r as [[[cu|]|]|?|?]; [|discriminate Hauth..]. injection Hauth as _ ->. discriminate Hc.
  - rewrite Ha in Hauth. injection Hauth as Hu ->. rewrite Hev. intros ep rq a Hin. pose proof (proj1 (Hall ep rq a Hin)) as Hok.
    rewrite Hu in Hok. exact Hok.
Defined.
End witnesses.
