(* ===== verification/Metrics.v ===== *)
(** * Timers and the metrics endpoint

    Models [internal/metrics/timer.go], [middleware.go] and [handlers.go]: a timer with
    its observers, the timer a request carries, and the endpoint for metrics of the
    user interface.  Durations are nanoseconds.  Prometheus is a log of what was
    observed; the conversion of the reported value is a parameter. *)

From S2P Require Import Prelude GoLib Rpc Errors Http.
From Stdlib Require Import String.

Local Open Scope string_scope.
Local Open Scope Z_scope.

(** ** Timers *)

Section timer.
Context {Obs : Type}.

Record Timer := mkTimer { t_Started : Z; t_duration : Z; t_observers : list Obs }.
(** The timer and what its observers got. *)
Abbreviation TimerS := (Timer * list (Obs * Z))%type.

Definition StartTimer (now : Z) : Timer := mkTimer now 0 [].
Definition timer_AddObserver (o : Obs) (t : Timer) : Timer := mkTimer (t_Started t) (t_duration t) (t_observers t ++ [o]).
Definition timer_Stop (now : Z) : TimerS → Z * TimerS := λ '(t, log),
  if t_duration t =? 0 then
    let d := now - t_Started t in (d, (mkTimer (t_Started t) d (t_observers t), (log ++ map (λ o, (o, d)) (t_observers t))%list))
  else (t_duration t, (t, log)).
Definition timer_Duration (now : Z) (t : Timer) : Z := if t_duration t =? 0 then now - t_Started t else t_duration t.

(** *** The timer of a request *)

(** The context of a request holds the timer, if [MeasureMiddleware] was passed. *)
Definition AddObserver (ctx : option Timer) (o : Obs) : error + Timer :=
  match ctx with
  | None => inl (Errs "metrics.MeasureMiddleware middleware is required")
  | Some t => inr (timer_AddObserver o t)
  end.
(** [None] stands for the -1 without the middleware. *)
Definition GetDuration (now : Z) (ctx : option Timer) : option Z := timer_Duration now <$> ctx.

(** The deferred [Stop] runs however the handler ends. *)
Definition MeasureMiddleware {E A} (start stop : Z) (next : GoM TimerS E A) (log : list (Obs * Z)) : result E A * list (Obs * Z) :=
  let '(r, s) := next (StartTimer start, log) in (r, (timer_Stop stop s).2.2).

(** A timer stopped after it was started tells every observer the same duration,
    once: stopping again changes nothing, whenever it happens. *)
Lemma timer_stops_once now later t log :
  t_duration t = 0 → t_Started t < now →
  let s := (timer_Stop now (t, log)).2 in
  s.2 = (log ++ map (λ o, (o, now - t_Started t)) (t_observers t))%list ∧
  timer_Stop later s = (now - t_Started t, s) ∧ timer_Duration later s.1 = now - t_Started t.
Proof.
  intros Hd Hn. assert (timer_Stop now (t, log) =
    (now - t_Started t, (mkTimer (t_Started t) (now - t_Started t) (t_observers t), (log ++ map (λ o, (o, now - t_Started t)) (t_observers t))%list)))
    as -> by (unfold timer_Stop; by rewrite Hd).
  unfold timer_Duration. cbn. by rewrite (proj2 (Z.eqb_neq (now - t_Started t) 0)) by lia.
Qed.

(** Every observer a handler adds is told the duration of the whole request, also
    when the handler panics. *)
Lemma MeasureMiddleware_observes {E A} start stop (next : GoM TimerS E A) r os log :
  start < stop → next (StartTimer start, log) = (r, (foldl (λ t o, timer_AddObserver o t) (StartTimer start) os, log)) →
  MeasureMiddleware start stop next log = (r, (log ++ map (λ o, (o, stop - start)) os)%list).
Proof.
  intros Hlt Hn. unfold MeasureMiddleware. rewrite Hn.
  assert (∀ t, foldl (λ t o, timer_AddObserver o t) t os = mkTimer (t_Started t) (t_duration t) (t_observers t ++ os)) as ->.
  { clear Hn. induction os as [|o os IH]; intros t; cbn; [rewrite app_nil_r; by destruct t|]. rewrite IH. cbn. by rewrite <-app_assoc. }
  done.
Qed.
End timer.

(** ** Metrics of the user interface *)

Section ui.
Context {F : Type} (ToFloat64 : string → F).

(** [form] is [req.FormValue]; the state is what [UITimeToStart] observed per player. *)
Definition TrackUIMetric (form : string → string) : Go (list (string * F)) Writer :=
  let w := SetHeader "Content-Type" "application/json; charset=utf-8" newWriter in
  let metricName := form "name" in
  let resp : gmap string value := {["name" := VStr metricName]} in
  let! answer :=
    (if String.eqb metricName "time_to_start" then
       let player := form "player" in
       let '(code, resp) := if (64 <? String.length player)%nat then (400, <["error" := VStr "invalid player value"]> resp) else (200, resp) in
       modify (λ log, (log ++ [(player, ToFloat64 (form "value"))])%list) ;;! ret (code, resp)
     else ret (400, <["error" := VStr "invalid metric name"]> resp)) in
  ret (WriteBody (CValue (VMap answer.2)) (WriteHeader answer.1 w)).

(** The answer is 200 exactly for a known metric of a player with a short name, and
    the metric is observed for every known metric: for a rejected player as well. *)
Lemma TrackUIMetric_spec form log :
  ∃ w, TrackUIMetric form log =
      (ROk w, if String.eqb (form "name") "time_to_start" then (log ++ [(form "player", ToFloat64 (form "value"))])%list else log) ∧
    (sent_status w = 200 ↔ form "name" = "time_to_start" ∧ (String.length (form "player") ≤ 64)%nat).
Proof.
  unfold TrackUIMetric. cbv zeta. destruct (String.eqb_spec (form "name") "time_to_start") as [->|Hn].
  - destruct (Nat.ltb_spec 64 (String.length (form "player"))) as [Hl|Hl]; eexists; (split; [reflexivity|]); cbn; split; try done; lia.
  - eexists. split; [reflexivity|]. cbn. split; [done|]. by intros [? _].
Qed.

(** A player value that is answered with 400 has become a label all the same. *)
Lemma rejected_player_is_recorded form :
  form "name" = "time_to_start" → (64 < String.length (form "player"))%nat →
  ∃ w, TrackUIMetric form [] = (ROk w, [(form "player", ToFloat64 (form "value"))]) ∧ sent_status w = 400.
Proof.
  intros Hn Hl. unfold TrackUIMetric. cbv zeta. rewrite Hn, (proj2 (Nat.ltb_lt _ _) Hl). by eexists.
Qed.
End ui.
