(* ===== verification/GoUrl.v ===== *)
(** * Query strings ([net/url])

    [url.QueryUnescape], [url.ParseQuery] and [url.Values.Encode], as the link
    resolver uses them.  [QueryEscape] is in [Chainquery.v].  The theorem is the round
    trip: what [Encode] writes, [ParseQuery] reads back. *)

From stdpp Require Import sorting.
From S2P Require Import Prelude GoLib Rpc Errors Query Services Hashes Caller Access Cache CacheSpec Chainquery.
From Stdlib Require Import Ascii String.

Local Open Scope Z_scope.
Local Open Scope string_scope.

(** [strings.Cut] at a character. *)
Fixpoint Cut (s : string) (sep : ascii) : string * string :=
  match s with
  | "" => ("", "")
  | String a s' => if Ascii.eqb a sep then ("", s') else let '(l, r) := Cut s' sep in (String a l, r)
  end.

(** [url.QueryUnescape]: [%xx] and [+]; anything else stands for itself. *)
Fixpoint QueryUnescape (s : string) : option string :=
  match s with
  | "" => Some ""
  | String a s' =>
    if Ascii.eqb a "%" then
      match s' with
      | String h (String l s2) =>
        match hex_digit h, hex_digit l, QueryUnescape s2 with
        | Some x, Some y, Some r => Some (String (ascii_of_N (16 * x + y)) r)
        | _, _, _ => None
        end
      | _ => None
      end
    else match QueryUnescape s' with
         | Some r => Some (String (if Ascii.eqb a "+" then " "%char else a) r)
         | None => None
         end
  end.

Abbreviation Values := (gmap string (list string)).
Definition Values_Add (v : Values) (k x : string) : Values := <[k := (default [] (v !! k) ++ [x])%list]> v.

(** One [key=value] of a query; a broken one is skipped. *)
Definition add_pair (v : Values) (kv : string) : Values :=
  if Contains kv ";" then v else
  if String.eqb kv "" then v else
  let '(k, x) := Cut kv "=" in
  match QueryUnescape k, QueryUnescape x with
  | Some k, Some x => Values_Add v k x
  | _, _ => v
  end.

(** [ParseQuery], whose error [Query()] drops. *)
Definition ParseQuery (query : string) : Values := foldl add_pair ∅ (Split query "&").

(** [Encode]: sorted by key. *)
Definition string_le (a b : string) : Prop := String.leb a b = true.
#[export] Instance string_le_dec a b : Decision (string_le a b).
Proof. unfold string_le. apply _. Defined.
Definition pairs_of (v : Values) (k : string) : list (string * string) := map (λ x, (k, x)) (default [] (v !! k)).
Definition encode_pair (p : string * string) : string := QueryEscape p.1 +:+ "=" +:+ QueryEscape p.2.
Definition sorted_keys (v : Values) : list string := merge_sort string_le (map_to_list v).*1.
Definition Encode (v : Values) : string := Join (map encode_pair (sorted_keys v ≫= pairs_of v)) "&".

(** ** Escaping *)

(** The characters [QueryEscape] can write. *)
Definition escaped_char (a : ascii) : bool := negb (Ascii.eqb a "&" || Ascii.eqb a "=" || Ascii.eqb a ";").

#[local] Arguments String.append : simpl nomatch.

Lemma escape_char_clean a : all_chars escaped_char (escape_char a) = true.
Proof. revert a. apply (ascii_check (λ a, all_chars escaped_char (escape_char a))). vm_compute. done. Qed.

Lemma QueryEscape_clean s : all_chars escaped_char (QueryEscape s) = true.
Proof. induction s as [|a s IH]; [done|]. cbn [QueryEscape]. by rewrite all_chars_app, escape_char_clean, IH. Qed.

(** Reading back one character. *)
Definition unescape_ok (a : ascii) : bool :=
  match escape_char a with
  | String b "" => if Ascii.eqb b "+" then Ascii.eqb a " " else negb (Ascii.eqb b "%") && Ascii.eqb b a
  | String b (String h (String l "")) =>
    Ascii.eqb b "%" && match hex_digit h, hex_digit l with Some x, Some y => Ascii.eqb (ascii_of_N (16 * x + y)) a | _, _ => false end
  | _ => false
  end.
Lemma unescape_all a : unescape_ok a = true.
Proof. revert a. apply ascii_check. vm_compute. done. Qed.

Lemma QueryUnescape_app s t : QueryUnescape (QueryEscape s +:+ t) = (λ r, s +:+ r) <$> QueryUnescape t.
Proof.
  induction s as [|a s IH]; [cbn; by destruct (QueryUnescape t)|]. cbn [QueryEscape]. rewrite <-app_assoc_str.
  pose proof (unescape_all a) as Ha. unfold unescape_ok in Ha.
  destruct (escape_char a) as [|b [|h [|l [|? ?]]]]; try discriminate Ha.
  - cbn. destruct (Ascii.eqb b "+") eqn:Hb.
    + apply Ascii.eqb_eq in Hb, Ha. subst a b. cbn. rewrite IH. by destruct (QueryUnescape t).
    + apply andb_true_iff in Ha as [Hp%negb_true_iff E%Ascii.eqb_eq]. subst b. rewrite Hp, IH. by destruct (QueryUnescape t).
  - apply andb_true_iff in Ha as [->%Ascii.eqb_eq Ha]. cbn.
    destruct (hex_digit h) as [x|]; [|done]. destruct (hex_digit l) as [y|]; [|done]. apply Ascii.eqb_eq in Ha as ->.
    rewrite IH. by destruct (QueryUnescape t).
Qed.

(** [QueryUnescape] inverts [QueryEscape]. *)
Lemma QueryUnescape_escape s : QueryUnescape (QueryEscape s) = Some s.
Proof. rewrite <-(app_empty_r (QueryEscape s)), QueryUnescape_app. cbn. by rewrite app_empty_r. Qed.

(** ** Cutting and splitting *)

Definition free_of (sep : ascii) (s : string) : bool := all_chars (λ a, negb (Ascii.eqb a sep)) s.

Lemma Cut_free l r sep : free_of sep l = true → Cut (l +:+ String sep r) sep = (l, r).
Proof.
  unfold free_of. induction l as [|a l IH]; cbn; [by rewrite Ascii.eqb_refl|].
  rewrite andb_true_iff, negb_true_iff. intros [-> H]. by rewrite (IH H).
Qed.

Lemma Contains_free s sep : free_of sep s = true → Contains s (String sep "") = false.
Proof.
  unfold free_of. induction s as [|a s IH]; [done|]. cbn. rewrite andb_true_iff, negb_true_iff, Ascii.eqb_sym. intros [E H].
  rewrite (IH H), E. done.
Qed.

Lemma Split_free w sep : free_of sep w = true → Split w sep = [w].
Proof.
  unfold free_of. induction w as [|a w IH]; [done|]. cbn. rewrite andb_true_iff, negb_true_iff. intros [-> H]. by rewrite (IH H).
Qed.

Lemma Split_app_free w s sep : free_of sep w = true → Split (w +:+ String sep s) sep = w :: Split s sep.
Proof.
  unfold free_of. induction w as [|a w IH]; [by cbn; rewrite Ascii.eqb_refl|]. cbn. rewrite andb_true_iff, negb_true_iff.
  intros [-> H]. by rewrite (IH H).
Qed.

Lemma Split_Join_free ws sep : ws ≠ [] → forallb (free_of sep) ws = true → Split (Join ws (String sep "")) sep = ws.
Proof.
  induction ws as [|w ws IH]; [done|]. intros _. cbn. rewrite andb_true_iff. intros [Hw H].
  destruct ws as [|w' ws]; [by apply Split_free|]. change (w +:+ String sep "" +:+ Join (w' :: ws) (String sep "")) with (w +:+ String sep (Join (w' :: ws) (String sep ""))).
  rewrite Split_app_free by done. by rewrite IH.
Qed.

(** ** Reading back what was encoded *)

Lemma QueryEscape_free sep s : escaped_char sep = false → free_of sep (QueryEscape s) = true.
Proof.
  intros Hs. eapply all_chars_impl; [|apply QueryEscape_clean]. intros a Ha. apply negb_true_iff.
  destruct (Ascii.eqb_spec a sep) as [E|]; [|done]. subst. congruence.
Qed.

Lemma encode_pair_free sep p : escaped_char sep = false → Ascii.eqb "=" sep = false → free_of sep (encode_pair p) = true.
Proof.
  intros Hs He. pose proof (QueryEscape_free sep p.1 Hs) as H1. pose proof (QueryEscape_free sep p.2 Hs) as H2.
  unfold encode_pair, free_of in *. rewrite !all_chars_app, H1, H2. unfold all_chars. by rewrite He.
Qed.

Lemma add_pair_encode v p : add_pair v (encode_pair p) = Values_Add v p.1 p.2.
Proof.
  unfold add_pair. rewrite Contains_free by (by apply encode_pair_free).
  assert (String.eqb (encode_pair p) "" = false) as ->.
  { apply String.eqb_neq. unfold encode_pair. by destruct (QueryEscape p.1). }
  unfold encode_pair. change ("=" +:+ QueryEscape p.2) with (String "=" (QueryEscape p.2)).
  rewrite Cut_free by (by apply QueryEscape_free). by rewrite !QueryUnescape_escape.
Qed.

Lemma ParseQuery_pairs ps : ParseQuery (Join (map encode_pair ps) "&") = foldl (λ v p, Values_Add v p.1 p.2) ∅ ps.
Proof.
  unfold ParseQuery. destruct (decide (ps = [])) as [->|Hne]; [done|]. rewrite Split_Join_free.
  - generalize (∅ : Values). clear Hne. induction ps as [|p ps IH]; intros v; [done|]. cbn [map foldl]. by rewrite add_pair_encode, IH.
  - by destruct ps.
  - apply forallb_forall. intros x (p & <- & _)%in_map_iff. by apply encode_pair_free.
Qed.

Lemma add_values k xs v : foldl (λ v p, Values_Add v p.1 p.2) v (map (λ x, (k, x)) xs) !! k
  = (if decide (xs = []) then v !! k else Some (default [] (v !! k) ++ xs)%list).
Proof.
  revert v. induction xs as [|x xs IH]; intros v; [done|]. cbn [map foldl]. rewrite IH. unfold Values_Add. cbn.
  rewrite lookup_insert_eq. destruct xs; cbn; [done|]. by rewrite <-(assoc_L (++)%list).
Qed.

Lemma add_values_ne k k' xs v : k ≠ k' → foldl (λ v p, Values_Add v p.1 p.2) v (map (λ x, (k, x)) xs) !! k' = v !! k'.
Proof.
  intros Hk. revert v. induction xs as [|x xs IH]; intros v; [done|]. cbn [map foldl]. rewrite IH. unfold Values_Add. by rewrite lookup_insert_ne.
Qed.

Lemma add_keys (m : Values) ks v k :
  NoDup ks → (∀ k, k ∈ ks → v !! k = None) → (∀ k, m !! k ≠ Some []) →
  foldl (λ v p, Values_Add v p.1 p.2) v (ks ≫= pairs_of m) !! k = if decide (k ∈ ks) then m !! k else v !! k.
Proof.
  intros Hnd Hv Hm. revert v Hv. induction ks as [|k0 ks IH]; intros v Hv; [by rewrite decide_False by set_solver|].
  apply NoDup_cons in Hnd as [H0 Hnd]. cbn. rewrite foldl_app. rewrite IH; [|done|].
  - destruct (decide (k = k0)) as [->|Hne].
    + rewrite decide_False by done. rewrite (decide_True (P := k0 ∈ k0 :: ks)) by set_solver. unfold pairs_of.
      rewrite add_values, (Hv k0) by set_solver. pose proof (Hm k0). destruct (m !! k0) as [[|x xs]|]; cbn; [done|done|]. done.
    + unfold pairs_of. rewrite add_values_ne by done. apply decide_ext. set_solver.
  - intros k' Hk'. unfold pairs_of. rewrite add_values_ne by (intros ->; done). apply Hv. set_solver.
Qed.

Lemma sorted_keys_perm v : sorted_keys v ≡ₚ (map_to_list v).*1.
Proof. apply merge_sort_Permutation. Qed.

(** [ParseQuery] inverts [Encode] on values without empty lists. *)
Lemma ParseQuery_Encode (v : Values) : (∀ k, v !! k ≠ Some []) → ParseQuery (Encode v) = v.
Proof.
  intros Hv. unfold Encode. rewrite ParseQuery_pairs. apply map_eq. intros k. rewrite add_keys; [|..|done].
  - destruct (decide (k ∈ sorted_keys v)) as [_|Hk]; [done|]. rewrite lookup_empty. symmetry.
    rewrite sorted_keys_perm, list_elem_of_fmap in Hk. destruct (v !! k) as [xs|] eqn:E; [|done].
    destruct Hk. exists (k, xs). split; [done|]. by apply elem_of_map_to_list.
  - rewrite sorted_keys_perm. apply NoDup_fst_map_to_list.
  - intros k' _. apply lookup_empty.
Qed.

Lemma ParseQuery_nonempty q k : ParseQuery q !! k ≠ Some [].
Proof.
  unfold ParseQuery. assert (∀ l (v : Values), v !! k ≠ Some [] → foldl add_pair v l !! k ≠ Some []) as H.
  { induction l as [|kv l IH]; intros v Hv; [done|]. cbn. apply IH. unfold add_pair. repeat case_match; try done.
    unfold Values_Add. destruct (decide (k = s1)) as [->|]; [rewrite lookup_insert_eq; intros E; injection E as E; by apply app_nil in E as [_ ?]|by rewrite lookup_insert_ne]. }
  apply H. by rewrite lookup_empty.
Qed.
