(* ===== verification/Json.v ===== *)
(** * JSON text

    What the sources use of [encoding/json]: [Marshal] of dynamic values (compact,
    keys sorted, HTML characters and line separators escaped, invalid UTF-8 replaced)
    and a [Decoder] with [UseNumber] (white space, escapes and surrogates, numbers kept
    as their literal, later keys win, nesting up to 10000).  Decoding what was encoded
    gives the value back, with numbers as literals and slices as [[]interface{}].

    A pointer to a struct prints its fields in the order of their declaration, which
    [value] does not record; printing it is outside the model ([None]). *)

From S2P Require Import Prelude GoLib Rpc.
From stdpp Require Import sorting.
From Stdlib Require Import Ascii String.

Local Open Scope string_scope.
Local Open Scope N_scope.

(** ** UTF-8 *)

Definition in_range (lo hi : N) (a : ascii) : bool := (lo <=? N_of_ascii a) && (N_of_ascii a <=? hi).
Definition cont (a : ascii) : bool := in_range 128 191 a.

(** The size of the first rune of a string, 0 if the bytes are not one
    ([utf8.DecodeRuneInString]). *)
Definition rune_width (s : string) : nat :=
  match s with
  | "" => 0
  | String a s =>
    if in_range 0 127 a then 1
    else if in_range 194 223 a then match s with String b _ => if cont b then 2 else 0 | _ => 0 end
    else if in_range 224 239 a then
      match s with
      | String b (String c _) =>
        if (if in_range 224 224 a then in_range 160 191 b else if in_range 237 237 a then in_range 128 159 b else cont b) && cont c then 3 else 0
      | _ => 0
      end
    else if in_range 240 244 a then
      match s with
      | String b (String c (String d _)) =>
        if (if in_range 240 240 a then in_range 144 191 b else if in_range 244 244 a then in_range 128 143 b else cont b) && cont c && cont d then 4 else 0
      | _ => 0
      end
    else 0
  end%nat.

(** [utf8.ValidString] *)
Fixpoint valid_utf8 (s : string) : bool :=
  match s with
  | "" => true
  | String _ s1 =>
    match rune_width s with
    | 1%nat => valid_utf8 s1
    | 2%nat => match s1 with String _ s2 => valid_utf8 s2 | _ => false end
    | 3%nat => match s1 with String _ (String _ s3) => valid_utf8 s3 | _ => false end
    | 4%nat => match s1 with String _ (String _ (String _ s4)) => valid_utf8 s4 | _ => false end
    | _ => false
    end
  end.

(** [utf8.AppendRune]: surrogates and numbers out of range are encoded as U+FFFD. *)
Definition chr (n : N) : ascii := ascii_of_N n.
Definition encode_rune (r : N) : string :=
  if r <? 128 then String (chr r) ""
  else if r <? 2048 then String (chr (192 + r / 64)) (String (chr (128 + r mod 64)) "")
  else if ((55296 <=? r) && (r <=? 57343)) || (1114111 <? r) then
    String (chr 239) (String (chr 191) (String (chr 189) ""))
  else if r <? 65536 then
    String (chr (224 + r / 4096)) (String (chr (128 + r / 64 mod 64)) (String (chr (128 + r mod 64)) ""))
  else String (chr (240 + r / 262144)) (String (chr (128 + r / 4096 mod 64)) (String (chr (128 + r / 64 mod 64)) (String (chr (128 + r mod 64)) ""))).

(** ** Strings *)

Definition quote : ascii := "034".
Definition backslash : ascii := "\".

(** The escape of an ASCII character; most stand for themselves. *)
Definition escape (a : ascii) : string :=
  let n := N_of_ascii a in
  if Ascii.eqb a quote || Ascii.eqb a backslash then String backslash (String a "")
  else if n =? 8 then String backslash "b"
  else if n =? 12 then String backslash "f"
  else if n =? 10 then String backslash "n"
  else if n =? 13 then String backslash "r"
  else if n =? 9 then String backslash "t"
  else if (n <? 32) || Ascii.eqb a "<" || Ascii.eqb a ">" || Ascii.eqb a "&" then
    String backslash (String "u" (String "0" (String "0" (String (nibble (n / 16)) (String (nibble (n mod 16)) "")))))
  else String a "".

(** Whether three bytes are U+2028 or U+2029, and their escape. *)
Definition separator (a b c : ascii) : bool :=
  in_range 226 226 a && in_range 128 128 b && in_range 168 169 c.

Fixpoint quote_body (s : string) : string :=
  match s with
  | "" => ""
  | String a s1 =>
    match rune_width s with
    | 1%nat => escape a +:+ quote_body s1
    | 2%nat => match s1 with String b s2 => String a (String b (quote_body s2)) | _ => "" end
    | 3%nat => match s1 with
               | String b (String c s3) =>
                 if separator a b c then String backslash (String "u" ("202" +:+ String (nibble (N_of_ascii c mod 16)) (quote_body s3)))
                 else String a (String b (String c (quote_body s3)))
               | _ => "" end
    | 4%nat => match s1 with String b (String c (String d s4)) => String a (String b (String c (String d (quote_body s4)))) | _ => "" end
    | _ => String backslash ("ufffd" +:+ quote_body s1)
    end
  end.
Definition quoted (s : string) : string := String quote (quote_body s +:+ String quote "").

(** [getu4] *)
Definition u4 (a b c d : ascii) : option N :=
  match hex_digit a, hex_digit b, hex_digit c, hex_digit d with
  | Some x, Some y, Some z, Some w => Some (4096 * x + 256 * y + 16 * z + w)
  | _, _, _, _ => None
  end.
Definition simple_escape (e : ascii) : option ascii :=
  if Ascii.eqb e quote || Ascii.eqb e backslash || Ascii.eqb e "/" then Some e
  else if Ascii.eqb e "b" then Some (chr 8) else if Ascii.eqb e "f" then Some (chr 12)
  else if Ascii.eqb e "n" then Some (chr 10) else if Ascii.eqb e "r" then Some (chr 13) else if Ascii.eqb e "t" then Some (chr 9)
  else None.
Definition surrogate (r : N) : bool := (55296 <=? r) && (r <=? 57343).
(** [utf16.DecodeRune] *)
Definition surrogate_pair (r1 r2 : N) : option N :=
  if (55296 <=? r1) && (r1 <? 56320) && (56320 <=? r2) && (r2 <? 57344) then Some ((r1 - 55296) * 1024 + (r2 - 56320) + 65536) else None.

Definition prepend (p : string) (r : option (string * string)) : option (string * string) :=
  match r with Some (s, rest) => Some (p +:+ s, rest) | None => None end.

(** The rest of a string literal after its opening quote: its value and what follows. *)
Fixpoint parse_string (s : string) : option (string * string) :=
  match s with
  | "" => None
  | String a s1 =>
    if Ascii.eqb a quote then Some ("", s1)
    else if Ascii.eqb a backslash then
      match s1 with
      | "" => None
      | String e s2 =>
        if Ascii.eqb e "u" then
          match s2 with
          | String h1 (String h2 (String h3 (String h4 s3))) =>
            match u4 h1 h2 h3 h4 with
            | None => None
            | Some r =>
              let single := prepend (encode_rune r) (parse_string s3) in
              if surrogate r then
                match s3 with
                | String b1 (String b2 (String k1 (String k2 (String k3 (String k4 s4))))) =>
                  if Ascii.eqb b1 backslash && Ascii.eqb b2 "u" then
                    match u4 k1 k2 k3 k4 with
                    | Some r2 => match surrogate_pair r r2 with
                                 | Some rr => prepend (encode_rune rr) (parse_string s4)
                                 | None => single
                                 end
                    | None => single
                    end
                  else single
                | _ => single
                end
              else single
            end
          | _ => None
          end
        else match simple_escape e with Some x => prepend (String x "") (parse_string s2) | None => None end
      end
    else if N_of_ascii a <? 32 then None
    else match rune_width s with
         | 1%nat => prepend (String a "") (parse_string s1)
         | 2%nat => match s1 with String b s2 => prepend (String a (String b "")) (parse_string s2) | _ => None end
         | 3%nat => match s1 with String b (String c s3) => prepend (String a (String b (String c ""))) (parse_string s3) | _ => None end
         | 4%nat => match s1 with
                    | String b (String c (String d s4)) => prepend (String a (String b (String c (String d "")))) (parse_string s4)
                    | _ => None end
         | _ => prepend (encode_rune 65533) (parse_string s1)
         end
  end.

Example quoted_ex : quoted ("a<" +:+ String (chr 10) "") = String quote ("a\u003c\n" +:+ String quote "").
Proof. reflexivity. Qed.
Example surrogates_ex : parse_string ("\ud83d\ude00" +:+ String quote "]") = Some (encode_rune 128512, "]").
Proof. vm_compute. reflexivity. Qed.

(** *** Decoding a quoted string *)

Lemma prepend_app p q r : prepend p (prepend q r) = prepend (p +:+ q) r.
Proof. destruct r as [[s rest]|]; [|done]. cbn. by rewrite app_assoc_str. Qed.
Lemma prepend_one a r : prepend (String a "") r = match r with Some (s, rest) => Some (String a s, rest) | None => None end.
Proof. by destruct r as [[s rest]|]. Qed.

(** One character: 128 cases. *)
Lemma parse_escape a t : in_range 0 127 a = true → parse_string (escape a +:+ t) = prepend (String a "") (parse_string t).
Proof. destruct a as [[] [] [] [] [] [] [] []]; try discriminate; intros _; reflexivity. Qed.

Lemma rune_width_1 s : rune_width s = 1%nat → ∃ a s1, s = String a s1 ∧ in_range 0 127 a = true.
Proof.
  destruct s as [|a s]; [done|]. unfold rune_width. destruct (in_range 0 127 a) eqn:E; [by eauto|].
  repeat case_match; done.
Qed.

(** Longer runes: which bytes they take does not depend on what follows. *)
Lemma rune_width_2 s : rune_width s = 2%nat → ∃ a b s2, s = String a (String b s2) ∧ in_range 0 127 a = false ∧ ∀ t, rune_width (String a (String b t)) = 2%nat.
Proof.
  destruct s as [|a [|b s]]; try done; unfold rune_width; intros H; repeat case_match; try done.
  eexists _, _, _. split; [reflexivity|]. split; [done|]. intros t. repeat case_match; congruence.
Qed.
Lemma rune_width_3 s : rune_width s = 3%nat →
  ∃ a b c s3, s = String a (String b (String c s3)) ∧ in_range 0 127 a = false ∧ ∀ t, rune_width (String a (String b (String c t))) = 3%nat.
Proof.
  destruct s as [|a [|b [|c s]]]; try done; unfold rune_width; intros H; repeat case_match; try done;
    eexists _, _, _, _; (split; [reflexivity|]); split; try done; intros t; repeat case_match; congruence.
Qed.
Lemma rune_width_4 s : rune_width s = 4%nat →
  ∃ a b c d s4, s = String a (String b (String c (String d s4))) ∧ in_range 0 127 a = false ∧
    ∀ t, rune_width (String a (String b (String c (String d t)))) = 4%nat.
Proof.
  destruct s as [|a [|b [|c [|d s]]]]; try done; unfold rune_width; intros H; repeat case_match; try done;
    eexists _, _, _, _, _; (split; [reflexivity|]); split; try done; intros t; repeat case_match; congruence.
Qed.

Lemma high_byte a : in_range 0 127 a = false → Ascii.eqb a quote = false ∧ Ascii.eqb a backslash = false ∧ (N_of_ascii a <? 32) = false.
Proof. destruct a as [[] [] [] [] [] [] [] []]; try discriminate; done. Qed.

Lemma parse_separator a b c t : separator a b c = true →
  parse_string (String backslash (String "u" ("202" +:+ String (nibble (N_of_ascii c mod 16)) t))) = prepend (String a (String b (String c ""))) (parse_string t).
Proof.
  unfold separator. intros [[Ha Hb]%andb_true_iff Hc]%andb_true_iff.
  assert (a = chr 226) as -> by (revert Ha; destruct a as [[] [] [] [] [] [] [] []]; try discriminate; done).
  assert (b = chr 128) as -> by (revert Hb; destruct b as [[] [] [] [] [] [] [] []]; try discriminate; done).
  assert (c = chr 168 ∨ c = chr 169) as [->| ->]
    by (revert Hc; destruct c as [[] [] [] [] [] [] [] []]; try discriminate; intros _; by (left + right)); reflexivity.
Qed.

Lemma append_nil t : "" +:+ t = t.
Proof. done. Qed.
Lemma append_String a s t : String a s +:+ t = String a (s +:+ t).
Proof. done. Qed.

(** What [Marshal] writes for a valid string is read back as this string. *)
Lemma parse_quote_body s rest : valid_utf8 s = true → parse_string (quote_body s +:+ String quote rest) = Some (s, rest).
Proof.
  remember (String.length s) as n eqn:Hn. revert s Hn. induction n as [n IH] using lt_wf_ind. intros s -> Hv.
  destruct s as [|a s]; [done|]. cbn [valid_utf8 quote_body] in *. destruct (rune_width (String a s)) as [|[|[|[|[|w]]]]] eqn:Hw; try done.
  - apply rune_width_1 in Hw as (a' & s1 & [= <- <-] & Ha). rewrite <-app_assoc_str, (parse_escape _ _ Ha).
    erewrite IH; [done| |done|done]. cbn. lia.
  - apply rune_width_2 in Hw as (a' & b & s2 & [= <- ->] & Ha & Hw). apply high_byte in Ha as (Hq & Hb & Hc).
    rewrite !append_String. cbn [parse_string]. rewrite Hq, Hb, Hc, Hw. erewrite IH; [done| |done|done]. cbn. lia.
  - apply rune_width_3 in Hw as (a' & b & c & s3 & [= <- ->] & Ha & Hw). apply high_byte in Ha as (Hq & Hb & Hc).
    destruct (separator a b c) eqn:Hs.
    + etrans; [exact (parse_separator a b c (quote_body s3 +:+ String quote rest) Hs)|].
      erewrite IH; [done| |done|done]. cbn. lia.
    + rewrite !append_String. cbn [parse_string]. rewrite Hq, Hb, Hc, Hw. erewrite IH; [done| |done|done]. cbn. lia.
  - apply rune_width_4 in Hw as (a' & b & c & d & s4 & [= <- ->] & Ha & Hw). apply high_byte in Ha as (Hq & Hb & Hc).
    rewrite !append_String. cbn [parse_string]. rewrite Hq, Hb, Hc, Hw. erewrite IH; [done| |done|done]. cbn. lia.
Qed.

(** ** Numbers *)

Definition is_digit (a : ascii) : bool := in_range 48 57 a.
#[local] Arguments is_digit : simpl never.
#[local] Arguments Ascii.eqb : simpl never.
#[local] Arguments prepend : simpl never.

Fixpoint span_digits (s : string) : string * string :=
  match s with
  | String a s1 => if is_digit a then (String a (span_digits s1).1, (span_digits s1).2) else ("", s)
  | "" => ("", "")
  end.
Definition some_digits (s : string) : option (string * string) :=
  match span_digits s with ("", _) => None | (d, r) => Some (d, r) end.

(** The parts of a number: a sign, digits that start with 0 only if they are 0, a
    fraction, an exponent. *)
Definition scan_int (s : string) : option (string * string) :=
  match s with
  | String a s1 => if Ascii.eqb a "0" then Some ("0", s1) else some_digits s
  | "" => None
  end.
Definition scan_sign (s : string) : option (string * string) :=
  match s with String a s1 => if Ascii.eqb a "-" then Some ("-", s1) else Some ("", s) | "" => Some ("", "") end.
Definition scan_frac (s : string) : option (string * string) :=
  match s with String a s1 => if Ascii.eqb a "." then prepend "." (some_digits s1) else Some ("", s) | "" => Some ("", "") end.
Definition scan_exp (s : string) : option (string * string) :=
  match s with
  | String a s1 =>
    if Ascii.eqb a "e" || Ascii.eqb a "E" then
      prepend (String a "")
        match s1 with
        | String b s2 => if Ascii.eqb b "+" || Ascii.eqb b "-" then prepend (String b "") (some_digits s2) else some_digits s1
        | "" => None
        end
    else Some ("", s)
  | "" => Some ("", "")
  end.
Definition then_scan (f g : string → option (string * string)) (s : string) : option (string * string) :=
  match f s with Some (p, r) => prepend p (g r) | None => None end.
Definition scan_number : string → option (string * string) :=
  then_scan scan_sign (then_scan scan_int (then_scan scan_frac scan_exp)).

(** [isValidNumber] *)
Definition valid_number (s : string) : bool :=
  match scan_number s with Some (_, "") => true | _ => false end.

Example number_ex : scan_number "-0.50e+3,1" = Some ("-0.50e+3", ",1").
Proof. reflexivity. Qed.
Example number_bad : map scan_number ["."; "1."; "-"; "1e"; "+1"] = [None; None; None; None; None] ∧ valid_number "01" = false.
Proof. split; reflexivity. Qed.

(** What a number cannot go on with. *)
Definition num_char (a : ascii) : bool := is_digit a || Ascii.eqb a "." || Ascii.eqb a "e" || Ascii.eqb a "E" || Ascii.eqb a "+" || Ascii.eqb a "-".
Definition ends (s : string) : Prop := match s with String a _ => num_char a = false | "" => True end.

(** A scanner reads a prefix of its input, and text that no number goes on with does
    not change what it reads. *)
Definition scanner (f : string → option (string * string)) : Prop :=
  ∀ s p r, f s = Some (p, r) → s = p +:+ r ∧ ∀ t, ends t → f (s +:+ t) = Some (p, r +:+ t).

Lemma ends_digit a s : ends (String a s) → is_digit a = false ∧ Ascii.eqb a "." = false ∧ (Ascii.eqb a "e" || Ascii.eqb a "E") = false ∧ Ascii.eqb a "-" = false.
Proof. cbn. unfold num_char. intros H. repeat (apply orb_false_iff in H as [H ?]). by repeat split; try apply orb_false_iff. Qed.

Lemma span_digits_spec s : s = (span_digits s).1 +:+ (span_digits s).2 ∧
  ∀ t, ends t → span_digits (s +:+ t) = ((span_digits s).1, (span_digits s).2 +:+ t).
Proof.
  induction s as [|a s [IH1 IH2]]; cbn.
  - split; [done|]. intros [|a t] Ht; [done|]. apply ends_digit in Ht as (Ha & _). rewrite !append_nil. cbn. by rewrite Ha.
  - destruct (is_digit a) eqn:Ha; cbn.
    + split; [by rewrite append_String, <-IH1|]. intros t Ht. rewrite append_String. cbn. by rewrite Ha, IH2.
    + split; [done|]. intros t Ht. rewrite append_String. cbn. by rewrite Ha.
Qed.
Lemma some_digits_scanner : scanner some_digits.
Proof.
  intros s p r. unfold some_digits. destruct (span_digits_spec s) as [H1 H2]. destruct (span_digits s) as [[|a d] r']; [done|].
  intros [= <- <-]. split; [done|]. intros t Ht. by rewrite H2.
Qed.
Lemma prepend_Some q x p r : prepend q x = Some (p, r) → ∃ p', x = Some (p', r) ∧ p = q +:+ p'.
Proof. destruct x as [[p' r']|]; [|done]. intros [= <- <-]. eauto. Qed.
Lemma scan_int_scanner : scanner scan_int.
Proof.
  intros [|a s] p r; [done|]. unfold scan_int. intros H. destruct (Ascii.eqb_spec a "0") as [->|Ha].
  - injection H as <- <-. split; [done|]. done.
  - destruct (some_digits_scanner _ _ _ H) as [H1 H2]. split; [done|]. intros t Ht. rewrite append_String.
    apply Ascii.eqb_neq in Ha. rewrite Ha. rewrite <-append_String. by apply H2.
Qed.
Lemma scan_sign_scanner : scanner scan_sign.
Proof.
  intros [|a s] p r H; cbn in H.
  - injection H as <- <-. split; [done|]. intros [|a t] Ht; [done|]. apply ends_digit in Ht as (_ & _ & _ & Ha). rewrite !append_nil. cbn. by rewrite Ha.
  - destruct (Ascii.eqb_spec a "-") as [->|Ha]; injection H as <- <-; (split; [done|]); intros t Ht; rewrite append_String; cbn; [done|].
    apply Ascii.eqb_neq in Ha. by rewrite Ha.
Qed.
Lemma scan_frac_scanner : scanner scan_frac.
Proof.
  intros [|a s] p r H; cbn in H.
  - injection H as <- <-. split; [done|]. intros [|a t] Ht; [done|]. apply ends_digit in Ht as (_ & Ha & _). rewrite !append_nil. cbn. by rewrite Ha.
  - destruct (Ascii.eqb_spec a ".") as [->|Ha].
    + apply prepend_Some in H as (p' & H & ->). destruct (some_digits_scanner _ _ _ H) as [-> H2]. split; [done|].
      intros t Ht. rewrite append_String. cbn. by rewrite H2.
    + injection H as <- <-. split; [done|]. intros t Ht. rewrite append_String. cbn. apply Ascii.eqb_neq in Ha. by rewrite Ha.
Qed.
Lemma scan_exp_scanner : scanner scan_exp.
Proof.
  intros [|a s] p r H; cbn in H.
  - injection H as <- <-. split; [done|]. intros [|a t] Ht; [done|]. apply ends_digit in Ht as (_ & _ & Ha & _). rewrite !append_nil. cbn. by rewrite Ha.
  - destruct (Ascii.eqb a "e" || Ascii.eqb a "E") eqn:Ha.
    + apply prepend_Some in H as (p' & H & ->). destruct s as [|b s]; [done|].
      destruct (Ascii.eqb b "+" || Ascii.eqb b "-") eqn:Hb.
      * apply prepend_Some in H as (p2 & H & ->). destruct (some_digits_scanner _ _ _ H) as [-> H2]. split; [done|].
        intros t Ht. rewrite !append_String. cbn. by rewrite Ha, Hb, H2.
      * destruct (some_digits_scanner _ _ _ H) as [H1 H2]. split; [by rewrite H1|].
        intros t Ht. specialize (H2 t Ht). rewrite append_String in H2. rewrite !append_String. cbn. by rewrite Ha, Hb, H2.
    + injection H as <- <-. split; [done|]. intros t Ht. rewrite append_String. cbn. by rewrite Ha.
Qed.
Lemma then_scan_scanner f g : scanner f → scanner g → scanner (then_scan f g).
Proof.
  intros Hf Hg s p r. unfold then_scan. destruct (f s) as [[p1 r1]|] eqn:E; [|done].
  intros (p2 & H & ->)%prepend_Some. destruct (Hf _ _ _ E) as [-> Hf2]. destruct (Hg _ _ _ H) as [-> Hg2].
  split; [by rewrite app_assoc_str|]. intros t Ht. by rewrite Hf2, Hg2.
Qed.
Lemma scan_number_scanner : scanner scan_number.
Proof.
  apply then_scan_scanner; [apply scan_sign_scanner|]. apply then_scan_scanner; [apply scan_int_scanner|].
  apply then_scan_scanner; [apply scan_frac_scanner|apply scan_exp_scanner].
Qed.

Lemma scan_valid_number lit t : valid_number lit = true → ends t → scan_number (lit +:+ t) = Some (lit, t).
Proof.
  unfold valid_number. destruct (scan_number lit) as [[p []]|] eqn:E; try done. intros _ Ht.
  destruct (scan_number_scanner _ _ _ E) as [H1 H2]. rewrite app_empty_r in H1. subst p. by rewrite H2.
Qed.
(** A number starts with a digit or a minus sign. *)
Definition num_start (a : ascii) : bool := is_digit a || Ascii.eqb a "-".
Lemma some_digits_start s p r : some_digits s = Some (p, r) → ∃ a s', s = String a s' ∧ is_digit a = true.
Proof. destruct s as [|a s]; [done|]. unfold some_digits. cbn. destruct (is_digit a) eqn:E; [by eauto|done]. Qed.
Lemma scan_number_start s p r : scan_number s = Some (p, r) → ∃ a s', s = String a s' ∧ num_start a = true ∧ p ≠ "".
Proof.
  destruct s as [|a s]; [done|]. unfold scan_number, then_scan at 1. cbn. destruct (Ascii.eqb_spec a "-") as [->|Ha].
  - intros (p' & _ & ->)%prepend_Some. eexists _, _. split_and!; [done..|]. by destruct p'.
  - unfold then_scan at 1. cbn. intros (p1 & H & ->)%prepend_Some. destruct (Ascii.eqb_spec a "0") as [->|Ha0].
    + apply prepend_Some in H as (p2 & _ & ->). eexists _, _. split_and!; [done..|]. by destruct p2.
    + destruct (some_digits (String a s)) as [[d r1]|] eqn:E; [|done]. apply prepend_Some in H as (p2 & _ & ->).
      destruct (some_digits_start _ _ _ E) as (? & ? & [= <- <-] & Hd). eexists _, _.
      split; [done|]. unfold num_start. rewrite Hd. split; [done|]. revert E. unfold some_digits. cbn. rewrite Hd. intros [= <- _]. done.
Qed.

(** Integers print as numbers. *)
Lemma digit_facts a : is_digit a = true → Ascii.eqb a "-" = false.
Proof. destruct a as [[] [] [] [] [] [] [] []]; try discriminate; done. Qed.
Lemma pretty_N_char_digit n : (n < 10)%N → is_digit (pretty_N_char n) = true ∧ ((0 < n)%N → Ascii.eqb (pretty_N_char n) "0" = false).
Proof.
  intros Hn. destruct n as [|p]; [split; [done|lia]|]. do 4 (destruct p as [p|p|]; try done; try lia).
Qed.
Lemma pretty_N_go_number n s : (0 < n)%N → all_chars is_digit s = true →
  ∃ d r, pretty_N_go n s = String d r ∧ is_digit d = true ∧ Ascii.eqb d "0" = false ∧ all_chars is_digit r = true.
Proof.
  revert s. induction (N.lt_wf_0 n) as [n _ IH]; intros s Hn Hs. rewrite pretty_N_go_step by done.
  destruct (pretty_N_char_digit (n `mod` 10)) as [Hd H0]; [by apply N.mod_lt|].
  destruct (decide (n < 10)%N) as [Hlt|Hge].
  - rewrite N.div_small, pretty_N_go_0 by done. eexists _, _. split_and!; [done..| |done].
    apply H0. by rewrite N.mod_small.
  - apply IH; [by apply N.div_lt|apply N.div_str_pos; lia|]. cbn [all_chars]. by rewrite Hd, Hs.
Qed.
Lemma span_all s : all_chars is_digit s = true → span_digits s = (s, "").
Proof. induction s as [|a s IH]; [done|]. cbn. intros [Ha Hs]%andb_true_iff. by rewrite Ha, IH. Qed.
Lemma scan_digits d r : is_digit d = true → Ascii.eqb d "0" = false → all_chars is_digit r = true →
  then_scan scan_int (then_scan scan_frac scan_exp) (String d r) = Some (String d r, "").
Proof.
  intros Hd H0 Hr. unfold then_scan at 1. cbn. rewrite H0. unfold some_digits. cbn. rewrite Hd, span_all by done.
  cbn. unfold prepend. by rewrite app_empty_r.
Qed.
Lemma valid_Itoa z : valid_number (Itoa z) = true.
Proof.
  assert (∀ p, ∃ d r, pretty (N.pos p) = String d r ∧ is_digit d = true ∧ Ascii.eqb d "0" = false ∧ all_chars is_digit r = true) as H.
  { intros p. unfold pretty, pretty_N. rewrite decide_False by done. by apply pretty_N_go_number. }
  unfold Itoa. destruct z as [|p|p]; [reflexivity|..]; destruct (H p) as (d & r & E & Hd & H0 & Hr).
  - change (pretty (Z.pos p)) with (pretty (N.pos p)). rewrite E. unfold valid_number, scan_number, then_scan at 1. cbn [scan_sign].
    by rewrite (digit_facts d), scan_digits.
  - change (pretty (Z.neg p)) with (String "-" (pretty (N.pos p))). rewrite E. unfold valid_number, scan_number, then_scan at 1.
    cbn [scan_sign]. change (Ascii.eqb "-" "-") with true. cbn iota. by rewrite scan_digits.
Qed.

(** ** Values: [Marshal] *)

(** Keys in the order of their bytes. *)
Definition key_le (x y : string * string) : Prop := String.leb x.1 y.1 = true.
#[local] Instance key_le_dec : RelDecision key_le.
Proof. intros x y. unfold key_le. apply _. Defined.

Definition brackets (ps : list string) : string := "[" +:+ GoLib.Join ps "," +:+ "]".
Definition member (e : string * string) : string := quoted e.1 +:+ ":" +:+ e.2.
Definition braces (es : list (string * string)) : string := "{" +:+ GoLib.Join (map member (merge_sort key_le es)) "," +:+ "}".

Fixpoint print (v : value) : option string :=
  match v with
  | VNil => Some "null"
  | VBool b => Some (if b then "true" else "false")
  | VInt z => Some (Itoa z)
  | VNum "" => Some "0"
  | VNum lit => if valid_number lit then Some lit else None
  | VStr s => Some (quoted s)
  | VStrs l => Some (brackets (map quoted l))
  | VList l =>
    brackets <$> (fix prints (l : list value) : option (list string) :=
      match l with
      | [] => Some []
      | v :: l => match print v, prints l with Some p, Some ps => Some (p :: ps) | _, _ => None end
      end) l
  | VMap m =>
    braces <$> map_fold (λ k v acc, match print v, acc with Some p, Some es => Some ((k, p) :: es) | _, _ => None end) (Some []) m
  | VStruct _ _ => None
  end.

Example print_ex :
  print (VMap {["urls" := VStrs ["a"; "b"]; "n" := VInt (-5); "x" := VList [VNil; VBool true; VNum "1.5"]]}) =
  Some ("{" +:+ quoted "n" +:+ ":-5," +:+ quoted "urls" +:+ ":[" +:+ quoted "a" +:+ "," +:+ quoted "b" +:+ "]," +:+ quoted "x" +:+ ":[null,true,1.5]}").
Proof. vm_compute. reflexivity. Qed.

(** ** Values: decoding *)

Definition is_ws (a : ascii) : bool := Ascii.eqb a " " || Ascii.eqb a (chr 9) || Ascii.eqb a (chr 10) || Ascii.eqb a (chr 13).
Fixpoint skip_ws (s : string) : string :=
  match s with String a s1 => if is_ws a then skip_ws s1 else s | "" => "" end.
Definition literal (w : string) (v : value) (s : string) : option (value * string) :=
  if HasPrefix s w then Some (v, TrimPrefix s w) else None.

Section containers.
Context (pv : string → option (value * string)).

(** The elements of an array after its opening bracket, when it is not empty. *)
Fixpoint parse_elems (n : nat) (s : string) : option (list value * string) :=
  match n with
  | 0%nat => None
  | S n =>
    '(v, r) ← pv s;
    match skip_ws r with
    | String a r =>
      if Ascii.eqb a "," then '(vs, r) ← parse_elems n r; Some (v :: vs, r)
      else if Ascii.eqb a "]" then Some ([v], r) else None
    | "" => None
    end
  end.

(** A key, a colon and a value. *)
Definition parse_member (s : string) : option (string * value * string) :=
  match skip_ws s with
  | String a s =>
    if Ascii.eqb a quote then
      '(k, r) ← parse_string s;
      match skip_ws r with
      | String c r => if Ascii.eqb c ":" then '(v, r) ← pv r; Some (k, v, r) else None
      | "" => None
      end
    else None
  | "" => None
  end.
Fixpoint parse_members (n : nat) (s : string) : option (list (string * value) * string) :=
  match n with
  | 0%nat => None
  | S n =>
    '(k, v, r) ← parse_member s;
    match skip_ws r with
    | String a r =>
      if Ascii.eqb a "," then '(es, r) ← parse_members n r; Some ((k, v) :: es, r)
      else if Ascii.eqb a "}" then Some ([(k, v)], r) else None
    | "" => None
    end
  end.
End containers.

(** [m[key] = value] for each member in turn. *)
Definition object (es : list (string * value)) : value :=
  VMap (foldl (λ m e, <[e.1 := e.2]> m) ∅ es).

(** One value, with arrays and objects nested up to [d] deep. *)
Fixpoint parse_value (d : nat) (s : string) : option (value * string) :=
  match skip_ws s with
  | "" => None
  | String a s1 =>
    if Ascii.eqb a quote then '(x, r) ← parse_string s1; Some (VStr x, r)
    else if num_start a then '(x, r) ← scan_number (String a s1); Some (VNum x, r)
    else if Ascii.eqb a "n" then literal "ull" VNil s1
    else if Ascii.eqb a "t" then literal "rue" (VBool true) s1
    else if Ascii.eqb a "f" then literal "alse" (VBool false) s1
    else match d with
    | 0%nat => None
    | S d =>
      if Ascii.eqb a "[" then
        match skip_ws s1 with
        | String b r => if Ascii.eqb b "]" then Some (VList [], r)
                        else '(vs, r) ← parse_elems (parse_value d) (S (String.length s1)) s1; Some (VList vs, r)
        | "" => None
        end
      else if Ascii.eqb a "{" then
        match skip_ws s1 with
        | String b r => if Ascii.eqb b "}" then Some (VMap ∅, r)
                        else '(es, r) ← parse_members (parse_value d) (S (String.length s1)) s1; Some (object es, r)
        | "" => None
        end
      else None
    end
  end.

(** [maxNestingDepth] *)
Definition max_depth : nat := N.to_nat 10000.
(** [Decoder.Decode] with [UseNumber]: the first value and what is left to read;
    [Unmarshal]: nothing but white space may follow. *)
Definition decode (s : string) : option (value * string) := parse_value max_depth s.
Definition unmarshal (s : string) : option value :=
  '(v, r) ← decode s; match skip_ws r with "" => Some v | _ => None end.

Example unmarshal_ex :
  unmarshal (" { " +:+ quoted "a" +:+ ":[1 , {}, []], " +:+ quoted "a" +:+ " : 2e1}" +:+ String (chr 10) "") = Some (VMap {["a" := VNum "2e1"]}).
Proof. vm_compute. reflexivity. Qed.
Example unmarshal_bad :
  map unmarshal ["[1,]"; "01"; "nul"; "{}x"; ""; "[1 2]"] = [None; None; None; None; None; None].
Proof. vm_compute. reflexivity. Qed.

(** ** Decoding what was encoded *)

(** What a value is read back as. *)
Fixpoint norm (v : value) : value :=
  match v with
  | VInt z => VNum (Itoa z)
  | VNum "" => VNum "0"
  | VStrs l => VList (map VStr l)
  | VList l => VList (map norm l)
  | VMap m => VMap (norm <$> m)
  | v => v
  end.
(** All strings and keys are UTF-8. *)
Fixpoint utf8_value (v : value) : bool :=
  match v with
  | VStr s => valid_utf8 s
  | VStrs l => forallb valid_utf8 l
  | VList l => forallb utf8_value l
  | VMap m | VStruct _ m => map_fold (λ k v acc, valid_utf8 k && utf8_value v && acc) true m
  | _ => true
  end.
Fixpoint height (v : value) : nat :=
  match v with
  | VStrs _ => 1
  | VList l => S (foldr (λ v acc, height v `max` acc) 0 l)
  | VMap m | VStruct _ m => S (map_fold (λ _ v acc, height v `max` acc) 0 m)
  | _ => 0
  end%nat.

(** Printed text starts with a character that is neither white space nor a closing
    bracket. *)
Definition starts (p : string) : Prop := ∃ a s, p = String a s ∧ is_ws a = false ∧ Ascii.eqb a "]" = false ∧ Ascii.eqb a "}" = false.

Lemma num_start_facts a : num_start a = true → Ascii.eqb a quote = false ∧ is_ws a = false ∧ Ascii.eqb a "]" = false ∧ Ascii.eqb a "}" = false.
Proof. destruct a as [[] [] [] [] [] [] [] []]; try discriminate; done. Qed.
Lemma valid_number_start p : valid_number p = true → ∃ a s, p = String a s ∧ num_start a = true.
Proof. unfold valid_number. destruct (scan_number p) as [[x []]|] eqn:E; try done. intros _. apply scan_number_start in E as (a & s' & -> & ? & ?). eauto. Qed.
Lemma valid_number_starts p : valid_number p = true → starts p.
Proof. intros (a & s & -> & H)%valid_number_start. apply num_start_facts in H as (_ & ? & ? & ?). by eexists _, _. Qed.
Lemma print_starts v p : print v = Some p → starts p.
Proof.
  destruct v as [|[]|z|lit|s|l|l|m|]; cbn; intros H; simplify_eq; try by (eexists _, _; repeat split).
  - apply valid_number_starts, valid_Itoa.
  - destruct lit as [|a lit]; [by simplify_eq; eexists _, _|]. destruct (valid_number _) eqn:E; simplify_eq. by apply valid_number_starts.
  - apply fmap_Some in H as (? & _ & ->). by eexists _, _.
  - apply fmap_Some in H as (? & _ & ->). by eexists _, _.
Qed.

Lemma skip_ws_starts p t : starts p → skip_ws (p +:+ t) = p +:+ t.
Proof. intros (a & s & -> & H & _). rewrite append_String. cbn. by rewrite H. Qed.

Section containers_back.
Context (pv : string → option (value * string)).

(** [pv] reads [p] as [v], whatever follows. *)
Definition reads (p : string) (v : value) : Prop := ∀ t, ends t → pv (p +:+ t) = Some (v, t).

Lemma Join_cons2 p q ps sep : GoLib.Join (p :: q :: ps) sep = p +:+ sep +:+ GoLib.Join (q :: ps) sep.
Proof. done. Qed.

Lemma parse_elems_back ps vs t n : Forall2 reads ps vs → ps ≠ [] → (List.length ps ≤ n)%nat →
  parse_elems pv n (GoLib.Join ps "," +:+ String "]" t) = Some (vs, t).
Proof.
  intros H. revert n. induction H as [|p v ps vs Hp H IH]; intros n Hne Hn; [done|]. destruct n as [|n]; [cbn in Hn; lia|].
  destruct ps as [|q ps].
  - inversion H; subst. cbn [parse_elems]. change (GoLib.Join [p] ",") with p. rewrite Hp by done. done.
  - rewrite Join_cons2, <-app_assoc_str. cbn [parse_elems]. rewrite Hp by done. cbn [mbind option_bind].
    rewrite <-app_assoc_str. cbn in Hn. rewrite append_String, append_nil. cbn [skip_ws].
    change (is_ws ",") with false. cbn iota. change (Ascii.eqb "," ",") with true. cbn iota.
    by rewrite IH by (done || (cbn; lia)).
Qed.

Lemma parse_member_back k p v t : valid_utf8 k = true → reads p v → ends t → parse_member pv (member (k, p) +:+ t) = Some (k, v, t).
Proof.
  intros Hk Hp Ht. unfold member, quoted, parse_member. rewrite !append_String. cbn [skip_ws].
  change (is_ws quote) with false. cbn iota. change (Ascii.eqb quote quote) with true. cbn iota.
  rewrite <-!app_assoc_str, !append_String, append_nil, parse_quote_body by done. cbn [mbind option_bind].
  cbn [skip_ws]. change (is_ws ":") with false. cbn iota. change (Ascii.eqb ":" ":") with true. cbn iota.
  by rewrite Hp.
Qed.
Lemma parse_members_back es vs t n :
  Forall2 (λ e v, e.1 = v.1 ∧ valid_utf8 e.1 = true ∧ reads e.2 v.2) es vs → es ≠ [] → (List.length es ≤ n)%nat →
  parse_members pv n (GoLib.Join (map member es) "," +:+ String "}" t) = Some (vs, t).
Proof.
  intros H. revert n. induction H as [|[k p] [k' v] es vs (Hk & Hu & Hp) H IH]; intros n Hne Hn; [done|]. cbn in Hk, Hu, Hp. subst k'.
  destruct n as [|n]; [cbn in Hn; lia|]. destruct es as [|e es].
  - inversion H; subst. cbn [parse_members map]. change (GoLib.Join [member (k, p)] ",") with (member (k, p)). by rewrite (parse_member_back _ _ v).
  - cbn [map]. rewrite Join_cons2, <-app_assoc_str. cbn [parse_members]. rewrite (parse_member_back _ _ v) by done. cbn [mbind option_bind].
    rewrite <-app_assoc_str. cbn in Hn. rewrite append_String, append_nil. cbn [skip_ws].
    change (is_ws ",") with false. cbn iota. change (Ascii.eqb "," ",") with true. cbn iota.
    cbn [map] in IH. by rewrite IH by (done || (cbn; lia)).
Qed.
End containers_back.

(** *** The parts of what a value prints as *)

Definition prints : list value → option (list string) :=
  fix prints (l : list value) : option (list string) :=
    match l with
    | [] => Some []
    | v :: l => match print v, prints l with Some p, Some ps => Some (p :: ps) | _, _ => None end
    end.
Lemma prints_Forall2 l ps : prints l = Some ps → Forall2 (λ p v, print v = Some p) ps l.
Proof.
  revert ps. induction l as [|v l IH]; intros ps H; cbn in H; [by simplify_eq|].
  destruct (print v) eqn:E, (prints l); simplify_eq. constructor; auto.
Qed.
Lemma members_Forall2 (m : gmap string value) (es : list (string * string)) :
  map_fold (λ k v acc, match print v, acc with Some p, Some es => Some ((k, p) :: es) | _, _ => None end) (Some []) m = Some es →
  Forall2 (λ e kv, e.1 = kv.1 ∧ print kv.2 = Some e.2) es (map_to_list m).
Proof.
  rewrite map_fold_foldr. generalize (map_to_list m). intros l. revert es. induction l as [|[k v] l IH]; intros es H; cbn in H; [by simplify_eq|].
  destruct (print v) eqn:E; [|done]. destruct (foldr _ _ l) as [es'|] eqn:E'; simplify_eq. constructor; auto.
Qed.

Lemma utf8_members (m : gmap string value) : map_fold (λ k v acc, valid_utf8 k && utf8_value v && acc) true m = true →
  Forall (λ kv, valid_utf8 kv.1 = true ∧ utf8_value kv.2 = true) (map_to_list m).
Proof.
  rewrite map_fold_foldr. induction (map_to_list m) as [|[k v] l IH]; [done|]. cbn.
  intros [[? ?]%andb_true_iff ?]%andb_true_iff. constructor; auto.
Qed.
Lemma height_members (m : gmap string value) d : (map_fold (λ _ v acc, height v `max` acc) 0 m ≤ d →
  Forall (λ kv, height kv.2 ≤ d) (map_to_list m))%nat.
Proof.
  rewrite map_fold_foldr. induction (map_to_list m) as [|[k v] l IH]; [done|]. cbn. intros H. constructor; [cbn; lia|]. apply IH. lia.
Qed.

Lemma Join_length ps sep : (0 < String.length sep → List.length ps ≤ S (String.length (GoLib.Join ps sep)))%nat.
Proof.
  intros Hs. induction ps as [|p ps IH]; [cbn; lia|]. destruct ps as [|q ps]; [cbn; lia|].
  rewrite Join_cons2, !length_app_str. cbn [List.length] in *. lia.
Qed.
Lemma Join_starts p ps sep : starts p → starts (GoLib.Join (p :: ps) sep).
Proof.
  intros (a & s & -> & H). destruct ps as [|q ps]; [by exists a, s|]. rewrite Join_cons2, append_String. by eexists _, _.
Qed.

(** Members read in turn make the map, in whatever order its keys come. *)
Lemma object_list (es : list (string * value)) m : es ≡ₚ map_to_list m → object es = VMap m.
Proof.
  intros H. unfold object. f_equal. assert (NoDup es.*1) as Hnd by (rewrite H; apply NoDup_fst_map_to_list).
  trans (list_to_map (M := gmap string value) (reverse es)).
  - clear. induction es as [|[k v] es IH] using rev_ind; [done|]. rewrite foldl_app, reverse_snoc, list_to_map_cons. cbn. by rewrite IH.
  - rewrite (list_to_map_proper _ es), (list_to_map_proper es (map_to_list m)); [apply list_to_map_to_list|done..| |].
    + by rewrite reverse_Permutation.
    + by rewrite reverse_Permutation.
Qed.

(** *** Scalars *)

Lemma literal_app w v t : literal w v (w +:+ t) = Some (v, t).
Proof. unfold literal. by rewrite HasPrefix_app, TrimPrefix_app. Qed.
Lemma parse_number_back d p t : valid_number p = true → ends t → parse_value d (p +:+ t) = Some (VNum p, t).
Proof.
  intros Hv Ht. destruct (valid_number_start p Hv) as (a & s & -> & Ha). destruct (num_start_facts a Ha) as (Hq & Hw & _).
  pose proof (scan_valid_number _ t Hv Ht) as Hs. rewrite append_String in *.
  destruct d; cbn [parse_value skip_ws]; rewrite Hw, Hq, Ha, Hs; done.
Qed.
Lemma parse_quoted_back d s t : valid_utf8 s = true → parse_value d (quoted s +:+ t) = Some (VStr s, t).
Proof.
  intros Hs. unfold quoted. rewrite append_String, <-app_assoc_str, append_String, append_nil.
  assert (∀ u, parse_value d (String quote u) = '(x, r) ← parse_string u; Some (VStr x, r)) as -> by (by destruct d).
  by rewrite parse_quote_body.
Qed.

(** *** Arrays and objects, given their parts *)

Lemma parse_brackets d ps vs t : Forall2 (reads (parse_value d)) ps vs → Forall starts ps →
  parse_value (S d) (brackets ps +:+ t) = Some (VList vs, t).
Proof.
  intros H Hst. destruct ps as [|p ps]; [by inversion H|]. unfold brackets.
  rewrite <-!app_assoc_str, !append_String, !append_nil.
  set (s1 := GoLib.Join (p :: ps) "," +:+ String "]" t).
  assert (parse_elems (parse_value d) (S (String.length s1)) s1 = Some (vs, t)) as Hp.
  { apply parse_elems_back; [done..|]. unfold s1. rewrite length_app_str. pose proof (Join_length (p :: ps) ","). cbn in *. lia. }
  inversion Hst as [|?? Hs _]; subst. destruct (Join_starts _ ps "," Hs) as (b & s2 & Hb & Hw & Hc & _).
  assert (skip_ws s1 = String b (s2 +:+ String "]" t)) as Hsk.
  { unfold s1. rewrite Hb, append_String. cbn [skip_ws]. by rewrite Hw. }
  change (match skip_ws s1 with
          | String b r => if Ascii.eqb b "]" then Some (VList [], r) else '(vs, r) ← parse_elems (parse_value d) (S (String.length s1)) s1; Some (VList vs, r)
          | "" => None end = Some (VList vs, t)).
  by rewrite Hsk, Hc, Hp.
Qed.
(** The members of an object that is not empty. *)
Lemma parse_braces_members d es vs t s1 : Forall2 (λ e v, e.1 = v.1 ∧ valid_utf8 e.1 = true ∧ reads (parse_value d) e.2 v.2) es vs → es ≠ [] →
  s1 = GoLib.Join (map member es) "," +:+ String "}" t →
  ∃ b r, skip_ws s1 = String b r ∧ Ascii.eqb b "}" = false ∧ parse_members (parse_value d) (S (String.length s1)) s1 = Some (vs, t).
Proof.
  intros H Hne ->. destruct es as [|[k p] es]; [done|].
  assert (starts (member (k, p))) as Hs by (by eexists _, _).
  destruct (Join_starts _ (map member es) "," Hs) as (b & s2 & Hb & Hw & _ & Hc). exists b, (s2 +:+ String "}" t). split_and!; [|done|].
  - cbn [map]. rewrite Hb, append_String. cbn [skip_ws]. by rewrite Hw.
  - apply parse_members_back; [done..|]. rewrite length_app_str.
    pose proof (Join_length (map member ((k, p) :: es)) ","). rewrite length_map in *. cbn in *. lia.
Qed.
Lemma parse_braces d es vs t : Forall2 (λ e v, e.1 = v.1 ∧ valid_utf8 e.1 = true ∧ reads (parse_value d) e.2 v.2) es vs →
  parse_value (S d) ("{" +:+ GoLib.Join (map member es) "," +:+ "}" +:+ t) = Some (object vs, t).
Proof.
  intros H. destruct es as [|e es]; [by inversion H|].
  rewrite !append_String, !append_nil. set (s1 := GoLib.Join (map member (e :: es)) "," +:+ String "}" t).
  destruct (parse_braces_members d (e :: es) vs t s1) as (b & r & Hsk & Hc & Hp); [done..|].
  change (match skip_ws s1 with
          | String b r => if Ascii.eqb b "}" then Some (VMap ∅, r) else '(es, r) ← parse_members (parse_value d) (S (String.length s1)) s1; Some (object es, r)
          | "" => None end = Some (object vs, t)).
  by rewrite Hsk, Hc, Hp.
Qed.

Lemma norm_map (m : gmap string value) : prod_map id norm <$> map_to_list m ≡ₚ map_to_list (norm <$> m).
Proof. by rewrite map_to_list_fmap. Qed.

(** Decoding reads a value back, at any depth that holds it. *)
Lemma print_parse v p : print v = Some p → utf8_value v = true → ∀ d, (height v ≤ d)%nat → reads (parse_value d) p (norm v).
Proof.
  intros Hp Hu d. revert v p Hp Hu.
  assert (∀ d v p, print v = Some p → utf8_value v = true → match v with VStrs _ | VList _ | VMap _ | VStruct _ _ => False | _ => True end →
    reads (parse_value d) p (norm v)) as Hscalar.
  { clear d. intros d [|b|z|lit|s|l|l|m|n m] p Hp Hu Hv t Ht; cbn in Hp; try done; simplify_eq.
    - destruct d; exact (literal_app "ull" VNil t).
    - destruct d, b; first [exact (literal_app "rue" (VBool true) t)|exact (literal_app "alse" (VBool false) t)].
    - apply parse_number_back; [apply valid_Itoa|done].
    - destruct lit as [|a lit]; [simplify_eq; by apply parse_number_back|]. destruct (valid_number _) eqn:E; simplify_eq. by apply parse_number_back.
    - by apply parse_quoted_back. }
  induction d as [|d IH]; intros v p Hp Hu Hh.
  { apply Hscalar; [done..|]. by destruct v; cbn in Hh; try lia. }
  destruct v as [|b|z|lit|s|l|l|m|n m]; try (by apply Hscalar); cbn in Hh; try done.
  - cbn in Hp. injection Hp as <-. intros t Ht. apply parse_brackets.
    + cbn in Hu. clear Hh Ht. induction l as [|s l IHl]; [constructor|]. cbn in Hu. apply andb_true_iff in Hu as [Hs Hu].
      constructor; [|by apply IHl]. intros u _. by apply parse_quoted_back.
    + apply Forall_map, Forall_true. intros s. by eexists _, _.
  - change (brackets <$> prints l = Some p) in Hp. apply fmap_Some in Hp as (ps & Hps & ->). apply prints_Forall2 in Hps.
    intros t Ht. cbn in Hu. apply parse_brackets.
    + apply le_S_n in Hh. clear Ht. induction Hps as [|q v ps l Hq Hps IHps]; [constructor|].
      cbn in Hu, Hh. apply andb_true_iff in Hu as [Hv Hu]. constructor; [apply IH; (done || lia)|]. apply IHps; [done|lia].
    + clear -Hps. induction Hps; constructor; [by eapply print_starts|done].
  - cbn [print] in Hp. apply fmap_Some in Hp as (es & Hes & ->). apply members_Forall2 in Hes. cbn [utf8_value] in Hu.
    apply utf8_members in Hu. apply le_S_n, height_members in Hh. intros t Ht.
    assert (Forall2 (λ e v, e.1 = v.1 ∧ valid_utf8 e.1 = true ∧ reads (parse_value d) e.2 v.2) es (prod_map id norm <$> map_to_list m)) as Hr.
    { clear Ht. induction Hes as [|[k q] [k' v] es l [Hk Hq] Hes IHes]; [constructor|]. cbn in Hk, Hq. subst k'.
      inversion Hu as [|?? [Hku Hvu] Hu']; inversion Hh as [|?? Hv Hh']; subst. constructor; [split_and!; [done..|by apply IH]|by apply IHes]. }
    destruct (Permutation_Forall2 (symmetry (merge_sort_Permutation key_le es)) Hr) as (vs & Hperm & Hvs).
    unfold braces. rewrite <-!app_assoc_str. rewrite (parse_braces d _ vs t Hvs). cbn [norm]. repeat f_equal.
    rewrite (object_list vs (norm <$> m)); [done|]. by rewrite <-Hperm, norm_map.
Qed.

(** [Unmarshal] of what [Marshal] wrote. *)
Lemma unmarshal_print v p : print v = Some p → utf8_value v = true → (height v ≤ max_depth)%nat → unmarshal p = Some (norm v).
Proof.
  intros Hp Hu Hh. unfold unmarshal, decode. rewrite <-(app_empty_r p) at 1. by rewrite (print_parse v p Hp Hu max_depth Hh "" I).
Qed.

(** ** What decoding produces *)

Lemma in_range_chr lo hi n : n < 256 → in_range lo hi (chr n) = (lo <=? n) && (n <=? hi).
Proof. intros H. unfold in_range, chr. by rewrite N_ascii_embedding. Qed.

(** A prefix that is one rune. *)
Definition one_rune (p : string) : Prop := ∀ t, valid_utf8 (p +:+ t) = valid_utf8 t.
Lemma one_rune_1 a : in_range 0 127 a = true → one_rune (String a "").
Proof. intros Ha t. rewrite append_String, append_nil. cbn [valid_utf8 rune_width]. by rewrite Ha. Qed.
Lemma one_rune_2 a b : (∀ t, rune_width (String a (String b t)) = 2%nat) → one_rune (String a (String b "")).
Proof. intros H t. rewrite !append_String, append_nil. cbn [valid_utf8]. by rewrite H. Qed.
Lemma one_rune_3 a b c : (∀ t, rune_width (String a (String b (String c t))) = 3%nat) → one_rune (String a (String b (String c ""))).
Proof. intros H t. rewrite !append_String, append_nil. cbn [valid_utf8]. by rewrite H. Qed.
Lemma one_rune_4 a b c d : (∀ t, rune_width (String a (String b (String c (String d t)))) = 4%nat) → one_rune (String a (String b (String c (String d "")))).
Proof. intros H t. rewrite !append_String, append_nil. cbn [valid_utf8]. by rewrite H. Qed.

Lemma in_range_true lo hi n : n < 256 → lo ≤ n ≤ hi → in_range lo hi (chr n) = true.
Proof. intros H [??]. rewrite in_range_chr by done. by apply andb_true_iff; split; apply N.leb_le. Qed.
Lemma in_range_false lo hi n : n < 256 → n < lo ∨ hi < n → in_range lo hi (chr n) = false.
Proof. intros H [?|?]; rewrite in_range_chr by done; apply andb_false_iff; [left|right]; by apply N.leb_gt. Qed.
Ltac bytes_in_range := repeat match goal with
  | |- context [in_range ?lo ?hi (chr ?n)] =>
      first [rewrite (in_range_true lo hi n) by lia | rewrite (in_range_false lo hi n) by lia | destruct (decide (n = lo))]
  end.

Lemma width_2 x y t : 194 ≤ x ≤ 223 → 128 ≤ y ≤ 191 → rune_width (String (chr x) (String (chr y) t)) = 2%nat.
Proof. intros. unfold rune_width, cont. by bytes_in_range. Qed.
Lemma width_3 x y z t : 224 ≤ x ≤ 239 → 128 ≤ y ≤ 191 → 128 ≤ z ≤ 191 → (x = 224 → 160 ≤ y) → (x = 237 → y ≤ 159) →
  rune_width (String (chr x) (String (chr y) (String (chr z) t))) = 3%nat.
Proof. intros. unfold rune_width, cont. by bytes_in_range. Qed.
Lemma width_4 x y z w t : 240 ≤ x ≤ 244 → 128 ≤ y ≤ 191 → 128 ≤ z ≤ 191 → 128 ≤ w ≤ 191 → (x = 240 → 144 ≤ y) → (x = 244 → y ≤ 143) →
  rune_width (String (chr x) (String (chr y) (String (chr z) (String (chr w) t)))) = 4%nat.
Proof. intros. unfold rune_width, cont. by bytes_in_range. Qed.

Lemma encode_rune_one r : one_rune (encode_rune r).
Proof.
  unfold encode_rune. destruct (r <? 128) eqn:H1; [|destruct (r <? 2048) eqn:H2; [|destruct (_ || _) eqn:H3; [apply one_rune_3; intros t; reflexivity|destruct (r <? 65536) eqn:H4]]];
    rewrite ?orb_false_iff, ?andb_false_iff, ?N.ltb_lt, ?N.ltb_ge, ?N.leb_gt in *.
  - apply one_rune_1. apply in_range_true; lia.
  - apply one_rune_2. intros t. apply width_2; zify; Z.to_euclidean_division_equations; lia.
  - apply one_rune_3. intros t. apply width_3; zify; Z.to_euclidean_division_equations; lia.
  - apply one_rune_4. intros t. apply width_4; zify; Z.to_euclidean_division_equations; lia.
Qed.

Lemma prepend_rune p s x r : one_rune p → prepend p (parse_string s) = Some (x, r) →
  (∀ x', parse_string s = Some (x', r) → valid_utf8 x' = true ∧ (String.length r < String.length s)%nat) →
  valid_utf8 x = true ∧ (String.length r < String.length s)%nat.
Proof. intros Hp (x' & H & ->)%prepend_Some IH. rewrite Hp. by apply IH. Qed.
Lemma simple_escape_ascii e x : simple_escape e = Some x → in_range 0 127 x = true.
Proof. unfold simple_escape. destruct e as [[] [] [] [] [] [] [] []]; vm_compute; intros; simplify_eq; reflexivity. Qed.

(** A string literal gives valid UTF-8, whatever its bytes. *)
Lemma parse_string_valid s x r : parse_string s = Some (x, r) → valid_utf8 x = true ∧ (String.length r < String.length s)%nat.
Proof.
  remember (String.length s) as n eqn:Hn. revert s x Hn. induction n as [n IH] using lt_wf_ind. intros s x -> H.
  destruct s as [|a s]; [done|].
  assert (∀ p s', (String.length s' ≤ String.length s)%nat → one_rune p → prepend p (parse_string s') = Some (x, r) →
    valid_utf8 x = true ∧ (String.length r < String.length (String a s))%nat) as Hp.
  { intros p s' Hl Hr Hs. destruct (prepend_rune _ _ _ _ Hr Hs) as [??]; [|split; [done|cbn; lia]].
    intros x' Hx. eapply IH; [|done|exact Hx]. cbn. lia. }
  cbn [parse_string] in H. destruct (Ascii.eqb a quote); [simplify_eq; split; [done|cbn; lia]|].
  destruct (Ascii.eqb a backslash).
  - destruct s as [|e s]; [done|]. destruct (Ascii.eqb e "u").
    + destruct s as [|h1 [|h2 [|h3 [|h4 s]]]]; try done. destruct (u4 h1 h2 h3 h4) as [rr|]; [|done].
      repeat (case_match; try done); (eapply Hp; [|apply encode_rune_one|exact H]); subst; cbn; lia.
    + destruct (simple_escape e) eqn:He; [|done]. eapply Hp; [|by eapply one_rune_1, simple_escape_ascii|exact H]. cbn. lia.
  - destruct (_ <? 32); [done|]. destruct (rune_width (String a s)) as [|[|[|[|[|w]]]]] eqn:Hw.
    + eapply Hp; [|apply encode_rune_one|exact H]. lia.
    + apply rune_width_1 in Hw as (? & ? & [= <- <-] & Ha). eapply Hp; [|by apply one_rune_1|exact H]. lia.
    + apply rune_width_2 in Hw as (? & ? & ? & [= <- ->] & _ & Hw). eapply Hp; [|by apply one_rune_2|exact H]. cbn. lia.
    + apply rune_width_3 in Hw as (? & ? & ? & ? & [= <- ->] & _ & Hw). eapply Hp; [|by apply one_rune_3|exact H]. cbn. lia.
    + apply rune_width_4 in Hw as (? & ? & ? & ? & ? & [= <- ->] & _ & Hw). eapply Hp; [|by apply one_rune_4|exact H]. cbn. lia.
    + eapply Hp; [|apply encode_rune_one|exact H]. lia.
Qed.

(** *** A number that was read is a number *)

(** A scanner decides on what follows by its first character. *)
Definition local_scanner (f : string → option (string * string)) : Prop :=
  ∀ p q r, f (p +:+ q +:+ r) = Some (p, q +:+ r) → f (p +:+ q) = Some (p, q).

Lemma span_digits_local p q r : span_digits (p +:+ q +:+ r) = (p, q +:+ r) → span_digits (p +:+ q) = (p, q).
Proof.
  induction p as [|a p IH]; [|rewrite !append_String]; cbn.
  - rewrite !append_nil. destruct q as [|b q]; [done|]. rewrite append_String. cbn. by destruct (is_digit b).
  - destruct (is_digit a); [|done]. intros [= H1 H2]. rewrite IH; [done|]. rewrite (surjective_pairing (span_digits _)). by rewrite H1, H2.
Qed.
Lemma some_digits_local : local_scanner some_digits.
Proof.
  intros p q r. unfold some_digits. destruct (span_digits (p +:+ q +:+ r)) as [[|a p'] r'] eqn:E; [done|]. intros [= <- ->].
  by rewrite (span_digits_local _ _ _ E).
Qed.
Lemma some_digits_nonempty s r : some_digits s ≠ Some ("", r).
Proof. unfold some_digits. by destruct (span_digits s) as [[|??] ?]. Qed.
Lemma scan_sign_local : local_scanner scan_sign.
Proof.
  intros [|a p] q r; rewrite ?append_nil, ?append_String.
  - destruct q as [|b q]; [done|]. rewrite append_String. cbn. by destruct (Ascii.eqb b "-").
  - cbn. destruct (Ascii.eqb a "-") eqn:E; [|done]. intros [= <- <- _]. done.
Qed.
Lemma scan_int_local : local_scanner scan_int.
Proof.
  intros [|a p] q r; rewrite ?append_nil, ?append_String; unfold scan_int.
  - destruct (q +:+ r) as [|b s]; [done|]. destruct (Ascii.eqb b "0"); [done|]. by intros ?%some_digits_nonempty.
  - destruct (Ascii.eqb a "0") eqn:E; [by intros [= <- <- _]|]. intros H. by apply (some_digits_local (String a p) q r).
Qed.
Lemma scan_frac_local : local_scanner scan_frac.
Proof.
  intros [|a p] q r; rewrite ?append_nil, ?append_String; cbn.
  - destruct q as [|b q]; [done|]. rewrite append_String. cbn. destruct (Ascii.eqb b "."); [|done]. by intros (? & _ & ?)%prepend_Some.
  - destruct (Ascii.eqb a ".") eqn:E; [|done]. intros (p' & H & Hp)%prepend_Some.
    rewrite append_String, append_nil in Hp. injection Hp as -> ->. by rewrite (some_digits_local _ _ _ H).
Qed.
Lemma scan_exp_local : local_scanner scan_exp.
Proof.
  intros [|a p] q r; rewrite ?append_nil, ?append_String; cbn.
  - destruct q as [|b q]; [done|]. rewrite append_String. cbn. destruct (_ || _); [|done]. by intros (? & _ & ?)%prepend_Some.
  - destruct (Ascii.eqb a "e" || Ascii.eqb a "E") eqn:E; [|done]. intros (p' & H & Hp)%prepend_Some.
    rewrite append_String, append_nil in Hp. injection Hp as ->. destruct p' as [|b p]; rewrite ?append_nil, ?append_String in *.
    + destruct (q +:+ r) as [|c s]; [done|]. destruct (_ || _) in H; [by apply prepend_Some in H as (? & _ & ?)|by apply some_digits_nonempty in H].
    + destruct (Ascii.eqb b "+" || Ascii.eqb b "-").
      * apply prepend_Some in H as (p2 & H & Hp). rewrite append_String, append_nil in Hp. injection Hp as ->. by rewrite (some_digits_local _ _ _ H).
      * pose proof (some_digits_local (String b p) _ _ H) as Hl. rewrite append_String in Hl. by rewrite Hl.
Qed.
Lemma then_scan_local f g : scanner f → scanner g → local_scanner f → local_scanner g → local_scanner (then_scan f g).
Proof.
  intros Hf Hg Lf Lg p q r. unfold then_scan. destruct (f _) as [[p1 r1]|] eqn:E; [|done].
  intros (p2 & H & ->)%prepend_Some. destruct (Hf _ _ _ E) as [Es _], (Hg _ _ _ H) as [-> _].
  rewrite <-app_assoc_str in E. rewrite (app_assoc_str p2 q r) in E. rewrite <-app_assoc_str, (Lf _ _ _ E), (Lg _ _ _ H). done.
Qed.
Lemma scan_number_local : local_scanner scan_number.
Proof.
  repeat apply then_scan_local;
    auto using scan_sign_local, scan_int_local, scan_frac_local, scan_exp_local;
    repeat apply then_scan_scanner; auto using scan_sign_scanner, scan_int_scanner, scan_frac_scanner, scan_exp_scanner.
Qed.
Lemma scan_number_valid s p r : scan_number s = Some (p, r) → valid_number p = true ∧ p ≠ "" ∧ (String.length r < String.length s)%nat.
Proof.
  intros H. destruct (scan_number_scanner _ _ _ H) as [-> _]. destruct (scan_number_start _ _ _ H) as (_ & _ & _ & _ & Hne).
  unfold valid_number. pose proof (scan_number_local p "" r) as Hl. rewrite append_nil, app_empty_r in Hl. rewrite Hl by done.
  split_and!; [done..|]. rewrite length_app_str. destruct p; [done|cbn; lia].
Qed.

(** *** A value that was read can be written, and is read back as itself *)

Record decoded (d : nat) (v : value) : Prop := {
  decoded_print : is_Some (print v);
  decoded_utf8 : utf8_value v = true;
  decoded_height : (height v ≤ d)%nat;
  decoded_norm : norm v = v;
}.

Lemma skip_ws_length s : (String.length (skip_ws s) ≤ String.length s)%nat.
Proof. induction s as [|a s IH]; [done|]. cbn. destruct (is_ws a); cbn; lia. Qed.
Lemma skip_ws_cons s a r : skip_ws s = String a r → (String.length r < String.length s)%nat.
Proof. intros H. pose proof (skip_ws_length s). rewrite H in *. cbn in *. lia. Qed.

Section containers_ok.
Context (pv : string → option (value * string)) (P : value → Prop).
Hypothesis Hpv : ∀ s v r, pv s = Some (v, r) → P v ∧ (String.length r < String.length s)%nat.

Lemma parse_elems_ok n s vs r : parse_elems pv n s = Some (vs, r) → Forall P vs ∧ (String.length r < String.length s)%nat.
Proof.
  revert s vs r. induction n as [|n IH]; intros s vs r H; [done|]. cbn in H.
  destruct (pv s) as [[v r1]|] eqn:E; [|done]. apply Hpv in E as [Hv Hl]. cbn in H.
  destruct (skip_ws r1) as [|a r2] eqn:Ew; [done|]. apply skip_ws_cons in Ew. destruct (Ascii.eqb a ",").
  - destruct (parse_elems pv n r2) as [[vs' r3]|] eqn:E2; [|done]. apply IH in E2 as [Hvs Hl2]. cbn in H. simplify_eq.
    split; [by constructor|lia].
  - destruct (Ascii.eqb a "]"); simplify_eq. split; [by repeat constructor|lia].
Qed.
Lemma parse_member_ok s k v r : parse_member pv s = Some (k, v, r) → valid_utf8 k = true ∧ P v ∧ (String.length r < String.length s)%nat.
Proof.
  unfold parse_member. destruct (skip_ws s) as [|a s1] eqn:Ew; [done|]. apply skip_ws_cons in Ew. destruct (Ascii.eqb a quote); [|done].
  destruct (parse_string s1) as [[k' r1]|] eqn:Ek; [|done]. apply parse_string_valid in Ek as [Hk Hl]. cbn.
  destruct (skip_ws r1) as [|c r2] eqn:Ew1; [done|]. apply skip_ws_cons in Ew1. destruct (Ascii.eqb c ":"); [|done].
  destruct (pv r2) as [[v' r3]|] eqn:Ev; [|done]. apply Hpv in Ev as [Hv Hl2]. cbn. intros H. simplify_eq. split_and!; [done..|lia].
Qed.
Lemma parse_members_ok n s es r : parse_members pv n s = Some (es, r) →
  Forall (λ e, valid_utf8 e.1 = true ∧ P e.2) es ∧ (String.length r < String.length s)%nat.
Proof.
  revert s es r. induction n as [|n IH]; intros s es r H; [done|]. cbn in H.
  destruct (parse_member pv s) as [[[k v] r1]|] eqn:E; [|done]. apply parse_member_ok in E as (Hk & Hv & Hl). cbn in H.
  destruct (skip_ws r1) as [|a r2] eqn:Ew; [done|]. apply skip_ws_cons in Ew. destruct (Ascii.eqb a ",").
  - destruct (parse_members pv n r2) as [[vs' r3]|] eqn:E2; [|done]. apply IH in E2 as [Hvs Hl2]. cbn in H. simplify_eq.
    split; [by constructor|lia].
  - destruct (Ascii.eqb a "}"); simplify_eq. split; [by repeat constructor|lia].
Qed.

(** Each element takes at least one character, so more fuel than characters changes
    nothing. *)
Lemma parse_elems_fuel n m s : (String.length s ≤ n → String.length s ≤ m → parse_elems pv n s = parse_elems pv m s)%nat.
Proof.
  revert m s. induction n as [|n IH]; intros [|m] s Hn Hm; try done.
  1-2: assert (pv s = None) as E by (destruct (pv s) as [[v r]|] eqn:E; [apply Hpv in E as [_ ?]; lia|done]); cbn; by rewrite E.
  cbn. destruct (pv s) as [[v r]|] eqn:E; [|done]. apply Hpv in E as [_ Hl]. cbn.
  destruct (skip_ws r) as [|a r2] eqn:Ew; [done|]. apply skip_ws_cons in Ew. by rewrite (IH m) by lia.
Qed.
Lemma parse_members_fuel n m s : (String.length s ≤ n → String.length s ≤ m → parse_members pv n s = parse_members pv m s)%nat.
Proof.
  revert m s. induction n as [|n IH]; intros [|m] s Hn Hm; try done.
  1-2: assert (parse_member pv s = None) as E by (destruct (parse_member pv s) as [[[k v] r]|] eqn:E; [apply parse_member_ok in E as (_ & _ & ?); lia|done]);
    cbn; by rewrite E.
  cbn. destruct (parse_member pv s) as [[[k v] r]|] eqn:E; [|done]. apply parse_member_ok in E as (_ & _ & Hl). cbn.
  destruct (skip_ws r) as [|a r2] eqn:Ew; [done|]. apply skip_ws_cons in Ew. by rewrite (IH m) by lia.
Qed.
End containers_ok.

Lemma object_Forall (Q : string * value → Prop) es :
  Forall Q es → ∃ m, object es = VMap m ∧ map_Forall (λ k v, Q (k, v)) m.
Proof.
  intros H. unfold object. eexists. split; [done|]. induction es as [|[k v] es IH] using rev_ind; [apply map_Forall_empty|].
  rewrite foldl_app. apply Forall_app in H as [H1 H2]. inversion H2; subst. cbn. apply map_Forall_insert_2; auto.
Qed.

Lemma decoded_list d vs : Forall (decoded d) vs → decoded (S d) (VList vs).
Proof.
  intros H. split.
  - change (is_Some (brackets <$> prints vs)). rewrite fmap_is_Some. induction H as [|v vs [[p Hp] _ _ _] _ [ps IH]]; [by eexists|].
    cbn. rewrite Hp. change (is_Some match prints vs with Some ps => Some (p :: ps) | None => None end). rewrite IH. by eexists.
  - cbn. induction H as [|v vs [_ Hu _ _] _ IH]; [done|]. cbn. by rewrite Hu.
  - cbn. apply le_n_S. induction H as [|v vs [_ _ Hh _] _ IH]; cbn; lia.
  - cbn. f_equal. induction H as [|v vs [_ _ _ Hn] _ IH]; [done|]. cbn. by rewrite Hn, IH.
Qed.
Lemma decoded_map d (m : gmap string value) : map_Forall (λ k v, valid_utf8 k = true ∧ decoded d v) m → decoded (S d) (VMap m).
Proof.
  intros Hm. pose proof (proj1 (map_Forall_to_list _ _) Hm) as H. split.
  - cbn. rewrite fmap_is_Some, map_fold_foldr. induction H as [|[k v] l [_ [[p Hp] _ _ _]] _ [es IH]]; [by eexists|].
    cbn. rewrite Hp, IH. by eexists.
  - cbn. rewrite map_fold_foldr. induction H as [|[k v] l [Hk [_ Hu _ _]] _ IH]; [done|]. cbn in *. by rewrite Hk, Hu.
  - cbn. apply le_n_S. rewrite map_fold_foldr. induction H as [|[k v] l [_ [_ _ Hh _]] _ IH]; cbn in *; lia.
  - cbn. f_equal. rewrite <-(map_fmap_id m) at 2. apply map_fmap_ext. intros k v Hk. apply (Hm k v Hk).
Qed.

Lemma decoded_scalar d v : is_Some (print v) → utf8_value v = true → height v = 0%nat → norm v = v → decoded d v.
Proof. intros ??? ?. split; [done..|lia|done]. Qed.
Lemma literal_ok w x s v r : literal w x s = Some (v, r) → v = x ∧ (String.length r ≤ String.length s)%nat.
Proof.
  unfold literal. destruct (HasPrefix s w) eqn:E; [|done]. intros [= <- <-]. apply HasPrefix_true in E as [t ->].
  rewrite TrimPrefix_app, length_app_str. split; [done|lia].
Qed.
(** The values that are neither arrays nor objects. *)
Lemma scalar_ok d a s1 v r rest :
  (if Ascii.eqb a quote then '(x, r) ← parse_string s1; Some (VStr x, r)
   else if num_start a then '(x, r) ← scan_number (String a s1); Some (VNum x, r)
   else if Ascii.eqb a "n" then literal "ull" VNil s1
   else if Ascii.eqb a "t" then literal "rue" (VBool true) s1
   else if Ascii.eqb a "f" then literal "alse" (VBool false) s1
   else rest) = Some (v, r) →
  (rest = Some (v, r) → decoded d v ∧ (String.length r ≤ String.length s1)%nat) →
  decoded d v ∧ (String.length r ≤ String.length s1)%nat.
Proof.
  intros H Hrest. destruct (Ascii.eqb a quote).
  { destruct (parse_string s1) as [[x r']|] eqn:E; [|done]. apply parse_string_valid in E as [Hx Hl]. cbn in H. simplify_eq.
    split; [|lia]. by apply decoded_scalar. }
  destruct (num_start a).
  { destruct (scan_number _) as [[x r']|] eqn:E; [|done]. apply scan_number_valid in E as (Hx & Hne & Hl). cbn in H, Hl. simplify_eq.
    split; [|lia]. destruct x as [|b x]; [done|]. apply decoded_scalar; try done. cbn [print]. by rewrite Hx. }
  do 3 (match type of H with (if ?b then _ else _) = _ => destruct b end;
    [apply literal_ok in H as [-> ?]; split; [by apply decoded_scalar|done]|]).
  by apply Hrest.
Qed.

(** Whatever the bytes. *)
Lemma parse_value_ok d s v r : parse_value d s = Some (v, r) → decoded d v ∧ (String.length r < String.length s)%nat.
Proof.
  revert s v r. induction d as [|d IH]; intros s v r H; cbn [parse_value] in H;
    (destruct (skip_ws s) as [|a s1] eqn:Ew; [done|]); apply skip_ws_cons in Ew;
    (match goal with |- decoded ?n _ ∧ _ => enough (decoded n v ∧ (String.length r ≤ String.length s1)%nat) as [??] by (split; [done|lia]) end);
    eapply scalar_ok; [exact H|done|exact H|]. clear H.
  destruct (Ascii.eqb a "[").
  - destruct (skip_ws s1) as [|b r1] eqn:Ew1; [done|]. apply skip_ws_cons in Ew1. destruct (Ascii.eqb b "]").
    { intros [= <- <-]. split; [by apply decoded_list|lia]. }
    destruct (parse_elems _ _ s1) as [[vs r2]|] eqn:E; [|done]. cbn. intros [= <- <-].
    apply (parse_elems_ok _ (decoded d) IH) in E as [Hvs Hl]. split; [by apply decoded_list|lia].
  - destruct (Ascii.eqb a "{"); [|done]. destruct (skip_ws s1) as [|b r1] eqn:Ew1; [done|]. apply skip_ws_cons in Ew1. destruct (Ascii.eqb b "}").
    { intros [= <- <-]. split; [apply decoded_map, map_Forall_empty|lia]. }
    destruct (parse_members _ _ s1) as [[es r2]|] eqn:E; [|done]. cbn. intros [= <- <-].
    apply (parse_members_ok _ (decoded d) IH) in E as [Hes Hl]. apply object_Forall in Hes as (m & -> & Hm). split; [by apply decoded_map|lia].
Qed.
Lemma unmarshal_decoded s v : unmarshal s = Some v → decoded max_depth v.
Proof.
  unfold unmarshal, decode. destruct (parse_value max_depth s) as [[v' r]|] eqn:E; [|done]. cbn.
  destruct (skip_ws r); intros; simplify_eq. by apply parse_value_ok in E as [? _].
Qed.

(** Text determines the value it was written for, up to how numbers and slices are
    held. *)
Lemma print_inj v1 v2 p : print v1 = Some p → print v2 = Some p → utf8_value v1 = true → utf8_value v2 = true →
  (height v1 ≤ max_depth → height v2 ≤ max_depth → norm v1 = norm v2)%nat.
Proof.
  intros H1 H2 U1 U2 D1 D2. apply unmarshal_print in H1, H2; try done. congruence.
Qed.

(** ** Structs *)

(** [foldName] of [encoding/json]: letters of any case, with the two runes that fold
    to ASCII letters (U+017F and U+212A). *)
Fixpoint fold_name (s : string) : string :=
  match s with
  | "" => ""
  | String a s1 =>
    match s1 with
    | String b s2 =>
      if Ascii.eqb a (chr 197) && Ascii.eqb b (chr 191) then String "s" (fold_name s2)
      else match s2 with
           | String c s3 => if Ascii.eqb a (chr 226) && Ascii.eqb b (chr 132) && Ascii.eqb c (chr 170) then String "k" (fold_name s3)
                            else String (lower a) (fold_name s1)
           | "" => String (lower a) (fold_name s1)
           end
    | "" => String (lower a) ""
    end
  end.

(** The text of a struct, its fields in the order of the declaration. *)
Definition struct_text (es : list (string * string)) : string := "{" +:+ GoLib.Join (map member es) "," +:+ "}".

(** Decoding into a struct: the members in the order of the text, or [null], which
    leaves the struct as it is; no other value fits. *)
Definition decode_object (s : string) : option (option (list (string * value))) :=
  match skip_ws s with
  | String a s1 =>
    if Ascii.eqb a "{" then
      match skip_ws s1 with
      | String b _ =>
        if Ascii.eqb b "}" then Some (Some [])
        else '(es, _) ← parse_members (parse_value (Nat.pred max_depth)) (S (String.length s1)) s1; Some (Some es)
      | "" => None
      end
    else '(v, _) ← decode s; match v with VNil => Some None | _ => None end
  | "" => None
  end.

Lemma decode_struct es vs t : Forall2 (λ e v, e.1 = v.1 ∧ valid_utf8 e.1 = true ∧ reads (parse_value (Nat.pred max_depth)) e.2 v.2) es vs → es ≠ [] →
  decode_object (struct_text es +:+ t) = Some (Some vs).
Proof.
  intros H Hne. unfold struct_text. rewrite <-!app_assoc_str. set (s1 := GoLib.Join (map member es) "," +:+ ("}" +:+ t)).
  destruct (parse_braces_members (Nat.pred max_depth) es vs t s1) as (b & r & Hsk & Hc & Hp); [done..|].
  change (match skip_ws s1 with
          | String b _ => if Ascii.eqb b "}" then Some (Some [])
                          else '(es, _) ← parse_members (parse_value (Nat.pred max_depth)) (S (String.length s1)) s1; Some (Some es)
          | "" => None
          end = Some (Some vs)).
  by rewrite Hsk, Hc, Hp.
Qed.
Lemma decode_object_ok s es : decode_object s = Some (Some es) → Forall (λ e, valid_utf8 e.1 = true ∧ decoded (Nat.pred max_depth) e.2) es.
Proof.
  unfold decode_object. destruct (skip_ws s) as [|a s1]; [done|]. destruct (Ascii.eqb a "{").
  - destruct (skip_ws s1) as [|b r]; [done|]. destruct (Ascii.eqb b "}"); [by intros [= <-]|].
    destruct (parse_members _ _ s1) as [[es' r']|] eqn:E; [|done]. cbn. intros [= <-].
    by apply (parse_members_ok _ _ (parse_value_ok _)) in E as [? _].
  - destruct (decode s) as [[v r]|]; [|done]. cbn. by destruct v.
Qed.
