(* ===== verification/Arweave.v ===== *)
(** * Replacing asset links ([app/arweave])

    The resolver asks a batch service which links have a copy and appends the id of
    the copy to the link it gives; [ReplaceAssetUrls] puts the answers into a claim
    search result, [ReplaceAssetUrl] into one claim.  The instance of [Arweave] at the
    end is what the query hooks of [Caller.v] and [Access.v] call.

    Parameters: the batch service ([ArfleetIO]), JSON encoding and decoding, the
    gjson and sjson libraries on encoded JSON ([JsonLib]), parsing and printing of a
    URL around its query string ([NetUrl]).  The order in which Go ranges over a map
    ([RangeOrder]) and whether a variable of a [return] is read after the call beside
    it ([ReturnOrder]) are left open by the language. *)

From stdpp Require Import sorting.
From S2P Require Import Prelude GoLib Rpc Errors Query Services Hashes Caller Access Cache CacheSpec Chainquery GoUrl Json.
From Stdlib Require Import Ascii String.

Local Open Scope Z_scope.
Local Open Scope string_scope.

Definition batchResolverUrl : string := "https://migrator.arfleet.zephyrdev.xyz/batch-resolve".
Definition batchClaimResolverUrl : string := "https://migrator.arfleet.zephyrdev.xyz/claims/batch-resolve".
Definition paramDataItemId : string := "data_item_id".

Record ResolveUrlResponse := mkResolveUrl { ru_URL : string; ru_URLHash : string; ru_Arfleet : string; ru_DataItemId : string; ru_Resolved : bool }.
Record ResolveClaimResponse := mkResolveClaim { rc_ClaimId : string; rc_Arfleet : string; rc_DataItemId : string; rc_Resolved : bool }.

(** A [POST] of a JSON body. *)
Class ArfleetIO (W : Type) := arfleet_Do : string → string → string → Go W Reply.

Class JsonLib (J : Type) := {
  Marshal_list : string → list string → error + string;      (* {"urls": [...]} *)
  Unmarshal_urls : string → error + gmap string ResolveUrlResponse;
  Unmarshal_claims : string → error + gmap string ResolveClaimResponse;
  Marshal : value → error + J;
  Unmarshal : J → error + value;
  gjson_String : J → string → string;                        (* Get(json, path).String() *)
  gjson_keys : J → string → list string;                     (* the keys ForEach visits *)
  sjson_Set : J → string → string → J * option error }.

Class NetUrl (U : Type) := {
  url_Parse : string → error + U;
  RawQuery : U → string;
  set_RawQuery : string → U → U;
  url_String : U → string }.

Class RangeOrder := {
  range_pairs : gmap string string → list (string * string);
  range_pairs_perm m : range_pairs m ≡ₚ map_to_list m }.
Class ReturnOrder := read_late : bool.

Section resolver.
Context {W J U : Type} `{!ArfleetIO W, !JsonLib J, !NetUrl U, !RangeOrder, !ReturnOrder}.

Record ArfleetResolver := mkResolver { ar_baseUrl : string; ar_batchResolverUrl : string; ar_batchClaimResolverUrl : string }.
Definition NewArfleetResolver (baseUrl : string) : ArfleetResolver := mkResolver baseUrl batchResolverUrl batchClaimResolverUrl.

Definition appendParams (baseUrl : string) (params : list (string * string)) : error + string :=
  match url_Parse baseUrl with
  | inl err => inl err
  | inr u =>
    let q := foldl (λ q p, Values_Add q p.1 p.2) (ParseQuery (RawQuery u)) params in
    inr (url_String (set_RawQuery (Encode q) u))
  end.

Definition arfleet_makeRequest (method url jsonData : string) : Go W string :=
  let! resp := arfleet_Do method url jsonData in
  match resp with
  | inl err => fail (EWrapf "error sending request: " err "")
  | inr (_, inl err) => fail (EWrapf "error reading response: " err "")
  | inr (status, inr body) =>
    if negb (status =? 200)%Z then fail (EText ("unexpected status code: got " +:+ Itoa status +:+ ", want 200"))
    else ret body
  end.

Definition from_sum {A} (r : error + A) : Go W A := match r with inl e => fail e | inr a => ret a end.

(** The link to a resolved copy; unresolved entries and broken links are left out. *)
Definition substitute (c : ArfleetResolver) (resolved : bool) (arfleet dataItemId : string) : option string :=
  if negb resolved then None else
  match appendParams arfleet [(paramDataItemId, dataItemId)] with
  | inl _ => None
  | inr u => Some (ar_baseUrl c +:+ u)
  end.

Definition ResolveUrls (c : ArfleetResolver) (urls : list string) : Go W (gmap string string) :=
  let! jsonData := from_sum (Marshal_list "urls" urls) in
  let! jsonResponse := arfleet_makeRequest "POST" (ar_batchResolverUrl c) jsonData in
  match Unmarshal_urls jsonResponse with
  | inl err => fail (EWrapf "error parsing json: " err "")
  | inr resolvedList => ret (omap (λ r, substitute c (ru_Resolved r) (ru_Arfleet r) (ru_DataItemId r)) resolvedList)
  end.

Definition ResolveClaims (c : ArfleetResolver) (claim_ids : list string) : Go W (gmap string string) :=
  let! jsonData := from_sum (Marshal_list "claim_ids" claim_ids) in
  let! jsonResponse := arfleet_makeRequest "POST" (ar_batchClaimResolverUrl c) jsonData in
  match Unmarshal_claims jsonResponse with
  | inl err => fail (EWrapf "error parsing json: " err "")
  | inr resolvedList => ret (omap (λ r, substitute c (rc_Resolved r) (rc_Arfleet r) (rc_DataItemId r)) resolvedList)
  end.

Definition arweave_GetClaimUrl (baseUrl claim_id : string) : Go W string :=
  let! r := ResolveClaims (NewArfleetResolver baseUrl) [claim_id] in
  ret (default "" (r !! claim_id)).

(** [var d any; return d, json.Unmarshal(jsonData, &d)] *)
Definition unmarshal_result (jsonData : J) : Go W value :=
  match Unmarshal jsonData with
  | inl err => fail err
  | inr d => ret (if read_late then d else VNil)
  end.

Definition item_path (collPath key itemPath : string) : string := collPath +:+ "." +:+ key +:+ "." +:+ itemPath.

(** The links of the items, and where each of them stands. *)
Definition collect (jsonData : J) (collPath itemPath : string) : list string * gmap string (list string) :=
  foldl (λ '(origUrls, urlPaths) key,
    let urlPath := item_path collPath key itemPath in
    let url := gjson_String jsonData urlPath in
    ((origUrls ++ [url])%list, <[url := match urlPaths !! url with Some slice => (slice ++ [urlPath])%list | None => [urlPath] end]> urlPaths))
    ([], ∅) (gjson_keys jsonData collPath).

Definition set_paths (newURL : string) (paths : list string) (jsonData : J) : J :=
  foldl (λ j path, (sjson_Set j path newURL).1) jsonData paths.

Definition arweave_ReplaceAssetUrls (baseUrl : string) (structure : value) (collPath itemPath : string) : Go W value :=
  let! jsonData := from_sum (Marshal structure) in
  let '(origUrls, urlPaths) := collect jsonData collPath itemPath in
  let! subsUrls := ResolveUrls (NewArfleetResolver baseUrl) origUrls in
  unmarshal_result (foldl (λ j '(oldURL, newURL), set_paths newURL (default [] (urlPaths !! oldURL)) j) jsonData (range_pairs subsUrls)).

Definition arweave_ReplaceAssetUrl (baseUrl : string) (structure : value) (path : string) : Go W value :=
  let! jsonData := from_sum (Marshal structure) in
  let origUrl := gjson_String jsonData path in
  let! subsUrls := ResolveUrls (NewArfleetResolver baseUrl) [origUrl] in
  let! jsonData := match subsUrls !! origUrl with
                   | None => ret jsonData
                   | Some newUrl => match sjson_Set jsonData path newUrl with
                                    | (_, Some err) => fail err
                                    | (j, None) => ret j
                                    end
                   end in
  unmarshal_result jsonData.

(** What the query hooks call. *)
Definition arweave_service : Arweave W := {|
  ReplaceAssetUrls := arweave_ReplaceAssetUrls;
  ReplaceAssetUrl := arweave_ReplaceAssetUrl;
  GetClaimUrl := arweave_GetClaimUrl |}.
End resolver.

(** ** Laws of the libraries *)

(** Printing a parsed URL with an encoded query and parsing it again gives that query. *)
Class NetUrlSpec {U} {N : NetUrl U} := url_reparse s (u : U) (v : Values) :
  url_Parse s = inr u → ∃ u', url_Parse (url_String (set_RawQuery (Encode v) u)) = inr u' ∧ RawQuery u' = Encode v.

(** Names of members joined by dots: nothing in them is a wildcard, an escape, an
    index or a modifier to gjson or sjson. *)
Definition letter (c : ascii) : bool := let n := N_of_ascii c in ((97 <=? n) && (n <=? 122) || (65 <=? n) && (n <=? 90) || (n =? 95))%N.
Definition plain_path (p : string) : bool := forallb (λ m, negb (bool_decide (m = "")) && all_chars letter m) (Split p "."%char).
(** The keys [ForEach] gives for an array of [n] elements. *)
Definition indices (n : nat) : list string := map (λ i, Itoa (Z.of_nat i)) (seq 0 n).

(** Setting the string found below an element of an array: it is the new one, the
    other elements' strings and the array's length stay. *)
Class JsonLibSpec {J} {L : JsonLib J} := set_item (j : J) coll item n k new :
  plain_path coll = true → plain_path item = true → valid_utf8 new = true →
  gjson_keys j coll = indices n → k ∈ indices n → gjson_String j (item_path coll k item) ≠ "" →
  ∃ j', sjson_Set j (item_path coll k item) new = (j', None) ∧
    gjson_String j' (item_path coll k item) = new ∧ gjson_keys j' coll = indices n ∧
    ∀ k', k' ∈ indices n → k' ≠ k → gjson_String j' (item_path coll k' item) = gjson_String j (item_path coll k' item).

Lemma indices_nodup n : NoDup (indices n).
Proof.
  assert (Inj (=) (=) (λ i, Itoa (Z.of_nat i))) by (intros i i' E%Itoa_inj; by apply Nat2Z.inj).
  unfold indices. apply (NoDup_fmap_2 (λ i, Itoa (Z.of_nat i))), NoDup_seq.
Qed.

Section theorems.
Context {W J U : Type} `{!ArfleetIO W, !JsonLib J, !NetUrl U, !RangeOrder, !ReturnOrder}.
Context {NS : NetUrlSpec (U := U)} {JS : JsonLibSpec (J := J)}.

(** A parameter appended to a link is found in it, after the ones it had. *)
Theorem appendParams_query s u k x :
  url_Parse s = inr u →
  ∃ s' u', appendParams s [(k, x)] = inr s' ∧ url_Parse s' = inr u' ∧
    ParseQuery (RawQuery u') = Values_Add (ParseQuery (RawQuery u)) k x.
Proof using NS.
  intros Hs. unfold appendParams. rewrite Hs. cbn [foldl]. set (q := Values_Add _ _ _).
  destruct (url_reparse s u q Hs) as (u' & Hu' & Hq). eexists _, u'. split; [reflexivity|]. split; [exact Hu'|]. rewrite Hq.
  apply ParseQuery_Encode. intros k'. unfold q, Values_Add. cbn. destruct (decide (k' = k)) as [->|].
  - rewrite lookup_insert_eq. intros E. injection E as E. by apply app_nil in E as [_ ?].
  - rewrite lookup_insert_ne by done. apply ParseQuery_nonempty.
Qed.

(** *** The collection *)

Context (coll item : string) (Hcoll : plain_path coll = true) (Hitem : plain_path item = true) (n : nat).
Abbreviation link j k := (gjson_String j (item_path coll k item)).

Lemma item_path_inj k k' : item_path coll k item = item_path coll k' item → k = k'.
Proof using Type. unfold item_path. intros E. apply app_inj_l, app_inj_l in E. by apply app_inj_r in E. Qed.

Lemma collect_spec (j : J) :
  (collect j coll item).1 = map (λ k, link j k) (gjson_keys j coll) ∧
  ∀ u, default [] ((collect j coll item).2 !! u) = map (λ k, item_path coll k item) (filter (λ k, link j k = u) (gjson_keys j coll)).
Proof using Type.
  unfold collect. set (f := λ '(_, _) key, _).
  assert (∀ ks us (m : gmap string (list string)), (foldl f (us, m) ks).1 = (us ++ map (λ k, link j k) ks)%list ∧
    ∀ u, default [] ((foldl f (us, m) ks).2 !! u) = (default [] (m !! u) ++ map (λ k, item_path coll k item) (filter (λ k, link j k = u) ks))%list) as Hgen.
  { induction ks as [|k ks IH]; intros us m.
    { split; [cbn; by rewrite app_nil_r|]. intros u. rewrite filter_nil. cbn [map foldl snd]. by rewrite app_nil_r. }
    cbn [foldl]. unfold f at 2 4. destruct (IH (us ++ [link j k])%list (<[link j k := match m !! link j k with Some slice => (slice ++ [item_path coll k item])%list | None => [item_path coll k item] end]> m)) as [H1 H2].
    split; [rewrite H1; cbn; by rewrite <-(assoc_L (++)%list)|]. intros u. rewrite H2.
    destruct (decide (link j k = u)) as [E|Hne].
    - subst u. rewrite lookup_insert_eq, filter_cons_True by reflexivity. cbn. destruct (m !! _); cbn; [by rewrite <-(assoc_L (++)%list)|done].
    - rewrite lookup_insert_ne, filter_cons_False by done. done. }
  destruct (Hgen (gjson_keys j coll) [] ∅) as [H1 H2]. split; [exact H1|]. intros u. rewrite H2. by rewrite lookup_empty.
Qed.

(** Two encodings with the same items but for the links of [ks]. *)
Definition updated (j j' : J) (new : string) (ks : list string) : Prop :=
  gjson_keys j' coll = indices n ∧
  ∀ k, k ∈ indices n → link j' k = if decide (k ∈ ks) then new else link j k.

Lemma set_paths_spec new ks (j : J) :
  valid_utf8 new = true → gjson_keys j coll = indices n →
  NoDup ks → (∀ k, k ∈ ks → k ∈ indices n ∧ link j k ≠ "") →
  updated j (set_paths new (map (λ k, item_path coll k item) ks) j) new ks.
Proof using JS Hcoll Hitem.
  intros Hnew. revert j. induction ks as [|k ks IH]; intros j Hkeys Hnd Hks.
  { split; [done|]. intros k _. by rewrite decide_False by apply not_elem_of_nil. }
  apply NoDup_cons in Hnd as [Hk Hnd]. destruct (Hks k) as [Hin Hne]; [by left|].
  destruct (set_item j coll item n k new Hcoll Hitem Hnew Hkeys Hin Hne) as (j1 & Hset & Hnew1 & Hkeys1 & Hrest).
  assert (set_paths new (map (λ k, item_path coll k item) (k :: ks)) j = set_paths new (map (λ k, item_path coll k item) ks) j1) as ->.
  { unfold set_paths. cbn [foldl map]. by rewrite Hset. }
  destruct (IH j1 Hkeys1 Hnd) as [Hkeys' Hlinks].
  { intros k' Hk'. destruct (Hks k') as [Hin' Hne']; [by right|]. split; [done|].
    rewrite Hrest; [done|done|]. intros ->. done. }
  split; [done|]. intros k' Hk'. rewrite Hlinks by done.
  destruct (decide (k' = k)) as [->|Hkk].
  - rewrite decide_False by done. rewrite Hnew1. by rewrite decide_True by (by left).
  - rewrite (Hrest k') by done. apply decide_ext. rewrite elem_of_cons. naive_solver.
Qed.

(** The link an item ends with. *)
Definition replaced (subs : gmap string string) (url : string) : string := default url (subs !! url).

(** Substitutes a JSON text can hold, none of them for the missing link. *)
Definition usable (subs : gmap string string) : Prop :=
  subs !! "" = None ∧ map_Forall (λ _ new, valid_utf8 new = true) subs.
#[export] Instance usable_dec subs : Decision (usable subs).
Proof using Type. unfold usable. apply _. Defined.

Lemma replace_pairs (j0 : J) (ps : list (string * string)) (j : J) :
  NoDup ps.*1 → "" ∉ ps.*1 → Forall (λ p, valid_utf8 p.2 = true) ps →
  gjson_keys j0 coll = indices n → gjson_keys j coll = indices n →
  (∀ k, k ∈ indices n → link j0 k ∈ ps.*1 → link j k = link j0 k) →
  let j' := foldl (λ j '(oldURL, newURL), set_paths newURL (default [] ((collect j0 coll item).2 !! oldURL)) j) j ps in
  gjson_keys j' coll = indices n ∧
  ∀ k, k ∈ indices n →
    link j' k = match list_find (λ p, p.1 = link j0 k) ps with Some (_, p) => p.2 | None => link j k end.
Proof using JS Hcoll Hitem.
  revert j. induction ps as [|[old new] ps IH]; intros j Hnd Hne Hv Hkeys0 Hkeys Hsame; [by split|]. cbn [foldl fmap list_fmap fst].
  cbn in Hnd, Hne. apply NoDup_cons in Hnd as [Hold Hnd]. apply not_elem_of_cons in Hne as [Hne0 Hne]. apply Forall_cons in Hv as [Hv0 Hv].
  rewrite (proj2 (collect_spec j0)), Hkeys0. set (ks := filter (λ k, link j0 k = old) (indices n)).
  assert (∀ k, k ∈ ks ↔ link j0 k = old ∧ k ∈ indices n) as Hks by (intros k; unfold ks; by rewrite list_elem_of_filter).
  destruct (set_paths_spec new ks j Hv0 Hkeys) as [Hk1 Hl1].
  { apply NoDup_filter, indices_nodup. }
  { intros k [E Hk]%Hks. split; [done|]. rewrite Hsame; [congruence|done|]. rewrite E. by left. }
  set (j1 := set_paths new _ j) in *. destruct (IH j1 Hnd Hne Hv Hkeys0 Hk1) as [Hk2 Hl2].
  { intros k Hk Hin. rewrite Hl1 by done. rewrite decide_False; [apply Hsame; [done|by right]|].
    intros [E _]%Hks. congruence. }
  split; [exact Hk2|]. intros k Hk. rewrite Hl2 by done. rewrite Hl1 by done. cbn [list_find].
  destruct (decide (old = link j0 k)) as [E|E].
  - rewrite decide_True by (by apply Hks). rewrite decide_True by done.
    rewrite (proj2 (list_find_None _ _)); [done|]. apply Forall_forall. intros p Hp Ep. apply Hold. rewrite E, <-Ep. by apply list_elem_of_fmap_2.
  - rewrite (decide_False (P := (old, new).1 = link j0 k)) by done. rewrite decide_False by (intros [? _]%Hks; congruence).
    by destruct (list_find _ ps) as [[? ?]|].
Qed.

(** [ReplaceAssetUrls]: every item whose link the service resolved gets the link to
    its copy, every other item keeps the link it had, in whatever order the map of
    substitutes is ranged over. *)
Lemma ReplaceAssetUrls_links base v j subs w w' :
  Marshal v = inr j → gjson_keys j coll = indices n →
  ResolveUrls (U := U) (J := J) (NewArfleetResolver base) (map (λ k, link j k) (indices n)) w = (ROk subs, w') →
  usable subs →
  ∃ j', arweave_ReplaceAssetUrls (U := U) (J := J) base v coll item w = unmarshal_result j' w' ∧
    gjson_keys j' coll = indices n ∧
    ∀ k, k ∈ indices n → link j' k = replaced subs (link j k).
Proof using JS Hcoll Hitem.
  intros Hm Hkeys Hres [Hempty Hv]. set (ps := range_pairs subs).
  assert (ps ≡ₚ map_to_list subs) as Hp by apply range_pairs_perm.
  assert (NoDup ps.*1) as Hnd by (rewrite Hp; apply NoDup_fst_map_to_list).
  assert (∀ u x, (u, x) ∈ ps ↔ subs !! u = Some x) as Hin by (intros u x; by rewrite Hp, elem_of_map_to_list).
  destruct (replace_pairs j ps j Hnd) as [Hk Hl]; [| |done..|].
  { intros ([u x] & E & Hx)%list_elem_of_fmap. cbn in E. subst u. apply Hin in Hx. congruence. }
  { apply Forall_forall. intros [u x] Hx. by eapply Hv, Hin. }
  eexists. split; [|split; [exact Hk|]].
  - unfold arweave_ReplaceAssetUrls. rewrite (bind_ok _ _ _ j w) by (by rewrite Hm). pose proof (proj1 (collect_spec j)) as Hc.
    destruct (collect j coll item) as [us m]. cbn in Hc. subst us. rewrite Hkeys, (bind_ok _ _ _ _ _ Hres). reflexivity.
  - intros k Hkk. rewrite Hl by done. unfold replaced. destruct (list_find _ ps) as [[i [u x]]|] eqn:E.
    + apply list_find_Some in E as (Hi & Eu & _). cbn in Eu. subst u. apply list_elem_of_lookup_2, Hin in Hi. by rewrite Hi.
    + rewrite list_find_None, Forall_forall in E. destruct (subs !! link j k) as [x|] eqn:Ex; [|done]. apply Hin in Ex. by destruct (E _ Ex).
Qed.
End theorems.

(** ** The hook on claim searches *)

Section hook.
Context {W J U : Type} `{!ArfleetIO W, !JsonLib J, !NetUrl U, !RangeOrder, !ReturnOrder}.
Context {NS : NetUrlSpec (U := U)} {JS : JsonLibSpec (J := J)}.

Lemma ReplaceAssetUrls_unresolved base v j coll item e w w' :
  Marshal v = inr j →
  ResolveUrls (U := U) (J := J) (NewArfleetResolver base) (map (λ k, gjson_String j (item_path coll k item)) (gjson_keys j coll)) w = (RErr e, w') →
  arweave_ReplaceAssetUrls (U := U) (J := J) base v coll item w = (RErr e, w').
Proof using Type.
  intros Hm Hres. unfold arweave_ReplaceAssetUrls. rewrite (bind_ok _ _ _ j w) by (by rewrite Hm).
  pose proof (proj1 (collect_spec coll item j)) as Hc. destruct (collect j coll item) as [us m]. cbn in Hc. subst us.
  by apply bind_err.
Qed.

(** C37: The thumbnails of a claim search whose items are an array: a failure of the
    resolver leaves the response as it was; otherwise, if the service has not answered
    for the empty link (of an item without a thumbnail) and the links it gave are valid
    UTF-8, every thumbnail it resolved is replaced by the link to its copy and every
    other one is kept.  The response carries that result if Go reads the returned
    variable after the call beside it, and nil if it reads it before, which the
    language leaves open. *)
Theorem claim_search_thumbnails (cfg : Config) (r : RPCResponse) (j : J) (n : nat) w :
  Marshal (Result r) = inr j → gjson_keys j "items" = indices n →
  let link j k := gjson_String j (item_path "items" k "value.thumbnail.url") in
  let hook := postClaimSearchArfleetThumbs (Arweave0 := arweave_service (W := W) (J := J) (U := U)) cfg r w in
  match ResolveUrls (U := U) (J := J) (NewArfleetResolver (ArfleetCDN cfg)) (map (link j) (indices n)) w with
  | (RErr _, w') => hook = (ROk (Some r), w')
  | (RPanic why, w') => hook = (RPanic why, w')
  | (ROk subs, w') => usable subs →
      ∃ j', gjson_keys j' "items" = indices n ∧ (∀ k, k ∈ indices n → link j' k = replaced subs (link j k)) ∧
        hook = (ROk (Some (match Unmarshal j' with inr d => set_Result r (if read_late then d else VNil) | inl _ => r end)), w')
  end.
Proof using JS.
  intros Hm Hkeys link hook.
  destruct (ResolveUrls _ _ w) as [[subs|e|why] w'] eqn:Hres.
  - intros Hsubs. destruct (ReplaceAssetUrls_links "items" "value.thumbnail.url" eq_refl eq_refl n _ _ _ _ _ _ Hm Hkeys Hres Hsubs) as (j' & Hrun & Hkeys' & Hlinks).
    exists j'. split; [exact Hkeys'|]. split; [exact Hlinks|]. unfold hook, postClaimSearchArfleetThumbs, bind, try. cbn [ReplaceAssetUrls arweave_service].
    rewrite Hrun. unfold unmarshal_result. by destruct (Unmarshal j').
  - unfold hook, postClaimSearchArfleetThumbs, bind, try. cbn [ReplaceAssetUrls arweave_service].
    rewrite <-Hkeys in Hres. by rewrite (ReplaceAssetUrls_unresolved _ _ _ _ _ _ _ _ Hm Hres).
  - unfold hook, postClaimSearchArfleetThumbs, bind, try. cbn [ReplaceAssetUrls arweave_service].
    unfold arweave_ReplaceAssetUrls. rewrite (bind_ok _ _ _ j w) by (by rewrite Hm).
    pose proof (proj1 (collect_spec "items" "value.thumbnail.url" j)) as Hc. destruct (collect j _ _) as [us m]. cbn in Hc. subst us.
    rewrite <-Hkeys in Hres. by rewrite (bind_panic _ _ _ _ _ Hres).
Qed.

(** The same code returns nil for every structure if the variable is read before the
    call, which the language allows. *)
Lemma early_read_loses_result base v coll item w d w' :
  read_late = false → arweave_ReplaceAssetUrls (W := W) (U := U) (J := J) base v coll item w = (ROk d, w') → d = VNil.
Proof using Type.
  intros Hlate H'. unfold arweave_ReplaceAssetUrls in H'. apply bind_ok_inv in H' as (j & w1 & _ & H').
  destruct (collect j coll item) as [us m]. apply bind_ok_inv in H' as (subs & w2 & _ & H').
  unfold unmarshal_result in H'. rewrite Hlate in H'. destruct (Unmarshal _); [done|]. by injection H' as <- _.
Qed.
End hook.

(** ** Libraries that meet the laws *)

Module Links.
(** Encoded JSON as its collections' keys and the strings at its paths. *)
Definition Doc : Type := gmap string (list string) * gmap string string.
Definition doc_keys (j : Doc) (coll : string) : list string := remove_dups (default [] (j.1 !! coll)).

Definition thumb (k : string) : string := item_path "items" k "value.thumbnail.url".
Definition doc : Doc := ({["items" := ["0"; "1"]]}, {[thumb "0" := "http://a/x.png"; thumb "1" := "http://b/y.png"]}).

#[export] Instance docs : JsonLib Doc := {
  Marshal_list f l := inr f;
  Unmarshal_urls body := inr {["http://a/x.png" := mkResolveUrl "http://a/x.png" "h" "/explore/h?filename=x.png" "id0" true;
                               "http://b/y.png" := mkResolveUrl "http://b/y.png" "" "" "" false]};
  Unmarshal_claims body := inr ∅;
  Marshal v := inr doc;
  Unmarshal j := inr (VMap (VStr <$> j.2));
  gjson_String j p := default "" (j.2 !! p);
  gjson_keys := doc_keys;
  sjson_Set j p v := ((j.1, <[p := v]> j.2), None) }.

#[export] Instance docs_spec : JsonLibSpec (J := Doc).
Proof.
  intros j coll item n k new _ _ _ Hn Hk Hne. cbn. eexists. split; [reflexivity|]. cbn.
  split; [by rewrite lookup_insert_eq|]. split; [exact Hn|]. intros k' Hk' Hkk. rewrite lookup_insert_ne; [done|].
  intros E%item_path_inj. done.
Qed.

#[export] Instance links : NetUrl (string * string) := {
  url_Parse s := inr (Cut s "?");
  RawQuery := snd;
  set_RawQuery q u := (u.1, q);
  url_String u := u.1 +:+ String "?" u.2 }.

Lemma Cut_left_free s sep : free_of sep (Cut s sep).1 = true.
Proof.
  induction s as [|a s IH]; [done|]. cbn. destruct (Ascii.eqb a sep) eqn:E; [done|]. destruct (Cut s sep) as [l r]. cbn in *.
  unfold free_of in *. cbn. by rewrite E, IH.
Qed.
#[export] Instance links_spec : NetUrlSpec (U := string * string).
Proof.
  intros s u v. cbn. intros [= <-]. eexists. split; [reflexivity|]. rewrite Cut_free; [done|]. apply Cut_left_free.
Qed.

#[export] Instance order : RangeOrder := {| range_pairs m := map_to_list m; range_pairs_perm m := reflexivity _ |}.
#[export] Instance late : ReturnOrder := true.
#[export] Instance service : ArfleetIO unit := λ _ _ _, ret (inr (200, inr "{}")).

Lemma appendParams_query_witness :
  ∃ s' u', appendParams (U := string * string) "/explore/h?filename=x.png" [("data_item_id", "a b")] = inr s' ∧ url_Parse s' = inr u' ∧
    ParseQuery (RawQuery u') = {["filename" := ["x.png"]; "data_item_id" := ["a b"]]}.
Proof.
  assert (url_Parse (U := string * string) "/explore/h?filename=x.png" = inr ("/explore/h", "filename=x.png")) as Hp by reflexivity.
  destruct (appendParams_query (U := string * string) "/explore/h?filename=x.png" ("/explore/h", "filename=x.png") "data_item_id" "a b" Hp)
    as (s' & u' & H1 & H2 & H3).
  exists s', u'. split; [exact H1|]. split; [exact H2|]. rewrite H3. vm_compute. reflexivity.
Defined.

Definition cfg0 : Config := Build_Config true "https://cdn" 1 ∅ ∅ "".

Lemma claim_search_thumbnails_witness :
  ∃ j', gjson_String (J := Doc) j' (thumb "0") = "https://cdn/explore/h?data_item_id=id0&filename=x.png" ∧
    gjson_String (J := Doc) j' (thumb "1") = "http://b/y.png" ∧
    postClaimSearchArfleetThumbs (Arweave0 := arweave_service (W := unit) (J := Doc) (U := string * string)) cfg0 (mkResponse "2.0" VNil None 0) tt
      = (ROk (Some (mkResponse "2.0" (VMap (VStr <$> j'.2)) None 0)), tt).
Proof.
  assert (Marshal (J := Doc) (Result (mkResponse "2.0" VNil None 0)) = inr doc) as Hm by reflexivity.
  pose proof (claim_search_thumbnails (W := unit) (J := Doc) (U := string * string) cfg0 (mkResponse "2.0" VNil None 0) doc 2 tt Hm eq_refl) as H.
  assert (match ResolveUrls (W := unit) (J := Doc) (U := string * string) (NewArfleetResolver "https://cdn") ["http://a/x.png"; "http://b/y.png"] tt with
          | (ROk subs, _) => Some (bool_decide (usable subs), replaced subs "http://a/x.png", replaced subs "http://b/y.png") | _ => None end
    = Some (true, "https://cdn/explore/h?data_item_id=id0&filename=x.png", "http://b/y.png")) as Hs by (vm_compute; reflexivity).
  cbv zeta in H. change (map _ _) with ["http://a/x.png"; "http://b/y.png"] in H. change (ArfleetCDN cfg0) with "https://cdn" in H.
  destruct (ResolveUrls _ _ tt) as [[subs|e|why] []]; [|discriminate Hs..]. injection Hs as He Ha Hb. apply bool_decide_eq_true in He.
  destruct (H He) as (j' & Hk & Hl & Hhook). exists j'. split; [|split].
  - etrans; [apply (Hl "0")|exact Ha]. vm_compute. by left.
  - etrans; [apply (Hl "1")|exact Hb]. vm_compute. right. by left.
  - exact Hhook.
Defined.
End Links.
