(* ===== verification/Boil.v ===== *)
(** * The generated data layer: the operations every table has

    The files of [src/models] are one template instantiated at seven tables.  This
    file is the template: the queries of a table ([One], [All], [Count], [Exists]),
    [Find], [Insert], [Update], [UpdateAll], [Upsert], [Delete], [DeleteAll],
    [Reload], [ReloadAll], the hooks and the statement caches.  [Models.v] holds the
    seven instances, [Relations.v] what links the tables.

    Objects live in memory behind pointers ([loc]), so that what an operation writes
    into its receiver is kept on every path, errors included.  A statement is its
    syntax tree; the text of it, the identifiers' quotes and the placeholders are
    produced by the sqlboiler library.  From that library the template uses the
    column sets ([Columns]), the reflection on struct tags ([Queries]) and the
    executor, which are parameters; a value that a Go function returns beside an
    error is not kept. *)

From stdpp Require Import gmap strings pretty.
From S2P Require Import Prelude GoLib Errors.

Open Scope Z_scope.
Open Scope string_scope.
Open Scope list_scope.

Definition ErrNoRows : error := ENamed "sql.ErrNoRows" "sql: no rows in result set" false.
(** [err == sql.ErrNoRows] *)
Definition is_ErrNoRows (e : error) : bool :=
  match e with ENamed id _ _ => bool_decide (id = "sql.ErrNoRows") | _ => false end.
(** [errors.Wrap] of pkg/errors. *)
Definition Wrap (msg : string) (e : error) : error := EWrapf (msg +:+ ": ") e "".

(** ** Values, statements, queries *)

Inductive SVal := SNull | SInt (z : Z) | SText (s : string) | STime (t : Z) | SBool (b : bool) | SJSON (s : string).
#[export] Instance SVal_eq_dec : EqDecision SVal.
Proof. solve_decision. Defined.

Inductive Op := EQ | NEQ | LT | LTE | GT | GTE.
Inductive Clause :=
| CCmp (tbl col : string) (op : Op) (v : SVal)
| CIsNull (tbl col : string)
| CIsNotNull (tbl col : string)
| CIn (col : string) (vs : list SVal).

Record Query := mkQuery {
  q_from : string; q_select : list string; q_count : bool; q_where : list Clause;
  q_limit : option Z; q_load : list string; q_update : option (gmap string SVal); q_delete : bool }.
Definition Query0 : Query := mkQuery "" [] false [] None [] None false.

Definition SetFrom (tbl : string) (q : Query) : Query :=
  mkQuery tbl (q_select q) (q_count q) (q_where q) (q_limit q) (q_load q) (q_update q) (q_delete q).
Definition SetSelect (cols : list string) (q : Query) : Query :=
  mkQuery (q_from q) cols (q_count q) (q_where q) (q_limit q) (q_load q) (q_update q) (q_delete q).
Definition SetCount (q : Query) : Query :=
  mkQuery (q_from q) (q_select q) true (q_where q) (q_limit q) (q_load q) (q_update q) (q_delete q).
Definition AppendWhere (c : Clause) (q : Query) : Query :=
  mkQuery (q_from q) (q_select q) (q_count q) (q_where q ++ [c]) (q_limit q) (q_load q) (q_update q) (q_delete q).
Definition SetLimit (n : Z) (q : Query) : Query :=
  mkQuery (q_from q) (q_select q) (q_count q) (q_where q) (Some n) (q_load q) (q_update q) (q_delete q).
Definition AppendLoad (rel : string) (q : Query) : Query :=
  mkQuery (q_from q) (q_select q) (q_count q) (q_where q) (q_limit q) (q_load q ++ [rel]) (q_update q) (q_delete q).
Definition SetUpdate (cols : gmap string SVal) (q : Query) : Query :=
  mkQuery (q_from q) (q_select q) (q_count q) (q_where q) (q_limit q) (q_load q) (Some cols) (q_delete q).
Definition SetDelete (q : Query) : Query :=
  mkQuery (q_from q) (q_select q) (q_count q) (q_where q) (q_limit q) (q_load q) (q_update q) true.

(** [qm.QueryMod]: a mod changes the query it is applied to. *)
Definition QueryMod := Query → Query.
Definition qm_Where (c : Clause) : QueryMod := AppendWhere c.
Definition qm_From (tbl : string) : QueryMod := SetFrom tbl.
Definition qm_Load (rel : string) : QueryMod := AppendLoad rel.

(** [NewQuery]: the mods are applied in order. *)
Definition NewQuery (mods : list QueryMod) : Query := fold_left (λ q m, m q) mods Query0.

(** What is sent to the database.  [SUpdate], [SDelete] and [SSelect] carry how
    often the primary key condition is repeated ([WhereClauseRepeated]). *)
Inductive Stmt :=
| SQuery (q : Query)
| SInsert (tbl : string) (cols returning : list string)
| SUpsert (tbl : string) (cols : list string) (action : option (list string * list string)) (returning : list string)
| SUpdate (tbl : string) (set where_ : list string) (times : nat)
| SDelete (tbl : string) (where_ : list string) (times : nat)
| SSelect (tbl : string) (sel : list string) (where_ : list string) (times : nat)
| SExists (tbl : string) (where_ : list string)
| SForget (tbl col : string).

(** [buildUpsertQueryPostgres]: no conflict target is written when the conflict is
    to be ignored. *)
Definition buildUpsertQueryPostgres (tableName : string) (updateOnConflict : bool) (ret_ update conflict whitelist : list string) : Stmt :=
  SUpsert tableName whitelist
    (if negb updateOnConflict || bool_decide (update = []) then None else Some (conflict, update)) ret_.

(** ** Where helpers *)

(** The comparisons of [qmhelper]; equality with a null value tests for null. *)
Definition qmhelper_Where (f : string * string) (op : Op) (v : SVal) : QueryMod := qm_Where (CCmp f.1 f.2 op v).
Definition WhereIsNull (f : string * string) : QueryMod := qm_Where (CIsNull f.1 f.2).
Definition WhereIsNotNull (f : string * string) : QueryMod := qm_Where (CIsNotNull f.1 f.2).
Definition WhereNullEQ (f : string * string) (negated : bool) (v : SVal) : QueryMod :=
  if decide (v = SNull) then (if negated then WhereIsNotNull f else WhereIsNull f)
  else qmhelper_Where f (if negated then NEQ else EQ) v.

(** ** Struct tags *)

(** A tagged field: reading it, whether it holds the zero value of its Go type, and
    scanning a database value into it. *)
Record Field (O : Type) := mkField {
  f_tag : string; f_get : O → SVal; f_zero : O → bool; f_set : SVal → O → option O }.
Arguments mkField {O} _ _ _ _.
Arguments f_tag {O} _. Arguments f_get {O} _ _. Arguments f_zero {O} _ _. Arguments f_set {O} _ _ _.
Abbreviation Struct O := (list (Field O)).

Section struct.
Context {O : Type}.

Definition field_of (S : Struct O) (c : string) : option (Field O) := list_find (λ f, f_tag f = c) S ≫= λ p, Some p.2.
Definition tags (S : Struct O) : list string := map f_tag S.
(** The value of the field tagged [c]. *)
Definition value_of (S : Struct O) (o : O) (c : string) : SVal := from_option (λ f, f_get f o) SNull (field_of S c).
Definition zero_at (S : Struct O) (o : O) (c : string) : bool := from_option (λ f, f_zero f o) true (field_of S c).
Definition assign (S : Struct O) (o : O) (c : string) (v : SVal) : option O := field_of S c ≫= λ f, f_set f v o.
Fixpoint assign_all (S : Struct O) (o : O) (cs : list string) (vs : list SVal) : option O :=
  match cs, vs with
  | [], [] => Some o
  | c :: cs, v :: vs => assign S o c v ≫= λ o, assign_all S o cs vs
  | _, _ => None
  end.

(** Fields of the Go types the tables use. *)
Definition int_field (t : string) (get : O → Z) (set : Z → O → O) : Field O :=
  mkField t (λ o, SInt (get o)) (λ o, bool_decide (get o = 0)) (λ v o, match v with SInt z => Some (set z o) | _ => None end).
Definition text_field (t : string) (get : O → string) (set : string → O → O) : Field O :=
  mkField t (λ o, SText (get o)) (λ o, bool_decide (get o = "")) (λ v o, match v with SText s => Some (set s o) | _ => None end).
Definition bool_field (t : string) (get : O → bool) (set : bool → O → O) : Field O :=
  mkField t (λ o, SBool (get o)) (λ o, negb (get o)) (λ v o, match v with SBool b => Some (set b o) | _ => None end).
Definition time_field (t : string) (get : O → Z) (set : Z → O → O) : Field O :=
  mkField t (λ o, STime (get o)) (λ o, bool_decide (get o = 0)) (λ v o, match v with STime z => Some (set z o) | _ => None end).
(** The [null] package: the zero value is the invalid one. *)
Definition null_field {A} (inj : A → SVal) (prj : SVal → option A) (t : string) (get : O → option A) (set : option A → O → O) : Field O :=
  mkField t (λ o, from_option inj SNull (get o)) (λ o, match get o with Some _ => false | None => true end)
    (λ v o, match v with SNull => Some (set None o) | v => prj v ≫= λ a, Some (set (Some a) o) end).
End struct.

(** ** The library *)

(** [boil.Columns]: which columns a statement writes. *)
Record Columns := mkColumns { Kind : Z; Cols : list string }.

Class BoilColumns := {
  Infer : Columns;
  Whitelist : list string → Columns;
  Greylist : list string → Columns;
  IsWhitelist : Columns → bool;
  (** columns to insert and columns to return, from all columns, those with and
      without a default and the non-zero ones with a default *)
  InsertColumnSet : Columns → list string → list string → list string → list string → list string * list string;
  (** from all columns and the primary key *)
  UpdateColumnSet : Columns → list string → list string → list string;
  SetComplement : list string → list string → list string }.

(** Reflection on a struct: [[]uint64] are the positions of fields. *)
Class Queries := {
  NonZeroDefaultSet : ∀ {O}, Struct O → list string → O → list string;
  BindMapping : ∀ {O}, Struct O → list string → error + list Z;
  ValuesFromMapping : ∀ {O}, Struct O → O → list Z → list SVal;
  (** [Scan(PtrsFromMapping(value, mapping)...)] *)
  ScanMapping : ∀ {O}, Struct O → O → list Z → list SVal → error + O;
  (** [queries.Bind] of one row, with the names of its columns *)
  BindRow : ∀ {O}, Struct O → O → list (string * SVal) → error + O }.

(** Rows of a query; closing them and iterating over them may fail. *)
Record Rows := mkRows { rows_all : list (list (string * SVal)); rows_close : option error; rows_err : option error }.

(** [boil.Executor]: a handle (the global database or a transaction).  [Exec] gives
    what [RowsAffected] says. *)
Class Executor (W X : Type) := {
  GetDB : X;
  Now : W → Z;
  Exec : X → Stmt → list SVal → Go W (error + Z);
  QueryRow : X → Stmt → list SVal → Go W (list SVal);
  RunQuery : X → Stmt → list SVal → Go W Rows }.

(** ** Tables and memory *)

Abbreviation loc := positive.

Record insertCache := mkInsertCache { ic_query : Stmt; ic_valueMapping : list Z; ic_retMapping : list Z }.
Record updateCache := mkUpdateCache { uc_query : Stmt; uc_valueMapping : list Z }.

(** The objects of a type and the statement caches of its table. *)
Record Mem (O : Type) := mkMem {
  objs : gmap loc O; insertCaches : gmap string insertCache;
  updateCaches : gmap string updateCache; upsertCaches : gmap string insertCache }.
Arguments mkMem {O} _ _ _ _.
Arguments objs {O} _. Arguments insertCaches {O} _. Arguments updateCaches {O} _. Arguments upsertCaches {O} _.

(** Where a type's memory lies in the program's state. *)
Class Model (W O : Type) := { mem : W → Mem O; set_mem : Mem O → W → W }.

Record Table (O : Type) := mkTable {
  tableName : string;                (* users *)
  typeName : string;                 (* User *)
  varName : string;                  (* user *)
  struct_of : Struct O;
  newObject : O;                     (* &User{} *)
  AllColumns : list string;
  ColumnsWithoutDefault : list string;
  ColumnsWithDefault : list string;
  PrimaryKeyColumns : list string;
  touchInsert : Z → O → O;           (* CreatedAt and UpdatedAt before an insert *)
  touchUpdate : Z → O → O;
  touchUpsert : Z → O → O }.
Arguments mkTable {O} _ _ _ _ _ _ _ _ _ _ _ _.
Arguments tableName {O} _. Arguments typeName {O} _. Arguments varName {O} _. Arguments struct_of {O} _. Arguments newObject {O} _.
Arguments AllColumns {O} _. Arguments ColumnsWithoutDefault {O} _. Arguments ColumnsWithDefault {O} _.
Arguments PrimaryKeyColumns {O} _. Arguments touchInsert {O} _ _ _. Arguments touchUpdate {O} _ _ _.
Arguments touchUpsert {O} _ _ _.

(** ** Statement cache keys *)

Definition concat_names (cs : list string) : string := String.concat "" cs.

Definition makeCacheKey (cols : Columns) (nzDefaults : list string) : string :=
  Itoa (Kind cols) +:+ concat_names (Cols cols) +:+ (if decide (nzDefaults = []) then "" else ".") +:+ concat_names nzDefaults.

(** The key [Upsert] builds in line. *)
Definition makeUpsertKey (updateOnConflict : bool) (conflictColumns : list string) (updateColumns insertColumns : Columns) (nzDefaults : list string) : string :=
  (if updateOnConflict then "t" else "f") +:+ "." +:+ concat_names conflictColumns
  +:+ "." +:+ Itoa (Kind updateColumns) +:+ concat_names (Cols updateColumns)
  +:+ "." +:+ Itoa (Kind insertColumns) +:+ concat_names (Cols insertColumns)
  +:+ "." +:+ concat_names nzDefaults.

(** ** Hooks *)

Inductive HookPoint :=
| BeforeInsertHook | BeforeUpdateHook | BeforeDeleteHook | BeforeUpsertHook
| AfterInsertHook | AfterSelectHook | AfterUpdateHook | AfterDeleteHook | AfterUpsertHook.
#[export] Instance HookPoint_eq_dec : EqDecision HookPoint.
Proof. solve_decision. Defined.

Section crud.
Context {W X O : Type} {M : Model W O} {Ex : Executor W X} {BC : BoilColumns} {Q : Queries}.
Context (T : Table O).

(** A hook gets the executor and the object. *)
Definition Hook := X → loc → Go W unit.
Definition Hooks := HookPoint → list Hook.
Definition AddHook (hs : Hooks) (p : HookPoint) (h : Hook) : Hooks :=
  λ q, if decide (q = p) then hs q ++ [h] else hs q.

Fixpoint doHooks (hs : list Hook) (ex : X) (l : loc) : Go W unit :=
  match hs with [] => ret tt | h :: hs => h ex l ;;! doHooks hs ex l end.
Fixpoint doHooksAll (hs : list Hook) (ex : X) (ls : list loc) : Go W unit :=
  match ls with [] => ret tt | l :: ls => doHooks hs ex l ;;! doHooksAll hs ex ls end.

(** *** Memory *)

Definition load (l : loc) : Go W O := λ w,
  match objs (mem w) !! l with
  | Some o => (ROk o, w)
  | None => (RPanic "invalid memory address or nil pointer dereference", w)
  end.
Definition with_objs (f : gmap loc O → gmap loc O) (m : Mem O) : Mem O :=
  mkMem (f (objs m)) (insertCaches m) (updateCaches m) (upsertCaches m).
Definition store (l : loc) (o : O) : Go W unit := modify (λ w, set_mem (with_objs <[l := o]> (mem w)) w).
Definition alloc (o : O) : Go W loc := λ w,
  let l := fresh (dom (objs (mem w))) in (ROk l, set_mem (with_objs <[l := o]> (mem w)) w).
Definition update_obj (l : loc) (f : O → O) : Go W unit := let! o := load l in store l (f o).

Definition cache_insert (k : string) (c : insertCache) : Go W unit := modify (λ w,
  let m := mem w in set_mem (mkMem (objs m) (<[k := c]> (insertCaches m)) (updateCaches m) (upsertCaches m)) w).
Definition cache_update (k : string) (c : updateCache) : Go W unit := modify (λ w,
  let m := mem w in set_mem (mkMem (objs m) (insertCaches m) (<[k := c]> (updateCaches m)) (upsertCaches m)) w).
Definition cache_upsert (k : string) (c : insertCache) : Go W unit := modify (λ w,
  let m := mem w in set_mem (mkMem (objs m) (insertCaches m) (updateCaches m) (<[k := c]> (upsertCaches m))) w).

(** [if err != nil { return errors.Wrap(err, msg) }] *)
Definition wrapping {A} (msg : string) (c : Go W A) : Go W A := λ w,
  match c w with (RErr e, w') => (RErr (Wrap msg e), w') | r => r end.
Definition of_sum {A} (r : error + A) : Go W A := match r with inl e => fail e | inr a => ret a end.
(** [userPrimaryKeyMapping, _ = BindMapping(...)], read off an object. *)
Definition PrimaryKeyMapping : list Z :=
  match BindMapping (struct_of T) (PrimaryKeyColumns T) with inl _ => [] | inr m => m end.
Definition pk_values (o : O) : list SVal := ValuesFromMapping (struct_of T) o PrimaryKeyMapping.
Fixpoint mapM_go {A B} (f : A → Go W B) (l : list A) : Go W (list B) :=
  match l with [] => ret [] | a :: l => let! b := f a in let! bs := mapM_go f l in ret (b :: bs) end.

(** *** Reading *)

(** [q.Bind(nil, exec, o)]: into one object (no row is [ErrNoRows]) or into a
    slice. *)
Definition run_rows (ex : X) (s : Stmt) (args : list SVal) : Go W (list (list (string * SVal))) :=
  let! rows := RunQuery ex s args in
  match rows_err rows, rows_close rows with
  | Some e, _ | None, Some e => fail e
  | None, None => ret (rows_all rows)
  end.

Definition bind_row (r : list (string * SVal)) : Go W loc :=
  let! o := of_sum (BindRow (struct_of T) (newObject T) r) in alloc o.
Definition bind_one (ex : X) (s : Stmt) (args : list SVal) : Go W loc :=
  let! rows := run_rows ex s args in
  match rows with [] => fail ErrNoRows | r :: _ => bind_row r end.
Definition bind_all (ex : X) (s : Stmt) (args : list SVal) : Go W (list loc) :=
  let! rows := run_rows ex s args in mapM_go bind_row rows.

(** [if errors.Cause(err) == sql.ErrNoRows { return nil, sql.ErrNoRows }] *)
Definition no_rows_or (msg : string) {A} (c : Go W A) : Go W A := λ w,
  match c w with
  | (RErr e, w') => (RErr (if Is e "sql.ErrNoRows" then ErrNoRows else Wrap msg e), w')
  | r => r
  end.

(** The relations a query names are loaded after its rows, by the [L] methods of the
    type ([eager]). *)
Context (hooks : Hooks) (eager : X → bool → string → list loc → Go W unit).

Fixpoint eager_all (ex : X) (singular : bool) (rels : list string) (ls : list loc) : Go W unit :=
  match rels with [] => ret tt | r :: rels => eager ex singular r ls ;;! eager_all ex singular rels ls end.

Definition One (ex : X) (q : Query) : Go W loc :=
  let q := SetLimit 1 q in
  let! l := no_rows_or ("models: failed to execute a one query for " +:+ tableName T) (
    let! l := bind_one ex (SQuery q) [] in
    eager_all ex true (q_load q) [l] ;;! ret l) in
  doHooks (hooks AfterSelectHook) ex l ;;! ret l.

Definition All (ex : X) (q : Query) : Go W (list loc) :=
  let! ls := wrapping ("models: failed to assign all query results to " +:+ typeName T +:+ " slice") (
    let! ls := bind_all ex (SQuery q) [] in
    (if decide (ls = []) then ret tt else eager_all ex false (q_load q) ls) ;;! ret ls) in
  (if decide (length (hooks AfterSelectHook) = 0%nat) then ret tt else doHooksAll (hooks AfterSelectHook) ex ls) ;;! ret ls.

(** [Scan(&count)] *)
Definition scan_int (vs : list SVal) : Go W Z :=
  match vs with [SInt n] => ret n | _ => fail (EText "sql: Scan error") end.
Definition scan_bool (vs : list SVal) : Go W bool :=
  match vs with [SBool b] => ret b | _ => fail (EText "sql: Scan error") end.

Definition Count (ex : X) (q : Query) : Go W Z :=
  let q := SetCount (SetSelect [] q) in
  wrapping ("models: failed to count " +:+ tableName T +:+ " rows") (let! vs := QueryRow ex (SQuery q) [] in scan_int vs).

Definition QExists (ex : X) (q : Query) : Go W bool :=
  let q := SetLimit 1 (SetCount (SetSelect [] q)) in
  let! count := wrapping ("models: failed to check if " +:+ tableName T +:+ " exists")
    (let! vs := QueryRow ex (SQuery q) [] in scan_int vs) in
  ret (bool_decide (0 < count)).

(** [FindUser(exec, id, selectCols...)] *)
Definition Find (ex : X) (id : list SVal) (selectCols : list string) : Go W loc :=
  no_rows_or ("models: unable to select from " +:+ tableName T)
    (bind_one ex (SSelect (tableName T) selectCols (PrimaryKeyColumns T) 1) id).

Definition RowExists (ex : X) (id : list SVal) : Go W bool :=
  wrapping ("models: unable to check if " +:+ tableName T +:+ " exists")
    (let! vs := QueryRow ex (SExists (tableName T) (PrimaryKeyColumns T)) id in scan_bool vs).

(** [*o = *ret]: the loaded relations are dropped with the old value. *)
Definition Reload (ex : X) (l : loc) : Go W unit :=
  let! o := load l in
  let! l' := Find ex (map (value_of (struct_of T) o) (PrimaryKeyColumns T)) [] in
  let! o' := load l' in
  store l o'.

Definition slice_pks (ls : list loc) : Go W (list SVal) :=
  let! vs := mapM_go (λ l, let! o := load l in ret (pk_values o)) ls in ret (concat vs).

(** The slice the receiver points to afterwards. *)
Definition ReloadAll (ex : X) (o : option (list loc)) : Go W (option (list loc)) :=
  match o with
  | None | Some [] => ret o
  | Some ls =>
    let! args := slice_pks ls in
    let! ls' := wrapping ("models: unable to reload all in " +:+ typeName T +:+ "Slice")
      (bind_all ex (SSelect (tableName T) [] (PrimaryKeyColumns T) (length ls)) args) in
    ret (Some ls')
  end.

(** *** Writing *)

(** The statement of an insert and where its values come from and go to. *)
Definition build_insert (columns : Columns) (nzDefaults : list string) : error + insertCache :=
  let '(wl, returnColumns) := InsertColumnSet columns (AllColumns T) (ColumnsWithDefault T) (ColumnsWithoutDefault T) nzDefaults in
  match BindMapping (struct_of T) wl with
  | inl e => inl e
  | inr vm =>
    match BindMapping (struct_of T) returnColumns with
    | inl e => inl e
    | inr rm => inr (mkInsertCache (SInsert (tableName T) wl (if decide (rm = []) then [] else returnColumns)) vm rm)
    end
  end.

Definition Insert (ex : X) (o : option loc) (columns : Columns) : Go W unit :=
  match o with
  | None => fail (EText ("models: no " +:+ tableName T +:+ " provided for insertion"))
  | Some l =>
    let! currTime := gets Now in
    update_obj l (touchInsert T currTime) ;;!
    doHooks (hooks BeforeInsertHook) ex l ;;!
    let! v := load l in
    let nzDefaults := NonZeroDefaultSet (struct_of T) (ColumnsWithDefault T) v in
    let key := makeCacheKey columns nzDefaults in
    let! cached := gets (λ w, insertCaches (mem w) !! key) in
    let! cache := match cached with Some c => ret c | None => of_sum (build_insert columns nzDefaults) end in
    let vals := ValuesFromMapping (struct_of T) v (ic_valueMapping cache) in
    wrapping ("models: unable to insert into " +:+ tableName T)
      (if decide (ic_retMapping cache = []) then Exec ex (ic_query cache) vals ;;! ret tt
       else let! row := QueryRow ex (ic_query cache) vals in
            let! v' := of_sum (ScanMapping (struct_of T) v (ic_retMapping cache) row) in
            store l v') ;;!
    (match cached with Some _ => ret tt | None => cache_insert key cache end) ;;!
    doHooks (hooks AfterInsertHook) ex l
  end.

Definition build_update (columns : Columns) : error + updateCache :=
  let wl := UpdateColumnSet columns (AllColumns T) (PrimaryKeyColumns T) in
  let wl := if IsWhitelist columns then wl else SetComplement wl ["created_at"] in
  if decide (wl = []) then inl (EText ("models: unable to update " +:+ tableName T +:+ ", could not build whitelist")) else
  match BindMapping (struct_of T) (wl ++ PrimaryKeyColumns T) with
  | inl e => inl e
  | inr vm => inr (mkUpdateCache (SUpdate (tableName T) wl (PrimaryKeyColumns T) 1) vm)
  end.

Definition Update (ex : X) (l : loc) (columns : Columns) : Go W Z :=
  let! currTime := gets Now in
  update_obj l (touchUpdate T currTime) ;;!
  doHooks (hooks BeforeUpdateHook) ex l ;;!
  let key := makeCacheKey columns [] in
  let! cached := gets (λ w, updateCaches (mem w) !! key) in
  let! cache := match cached with Some c => ret c | None => of_sum (build_update columns) end in
  let! v := load l in
  let values := ValuesFromMapping (struct_of T) v (uc_valueMapping cache) in
  let! result := wrapping ("models: unable to update " +:+ tableName T +:+ " row") (Exec ex (uc_query cache) values) in
  let! rowsAff := wrapping ("models: failed to get rows affected by update for " +:+ tableName T) (of_sum result) in
  (match cached with Some _ => ret tt | None => cache_update key cache end) ;;!
  doHooks (hooks AfterUpdateHook) ex l ;;!
  ret rowsAff.

(** [UpdateAll] of a query. *)
Definition QUpdateAll (ex : X) (q : Query) (cols : gmap string SVal) : Go W Z :=
  let q := SetUpdate cols q in
  let! result := wrapping ("models: unable to update all for " +:+ tableName T) (Exec ex (SQuery q) []) in
  wrapping ("models: unable to retrieve rows affected for " +:+ tableName T) (of_sum result).

(** [UpdateAll] of a slice; the columns come in the order the map is iterated. *)
Definition UpdateAll (ex : X) (ls : list loc) (cols : gmap string SVal) : Go W Z :=
  if decide (ls = []) then ret 0 else
  if decide (cols = ∅) then fail (EText "models: update all requires at least one column argument") else
  let colNames := (map_to_list cols).*1 in
  let! pks := slice_pks ls in
  let args := (map_to_list cols).*2 ++ pks in
  let! result := wrapping ("models: unable to update all in " +:+ varName T +:+ " slice")
    (Exec ex (SUpdate (tableName T) colNames (PrimaryKeyColumns T) (length ls)) args) in
  wrapping ("models: unable to retrieve rows affected all in update all " +:+ varName T) (of_sum result).

Definition build_upsert (updateOnConflict : bool) (conflictColumns : list string) (updateColumns insertColumns : Columns) (nzDefaults : list string) : error + insertCache :=
  let '(insert, ret_) := InsertColumnSet insertColumns (AllColumns T) (ColumnsWithDefault T) (ColumnsWithoutDefault T) nzDefaults in
  let update := UpdateColumnSet updateColumns (AllColumns T) (PrimaryKeyColumns T) in
  if updateOnConflict && bool_decide (update = []) then
    inl (EText ("models: unable to upsert " +:+ tableName T +:+ ", could not build update column list")) else
  let conflict := if decide (conflictColumns = []) then PrimaryKeyColumns T else conflictColumns in
  let query := buildUpsertQueryPostgres (tableName T) updateOnConflict ret_ update conflict insert in
  match BindMapping (struct_of T) insert with
  | inl e => inl e
  | inr vm =>
    if decide (ret_ = []) then inr (mkInsertCache query vm []) else
    match BindMapping (struct_of T) ret_ with
    | inl e => inl e
    | inr rm => inr (mkInsertCache query vm rm)
    end
  end.

Definition Upsert (ex : X) (o : option loc) (updateOnConflict : bool) (conflictColumns : list string) (updateColumns insertColumns : Columns) : Go W unit :=
  match o with
  | None => fail (EText ("models: no " +:+ tableName T +:+ " provided for upsert"))
  | Some l =>
    let! currTime := gets Now in
    update_obj l (touchUpsert T currTime) ;;!
    doHooks (hooks BeforeUpsertHook) ex l ;;!
    let! v := load l in
    let nzDefaults := NonZeroDefaultSet (struct_of T) (ColumnsWithDefault T) v in
    let key := makeUpsertKey updateOnConflict conflictColumns updateColumns insertColumns nzDefaults in
    let! cached := gets (λ w, upsertCaches (mem w) !! key) in
    let! cache := match cached with
                  | Some c => ret c
                  | None => of_sum (build_upsert updateOnConflict conflictColumns updateColumns insertColumns nzDefaults)
                  end in
    let vals := ValuesFromMapping (struct_of T) v (ic_valueMapping cache) in
    wrapping ("models: unable to upsert " +:+ tableName T)
      (if decide (ic_retMapping cache = []) then Exec ex (ic_query cache) vals ;;! ret tt
       else let! row := try (QueryRow ex (ic_query cache) vals) in
            match row with
            | inl e => if is_ErrNoRows e then ret tt else fail e
            | inr row => let! v' := of_sum (ScanMapping (struct_of T) v (ic_retMapping cache) row) in store l v'
            end) ;;!
    (match cached with Some _ => ret tt | None => cache_upsert key cache end) ;;!
    doHooks (hooks AfterUpsertHook) ex l
  end.

Definition Delete (ex : X) (o : option loc) : Go W Z :=
  match o with
  | None => fail (EText ("models: no " +:+ typeName T +:+ " provided for delete"))
  | Some l =>
    doHooks (hooks BeforeDeleteHook) ex l ;;!
    let! v := load l in
    let! result := wrapping ("models: unable to delete from " +:+ tableName T)
      (Exec ex (SDelete (tableName T) (PrimaryKeyColumns T) 1) (pk_values v)) in
    let! rowsAff := wrapping ("models: failed to get rows affected by delete for " +:+ tableName T) (of_sum result) in
    doHooks (hooks AfterDeleteHook) ex l ;;!
    ret rowsAff
  end.

(** [DeleteAll] of a query. *)
Definition QDeleteAll (ex : X) (q : option Query) : Go W Z :=
  match q with
  | None => fail (EText ("models: no " +:+ varName T +:+ "Query provided for delete all"))
  | Some q =>
    let! result := wrapping ("models: unable to delete all from " +:+ tableName T) (Exec ex (SQuery (SetDelete q)) []) in
    wrapping ("models: failed to get rows affected by deleteall for " +:+ tableName T) (of_sum result)
  end.

(** [DeleteAll] of a slice. *)
Definition DeleteAll (ex : X) (ls : list loc) : Go W Z :=
  if decide (ls = []) then ret 0 else
  (if decide (length (hooks BeforeDeleteHook) = 0%nat) then ret tt else doHooksAll (hooks BeforeDeleteHook) ex ls) ;;!
  let! args := slice_pks ls in
  let! result := wrapping ("models: unable to delete all from " +:+ varName T +:+ " slice")
    (Exec ex (SDelete (tableName T) (PrimaryKeyColumns T) (length ls)) args) in
  let! rowsAff := wrapping ("models: failed to get rows affected by deleteall for " +:+ tableName T) (of_sum result) in
  (if decide (length (hooks AfterDeleteHook) = 0%nat) then ret tt else doHooksAll (hooks AfterDeleteHook) ex ls) ;;!
  ret rowsAff.
End crud.
Arguments Hooks W X : clear implicits.
Arguments Hook W X : clear implicits.
