(* ===== verification/Models.v ===== *)
(** * The generated data layer: the seven tables

    The structs of [src/models], their columns and tags, and the operations of
    [Boil.v] at each of them.  A [G] function is the same operation on the global
    database handle.  Relations between tables, and the queries that load them, are
    in [Relations.v]. *)

From stdpp Require Import gmap strings.
From S2P Require Import Prelude GoLib Errors Boil.

(** Fields of the [null] package. *)
Definition null_int {O} := @null_field O Z SInt (λ v, match v with SInt z => Some z | _ => None end).
Definition null_text {O} := @null_field O string SText (λ v, match v with SText s => Some s | _ => None end).
Definition null_time {O} := @null_field O Z STime (λ v, match v with STime z => Some z | _ => None end).
Definition null_json {O} := @null_field O string SJSON (λ v, match v with SJSON s => Some s | _ => None end).

(** ** Where helpers

    A helper is the quoted column of a table; comparing it gives a query mod. *)
Definition whereHelperint (w : string * string) (op : Op) (x : Z) : QueryMod := qmhelper_Where w op (SInt x).
Definition whereHelperint64 (w : string * string) (op : Op) (x : Z) : QueryMod := qmhelper_Where w op (SInt x).
Definition whereHelperstring (w : string * string) (op : Op) (x : string) : QueryMod := qmhelper_Where w op (SText x).
Definition whereHelperbool (w : string * string) (op : Op) (x : bool) : QueryMod := qmhelper_Where w op (SBool x).
Definition whereHelpertime_Time (w : string * string) (op : Op) (x : Z) : QueryMod := qmhelper_Where w op (STime x).
(** On nullable columns (in)equality takes null into account; [IsNull] and
    [IsNotNull] are [WhereIsNull] and [WhereIsNotNull]. *)
Definition whereNull (w : string * string) (op : Op) (v : SVal) : QueryMod :=
  match op with EQ => WhereNullEQ w false v | NEQ => WhereNullEQ w true v | op => qmhelper_Where w op v end.
Definition whereHelpernull_Int (w : string * string) (op : Op) (x : option Z) : QueryMod := whereNull w op (from_option SInt SNull x).
Definition whereHelpernull_String (w : string * string) (op : Op) (x : option string) : QueryMod := whereNull w op (from_option SText SNull x).
Definition whereHelpernull_Time (w : string * string) (op : Op) (x : option Z) : QueryMod := whereNull w op (from_option STime SNull x).
Definition whereHelpernull_JSON (w : string * string) (op : Op) (x : option string) : QueryMod := whereNull w op (from_option SJSON SNull x).

(** ** [users] *)

Record userR := mkUserR { userR_LbrynetServer : option loc; userR_Asynqueries : list loc; userR_Uploads : list loc }.
Definition userR0 : userR := mkUserR None [] [].
Record User := mkUser {
  u_ID : Z; u_CreatedAt : Z; u_UpdatedAt : Z; u_SDKAccountID : option string; u_LbrynetServerID : option Z; u_LastSeenAt : option Z; u_IdpID : option string; u_R : option userR }.
Definition set_u_ID (v : Z) (o : User) : User := mkUser v (u_CreatedAt o) (u_UpdatedAt o) (u_SDKAccountID o) (u_LbrynetServerID o) (u_LastSeenAt o) (u_IdpID o) (u_R o).
Definition set_u_CreatedAt (v : Z) (o : User) : User := mkUser (u_ID o) v (u_UpdatedAt o) (u_SDKAccountID o) (u_LbrynetServerID o) (u_LastSeenAt o) (u_IdpID o) (u_R o).
Definition set_u_UpdatedAt (v : Z) (o : User) : User := mkUser (u_ID o) (u_CreatedAt o) v (u_SDKAccountID o) (u_LbrynetServerID o) (u_LastSeenAt o) (u_IdpID o) (u_R o).
Definition set_u_SDKAccountID (v : option string) (o : User) : User := mkUser (u_ID o) (u_CreatedAt o) (u_UpdatedAt o) v (u_LbrynetServerID o) (u_LastSeenAt o) (u_IdpID o) (u_R o).
Definition set_u_LbrynetServerID (v : option Z) (o : User) : User := mkUser (u_ID o) (u_CreatedAt o) (u_UpdatedAt o) (u_SDKAccountID o) v (u_LastSeenAt o) (u_IdpID o) (u_R o).
Definition set_u_LastSeenAt (v : option Z) (o : User) : User := mkUser (u_ID o) (u_CreatedAt o) (u_UpdatedAt o) (u_SDKAccountID o) (u_LbrynetServerID o) v (u_IdpID o) (u_R o).
Definition set_u_IdpID (v : option string) (o : User) : User := mkUser (u_ID o) (u_CreatedAt o) (u_UpdatedAt o) (u_SDKAccountID o) (u_LbrynetServerID o) (u_LastSeenAt o) v (u_R o).
Definition set_u_R (v : option userR) (o : User) : User := mkUser (u_ID o) (u_CreatedAt o) (u_UpdatedAt o) (u_SDKAccountID o) (u_LbrynetServerID o) (u_LastSeenAt o) (u_IdpID o) v.
Definition userAllColumns := ["id"; "created_at"; "updated_at"; "sdk_account_id"; "lbrynet_server_id"; "last_seen_at"; "idp_id"].
Definition userColumnsWithoutDefault := ["id"; "sdk_account_id"; "lbrynet_server_id"; "last_seen_at"; "idp_id"].
Definition userColumnsWithDefault : list string := ["created_at"; "updated_at"].
Definition userPrimaryKeyColumns := ["id"].
Definition UserColumns : list (string * string) :=
  [("ID", "id"); ("CreatedAt", "created_at"); ("UpdatedAt", "updated_at"); ("SDKAccountID", "sdk_account_id"); ("LbrynetServerID", "lbrynet_server_id"); ("LastSeenAt", "last_seen_at"); ("IdpID", "idp_id")].
Definition UserWhere : list (string * (string * string)) := map (λ c, (c.1, ("users", c.2))) UserColumns.
Definition userStruct : Struct User :=
  [int_field "id" u_ID set_u_ID;
   time_field "created_at" u_CreatedAt set_u_CreatedAt;
   time_field "updated_at" u_UpdatedAt set_u_UpdatedAt;
   null_text "sdk_account_id" u_SDKAccountID set_u_SDKAccountID;
   null_int "lbrynet_server_id" u_LbrynetServerID set_u_LbrynetServerID;
   null_time "last_seen_at" u_LastSeenAt set_u_LastSeenAt;
   null_text "idp_id" u_IdpID set_u_IdpID].
Definition user_touchInsert (now : Z) (o : User) : User :=
  let o := if decide (u_CreatedAt o = 0) then set_u_CreatedAt now o else o in
  if decide (u_UpdatedAt o = 0) then set_u_UpdatedAt now o else o.
Definition user_touchUpdate (now : Z) (o : User) : User := set_u_UpdatedAt now o.
Definition user_touchUpsert (now : Z) (o : User) : User := set_u_UpdatedAt now (if decide (u_CreatedAt o = 0) then set_u_CreatedAt now o else o).
Definition userTable : Table User :=
  mkTable "users" "User" "user" userStruct (mkUser 0 0 0 None None None None None)
    userAllColumns userColumnsWithoutDefault userColumnsWithDefault userPrimaryKeyColumns
    user_touchInsert user_touchUpdate user_touchUpsert.

(** ** [lbrynet_servers] *)

Record lbrynetServerR := mkLbrynetServerR { lbrynetServerR_Users : list loc }.
Definition lbrynetServerR0 : lbrynetServerR := mkLbrynetServerR [].
Record LbrynetServer := mkLbrynetServer {
  s_ID : Z; s_Name : string; s_Address : string; s_Weight : Z; s_CreatedAt : Z; s_UpdatedAt : Z; s_Private : bool; s_R : option lbrynetServerR }.
Definition set_s_ID (v : Z) (o : LbrynetServer) : LbrynetServer := mkLbrynetServer v (s_Name o) (s_Address o) (s_Weight o) (s_CreatedAt o) (s_UpdatedAt o) (s_Private o) (s_R o).
Definition set_s_Name (v : string) (o : LbrynetServer) : LbrynetServer := mkLbrynetServer (s_ID o) v (s_Address o) (s_Weight o) (s_CreatedAt o) (s_UpdatedAt o) (s_Private o) (s_R o).
Definition set_s_Address (v : string) (o : LbrynetServer) : LbrynetServer := mkLbrynetServer (s_ID o) (s_Name o) v (s_Weight o) (s_CreatedAt o) (s_UpdatedAt o) (s_Private o) (s_R o).
Definition set_s_Weight (v : Z) (o : LbrynetServer) : LbrynetServer := mkLbrynetServer (s_ID o) (s_Name o) (s_Address o) v (s_CreatedAt o) (s_UpdatedAt o) (s_Private o) (s_R o).
Definition set_s_CreatedAt (v : Z) (o : LbrynetServer) : LbrynetServer := mkLbrynetServer (s_ID o) (s_Name o) (s_Address o) (s_Weight o) v (s_UpdatedAt o) (s_Private o) (s_R o).
Definition set_s_UpdatedAt (v : Z) (o : LbrynetServer) : LbrynetServer := mkLbrynetServer (s_ID o) (s_Name o) (s_Address o) (s_Weight o) (s_CreatedAt o) v (s_Private o) (s_R o).
Definition set_s_Private (v : bool) (o : LbrynetServer) : LbrynetServer := mkLbrynetServer (s_ID o) (s_Name o) (s_Address o) (s_Weight o) (s_CreatedAt o) (s_UpdatedAt o) v (s_R o).
Definition set_s_R (v : option lbrynetServerR) (o : LbrynetServer) : LbrynetServer := mkLbrynetServer (s_ID o) (s_Name o) (s_Address o) (s_Weight o) (s_CreatedAt o) (s_UpdatedAt o) (s_Private o) v.
Definition lbrynetServerAllColumns := ["id"; "name"; "address"; "weight"; "created_at"; "updated_at"; "private"].
Definition lbrynetServerColumnsWithoutDefault := ["name"; "address"].
Definition lbrynetServerColumnsWithDefault : list string := ["id"; "weight"; "created_at"; "updated_at"; "private"].
Definition lbrynetServerPrimaryKeyColumns := ["id"].
Definition LbrynetServerColumns : list (string * string) :=
  [("ID", "id"); ("Name", "name"); ("Address", "address"); ("Weight", "weight"); ("CreatedAt", "created_at"); ("UpdatedAt", "updated_at"); ("Private", "private")].
Definition LbrynetServerWhere : list (string * (string * string)) := map (λ c, (c.1, ("lbrynet_servers", c.2))) LbrynetServerColumns.
Definition lbrynetServerStruct : Struct LbrynetServer :=
  [int_field "id" s_ID set_s_ID;
   text_field "name" s_Name set_s_Name;
   text_field "address" s_Address set_s_Address;
   int_field "weight" s_Weight set_s_Weight;
   time_field "created_at" s_CreatedAt set_s_CreatedAt;
   time_field "updated_at" s_UpdatedAt set_s_UpdatedAt;
   bool_field "private" s_Private set_s_Private].
Definition lbrynetServer_touchInsert (now : Z) (o : LbrynetServer) : LbrynetServer :=
  let o := if decide (s_CreatedAt o = 0) then set_s_CreatedAt now o else o in
  if decide (s_UpdatedAt o = 0) then set_s_UpdatedAt now o else o.
Definition lbrynetServer_touchUpdate (now : Z) (o : LbrynetServer) : LbrynetServer := set_s_UpdatedAt now o.
Definition lbrynetServer_touchUpsert (now : Z) (o : LbrynetServer) : LbrynetServer := set_s_UpdatedAt now (if decide (s_CreatedAt o = 0) then set_s_CreatedAt now o else o).
Definition lbrynetServerTable : Table LbrynetServer :=
  mkTable "lbrynet_servers" "LbrynetServer" "lbrynetServer" lbrynetServerStruct (mkLbrynetServer 0 "" "" 0 0 0 false None)
    lbrynetServerAllColumns lbrynetServerColumnsWithoutDefault lbrynetServerColumnsWithDefault lbrynetServerPrimaryKeyColumns
    lbrynetServer_touchInsert lbrynetServer_touchUpdate lbrynetServer_touchUpsert.

(** ** [uploads] *)

Record uploadR := mkUploadR { uploadR_User : option loc; uploadR_PublishQuery : option loc }.
Definition uploadR0 : uploadR := mkUploadR None None.
Record Upload := mkUpload {
  up_ID : string; up_UserID : option Z; up_Path : string; up_CreatedAt : Z; up_UpdatedAt : option Z; up_Status : string; up_Error : string; up_Size : Z; up_Received : Z; up_R : option uploadR }.
Definition set_up_ID (v : string) (o : Upload) : Upload := mkUpload v (up_UserID o) (up_Path o) (up_CreatedAt o) (up_UpdatedAt o) (up_Status o) (up_Error o) (up_Size o) (up_Received o) (up_R o).
Definition set_up_UserID (v : option Z) (o : Upload) : Upload := mkUpload (up_ID o) v (up_Path o) (up_CreatedAt o) (up_UpdatedAt o) (up_Status o) (up_Error o) (up_Size o) (up_Received o) (up_R o).
Definition set_up_Path (v : string) (o : Upload) : Upload := mkUpload (up_ID o) (up_UserID o) v (up_CreatedAt o) (up_UpdatedAt o) (up_Status o) (up_Error o) (up_Size o) (up_Received o) (up_R o).
Definition set_up_CreatedAt (v : Z) (o : Upload) : Upload := mkUpload (up_ID o) (up_UserID o) (up_Path o) v (up_UpdatedAt o) (up_Status o) (up_Error o) (up_Size o) (up_Received o) (up_R o).
Definition set_up_UpdatedAt (v : option Z) (o : Upload) : Upload := mkUpload (up_ID o) (up_UserID o) (up_Path o) (up_CreatedAt o) v (up_Status o) (up_Error o) (up_Size o) (up_Received o) (up_R o).
Definition set_up_Status (v : string) (o : Upload) : Upload := mkUpload (up_ID o) (up_UserID o) (up_Path o) (up_CreatedAt o) (up_UpdatedAt o) v (up_Error o) (up_Size o) (up_Received o) (up_R o).
Definition set_up_Error (v : string) (o : Upload) : Upload := mkUpload (up_ID o) (up_UserID o) (up_Path o) (up_CreatedAt o) (up_UpdatedAt o) (up_Status o) v (up_Size o) (up_Received o) (up_R o).
Definition set_up_Size (v : Z) (o : Upload) : Upload := mkUpload (up_ID o) (up_UserID o) (up_Path o) (up_CreatedAt o) (up_UpdatedAt o) (up_Status o) (up_Error o) v (up_Received o) (up_R o).
Definition set_up_Received (v : Z) (o : Upload) : Upload := mkUpload (up_ID o) (up_UserID o) (up_Path o) (up_CreatedAt o) (up_UpdatedAt o) (up_Status o) (up_Error o) (up_Size o) v (up_R o).
Definition set_up_R (v : option uploadR) (o : Upload) : Upload := mkUpload (up_ID o) (up_UserID o) (up_Path o) (up_CreatedAt o) (up_UpdatedAt o) (up_Status o) (up_Error o) (up_Size o) (up_Received o) v.
Definition uploadAllColumns := ["id"; "user_id"; "path"; "created_at"; "updated_at"; "status"; "error"; "size"; "received"].
Definition uploadColumnsWithoutDefault := ["id"; "user_id"; "path"; "updated_at"; "status"; "error"; "size"].
Definition uploadColumnsWithDefault : list string := ["created_at"; "received"].
Definition uploadPrimaryKeyColumns := ["id"].
Definition UploadColumns : list (string * string) :=
  [("ID", "id"); ("UserID", "user_id"); ("Path", "path"); ("CreatedAt", "created_at"); ("UpdatedAt", "updated_at"); ("Status", "status"); ("Error", "error"); ("Size", "size"); ("Received", "received")].
Definition UploadWhere : list (string * (string * string)) := map (λ c, (c.1, ("uploads", c.2))) UploadColumns.
Definition uploadStruct : Struct Upload :=
  [text_field "id" up_ID set_up_ID;
   null_int "user_id" up_UserID set_up_UserID;
   text_field "path" up_Path set_up_Path;
   time_field "created_at" up_CreatedAt set_up_CreatedAt;
   null_time "updated_at" up_UpdatedAt set_up_UpdatedAt;
   text_field "status" up_Status set_up_Status;
   text_field "error" up_Error set_up_Error;
   int_field "size" up_Size set_up_Size;
   int_field "received" up_Received set_up_Received].
Definition upload_touchInsert (now : Z) (o : Upload) : Upload :=
  let o := if decide (up_CreatedAt o = 0) then set_up_CreatedAt now o else o in
  if decide (default 0 (up_UpdatedAt o) = 0) then set_up_UpdatedAt (Some now) o else o.
Definition upload_touchUpdate (now : Z) (o : Upload) : Upload := set_up_UpdatedAt (Some now) o.
Definition upload_touchUpsert (now : Z) (o : Upload) : Upload := set_up_UpdatedAt (Some now) (if decide (up_CreatedAt o = 0) then set_up_CreatedAt now o else o).
Definition uploadTable : Table Upload :=
  mkTable "uploads" "Upload" "upload" uploadStruct (mkUpload "" None "" 0 None "" "" 0 0 None)
    uploadAllColumns uploadColumnsWithoutDefault uploadColumnsWithDefault uploadPrimaryKeyColumns
    upload_touchInsert upload_touchUpdate upload_touchUpsert.

(** ** [asynqueries] *)

Record asynqueryR := mkAsynqueryR { asynqueryR_User : option loc }.
Definition asynqueryR0 : asynqueryR := mkAsynqueryR None.
Record Asynquery := mkAsynquery {
  aq_ID : string; aq_UserID : Z; aq_CreatedAt : Z; aq_UpdatedAt : option Z; aq_Status : string; aq_Error : string; aq_UploadID : string; aq_Body : option string; aq_Response : option string; aq_ReadyToRun : bool; aq_FileReady : bool; aq_FileMeta : option string; aq_R : option asynqueryR }.
Definition set_aq_ID (v : string) (o : Asynquery) : Asynquery := mkAsynquery v (aq_UserID o) (aq_CreatedAt o) (aq_UpdatedAt o) (aq_Status o) (aq_Error o) (aq_UploadID o) (aq_Body o) (aq_Response o) (aq_ReadyToRun o) (aq_FileReady o) (aq_FileMeta o) (aq_R o).
Definition set_aq_UserID (v : Z) (o : Asynquery) : Asynquery := mkAsynquery (aq_ID o) v (aq_CreatedAt o) (aq_UpdatedAt o) (aq_Status o) (aq_Error o) (aq_UploadID o) (aq_Body o) (aq_Response o) (aq_ReadyToRun o) (aq_FileReady o) (aq_FileMeta o) (aq_R o).
Definition set_aq_CreatedAt (v : Z) (o : Asynquery) : Asynquery := mkAsynquery (aq_ID o) (aq_UserID o) v (aq_UpdatedAt o) (aq_Status o) (aq_Error o) (aq_UploadID o) (aq_Body o) (aq_Response o) (aq_ReadyToRun o) (aq_FileReady o) (aq_FileMeta o) (aq_R o).
Definition set_aq_UpdatedAt (v : option Z) (o : Asynquery) : Asynquery := mkAsynquery (aq_ID o) (aq_UserID o) (aq_CreatedAt o) v (aq_Status o) (aq_Error o) (aq_UploadID o) (aq_Body o) (aq_Response o) (aq_ReadyToRun o) (aq_FileReady o) (aq_FileMeta o) (aq_R o).
Definition set_aq_Status (v : string) (o : Asynquery) : Asynquery := mkAsynquery (aq_ID o) (aq_UserID o) (aq_CreatedAt o) (aq_UpdatedAt o) v (aq_Error o) (aq_UploadID o) (aq_Body o) (aq_Response o) (aq_ReadyToRun o) (aq_FileReady o) (aq_FileMeta o) (aq_R o).
Definition set_aq_Error (v : string) (o : Asynquery) : Asynquery := mkAsynquery (aq_ID o) (aq_UserID o) (aq_CreatedAt o) (aq_UpdatedAt o) (aq_Status o) v (aq_UploadID o) (aq_Body o) (aq_Response o) (aq_ReadyToRun o) (aq_FileReady o) (aq_FileMeta o) (aq_R o).
Definition set_aq_UploadID (v : string) (o : Asynquery) : Asynquery := mkAsynquery (aq_ID o) (aq_UserID o) (aq_CreatedAt o) (aq_UpdatedAt o) (aq_Status o) (aq_Error o) v (aq_Body o) (aq_Response o) (aq_ReadyToRun o) (aq_FileReady o) (aq_FileMeta o) (aq_R o).
Definition set_aq_Body (v : option string) (o : Asynquery) : Asynquery := mkAsynquery (aq_ID o) (aq_UserID o) (aq_CreatedAt o) (aq_UpdatedAt o) (aq_Status o) (aq_Error o) (aq_UploadID o) v (aq_Response o) (aq_ReadyToRun o) (aq_FileReady o) (aq_FileMeta o) (aq_R o).
Definition set_aq_Response (v : option string) (o : Asynquery) : Asynquery := mkAsynquery (aq_ID o) (aq_UserID o) (aq_CreatedAt o) (aq_UpdatedAt o) (aq_Status o) (aq_Error o) (aq_UploadID o) (aq_Body o) v (aq_ReadyToRun o) (aq_FileReady o) (aq_FileMeta o) (aq_R o).
Definition set_aq_ReadyToRun (v : bool) (o : Asynquery) : Asynquery := mkAsynquery (aq_ID o) (aq_UserID o) (aq_CreatedAt o) (aq_UpdatedAt o) (aq_Status o) (aq_Error o) (aq_UploadID o) (aq_Body o) (aq_Response o) v (aq_FileReady o) (aq_FileMeta o) (aq_R o).
Definition set_aq_FileReady (v : bool) (o : Asynquery) : Asynquery := mkAsynquery (aq_ID o) (aq_UserID o) (aq_CreatedAt o) (aq_UpdatedAt o) (aq_Status o) (aq_Error o) (aq_UploadID o) (aq_Body o) (aq_Response o) (aq_ReadyToRun o) v (aq_FileMeta o) (aq_R o).
Definition set_aq_FileMeta (v : option string) (o : Asynquery) : Asynquery := mkAsynquery (aq_ID o) (aq_UserID o) (aq_CreatedAt o) (aq_UpdatedAt o) (aq_Status o) (aq_Error o) (aq_UploadID o) (aq_Body o) (aq_Response o) (aq_ReadyToRun o) (aq_FileReady o) v (aq_R o).
Definition set_aq_R (v : option asynqueryR) (o : Asynquery) : Asynquery := mkAsynquery (aq_ID o) (aq_UserID o) (aq_CreatedAt o) (aq_UpdatedAt o) (aq_Status o) (aq_Error o) (aq_UploadID o) (aq_Body o) (aq_Response o) (aq_ReadyToRun o) (aq_FileReady o) (aq_FileMeta o) v.
Definition asynqueryAllColumns := ["id"; "user_id"; "created_at"; "updated_at"; "status"; "error"; "upload_id"; "body"; "response"; "ready_to_run"; "file_ready"; "file_meta"].
Definition asynqueryColumnsWithoutDefault := ["id"; "user_id"; "updated_at"; "status"; "error"; "upload_id"; "body"; "response"; "file_meta"].
Definition asynqueryColumnsWithDefault : list string := ["created_at"; "ready_to_run"; "file_ready"].
Definition asynqueryPrimaryKeyColumns := ["id"].
Definition AsynqueryColumns : list (string * string) :=
  [("ID", "id"); ("UserID", "user_id"); ("CreatedAt", "created_at"); ("UpdatedAt", "updated_at"); ("Status", "status"); ("Error", "error"); ("UploadID", "upload_id"); ("Body", "body"); ("Response", "response"); ("ReadyToRun", "ready_to_run"); ("FileReady", "file_ready"); ("FileMeta", "file_meta")].
Definition AsynqueryWhere : list (string * (string * string)) := map (λ c, (c.1, ("asynqueries", c.2))) AsynqueryColumns.
Definition asynqueryStruct : Struct Asynquery :=
  [text_field "id" aq_ID set_aq_ID;
   int_field "user_id" aq_UserID set_aq_UserID;
   time_field "created_at" aq_CreatedAt set_aq_CreatedAt;
   null_time "updated_at" aq_UpdatedAt set_aq_UpdatedAt;
   text_field "status" aq_Status set_aq_Status;
   text_field "error" aq_Error set_aq_Error;
   text_field "upload_id" aq_UploadID set_aq_UploadID;
   null_json "body" aq_Body set_aq_Body;
   null_json "response" aq_Response set_aq_Response;
   bool_field "ready_to_run" aq_ReadyToRun set_aq_ReadyToRun;
   bool_field "file_ready" aq_FileReady set_aq_FileReady;
   null_json "file_meta" aq_FileMeta set_aq_FileMeta].
Definition asynquery_touchInsert (now : Z) (o : Asynquery) : Asynquery :=
  let o := if decide (aq_CreatedAt o = 0) then set_aq_CreatedAt now o else o in
  if decide (default 0 (aq_UpdatedAt o) = 0) then set_aq_UpdatedAt (Some now) o else o.
Definition asynquery_touchUpdate (now : Z) (o : Asynquery) : Asynquery := set_aq_UpdatedAt (Some now) o.
Definition asynquery_touchUpsert (now : Z) (o : Asynquery) : Asynquery := set_aq_UpdatedAt (Some now) (if decide (aq_CreatedAt o = 0) then set_aq_CreatedAt now o else o).
Definition asynqueryTable : Table Asynquery :=
  mkTable "asynqueries" "Asynquery" "asynquery" asynqueryStruct (mkAsynquery "" 0 0 None "" "" "" None None false false None None)
    asynqueryAllColumns asynqueryColumnsWithoutDefault asynqueryColumnsWithDefault asynqueryPrimaryKeyColumns
    asynquery_touchInsert asynquery_touchUpdate asynquery_touchUpsert.

(** ** [publish_queries] *)

Record publishQueryR := mkPublishQueryR { publishQueryR_Upload : option loc }.
Definition publishQueryR0 : publishQueryR := mkPublishQueryR None.
Record PublishQuery := mkPublishQuery {
  pq_UploadID : string; pq_CreatedAt : Z; pq_UpdatedAt : option Z; pq_Status : string; pq_Error : string; pq_Query : option string; pq_Response : option string; pq_R : option publishQueryR }.
Definition set_pq_UploadID (v : string) (o : PublishQuery) : PublishQuery := mkPublishQuery v (pq_CreatedAt o) (pq_UpdatedAt o) (pq_Status o) (pq_Error o) (pq_Query o) (pq_Response o) (pq_R o).
Definition set_pq_CreatedAt (v : Z) (o : PublishQuery) : PublishQuery := mkPublishQuery (pq_UploadID o) v (pq_UpdatedAt o) (pq_Status o) (pq_Error o) (pq_Query o) (pq_Response o) (pq_R o).
Definition set_pq_UpdatedAt (v : option Z) (o : PublishQuery) : PublishQuery := mkPublishQuery (pq_UploadID o) (pq_CreatedAt o) v (pq_Status o) (pq_Error o) (pq_Query o) (pq_Response o) (pq_R o).
Definition set_pq_Status (v : string) (o : PublishQuery) : PublishQuery := mkPublishQuery (pq_UploadID o) (pq_CreatedAt o) (pq_UpdatedAt o) v (pq_Error o) (pq_Query o) (pq_Response o) (pq_R o).
Definition set_pq_Error (v : string) (o : PublishQuery) : PublishQuery := mkPublishQuery (pq_UploadID o) (pq_CreatedAt o) (pq_UpdatedAt o) (pq_Status o) v (pq_Query o) (pq_Response o) (pq_R o).
Definition set_pq_Query (v : option string) (o : PublishQuery) : PublishQuery := mkPublishQuery (pq_UploadID o) (pq_CreatedAt o) (pq_UpdatedAt o) (pq_Status o) (pq_Error o) v (pq_Response o) (pq_R o).
Definition set_pq_Response (v : option string) (o : PublishQuery) : PublishQuery := mkPublishQuery (pq_UploadID o) (pq_CreatedAt o) (pq_UpdatedAt o) (pq_Status o) (pq_Error o) (pq_Query o) v (pq_R o).
Definition set_pq_R (v : option publishQueryR) (o : PublishQuery) : PublishQuery := mkPublishQuery (pq_UploadID o) (pq_CreatedAt o) (pq_UpdatedAt o) (pq_Status o) (pq_Error o) (pq_Query o) (pq_Response o) v.
Definition publishQueryAllColumns := ["upload_id"; "created_at"; "updated_at"; "status"; "error"; "query"; "response"].
Definition publishQueryColumnsWithoutDefault := ["upload_id"; "updated_at"; "status"; "error"; "query"; "response"].
Definition publishQueryColumnsWithDefault : list string := ["created_at"].
Definition publishQueryPrimaryKeyColumns := ["upload_id"].
Definition PublishQueryColumns : list (string * string) :=
  [("UploadID", "upload_id"); ("CreatedAt", "created_at"); ("UpdatedAt", "updated_at"); ("Status", "status"); ("Error", "error"); ("Query", "query"); ("Response", "response")].
Definition PublishQueryWhere : list (string * (string * string)) := map (λ c, (c.1, ("publish_queries", c.2))) PublishQueryColumns.
Definition publishQueryStruct : Struct PublishQuery :=
  [text_field "upload_id" pq_UploadID set_pq_UploadID;
   time_field "created_at" pq_CreatedAt set_pq_CreatedAt;
   null_time "updated_at" pq_UpdatedAt set_pq_UpdatedAt;
   text_field "status" pq_Status set_pq_Status;
   text_field "error" pq_Error set_pq_Error;
   null_json "query" pq_Query set_pq_Query;
   null_json "response" pq_Response set_pq_Response].
Definition publishQuery_touchInsert (now : Z) (o : PublishQuery) : PublishQuery :=
  let o := if decide (pq_CreatedAt o = 0) then set_pq_CreatedAt now o else o in
  if decide (default 0 (pq_UpdatedAt o) = 0) then set_pq_UpdatedAt (Some now) o else o.
Definition publishQuery_touchUpdate (now : Z) (o : PublishQuery) : PublishQuery := set_pq_UpdatedAt (Some now) o.
Definition publishQuery_touchUpsert (now : Z) (o : PublishQuery) : PublishQuery := set_pq_UpdatedAt (Some now) (if decide (pq_CreatedAt o = 0) then set_pq_CreatedAt now o else o).
Definition publishQueryTable : Table PublishQuery :=
  mkTable "publish_queries" "PublishQuery" "publishQuery" publishQueryStruct (mkPublishQuery "" 0 None "" "" None None None)
    publishQueryAllColumns publishQueryColumnsWithoutDefault publishQueryColumnsWithDefault publishQueryPrimaryKeyColumns
    publishQuery_touchInsert publishQuery_touchUpdate publishQuery_touchUpsert.

(** ** [query_log] *)

Record QueryLog := mkQueryLog {
  ql_ID : Z; ql_Method : string; ql_Timestamp : Z; ql_UserID : option Z; ql_RemoteIP : string; ql_Body : option string }.
Definition set_ql_ID (v : Z) (o : QueryLog) : QueryLog := mkQueryLog v (ql_Method o) (ql_Timestamp o) (ql_UserID o) (ql_RemoteIP o) (ql_Body o).
Definition set_ql_Method (v : string) (o : QueryLog) : QueryLog := mkQueryLog (ql_ID o) v (ql_Timestamp o) (ql_UserID o) (ql_RemoteIP o) (ql_Body o).
Definition set_ql_Timestamp (v : Z) (o : QueryLog) : QueryLog := mkQueryLog (ql_ID o) (ql_Method o) v (ql_UserID o) (ql_RemoteIP o) (ql_Body o).
Definition set_ql_UserID (v : option Z) (o : QueryLog) : QueryLog := mkQueryLog (ql_ID o) (ql_Method o) (ql_Timestamp o) v (ql_RemoteIP o) (ql_Body o).
Definition set_ql_RemoteIP (v : string) (o : QueryLog) : QueryLog := mkQueryLog (ql_ID o) (ql_Method o) (ql_Timestamp o) (ql_UserID o) v (ql_Body o).
Definition set_ql_Body (v : option string) (o : QueryLog) : QueryLog := mkQueryLog (ql_ID o) (ql_Method o) (ql_Timestamp o) (ql_UserID o) (ql_RemoteIP o) v.
Definition queryLogAllColumns := ["id"; "method"; "timestamp"; "user_id"; "remote_ip"; "body"].
Definition queryLogColumnsWithoutDefault := ["method"; "user_id"; "remote_ip"; "body"].
Definition queryLogColumnsWithDefault : list string := ["id"; "timestamp"].
Definition queryLogPrimaryKeyColumns := ["id"].
Definition QueryLogColumns : list (string * string) :=
  [("ID", "id"); ("Method", "method"); ("Timestamp", "timestamp"); ("UserID", "user_id"); ("RemoteIP", "remote_ip"); ("Body", "body")].
Definition QueryLogWhere : list (string * (string * string)) := map (λ c, (c.1, ("query_log", c.2))) QueryLogColumns.
Definition queryLogStruct : Struct QueryLog :=
  [int_field "id" ql_ID set_ql_ID;
   text_field "method" ql_Method set_ql_Method;
   time_field "timestamp" ql_Timestamp set_ql_Timestamp;
   null_int "user_id" ql_UserID set_ql_UserID;
   text_field "remote_ip" ql_RemoteIP set_ql_RemoteIP;
   null_json "body" ql_Body set_ql_Body].
Definition queryLogTable : Table QueryLog :=
  mkTable "query_log" "QueryLog" "queryLog" queryLogStruct (mkQueryLog 0 "" 0 None "" None)
    queryLogAllColumns queryLogColumnsWithoutDefault queryLogColumnsWithDefault queryLogPrimaryKeyColumns
    (λ _ o, o) (λ _ o, o) (λ _ o, o).

(** ** [gorp_migrations] *)

Record GorpMigration := mkGorpMigration {
  gm_ID : string; gm_AppliedAt : option Z }.
Definition set_gm_ID (v : string) (o : GorpMigration) : GorpMigration := mkGorpMigration v (gm_AppliedAt o).
Definition set_gm_AppliedAt (v : option Z) (o : GorpMigration) : GorpMigration := mkGorpMigration (gm_ID o) v.
Definition gorpMigrationAllColumns := ["id"; "applied_at"].
Definition gorpMigrationColumnsWithoutDefault := ["id"; "applied_at"].
Definition gorpMigrationColumnsWithDefault : list string := [].
Definition gorpMigrationPrimaryKeyColumns := ["id"].
Definition GorpMigrationColumns : list (string * string) :=
  [("ID", "id"); ("AppliedAt", "applied_at")].
Definition GorpMigrationWhere : list (string * (string * string)) := map (λ c, (c.1, ("gorp_migrations", c.2))) GorpMigrationColumns.
Definition gorpMigrationStruct : Struct GorpMigration :=
  [text_field "id" gm_ID set_gm_ID;
   null_time "applied_at" gm_AppliedAt set_gm_AppliedAt].
Definition gorpMigrationTable : Table GorpMigration :=
  mkTable "gorp_migrations" "GorpMigration" "gorpMigration" gorpMigrationStruct (mkGorpMigration "" None)
    gorpMigrationAllColumns gorpMigrationColumnsWithoutDefault gorpMigrationColumnsWithDefault gorpMigrationPrimaryKeyColumns
    (λ _ o, o) (λ _ o, o) (λ _ o, o).

(** ** The operations of each table *)

Section models.
Context {W X : Type} {Ex : Executor W X} {BC : BoilColumns} {Q : Queries}.
Context {MU : Model W User} {MS : Model W LbrynetServer} {MUp : Model W Upload} {MA : Model W Asynquery}
        {MP : Model W PublishQuery} {ML : Model W QueryLog} {MG : Model W GorpMigration}.

(** The hooks registered for each table. *)
Record ModelHooks := mkModelHooks {
  userHooks : Hooks W X; lbrynetServerHooks : Hooks W X; uploadHooks : Hooks W X; asynqueryHooks : Hooks W X;
  publishQueryHooks : Hooks W X; queryLogHooks : Hooks W X; gorpMigrationHooks : Hooks W X }.
Context (hs : ModelHooks).

(** *** [User] *)

Definition User_doHooks (p : HookPoint) (ex : X) (l : loc) : Go W unit := doHooks (userHooks hs p) ex l.
Definition AddUserHook (p : HookPoint) (h : Hook W X) : ModelHooks :=
  mkModelHooks (AddHook (userHooks hs) p h) (lbrynetServerHooks hs) (uploadHooks hs) (asynqueryHooks hs) (publishQueryHooks hs) (queryLogHooks hs) (gorpMigrationHooks hs).
Definition Users (mods : list QueryMod) : Query := NewQuery (mods ++ [qm_From "users"]).
Definition User_Count (ex : X) (q : Query) : Go W Z := Count userTable ex q.
Definition User_CountG (q : Query) : Go W Z := User_Count GetDB q.
Definition User_QExists (ex : X) (q : Query) : Go W bool := QExists userTable ex q.
Definition User_QExistsG (q : Query) : Go W bool := User_QExists GetDB q.
Definition FindUser (ex : X) (id : Z) (selectCols : list string) : Go W loc := Find userTable ex [SInt id] selectCols.
Definition FindUserG (id : Z) (selectCols : list string) : Go W loc := FindUser GetDB id selectCols.
Definition User_Insert (ex : X) (o : option loc) (columns : Columns) : Go W unit := Insert userTable (userHooks hs) ex o columns.
Definition User_InsertG (o : option loc) (columns : Columns) : Go W unit := User_Insert GetDB o columns.
Definition User_Update (ex : X) (o : loc) (columns : Columns) : Go W Z := Update userTable (userHooks hs) ex o columns.
Definition User_UpdateG (o : loc) (columns : Columns) : Go W Z := User_Update GetDB o columns.
Definition User_QUpdateAll (ex : X) (q : Query) (cols : gmap string SVal) : Go W Z := QUpdateAll userTable ex q cols.
Definition User_QUpdateAllG (q : Query) (cols : gmap string SVal) : Go W Z := User_QUpdateAll GetDB q cols.
Definition UserSlice_UpdateAll (ex : X) (o : list loc) (cols : gmap string SVal) : Go W Z := UpdateAll userTable ex o cols.
Definition UserSlice_UpdateAllG (o : list loc) (cols : gmap string SVal) : Go W Z := UserSlice_UpdateAll GetDB o cols.
Definition User_Upsert (ex : X) (o : option loc) (updateOnConflict : bool) (conflictColumns : list string) (updateColumns insertColumns : Columns) : Go W unit := 
  Upsert userTable (userHooks hs) ex o updateOnConflict conflictColumns updateColumns insertColumns.
Definition User_UpsertG (o : option loc) (updateOnConflict : bool) (conflictColumns : list string) (updateColumns insertColumns : Columns) : Go W unit := 
  User_Upsert GetDB o updateOnConflict conflictColumns updateColumns insertColumns.
Definition User_Delete (ex : X) (o : option loc) : Go W Z := Delete userTable (userHooks hs) ex o.
Definition User_DeleteG (o : option loc) : Go W Z := User_Delete GetDB o.
Definition User_QDeleteAll (ex : X) (q : option Query) : Go W Z := QDeleteAll userTable ex q.
Definition UserSlice_DeleteAll (ex : X) (o : list loc) : Go W Z := DeleteAll userTable (userHooks hs) ex o.
Definition UserSlice_DeleteAllG (o : list loc) : Go W Z := UserSlice_DeleteAll GetDB o.
Definition User_Reload (ex : X) (o : loc) : Go W unit := Reload userTable ex o.
Definition User_ReloadG (o : option loc) : Go W unit := 
  match o with None => fail (EText "models: no User provided for reload") | Some l => User_Reload GetDB l end.
Definition UserSlice_ReloadAll (ex : X) (o : option (list loc)) : Go W (option (list loc)) := ReloadAll userTable ex o.
Definition UserSlice_ReloadAllG (o : option (list loc)) : Go W (option (list loc)) := 
  match o with None => fail (EText "models: empty UserSlice provided for reload all") | Some _ => UserSlice_ReloadAll GetDB o end.
Definition UserExists (ex : X) (id : Z) : Go W bool := RowExists userTable ex [SInt id].
Definition UserExistsG (id : Z) : Go W bool := UserExists GetDB id.

(** *** [LbrynetServer] *)

Definition LbrynetServer_doHooks (p : HookPoint) (ex : X) (l : loc) : Go W unit := doHooks (lbrynetServerHooks hs p) ex l.
Definition AddLbrynetServerHook (p : HookPoint) (h : Hook W X) : ModelHooks :=
  mkModelHooks (userHooks hs) (AddHook (lbrynetServerHooks hs) p h) (uploadHooks hs) (asynqueryHooks hs) (publishQueryHooks hs) (queryLogHooks hs) (gorpMigrationHooks hs).
Definition LbrynetServers (mods : list QueryMod) : Query := NewQuery (mods ++ [qm_From "lbrynet_servers"]).
Definition LbrynetServer_Count (ex : X) (q : Query) : Go W Z := Count lbrynetServerTable ex q.
Definition LbrynetServer_CountG (q : Query) : Go W Z := LbrynetServer_Count GetDB q.
Definition LbrynetServer_QExists (ex : X) (q : Query) : Go W bool := QExists lbrynetServerTable ex q.
Definition LbrynetServer_QExistsG (q : Query) : Go W bool := LbrynetServer_QExists GetDB q.
Definition FindLbrynetServer (ex : X) (id : Z) (selectCols : list string) : Go W loc := Find lbrynetServerTable ex [SInt id] selectCols.
Definition FindLbrynetServerG (id : Z) (selectCols : list string) : Go W loc := FindLbrynetServer GetDB id selectCols.
Definition LbrynetServer_Insert (ex : X) (o : option loc) (columns : Columns) : Go W unit := Insert lbrynetServerTable (lbrynetServerHooks hs) ex o columns.
Definition LbrynetServer_InsertG (o : option loc) (columns : Columns) : Go W unit := LbrynetServer_Insert GetDB o columns.
Definition LbrynetServer_Update (ex : X) (o : loc) (columns : Columns) : Go W Z := Update lbrynetServerTable (lbrynetServerHooks hs) ex o columns.
Definition LbrynetServer_UpdateG (o : loc) (columns : Columns) : Go W Z := LbrynetServer_Update GetDB o columns.
Definition LbrynetServer_QUpdateAll (ex : X) (q : Query) (cols : gmap string SVal) : Go W Z := QUpdateAll lbrynetServerTable ex q cols.
Definition LbrynetServer_QUpdateAllG (q : Query) (cols : gmap string SVal) : Go W Z := LbrynetServer_QUpdateAll GetDB q cols.
Definition LbrynetServerSlice_UpdateAll (ex : X) (o : list loc) (cols : gmap string SVal) : Go W Z := UpdateAll lbrynetServerTable ex o cols.
Definition LbrynetServerSlice_UpdateAllG (o : list loc) (cols : gmap string SVal) : Go W Z := LbrynetServerSlice_UpdateAll GetDB o cols.
Definition LbrynetServer_Upsert (ex : X) (o : option loc) (updateOnConflict : bool) (conflictColumns : list string) (updateColumns insertColumns : Columns) : Go W unit := 
  Upsert lbrynetServerTable (lbrynetServerHooks hs) ex o updateOnConflict conflictColumns updateColumns insertColumns.
Definition LbrynetServer_UpsertG (o : option loc) (updateOnConflict : bool) (conflictColumns : list string) (updateColumns insertColumns : Columns) : Go W unit := 
  LbrynetServer_Upsert GetDB o updateOnConflict conflictColumns updateColumns insertColumns.
Definition LbrynetServer_Delete (ex : X) (o : option loc) : Go W Z := Delete lbrynetServerTable (lbrynetServerHooks hs) ex o.
Definition LbrynetServer_DeleteG (o : option loc) : Go W Z := LbrynetServer_Delete GetDB o.
Definition LbrynetServer_QDeleteAll (ex : X) (q : option Query) : Go W Z := QDeleteAll lbrynetServerTable ex q.
Definition LbrynetServerSlice_DeleteAll (ex : X) (o : list loc) : Go W Z := DeleteAll lbrynetServerTable (lbrynetServerHooks hs) ex o.
Definition LbrynetServerSlice_DeleteAllG (o : list loc) : Go W Z := LbrynetServerSlice_DeleteAll GetDB o.
Definition LbrynetServer_Reload (ex : X) (o : loc) : Go W unit := Reload lbrynetServerTable ex o.
Definition LbrynetServer_ReloadG (o : option loc) : Go W unit := 
  match o with None => fail (EText "models: no LbrynetServer provided for reload") | Some l => LbrynetServer_Reload GetDB l end.
Definition LbrynetServerSlice_ReloadAll (ex : X) (o : option (list loc)) : Go W (option (list loc)) := ReloadAll lbrynetServerTable ex o.
Definition LbrynetServerSlice_ReloadAllG (o : option (list loc)) : Go W (option (list loc)) := 
  match o with None => fail (EText "models: empty LbrynetServerSlice provided for reload all") | Some _ => LbrynetServerSlice_ReloadAll GetDB o end.
Definition LbrynetServerExists (ex : X) (id : Z) : Go W bool := RowExists lbrynetServerTable ex [SInt id].
Definition LbrynetServerExistsG (id : Z) : Go W bool := LbrynetServerExists GetDB id.

(** *** [Upload] *)

Definition Upload_doHooks (p : HookPoint) (ex : X) (l : loc) : Go W unit := doHooks (uploadHooks hs p) ex l.
Definition AddUploadHook (p : HookPoint) (h : Hook W X) : ModelHooks :=
  mkModelHooks (userHooks hs) (lbrynetServerHooks hs) (AddHook (uploadHooks hs) p h) (asynqueryHooks hs) (publishQueryHooks hs) (queryLogHooks hs) (gorpMigrationHooks hs).
Definition Uploads (mods : list QueryMod) : Query := NewQuery (mods ++ [qm_From "uploads"]).
Definition Upload_Count (ex : X) (q : Query) : Go W Z := Count uploadTable ex q.
Definition Upload_CountG (q : Query) : Go W Z := Upload_Count GetDB q.
Definition Upload_QExists (ex : X) (q : Query) : Go W bool := QExists uploadTable ex q.
Definition Upload_QExistsG (q : Query) : Go W bool := Upload_QExists GetDB q.
Definition FindUpload (ex : X) (id : string) (selectCols : list string) : Go W loc := Find uploadTable ex [SText id] selectCols.
Definition FindUploadG (id : string) (selectCols : list string) : Go W loc := FindUpload GetDB id selectCols.
Definition Upload_Insert (ex : X) (o : option loc) (columns : Columns) : Go W unit := Insert uploadTable (uploadHooks hs) ex o columns.
Definition Upload_InsertG (o : option loc) (columns : Columns) : Go W unit := Upload_Insert GetDB o columns.
Definition Upload_Update (ex : X) (o : loc) (columns : Columns) : Go W Z := Update uploadTable (uploadHooks hs) ex o columns.
Definition Upload_UpdateG (o : loc) (columns : Columns) : Go W Z := Upload_Update GetDB o columns.
Definition Upload_QUpdateAll (ex : X) (q : Query) (cols : gmap string SVal) : Go W Z := QUpdateAll uploadTable ex q cols.
Definition Upload_QUpdateAllG (q : Query) (cols : gmap string SVal) : Go W Z := Upload_QUpdateAll GetDB q cols.
Definition UploadSlice_UpdateAll (ex : X) (o : list loc) (cols : gmap string SVal) : Go W Z := UpdateAll uploadTable ex o cols.
Definition UploadSlice_UpdateAllG (o : list loc) (cols : gmap string SVal) : Go W Z := UploadSlice_UpdateAll GetDB o cols.
Definition Upload_Upsert (ex : X) (o : option loc) (updateOnConflict : bool) (conflictColumns : list string) (updateColumns insertColumns : Columns) : Go W unit := 
  Upsert uploadTable (uploadHooks hs) ex o updateOnConflict conflictColumns updateColumns insertColumns.
Definition Upload_UpsertG (o : option loc) (updateOnConflict : bool) (conflictColumns : list string) (updateColumns insertColumns : Columns) : Go W unit := 
  Upload_Upsert GetDB o updateOnConflict conflictColumns updateColumns insertColumns.
Definition Upload_Delete (ex : X) (o : option loc) : Go W Z := Delete uploadTable (uploadHooks hs) ex o.
Definition Upload_DeleteG (o : option loc) : Go W Z := Upload_Delete GetDB o.
Definition Upload_QDeleteAll (ex : X) (q : option Query) : Go W Z := QDeleteAll uploadTable ex q.
Definition UploadSlice_DeleteAll (ex : X) (o : list loc) : Go W Z := DeleteAll uploadTable (uploadHooks hs) ex o.
Definition UploadSlice_DeleteAllG (o : list loc) : Go W Z := UploadSlice_DeleteAll GetDB o.
Definition Upload_Reload (ex : X) (o : loc) : Go W unit := Reload uploadTable ex o.
Definition Upload_ReloadG (o : option loc) : Go W unit := 
  match o with None => fail (EText "models: no Upload provided for reload") | Some l => Upload_Reload GetDB l end.
Definition UploadSlice_ReloadAll (ex : X) (o : option (list loc)) : Go W (option (list loc)) := ReloadAll uploadTable ex o.
Definition UploadSlice_ReloadAllG (o : option (list loc)) : Go W (option (list loc)) := 
  match o with None => fail (EText "models: empty UploadSlice provided for reload all") | Some _ => UploadSlice_ReloadAll GetDB o end.
Definition UploadExists (ex : X) (id : string) : Go W bool := RowExists uploadTable ex [SText id].
Definition UploadExistsG (id : string) : Go W bool := UploadExists GetDB id.

(** *** [Asynquery] *)

Definition Asynquery_doHooks (p : HookPoint) (ex : X) (l : loc) : Go W unit := doHooks (asynqueryHooks hs p) ex l.
Definition AddAsynqueryHook (p : HookPoint) (h : Hook W X) : ModelHooks :=
  mkModelHooks (userHooks hs) (lbrynetServerHooks hs) (uploadHooks hs) (AddHook (asynqueryHooks hs) p h) (publishQueryHooks hs) (queryLogHooks hs) (gorpMigrationHooks hs).
Definition Asynqueries (mods : list QueryMod) : Query := NewQuery (mods ++ [qm_From "asynqueries"]).
Definition Asynquery_Count (ex : X) (q : Query) : Go W Z := Count asynqueryTable ex q.
Definition Asynquery_CountG (q : Query) : Go W Z := Asynquery_Count GetDB q.
Definition Asynquery_QExists (ex : X) (q : Query) : Go W bool := QExists asynqueryTable ex q.
Definition Asynquery_QExistsG (q : Query) : Go W bool := Asynquery_QExists GetDB q.
Definition FindAsynquery (ex : X) (id : string) (selectCols : list string) : Go W loc := Find asynqueryTable ex [SText id] selectCols.
Definition FindAsynqueryG (id : string) (selectCols : list string) : Go W loc := FindAsynquery GetDB id selectCols.
Definition Asynquery_Insert (ex : X) (o : option loc) (columns : Columns) : Go W unit := Insert asynqueryTable (asynqueryHooks hs) ex o columns.
Definition Asynquery_InsertG (o : option loc) (columns : Columns) : Go W unit := Asynquery_Insert GetDB o columns.
Definition Asynquery_Update (ex : X) (o : loc) (columns : Columns) : Go W Z := Update asynqueryTable (asynqueryHooks hs) ex o columns.
Definition Asynquery_UpdateG (o : loc) (columns : Columns) : Go W Z := Asynquery_Update GetDB o columns.
Definition Asynquery_QUpdateAll (ex : X) (q : Query) (cols : gmap string SVal) : Go W Z := QUpdateAll asynqueryTable ex q cols.
Definition Asynquery_QUpdateAllG (q : Query) (cols : gmap string SVal) : Go W Z := Asynquery_QUpdateAll GetDB q cols.
Definition AsynquerySlice_UpdateAll (ex : X) (o : list loc) (cols : gmap string SVal) : Go W Z := UpdateAll asynqueryTable ex o cols.
Definition AsynquerySlice_UpdateAllG (o : list loc) (cols : gmap string SVal) : Go W Z := AsynquerySlice_UpdateAll GetDB o cols.
Definition Asynquery_Upsert (ex : X) (o : option loc) (updateOnConflict : bool) (conflictColumns : list string) (updateColumns insertColumns : Columns) : Go W unit := 
  Upsert asynqueryTable (asynqueryHooks hs) ex o updateOnConflict conflictColumns updateColumns insertColumns.
Definition Asynquery_UpsertG (o : option loc) (updateOnConflict : bool) (conflictColumns : list string) (updateColumns insertColumns : Columns) : Go W unit := 
  Asynquery_Upsert GetDB o updateOnConflict conflictColumns updateColumns insertColumns.
Definition Asynquery_Delete (ex : X) (o : option loc) : Go W Z := Delete asynqueryTable (asynqueryHooks hs) ex o.
Definition Asynquery_DeleteG (o : option loc) : Go W Z := Asynquery_Delete GetDB o.
Definition Asynquery_QDeleteAll (ex : X) (q : option Query) : Go W Z := QDeleteAll asynqueryTable ex q.
Definition AsynquerySlice_DeleteAll (ex : X) (o : list loc) : Go W Z := DeleteAll asynqueryTable (asynqueryHooks hs) ex o.
Definition AsynquerySlice_DeleteAllG (o : list loc) : Go W Z := AsynquerySlice_DeleteAll GetDB o.
Definition Asynquery_Reload (ex : X) (o : loc) : Go W unit := Reload asynqueryTable ex o.
Definition Asynquery_ReloadG (o : option loc) : Go W unit := 
  match o with None => fail (EText "models: no Asynquery provided for reload") | Some l => Asynquery_Reload GetDB l end.
Definition AsynquerySlice_ReloadAll (ex : X) (o : option (list loc)) : Go W (option (list loc)) := ReloadAll asynqueryTable ex o.
Definition AsynquerySlice_ReloadAllG (o : option (list loc)) : Go W (option (list loc)) := 
  match o with None => fail (EText "models: empty AsynquerySlice provided for reload all") | Some _ => AsynquerySlice_ReloadAll GetDB o end.
Definition AsynqueryExists (ex : X) (id : string) : Go W bool := RowExists asynqueryTable ex [SText id].
Definition AsynqueryExistsG (id : string) : Go W bool := AsynqueryExists GetDB id.

(** *** [PublishQuery] *)

Definition PublishQuery_doHooks (p : HookPoint) (ex : X) (l : loc) : Go W unit := doHooks (publishQueryHooks hs p) ex l.
Definition AddPublishQueryHook (p : HookPoint) (h : Hook W X) : ModelHooks :=
  mkModelHooks (userHooks hs) (lbrynetServerHooks hs) (uploadHooks hs) (asynqueryHooks hs) (AddHook (publishQueryHooks hs) p h) (queryLogHooks hs) (gorpMigrationHooks hs).
Definition PublishQueries (mods : list QueryMod) : Query := NewQuery (mods ++ [qm_From "publish_queries"]).
Definition PublishQuery_Count (ex : X) (q : Query) : Go W Z := Count publishQueryTable ex q.
Definition PublishQuery_CountG (q : Query) : Go W Z := PublishQuery_Count GetDB q.
Definition PublishQuery_QExists (ex : X) (q : Query) : Go W bool := QExists publishQueryTable ex q.
Definition PublishQuery_QExistsG (q : Query) : Go W bool := PublishQuery_QExists GetDB q.
Definition FindPublishQuery (ex : X) (id : string) (selectCols : list string) : Go W loc := Find publishQueryTable ex [SText id] selectCols.
Definition FindPublishQueryG (id : string) (selectCols : list string) : Go W loc := FindPublishQuery GetDB id selectCols.
Definition PublishQuery_Insert (ex : X) (o : option loc) (columns : Columns) : Go W unit := Insert publishQueryTable (publishQueryHooks hs) ex o columns.
Definition PublishQuery_InsertG (o : option loc) (columns : Columns) : Go W unit := PublishQuery_Insert GetDB o columns.
Definition PublishQuery_Update (ex : X) (o : loc) (columns : Columns) : Go W Z := Update publishQueryTable (publishQueryHooks hs) ex o columns.
Definition PublishQuery_UpdateG (o : loc) (columns : Columns) : Go W Z := PublishQuery_Update GetDB o columns.
Definition PublishQuery_QUpdateAll (ex : X) (q : Query) (cols : gmap string SVal) : Go W Z := QUpdateAll publishQueryTable ex q cols.
Definition PublishQuery_QUpdateAllG (q : Query) (cols : gmap string SVal) : Go W Z := PublishQuery_QUpdateAll GetDB q cols.
Definition PublishQuerySlice_UpdateAll (ex : X) (o : list loc) (cols : gmap string SVal) : Go W Z := UpdateAll publishQueryTable ex o cols.
Definition PublishQuerySlice_UpdateAllG (o : list loc) (cols : gmap string SVal) : Go W Z := PublishQuerySlice_UpdateAll GetDB o cols.
Definition PublishQuery_Upsert (ex : X) (o : option loc) (updateOnConflict : bool) (conflictColumns : list string) (updateColumns insertColumns : Columns) : Go W unit := 
  Upsert publishQueryTable (publishQueryHooks hs) ex o updateOnConflict conflictColumns updateColumns insertColumns.
Definition PublishQuery_UpsertG (o : option loc) (updateOnConflict : bool) (conflictColumns : list string) (updateColumns insertColumns : Columns) : Go W unit := 
  PublishQuery_Upsert GetDB o updateOnConflict conflictColumns updateColumns insertColumns.
Definition PublishQuery_Delete (ex : X) (o : option loc) : Go W Z := Delete publishQueryTable (publishQueryHooks hs) ex o.
Definition PublishQuery_DeleteG (o : option loc) : Go W Z := PublishQuery_Delete GetDB o.
Definition PublishQuery_QDeleteAll (ex : X) (q : option Query) : Go W Z := QDeleteAll publishQueryTable ex q.
Definition PublishQuerySlice_DeleteAll (ex : X) (o : list loc) : Go W Z := DeleteAll publishQueryTable (publishQueryHooks hs) ex o.
Definition PublishQuerySlice_DeleteAllG (o : list loc) : Go W Z := PublishQuerySlice_DeleteAll GetDB o.
Definition PublishQuery_Reload (ex : X) (o : loc) : Go W unit := Reload publishQueryTable ex o.
Definition PublishQuery_ReloadG (o : option loc) : Go W unit := 
  match o with None => fail (EText "models: no PublishQuery provided for reload") | Some l => PublishQuery_Reload GetDB l end.
Definition PublishQuerySlice_ReloadAll (ex : X) (o : option (list loc)) : Go W (option (list loc)) := ReloadAll publishQueryTable ex o.
Definition PublishQuerySlice_ReloadAllG (o : option (list loc)) : Go W (option (list loc)) := 
  match o with None => fail (EText "models: empty PublishQuerySlice provided for reload all") | Some _ => PublishQuerySlice_ReloadAll GetDB o end.
Definition PublishQueryExists (ex : X) (id : string) : Go W bool := RowExists publishQueryTable ex [SText id].
Definition PublishQueryExistsG (id : string) : Go W bool := PublishQueryExists GetDB id.

(** *** [QueryLog] *)

Definition QueryLog_doHooks (p : HookPoint) (ex : X) (l : loc) : Go W unit := doHooks (queryLogHooks hs p) ex l.
Definition AddQueryLogHook (p : HookPoint) (h : Hook W X) : ModelHooks :=
  mkModelHooks (userHooks hs) (lbrynetServerHooks hs) (uploadHooks hs) (asynqueryHooks hs) (publishQueryHooks hs) (AddHook (queryLogHooks hs) p h) (gorpMigrationHooks hs).
Definition QueryLogs (mods : list QueryMod) : Query := NewQuery (mods ++ [qm_From "query_log"]).
Definition QueryLog_Count (ex : X) (q : Query) : Go W Z := Count queryLogTable ex q.
Definition QueryLog_CountG (q : Query) : Go W Z := QueryLog_Count GetDB q.
Definition QueryLog_QExists (ex : X) (q : Query) : Go W bool := QExists queryLogTable ex q.
Definition QueryLog_QExistsG (q : Query) : Go W bool := QueryLog_QExists GetDB q.
Definition FindQueryLog (ex : X) (id : Z) (selectCols : list string) : Go W loc := Find queryLogTable ex [SInt id] selectCols.
Definition FindQueryLogG (id : Z) (selectCols : list string) : Go W loc := FindQueryLog GetDB id selectCols.
Definition QueryLog_Insert (ex : X) (o : option loc) (columns : Columns) : Go W unit := Insert queryLogTable (queryLogHooks hs) ex o columns.
Definition QueryLog_InsertG (o : option loc) (columns : Columns) : Go W unit := QueryLog_Insert GetDB o columns.
Definition QueryLog_Update (ex : X) (o : loc) (columns : Columns) : Go W Z := Update queryLogTable (queryLogHooks hs) ex o columns.
Definition QueryLog_UpdateG (o : loc) (columns : Columns) : Go W Z := QueryLog_Update GetDB o columns.
Definition QueryLog_QUpdateAll (ex : X) (q : Query) (cols : gmap string SVal) : Go W Z := QUpdateAll queryLogTable ex q cols.
Definition QueryLog_QUpdateAllG (q : Query) (cols : gmap string SVal) : Go W Z := QueryLog_QUpdateAll GetDB q cols.
Definition QueryLogSlice_UpdateAll (ex : X) (o : list loc) (cols : gmap string SVal) : Go W Z := UpdateAll queryLogTable ex o cols.
Definition QueryLogSlice_UpdateAllG (o : list loc) (cols : gmap string SVal) : Go W Z := QueryLogSlice_UpdateAll GetDB o cols.
Definition QueryLog_Upsert (ex : X) (o : option loc) (updateOnConflict : bool) (conflictColumns : list string) (updateColumns insertColumns : Columns) : Go W unit := 
  Upsert queryLogTable (queryLogHooks hs) ex o updateOnConflict conflictColumns updateColumns insertColumns.
Definition QueryLog_UpsertG (o : option loc) (updateOnConflict : bool) (conflictColumns : list string) (updateColumns insertColumns : Columns) : Go W unit := 
  QueryLog_Upsert GetDB o updateOnConflict conflictColumns updateColumns insertColumns.
Definition QueryLog_Delete (ex : X) (o : option loc) : Go W Z := Delete queryLogTable (queryLogHooks hs) ex o.
Definition QueryLog_DeleteG (o : option loc) : Go W Z := QueryLog_Delete GetDB o.
Definition QueryLog_QDeleteAll (ex : X) (q : option Query) : Go W Z := QDeleteAll queryLogTable ex q.
Definition QueryLogSlice_DeleteAll (ex : X) (o : list loc) : Go W Z := DeleteAll queryLogTable (queryLogHooks hs) ex o.
Definition QueryLogSlice_DeleteAllG (o : list loc) : Go W Z := QueryLogSlice_DeleteAll GetDB o.
Definition QueryLog_Reload (ex : X) (o : loc) : Go W unit := Reload queryLogTable ex o.
Definition QueryLog_ReloadG (o : option loc) : Go W unit := 
  match o with None => fail (EText "models: no QueryLog provided for reload") | Some l => QueryLog_Reload GetDB l end.
Definition QueryLogSlice_ReloadAll (ex : X) (o : option (list loc)) : Go W (option (list loc)) := ReloadAll queryLogTable ex o.
Definition QueryLogSlice_ReloadAllG (o : option (list loc)) : Go W (option (list loc)) := 
  match o with None => fail (EText "models: empty QueryLogSlice provided for reload all") | Some _ => QueryLogSlice_ReloadAll GetDB o end.
Definition QueryLogExists (ex : X) (id : Z) : Go W bool := RowExists queryLogTable ex [SInt id].
Definition QueryLogExistsG (id : Z) : Go W bool := QueryLogExists GetDB id.

(** *** [GorpMigration] *)

Definition GorpMigration_doHooks (p : HookPoint) (ex : X) (l : loc) : Go W unit := doHooks (gorpMigrationHooks hs p) ex l.
Definition AddGorpMigrationHook (p : HookPoint) (h : Hook W X) : ModelHooks :=
  mkModelHooks (userHooks hs) (lbrynetServerHooks hs) (uploadHooks hs) (asynqueryHooks hs) (publishQueryHooks hs) (queryLogHooks hs) (AddHook (gorpMigrationHooks hs) p h).
Definition GorpMigrations (mods : list QueryMod) : Query := NewQuery (mods ++ [qm_From "gorp_migrations"]).
Definition GorpMigration_Count (ex : X) (q : Query) : Go W Z := Count gorpMigrationTable ex q.
Definition GorpMigration_CountG (q : Query) : Go W Z := GorpMigration_Count GetDB q.
Definition GorpMigration_QExists (ex : X) (q : Query) : Go W bool := QExists gorpMigrationTable ex q.
Definition GorpMigration_QExistsG (q : Query) : Go W bool := GorpMigration_QExists GetDB q.
Definition FindGorpMigration (ex : X) (id : string) (selectCols : list string) : Go W loc := Find gorpMigrationTable ex [SText id] selectCols.
Definition FindGorpMigrationG (id : string) (selectCols : list string) : Go W loc := FindGorpMigration GetDB id selectCols.
Definition GorpMigration_Insert (ex : X) (o : option loc) (columns : Columns) : Go W unit := Insert gorpMigrationTable (gorpMigrationHooks hs) ex o columns.
Definition GorpMigration_InsertG (o : option loc) (columns : Columns) : Go W unit := GorpMigration_Insert GetDB o columns.
Definition GorpMigration_Update (ex : X) (o : loc) (columns : Columns) : Go W Z := Update gorpMigrationTable (gorpMigrationHooks hs) ex o columns.
Definition GorpMigration_UpdateG (o : loc) (columns : Columns) : Go W Z := GorpMigration_Update GetDB o columns.
Definition GorpMigration_QUpdateAll (ex : X) (q : Query) (cols : gmap string SVal) : Go W Z := QUpdateAll gorpMigrationTable ex q cols.
Definition GorpMigration_QUpdateAllG (q : Query) (cols : gmap string SVal) : Go W Z := GorpMigration_QUpdateAll GetDB q cols.
Definition GorpMigrationSlice_UpdateAll (ex : X) (o : list loc) (cols : gmap string SVal) : Go W Z := UpdateAll gorpMigrationTable ex o cols.
Definition GorpMigrationSlice_UpdateAllG (o : list loc) (cols : gmap string SVal) : Go W Z := GorpMigrationSlice_UpdateAll GetDB o cols.
Definition GorpMigration_Upsert (ex : X) (o : option loc) (updateOnConflict : bool) (conflictColumns : list string) (updateColumns insertColumns : Columns) : Go W unit := 
  Upsert gorpMigrationTable (gorpMigrationHooks hs) ex o updateOnConflict conflictColumns updateColumns insertColumns.
Definition GorpMigration_UpsertG (o : option loc) (updateOnConflict : bool) (conflictColumns : list string) (updateColumns insertColumns : Columns) : Go W unit := 
  GorpMigration_Upsert GetDB o updateOnConflict conflictColumns updateColumns insertColumns.
Definition GorpMigration_Delete (ex : X) (o : option loc) : Go W Z := Delete gorpMigrationTable (gorpMigrationHooks hs) ex o.
Definition GorpMigration_DeleteG (o : option loc) : Go W Z := GorpMigration_Delete GetDB o.
Definition GorpMigration_QDeleteAll (ex : X) (q : option Query) : Go W Z := QDeleteAll gorpMigrationTable ex q.
Definition GorpMigrationSlice_DeleteAll (ex : X) (o : list loc) : Go W Z := DeleteAll gorpMigrationTable (gorpMigrationHooks hs) ex o.
Definition GorpMigrationSlice_DeleteAllG (o : list loc) : Go W Z := GorpMigrationSlice_DeleteAll GetDB o.
Definition GorpMigration_Reload (ex : X) (o : loc) : Go W unit := Reload gorpMigrationTable ex o.
Definition GorpMigration_ReloadG (o : option loc) : Go W unit := 
  match o with None => fail (EText "models: no GorpMigration provided for reload") | Some l => GorpMigration_Reload GetDB l end.
Definition GorpMigrationSlice_ReloadAll (ex : X) (o : option (list loc)) : Go W (option (list loc)) := ReloadAll gorpMigrationTable ex o.
Definition GorpMigrationSlice_ReloadAllG (o : option (list loc)) : Go W (option (list loc)) := 
  match o with None => fail (EText "models: empty GorpMigrationSlice provided for reload all") | Some _ => GorpMigrationSlice_ReloadAll GetDB o end.
Definition GorpMigrationExists (ex : X) (id : string) : Go W bool := RowExists gorpMigrationTable ex [SText id].
Definition GorpMigrationExistsG (id : string) : Go W bool := GorpMigrationExists GetDB id.

End models.
Arguments ModelHooks W X : clear implicits.
