(* ===== verification/CacheKey.v ===== *)
(** * Statement cache keys are unambiguous

    The statement caches of the data layer are keyed by column names written one
    after another without a separator ([makeCacheKey], [makeUpsertKey] of [Boil.v]).
    A set of names is [decodable] when no concatenation of them can be read in two
    ways; then the key determines what it was made from.  The seven tables are. *)

From Stdlib Require Import Ascii String.
From S2P Require Import Prelude GoLib Errors Boil Models.

(** The tail is empty or starts outside [p]. *)
Definition stops (p : Ascii.ascii → bool) (s : string) : bool :=
  match s with EmptyString => true | String a _ => negb (p a) end.

Lemma app_nil_str (s : string) : "" +:+ s = s.
Proof. done. Qed.
Lemma app_cons_str a (s t : string) : String a s +:+ t = String a (s +:+ t).
Proof. done. Qed.

(** A string splits in one way where its characters leave [p]. *)
Lemma split_unique p s1 s2 t1 t2 :
  all_chars p s1 = true → all_chars p s2 = true → stops p t1 = true → stops p t2 = true →
  s1 +:+ t1 = s2 +:+ t2 → s1 = s2 ∧ t1 = t2.
Proof.
  revert s2. induction s1 as [|a s1 IH]; intros [|b s2]; cbn; rewrite ?andb_true_iff, ?app_nil_str, ?app_cons_str; [done|..].
  - intros _ [Hb _] Ht _ ->. simpl in Ht. by rewrite Hb in Ht.
  - intros [Ha _] _ _ Ht <-. simpl in Ht. by rewrite Ha in Ht.
  - intros [Ha H1] [Hb H2] Ht1 Ht2 [= -> E]. by destruct (IH _ H1 H2 Ht1 Ht2 E) as [-> ->].
Qed.

(** Two splittings of a string: one head is a prefix of the other. *)
Lemma app_split (a b x y : string) :
  a +:+ x = b +:+ y → (∃ r, b = a +:+ r ∧ x = r +:+ y) ∨ (∃ r, a = b +:+ r ∧ y = r +:+ x).
Proof.
  revert b. induction a as [|c a IH]; intros [|d b]; rewrite ?app_nil_str, ?app_cons_str.
  - intros ->. left. by exists "".
  - intros ->. left. by exists (String d b).
  - intros <-. right. by exists (String c a).
  - intros [= -> E]. destruct (IH _ E) as [(r & -> & ->)|(r & -> & ->)]; [left|right]; by exists r.
Qed.

Lemma app_split_prefix (a b x y : string) : a +:+ x = b +:+ y → HasPrefix a b || HasPrefix b a = true.
Proof. intros [(r & -> & _)|(r & -> & _)]%app_split; rewrite HasPrefix_app; [apply orb_true_r|done]. Qed.

(** ** Decodable sets of names *)

(** What is left of a name after a proper prefix that is itself a name. *)
Definition dangling (cs : list string) : list string :=
  a ← cs; b ← cs; if negb (String.eqb a b) && HasPrefix b a then [drop_str (String.length a) b] else [].
Definition decodable (cs : list string) : bool :=
  forallb (λ c, negb (String.eqb c "")) cs &&
  forallb (λ r, forallb (λ c, negb (HasPrefix c r || HasPrefix r c)) cs) (dangling cs).

Lemma concat_names_cons c cs : concat_names (c :: cs) = c +:+ concat_names cs.
Proof. unfold concat_names. destruct cs; cbn; [by rewrite app_empty_r|done]. Qed.

Section decoding.
Context (cs : list string) (Hcs : decodable cs = true).

Lemma decodable_nonempty c : c ∈ cs → c ≠ "".
Proof.
  intros Hc ->. unfold decodable in Hcs. apply andb_true_iff in Hcs as [H _]. rewrite forallb_forall in H.
  by specialize (H "" (proj1 (list_elem_of_In _ _) Hc)).
Qed.

Lemma decodable_dangling a r c x y : a ∈ cs → a +:+ r ∈ cs → r ≠ "" → c ∈ cs → c +:+ x ≠ r +:+ y.
Proof.
  intros Ha Hb Hr Hc E%app_split_prefix. unfold decodable in Hcs. apply andb_true_iff in Hcs as [_ H].
  rewrite forallb_forall in H.
  assert (In r (dangling cs)) as Hin.
  { apply list_elem_of_In. unfold dangling. apply list_elem_of_bind. exists a. split; [|done].
    apply list_elem_of_bind. exists (a +:+ r). split; [|done]. rewrite HasPrefix_app.
    destruct (String.eqb_spec a (a +:+ r)) as [E'|]; simpl.
    - destruct Hr. clear -E'. induction a as [|? a IH]; rewrite ?app_nil_str, ?app_cons_str in E'; [done|]. injection E' as E'. auto.
    - rewrite drop_str_app. by apply list_elem_of_singleton. }
  specialize (H r Hin). rewrite forallb_forall in H. specialize (H c (proj1 (list_elem_of_In _ _) Hc)).
  by rewrite E in H.
Qed.

Lemma decodable_head a b l1 l2 x y :
  a ∈ cs → b ∈ cs → l1 ⊆ cs → a +:+ concat_names l1 = b +:+ concat_names l2 →
  b = a +:+ x → concat_names l1 = x +:+ y → a = b.
Proof.
  intros Ha Hb Hl1 E -> Hx. destruct (decide (x = "")) as [->|Hne].
  { by rewrite app_empty_r. }
  destruct l1 as [|c l1]; [by destruct x|]. rewrite concat_names_cons in Hx.
  exfalso. eapply (decodable_dangling a x c); [done..| |exact Hx]. set_solver.
Qed.

(** The names can be read back. *)
Lemma concat_names_inj l1 l2 : l1 ⊆ cs → l2 ⊆ cs → concat_names l1 = concat_names l2 → l1 = l2.
Proof.
  revert l2. induction l1 as [|a l1 IH]; intros [|b l2] H1 H2; [done|..]; rewrite ?concat_names_cons.
  - assert (b ≠ "") as Hb by (apply decodable_nonempty; set_solver). by destruct b.
  - assert (a ≠ "") as Ha by (apply decodable_nonempty; set_solver). by destruct a.
  - intros E. assert (a = b) as ->.
    { destruct (app_split _ _ _ _ E) as [(r & Hr & Hx)|(r & Hr & Hx)].
      - eapply decodable_head; [..|exact E|exact Hr|exact Hx]; set_solver.
      - symmetry. eapply decodable_head; [..|symmetry; exact E|exact Hr|exact Hx]; set_solver. }
    f_equal. apply IH; [set_solver..|]. by eapply (inj (String.append b)).
Qed.
End decoding.

(** ** Keys *)

Definition numeral (a : Ascii.ascii) : bool := Ascii.eqb a "-"%char || bool_decide (is_Some (digit a)).
Definition not_dot (a : Ascii.ascii) : bool := negb (Ascii.eqb a "."%char).

Lemma pretty_N_go_numeral n s : all_chars numeral s = true → all_chars numeral (pretty_N_go n s) = true.
Proof.
  revert s. induction (N.lt_wf_0 n) as [n _ IH]; intros s Hs.
  destruct (decide (n = 0)%N) as [->|Hn]; [by rewrite pretty_N_go_0|].
  rewrite pretty_N_go_step by lia. apply IH; [apply N.div_lt; lia|]. cbn. rewrite Hs, andb_true_r.
  unfold pretty_N_char. destruct (n `mod` 10)%N as [|p]; [done|]. do 4 (destruct p as [p|p|]; try done).
Qed.

Lemma Itoa_numeral z : all_chars numeral (Itoa z) = true.
Proof.
  assert (∀ p, all_chars numeral (pretty (N.pos p)) = true) as H.
  { intros p. unfold pretty, pretty_N. rewrite decide_False by done. by apply pretty_N_go_numeral. }
  unfold Itoa. destruct z as [|p|p]; [done|apply H|]. cbn. apply H.
Qed.

Lemma stops_app p s t : stops p s = true → stops p t = true → stops p (s +:+ t) = true.
Proof. by destruct s. Qed.

(** A name starts outside numerals and holds no full stop. *)
Definition name_ok (c : string) : bool := stops numeral c && all_chars not_dot c.

Lemma concat_names_stops cs : forallb name_ok cs = true → stops numeral (concat_names cs) = true.
Proof.
  induction cs as [|c cs IH]; [done|]. rewrite concat_names_cons. simpl. rewrite andb_true_iff.
  intros [[Hc _]%andb_true_iff H]. apply stops_app; auto.
Qed.

Lemma concat_names_dots cs : forallb name_ok cs = true → all_chars not_dot (concat_names cs) = true.
Proof.
  induction cs as [|c cs IH]; [done|]. rewrite concat_names_cons, all_chars_app. simpl. rewrite !andb_true_iff.
  intros [[_ Hc]%andb_true_iff H]. auto.
Qed.

Lemma Itoa_dots z : all_chars not_dot (Itoa z) = true.
Proof.
  pose proof (Itoa_numeral z) as H. induction (Itoa z) as [|a s IH]; [done|]. cbn in *. apply andb_true_iff in H as [Ha H].
  rewrite (IH H), andb_true_r. unfold not_dot. destruct (Ascii.eqb_spec a "."%char) as [->|]; [done|done].
Qed.

(** The columns a table's statements are made from. *)
Definition legal (names : list string) (cols : Columns) (nz : list string) : Prop := Cols cols ⊆ names ∧ nz ⊆ names.
Definition names_ok (names : list string) : bool := decodable names && forallb name_ok names.

Section keys.
Context (names : list string) (Hnames : names_ok names = true).

Lemma names_decodable : decodable names = true.
Proof. by apply andb_true_iff in Hnames as [? _]. Qed.
Lemma names_forall cs : cs ⊆ names → forallb name_ok cs = true.
Proof.
  apply andb_true_iff in Hnames as [_ H]. intros Hcs. apply forallb_forall. intros c Hc%list_elem_of_In.
  rewrite forallb_forall in H. apply H, list_elem_of_In, Hcs, Hc.
Qed.

(** A kind with its columns, followed by a full stop or nothing. *)
Lemma kind_cols_inj k1 k2 cs1 cs2 t1 t2 :
  cs1 ⊆ names → cs2 ⊆ names → stops not_dot t1 = true → stops not_dot t2 = true →
  Itoa k1 +:+ concat_names cs1 +:+ t1 = Itoa k2 +:+ concat_names cs2 +:+ t2 → k1 = k2 ∧ cs1 = cs2 ∧ t1 = t2.
Proof.
  intros H1 H2 Ht1 Ht2. pose proof (names_forall _ H1) as N1. pose proof (names_forall _ H2) as N2.
  rewrite !app_assoc_str. intros E. apply (split_unique not_dot) in E as [E ->]; [|rewrite ?all_chars_app, ?Itoa_dots; simpl; by auto using concat_names_dots..].
  apply (split_unique numeral) in E as [E1 E2]; [|by auto using Itoa_numeral, concat_names_stops..].
  split; [by apply Itoa_inj|]. split; [|done]. by eapply concat_names_inj; [apply names_decodable|..].
Qed.

Lemma nz_tail_inj nz1 nz2 :
  nz1 ⊆ names → nz2 ⊆ names →
  (if decide (nz1 = []) then "" else ".") +:+ concat_names nz1 = (if decide (nz2 = []) then "" else ".") +:+ concat_names nz2 →
  nz1 = nz2.
Proof.
  intros H1 H2. destruct (decide (nz1 = [])) as [->|], (decide (nz2 = [])) as [->|]; [done..|].
  rewrite !app_cons_str. intros [= E]. by eapply concat_names_inj; [apply names_decodable|..].
Qed.

(** [makeCacheKey] determines the columns it was made from. *)
Lemma makeCacheKey_inj c1 c2 nz1 nz2 :
  legal names c1 nz1 → legal names c2 nz2 → makeCacheKey c1 nz1 = makeCacheKey c2 nz2 → c1 = c2 ∧ nz1 = nz2.
Proof.
  intros [C1 Z1] [C2 Z2] E. destruct c1 as [k1 cs1], c2 as [k2 cs2]. unfold makeCacheKey in E. simpl in *.
  apply kind_cols_inj in E as (-> & -> & E); [|done|done|by destruct nz1|by destruct nz2].
  split; [done|]. by apply nz_tail_inj.
Qed.

Lemma dot_stops s : stops not_dot ("." +:+ s) = true.
Proof. done. Qed.

(** So does the key of [Upsert]. *)
Lemma makeUpsertKey_inj b1 b2 f1 f2 u1 u2 c1 c2 nz1 nz2 :
  f1 ⊆ names → f2 ⊆ names → Cols u1 ⊆ names → Cols u2 ⊆ names → legal names c1 nz1 → legal names c2 nz2 →
  makeUpsertKey b1 f1 u1 c1 nz1 = makeUpsertKey b2 f2 u2 c2 nz2 →
  b1 = b2 ∧ f1 = f2 ∧ u1 = u2 ∧ c1 = c2 ∧ nz1 = nz2.
Proof.
  intros F1 F2 U1 U2 [C1 Z1] [C2 Z2]. destruct u1 as [ku1 cu1], u2 as [ku2 cu2], c1 as [k1 cs1], c2 as [k2 cs2].
  unfold makeUpsertKey. simpl in *. intros E.
  apply (split_unique not_dot) in E as [Eb E]; [|by destruct b1, b2..].
  rewrite !app_cons_str, !app_nil_str in E. injection E as E.
  apply (split_unique not_dot) in E as [Ef E]; [|by auto using concat_names_dots, names_forall, dot_stops..].
  injection E as E.
  apply kind_cols_inj in E as (-> & -> & E); [|done..].
  injection E as E.
  apply kind_cols_inj in E as (-> & -> & E); [|done..].
  injection E as E.
  split; [by destruct b1, b2|]. repeat split; (by eapply concat_names_inj; [apply names_decodable|..]).
Qed.
End keys.

(** ** The tables *)

Lemma users_names_ok : names_ok userAllColumns = true.
Proof. vm_compute. done. Qed.
Lemma lbrynet_servers_names_ok : names_ok lbrynetServerAllColumns = true.
Proof. vm_compute. done. Qed.
Lemma uploads_names_ok : names_ok uploadAllColumns = true.
Proof. vm_compute. done. Qed.
Lemma asynqueries_names_ok : names_ok asynqueryAllColumns = true.
Proof. vm_compute. done. Qed.
Lemma publish_queries_names_ok : names_ok publishQueryAllColumns = true.
Proof. vm_compute. done. Qed.
Lemma query_log_names_ok : names_ok queryLogAllColumns = true.
Proof. vm_compute. done. Qed.
Lemma gorp_migrations_names_ok : names_ok gorpMigrationAllColumns = true.
Proof. vm_compute. done. Qed.

(** Names that are no columns can share a key: the statement made for [id] serves
    a list with the two names [i] and [d]. *)
Lemma unknown_columns_share_key k :
  makeCacheKey (mkColumns k ["i"; "d"]) [] = makeCacheKey (mkColumns k ["id"]) [] ∧ names_ok ["i"; "d"; "id"] = false.
Proof. done. Qed.
