(* ===== verification/Relations.v ===== *)
(** * The generated data layer: relations between tables

    What the models of [src/models] do across two tables: the queries of related
    rows, eager loading into the [R] structs (an N-1, a 1-1 or a 1-M relation) and
    the methods that set, add and remove related objects, with the queries [One] and
    [All] that load the relations they name.  The generic section follows the
    template; each method of a table is an instance of it.

    A slice in an [R] struct is a list of pointers; that two slices may share a
    backing array is not modelled.  [queries.Equal] compares two column values. *)

From stdpp Require Import gmap strings.
From S2P Require Import Prelude GoLib Errors Boil Models.

(** [queries.Equal] and [queries.IsNil]. *)
Class QueriesEqual := Equal : SVal → SVal → bool.
Definition IsNil (v : SVal) : bool := bool_decide (v = SNull).
(** The comparison [==] of two Go values. *)
Definition same (a b : SVal) : bool := bool_decide (a = b).

Section generic.
Context {W X L F : Type} {Ex : Executor W X} {BC : BoilColumns} {Q : Queries} {ML : Model W L} {MF : Model W F} {QE : QueriesEqual}.

(** ** Eager loading *)

Section loading.
Context (TF : Table F).
Context (ensureR : L → L)              (* if obj.R == nil { obj.R = &userR{} } *)
        (key : L → SVal)               (* the local side of the relation *)
        (fkey : F → SVal)              (* the foreign side *)
        (eqv : SVal → SVal → bool)     (* how the two are compared *)
        (col : string)                 (* foreign column *)
        (skipNull : bool)              (* nullable foreign keys are left out *)
        (link : loc → loc → Go W unit) (* sets both R structs *)
        (what closing : string).

(** The keys to look up, each once, in the order of the slice. *)
Fixpoint load_args (ls : list loc) (args : list SVal) : Go W (list SVal) :=
  match ls with
  | [] => ret args
  | l :: ls =>
    update_obj l ensureR ;;!
    let! o := load l in
    if existsb (λ a, eqv a (key o)) args then load_args ls args
    else if skipNull && IsNil (key o) then load_args ls args
    else load_args ls (args ++ [key o])
  end.

Definition fetch (ex : X) (args : list SVal) (mods : option QueryMod) : Go W (list loc) :=
  let query := NewQuery [qm_From (tableName TF); qm_Where (CIn col args)] in
  let query := match mods with Some m => m query | None => query end in
  let! results := wrapping ("failed to eager load " +:+ what) (RunQuery ex (SQuery query) []) in
  let! resultSlice := wrapping ("failed to bind eager loaded slice " +:+ what) (mapM_go (bind_row TF) (rows_all results)) in
  match rows_close results, rows_err results with
  | Some e, _ => fail (Wrap ("failed to close results " +:+ closing +:+ " " +:+ tableName TF) e)
  | None, Some e => fail (Wrap ("error occurred during iteration of eager loaded relations for " +:+ tableName TF) e)
  | None, None => ret resultSlice
  end.

(** The first object of the second list that matches. *)
Fixpoint match_foreign (l : loc) (fs : list loc) : Go W unit :=
  match fs with
  | [] => ret tt
  | f :: fs =>
    let! local := load (O := L) l in
    let! foreign := load (O := F) f in
    if eqv (key local) (fkey foreign) then link l f else match_foreign l fs
  end.
Fixpoint match_local (f : loc) (ls : list loc) : Go W unit :=
  match ls with
  | [] => ret tt
  | l :: ls =>
    let! local := load (O := L) l in
    let! foreign := load (O := F) f in
    if eqv (key local) (fkey foreign) then link l f else match_local f ls
  end.
Fixpoint for_each {A} (f : A → Go W unit) (l : list A) : Go W unit :=
  match l with [] => ret tt | a :: l => f a ;;! for_each f l end.

(** N-1 and 1-1.  [localHooks] decides whether the hooks of the loaded objects run. *)
Definition load_to_one (localHooks foreignHooks : list (Hook W X)) (ex : X) (singular : bool) (ls : list loc) (mods : option QueryMod) : Go W unit :=
  let! args := load_args ls [] in
  if decide (args = []) then ret tt else
  let! resultSlice := fetch ex args mods in
  (if decide (length localHooks = 0%nat) then ret tt else doHooksAll foreignHooks ex resultSlice) ;;!
  match resultSlice with
  | [] => ret tt
  | foreign :: _ => if singular then for_each (λ object, link object foreign) ls
                    else for_each (λ local, match_foreign local resultSlice) ls
  end.

(** 1-M.  [assignR] is the assignment of the whole slice to a single object. *)
Definition load_to_many (assignR : loc → list loc → Go W unit) (back : loc → loc → Go W unit) (foreignHooks : list (Hook W X))
    (ex : X) (singular : bool) (ls : list loc) (mods : option QueryMod) : Go W unit :=
  let! args := load_args ls [] in
  if decide (args = []) then ret tt else
  let! resultSlice := fetch ex args mods in
  (if decide (length foreignHooks = 0%nat) then ret tt else doHooksAll foreignHooks ex resultSlice) ;;!
  if singular then for_each (λ object, assignR object resultSlice ;;! for_each (back object) resultSlice) ls
  else for_each (λ foreign, match_local foreign ls) resultSlice.
End loading.

(** ** Changing relations *)

(** Replacing position [i] by the last element and cutting the slice. *)
Definition swap_remove (i : nat) (ls : list loc) : list loc :=
  let ln := length ls in
  let ls := if decide ((1 < ln)%nat ∧ (i < ln - 1)%nat) then match last ls with Some z => <[i := z]> ls | None => ls end else ls in
  take (ln - 1) ls.

(** [UPDATE local SET fk = related.key WHERE pk]. *)
Definition set_fk (TL : Table L) (ex : X) (fk : string) (v : SVal) (pk : list SVal) : Go W unit :=
  Exec ex (SUpdate (tableName TL) [fk] (PrimaryKeyColumns TL) 1) (v :: pk) ;;! ret tt.

(** [SetX] on the side that holds the foreign key. *)
Definition set_one (TL : Table L) (insertF : X → option loc → Columns → Go W unit) (fk : string) (fkey : F → SVal) (pk : L → list SVal)
    (assignKey : loc → F → Go W unit) (link : loc → loc → Go W unit) (ex : X) (l : loc) (insert : bool) (related : loc) : Go W unit :=
  (if insert then wrapping "failed to insert into foreign table" (insertF ex (Some related) Infer) else ret tt) ;;!
  let! r := load (O := F) related in
  let! o := load (O := L) l in
  wrapping "failed to update local table" (set_fk TL ex fk (fkey r) (pk o)) ;;!
  assignKey l r ;;!
  link l related.

(** [RemoveX] of a nullable foreign key.  The loop skips the objects whose key
    equals the one of [o], which is null by then. *)
Fixpoint remove_at (k : SVal) (key : L → SVal) (i : nat) (ls : list loc) : Go W (option nat) :=
  match ls with
  | [] => ret None
  | ri :: ls => let! r := load (O := L) ri in if Equal k (key r) then remove_at k key (S i) ls else ret (Some i)
  end.

(** [relatedSlice]: the slice in [related.R], if [related] and its [R] are not nil. *)
Definition remove_one (updateL : X → loc → Columns → Go W Z) (fk : string) (key : L → SVal) (clearKey : L → L) (clearR : loc → Go W unit)
    (relatedSlice : F → option (list loc)) (setSlice : list loc → F → F) (ex : X) (l : loc) (related : option loc) : Go W unit :=
  update_obj l clearKey ;;!
  wrapping "failed to update local table" (updateL ex l (Whitelist [fk])) ;;!
  clearR l ;;!
  match related with
  | None => ret tt
  | Some f =>
    let! r := load (O := F) f in
    match relatedSlice r with
    | None => ret tt
    | Some users =>
      let! o := load (O := L) l in
      let! i := remove_at (key o) key 0 users in
      match i with None => ret tt | Some i => store f (setSlice (swap_remove i users) r) end
    end
  end.

(** [AddXs]: [L] is the side with many objects ([related]), [F] the receiver. *)
Definition add_many (TL : Table L) (insertL : X → option loc → Columns → Go W unit) (fk : string) (pk : L → list SVal) (keyF : F → SVal)
    (assignKey : F → L → L) (appendR : list loc → F → F) (backR : loc → L → L) (ex : X) (o : loc) (insert : bool) (related : list loc) : Go W unit :=
  for_each (λ rel,
    let! ob := load (O := F) o in
    if insert then
      update_obj rel (assignKey ob) ;;!
      wrapping "failed to insert into foreign table" (insertL ex (Some rel) Infer)
    else
      let! r := load (O := L) rel in
      wrapping "failed to update foreign table" (set_fk TL ex fk (keyF ob) (pk r)) ;;!
      update_obj rel (assignKey ob)) related ;;!
  update_obj o (appendR related) ;;!
  for_each (λ rel, update_obj rel (backR o)) related.

(** [SetXs]: forgets the previous ones first, in the table and in memory. *)
Definition set_many (TL : Table L) (fk : string) (keyF : F → SVal) (slice : F → option (list loc)) (clearL : L → L) (clearSlice : F → F)
    (add : X → loc → bool → list loc → Go W unit) (ex : X) (o : loc) (insert : bool) (related : list loc) : Go W unit :=
  let! ob := load (O := F) o in
  wrapping "failed to remove relationships before set" (Exec ex (SForget (tableName TL) fk) [keyF ob]) ;;!
  match slice ob with
  | None => ret tt
  | Some rels => for_each (λ rel, update_obj rel clearL) rels ;;! update_obj o clearSlice
  end ;;!
  add ex o insert related.

(** [RemoveXs]: pointers are compared. *)
Definition remove_many (updateL : X → loc → Columns → Go W Z) (fk : string) (clearL : L → L) (slice : F → option (list loc)) (setSlice : list loc → F → F)
    (ex : X) (o : loc) (related : list loc) : Go W unit :=
  for_each (λ rel, update_obj rel clearL ;;! updateL ex rel (Whitelist [fk]) ;;! ret tt) related ;;!
  let! ob := load (O := F) o in
  match slice ob with
  | None => ret tt
  | Some _ =>
    for_each (λ rel, update_obj o (λ ob,
      match slice ob with
      | None => ob
      | Some ris => match list_find (λ ri, ri = rel) ris with Some (i, _) => setSlice (swap_remove i ris) ob | None => ob end
      end)) related
  end.
End generic.

(** ** The [R] structs *)

(** [if o.R == nil { o.R = &userR{...} } else { o.R.X = ... }] *)
Definition user_withR (f : userR → userR) (o : User) : User := set_u_R (Some (f (default userR0 (u_R o)))) o.
Definition server_withR (f : lbrynetServerR → lbrynetServerR) (o : LbrynetServer) : LbrynetServer := set_s_R (Some (f (default lbrynetServerR0 (s_R o)))) o.
Definition upload_withR (f : uploadR → uploadR) (o : Upload) : Upload := set_up_R (Some (f (default uploadR0 (up_R o)))) o.
Definition asynquery_withR (f : asynqueryR → asynqueryR) (o : Asynquery) : Asynquery := set_aq_R (Some (f (default asynqueryR0 (aq_R o)))) o.
Definition pq_withR (f : publishQueryR → publishQueryR) (o : PublishQuery) : PublishQuery := set_pq_R (Some (f (default publishQueryR0 (pq_R o)))) o.

Definition userR_server (l : option loc) (r : userR) := mkUserR l (userR_Asynqueries r) (userR_Uploads r).
Definition userR_asynqueries (ls : list loc) (r : userR) := mkUserR (userR_LbrynetServer r) ls (userR_Uploads r).
Definition userR_uploads (ls : list loc) (r : userR) := mkUserR (userR_LbrynetServer r) (userR_Asynqueries r) ls.
Definition uploadR_user (l : option loc) (r : uploadR) := mkUploadR l (uploadR_PublishQuery r).
Definition uploadR_pq (l : option loc) (r : uploadR) := mkUploadR (uploadR_User r) l.

Definition opt_int (z : option Z) : SVal := from_option SInt SNull z.

Section relations.
Context {W X : Type} {Ex : Executor W X} {BC : BoilColumns} {Q : Queries} {QE : QueriesEqual}.
Context {MU : Model W User} {MS : Model W LbrynetServer} {MUp : Model W Upload} {MA : Model W Asynquery}
        {MP : Model W PublishQuery} {MQ : Model W QueryLog} {MG : Model W GorpMigration}.
Context (hs : ModelHooks W X).

(** Both ends of a relation between two objects. *)
Definition link_user_server (u s : loc) : Go W unit :=
  update_obj u (user_withR (userR_server (Some s))) ;;!
  update_obj s (server_withR (λ r, mkLbrynetServerR (lbrynetServerR_Users r ++ [u]))).
Definition link_server_user (s u : loc) : Go W unit :=
  update_obj s (server_withR (λ r, mkLbrynetServerR (lbrynetServerR_Users r ++ [u]))) ;;!
  update_obj u (user_withR (userR_server (Some s))).
Definition link_asynquery_user (a u : loc) : Go W unit :=
  update_obj a (asynquery_withR (λ _, mkAsynqueryR (Some u))) ;;!
  update_obj u (user_withR (λ r, userR_asynqueries (userR_Asynqueries r ++ [a]) r)).
Definition link_user_asynquery (u a : loc) : Go W unit :=
  update_obj u (user_withR (λ r, userR_asynqueries (userR_Asynqueries r ++ [a]) r)) ;;!
  update_obj a (asynquery_withR (λ _, mkAsynqueryR (Some u))).
Definition link_upload_user (p u : loc) : Go W unit :=
  update_obj p (upload_withR (uploadR_user (Some u))) ;;!
  update_obj u (user_withR (λ r, userR_uploads (userR_Uploads r ++ [p]) r)).
Definition link_user_upload (u p : loc) : Go W unit :=
  update_obj u (user_withR (λ r, userR_uploads (userR_Uploads r ++ [p]) r)) ;;!
  update_obj p (upload_withR (uploadR_user (Some u))).
Definition link_upload_query (p q : loc) : Go W unit :=
  update_obj p (upload_withR (uploadR_pq (Some q))) ;;!
  update_obj q (pq_withR (λ _, mkPublishQueryR (Some p))).
Definition link_query_upload (q p : loc) : Go W unit :=
  update_obj q (pq_withR (λ _, mkPublishQueryR (Some p))) ;;!
  update_obj p (upload_withR (uploadR_pq (Some q))).

(** *** Users and their servers *)

Definition User_LbrynetServer (o : User) (mods : list QueryMod) : Query :=
  SetFrom "lbrynet_servers" (LbrynetServers (qm_Where (CCmp "" "id" EQ (opt_int (u_LbrynetServerID o))) :: mods)).
Definition LoadLbrynetServer : X → bool → list loc → option QueryMod → Go W unit :=
  load_to_one lbrynetServerTable (user_withR id) (λ u, opt_int (u_LbrynetServerID u)) (λ s, SInt (s_ID s)) Equal
    "id" true link_user_server "LbrynetServer" "of eager load for"
    (userHooks hs AfterSelectHook) (lbrynetServerHooks hs AfterSelectHook).
Definition SetLbrynetServer : X → loc → bool → loc → Go W unit :=
  set_one userTable (LbrynetServer_Insert hs) "lbrynet_server_id" (λ s, SInt (s_ID s)) (λ u, [SInt (u_ID u)])
    (λ u s, update_obj u (set_u_LbrynetServerID (Some (s_ID s)))) link_user_server.
Definition SetLbrynetServerG : loc → bool → loc → Go W unit := SetLbrynetServer GetDB.
(** [o.R.LbrynetServer = nil] *)
Definition clear_server (u : loc) : Go W unit :=
  let! o := load (O := User) u in
  match u_R o with
  | None => gopanic "invalid memory address or nil pointer dereference"
  | Some r => store u (set_u_R (Some (userR_server None r)) o)
  end.
Definition RemoveLbrynetServer : X → loc → option loc → Go W unit :=
  remove_one (User_Update hs) "lbrynet_server_id" (λ u, opt_int (u_LbrynetServerID u)) (set_u_LbrynetServerID None) clear_server
    (λ s, lbrynetServerR_Users <$> s_R s) (λ us, set_s_R (Some (mkLbrynetServerR us))).
Definition RemoveLbrynetServerG : loc → option loc → Go W unit := RemoveLbrynetServer GetDB.

(** The related rows a query on [o] selects, [table.*] unless columns were given. *)
Definition related_query (tbl col : string) (v : SVal) (q : list QueryMod → Query) (mods : list QueryMod) : Query :=
  let query := SetFrom tbl (q (mods ++ [qm_Where (CCmp tbl col EQ v)])) in
  if decide (q_select query = []) then SetSelect ["*"] query else query.

Definition LbrynetServer_Users (o : LbrynetServer) (mods : list QueryMod) : Query :=
  related_query "users" "lbrynet_server_id" (SInt (s_ID o)) Users mods.
Definition LoadUsers : X → bool → list loc → option QueryMod → Go W unit :=
  load_to_many userTable (server_withR id) (λ s, SInt (s_ID s)) (λ u, opt_int (u_LbrynetServerID u)) Equal
    "lbrynet_server_id" false link_server_user "users" "in eager load on"
    (λ s us, update_obj s (server_withR (λ _, mkLbrynetServerR us)))
    (λ s u, update_obj u (user_withR (userR_server (Some s))))
    (userHooks hs AfterSelectHook).
Definition AddUsers : X → loc → bool → list loc → Go W unit :=
  add_many userTable (User_Insert hs) "lbrynet_server_id" (λ u, [SInt (u_ID u)]) (λ s, SInt (s_ID s))
    (λ s, set_u_LbrynetServerID (Some (s_ID s))) (λ us, server_withR (λ r, mkLbrynetServerR (lbrynetServerR_Users r ++ us)))
    (λ s, user_withR (userR_server (Some s))).
Definition AddUsersG : loc → bool → list loc → Go W unit := AddUsers GetDB.
Definition forget_server (u : User) : User := set_u_R (userR_server None <$> u_R u) (set_u_LbrynetServerID None u).
Definition SetUsers : X → loc → bool → list loc → Go W unit :=
  set_many userTable "lbrynet_server_id" (λ s, SInt (s_ID s)) (λ s, lbrynetServerR_Users <$> s_R s) forget_server
    (server_withR (λ _, mkLbrynetServerR [])) AddUsers.
Definition SetUsersG : loc → bool → list loc → Go W unit := SetUsers GetDB.
Definition RemoveUsers : X → loc → list loc → Go W unit :=
  remove_many (User_Update hs) "lbrynet_server_id" forget_server (λ s, lbrynetServerR_Users <$> s_R s)
    (λ us, set_s_R (Some (mkLbrynetServerR us))).
Definition RemoveUsersG : loc → list loc → Go W unit := RemoveUsers GetDB.

(** *** Users and their asynchronous queries *)

Definition Asynquery_User (o : Asynquery) (mods : list QueryMod) : Query :=
  SetFrom "users" (Users (qm_Where (CCmp "" "id" EQ (SInt (aq_UserID o))) :: mods)).
Definition Asynquery_LoadUser : X → bool → list loc → option QueryMod → Go W unit :=
  load_to_one userTable (asynquery_withR id) (λ a, SInt (aq_UserID a)) (λ u, SInt (u_ID u)) same
    "id" false link_asynquery_user "User" "of eager load for"
    (asynqueryHooks hs AfterSelectHook) (userHooks hs AfterSelectHook).
Definition Asynquery_SetUser : X → loc → bool → loc → Go W unit :=
  set_one asynqueryTable (User_Insert hs) "user_id" (λ u, SInt (u_ID u)) (λ a, [SText (aq_ID a)])
    (λ a u, update_obj a (set_aq_UserID (u_ID u))) link_asynquery_user.
Definition Asynquery_SetUserG : loc → bool → loc → Go W unit := Asynquery_SetUser GetDB.

Definition User_Asynqueries (o : User) (mods : list QueryMod) : Query :=
  related_query "asynqueries" "user_id" (SInt (u_ID o)) Asynqueries mods.
Definition LoadAsynqueries : X → bool → list loc → option QueryMod → Go W unit :=
  load_to_many asynqueryTable (user_withR id) (λ u, SInt (u_ID u)) (λ a, SInt (aq_UserID a)) same
    "user_id" false link_user_asynquery "asynqueries" "in eager load on"
    (λ u l, update_obj u (user_withR (userR_asynqueries l)))
    (λ u a, update_obj a (asynquery_withR (λ _, mkAsynqueryR (Some u))))
    (asynqueryHooks hs AfterSelectHook).
Definition AddAsynqueries : X → loc → bool → list loc → Go W unit :=
  add_many asynqueryTable (Asynquery_Insert hs) "user_id" (λ a, [SText (aq_ID a)]) (λ u, SInt (u_ID u))
    (λ u, set_aq_UserID (u_ID u)) (λ l, user_withR (λ r, userR_asynqueries (userR_Asynqueries r ++ l) r))
    (λ u, asynquery_withR (λ _, mkAsynqueryR (Some u))).
Definition AddAsynqueriesG : loc → bool → list loc → Go W unit := AddAsynqueries GetDB.

(** *** Users and their uploads *)

Definition Upload_User (o : Upload) (mods : list QueryMod) : Query :=
  SetFrom "users" (Users (qm_Where (CCmp "" "id" EQ (opt_int (up_UserID o))) :: mods)).
Definition Upload_LoadUser : X → bool → list loc → option QueryMod → Go W unit :=
  load_to_one userTable (upload_withR id) (λ p, opt_int (up_UserID p)) (λ u, SInt (u_ID u)) Equal
    "id" true link_upload_user "User" "of eager load for"
    (uploadHooks hs AfterSelectHook) (userHooks hs AfterSelectHook).
Definition Upload_SetUser : X → loc → bool → loc → Go W unit :=
  set_one uploadTable (User_Insert hs) "user_id" (λ u, SInt (u_ID u)) (λ p, [SText (up_ID p)])
    (λ p u, update_obj p (set_up_UserID (Some (u_ID u)))) link_upload_user.
Definition Upload_SetUserG : loc → bool → loc → Go W unit := Upload_SetUser GetDB.
(** [o.R.User = nil] *)
Definition clear_user (p : loc) : Go W unit :=
  let! o := load (O := Upload) p in
  match up_R o with
  | None => gopanic "invalid memory address or nil pointer dereference"
  | Some r => store p (set_up_R (Some (uploadR_user None r)) o)
  end.
Definition Upload_RemoveUser : X → loc → option loc → Go W unit :=
  remove_one (Upload_Update hs) "user_id" (λ p, opt_int (up_UserID p)) (set_up_UserID None) clear_user
    (λ u, userR_Uploads <$> u_R u) (λ ps u, set_u_R (userR_uploads ps <$> u_R u) u).
Definition Upload_RemoveUserG : loc → option loc → Go W unit := Upload_RemoveUser GetDB.

Definition User_Uploads (o : User) (mods : list QueryMod) : Query :=
  related_query "uploads" "user_id" (SInt (u_ID o)) Uploads mods.
Definition LoadUploads : X → bool → list loc → option QueryMod → Go W unit :=
  load_to_many uploadTable (user_withR id) (λ u, SInt (u_ID u)) (λ p, opt_int (up_UserID p)) Equal
    "user_id" false link_user_upload "uploads" "in eager load on"
    (λ u l, update_obj u (user_withR (userR_uploads l)))
    (λ u p, update_obj p (upload_withR (uploadR_user (Some u))))
    (uploadHooks hs AfterSelectHook).
Definition AddUploads : X → loc → bool → list loc → Go W unit :=
  add_many uploadTable (Upload_Insert hs) "user_id" (λ p, [SText (up_ID p)]) (λ u, SInt (u_ID u))
    (λ u, set_up_UserID (Some (u_ID u))) (λ l, user_withR (λ r, userR_uploads (userR_Uploads r ++ l) r))
    (λ u, upload_withR (uploadR_user (Some u))).
Definition AddUploadsG : loc → bool → list loc → Go W unit := AddUploads GetDB.
Definition forget_user (p : Upload) : Upload := set_up_R (uploadR_user None <$> up_R p) (set_up_UserID None p).
Definition SetUploads : X → loc → bool → list loc → Go W unit :=
  set_many uploadTable "user_id" (λ u, SInt (u_ID u)) (λ u, userR_Uploads <$> u_R u) forget_user
    (user_withR (userR_uploads [])) AddUploads.
Definition SetUploadsG : loc → bool → list loc → Go W unit := SetUploads GetDB.
Definition RemoveUploads : X → loc → list loc → Go W unit :=
  remove_many (Upload_Update hs) "user_id" forget_user (λ u, userR_Uploads <$> u_R u)
    (λ ps u, set_u_R (userR_uploads ps <$> u_R u) u).
Definition RemoveUploadsG : loc → list loc → Go W unit := RemoveUploads GetDB.

(** *** Uploads and their publish queries *)

Definition Upload_PublishQuery (o : Upload) (mods : list QueryMod) : Query :=
  SetFrom "publish_queries" (PublishQueries (qm_Where (CCmp "" "upload_id" EQ (SText (up_ID o))) :: mods)).
Definition LoadPublishQuery : X → bool → list loc → option QueryMod → Go W unit :=
  load_to_one publishQueryTable (upload_withR id) (λ p, SText (up_ID p)) (λ q, SText (pq_UploadID q)) same
    "upload_id" false link_upload_query "PublishQuery" "of eager load for"
    (uploadHooks hs AfterSelectHook) (publishQueryHooks hs AfterSelectHook).
(** The foreign key is on the related side. *)
Definition SetPublishQuery (ex : X) (o : loc) (insert : bool) (related : loc) : Go W unit :=
  let! p := load (O := Upload) o in
  (if insert then
     update_obj related (set_pq_UploadID (up_ID p)) ;;!
     wrapping "failed to insert into foreign table" (PublishQuery_Insert hs ex (Some related) Infer)
   else
     let! q := load (O := PublishQuery) related in
     wrapping "failed to update foreign table" (set_fk publishQueryTable ex "upload_id" (SText (up_ID p)) [SText (pq_UploadID q)]) ;;!
     update_obj related (set_pq_UploadID (up_ID p))) ;;!
  link_upload_query o related.
Definition SetPublishQueryG : loc → bool → loc → Go W unit := SetPublishQuery GetDB.

Definition PublishQuery_Upload (o : PublishQuery) (mods : list QueryMod) : Query :=
  SetFrom "uploads" (Uploads (qm_Where (CCmp "" "id" EQ (SText (pq_UploadID o))) :: mods)).
Definition LoadUpload : X → bool → list loc → option QueryMod → Go W unit :=
  load_to_one uploadTable (pq_withR id) (λ q, SText (pq_UploadID q)) (λ p, SText (up_ID p)) same
    "id" false link_query_upload "Upload" "of eager load for"
    (publishQueryHooks hs AfterSelectHook) (uploadHooks hs AfterSelectHook).
Definition SetUpload : X → loc → bool → loc → Go W unit :=
  set_one publishQueryTable (Upload_Insert hs) "upload_id" (λ p, SText (up_ID p)) (λ q, [SText (pq_UploadID q)])
    (λ q p, update_obj q (set_pq_UploadID (up_ID p))) link_query_upload.
Definition SetUploadG : loc → bool → loc → Go W unit := SetUpload GetDB.

(** ** Queries that load relations *)

(** The [L] method a relation's name stands for. *)
Definition no_loader (rel : string) : Go W unit := fail (EText ("could not find Load" +:+ rel +:+ " method for eager loading")).
Definition userL (ex : X) (singular : bool) (rel : string) (ls : list loc) : Go W unit :=
  if decide (rel = "LbrynetServer") then LoadLbrynetServer ex singular ls None else
  if decide (rel = "Asynqueries") then LoadAsynqueries ex singular ls None else
  if decide (rel = "Uploads") then LoadUploads ex singular ls None else no_loader rel.
Definition lbrynetServerL (ex : X) (singular : bool) (rel : string) (ls : list loc) : Go W unit :=
  if decide (rel = "Users") then LoadUsers ex singular ls None else no_loader rel.
Definition uploadL (ex : X) (singular : bool) (rel : string) (ls : list loc) : Go W unit :=
  if decide (rel = "User") then Upload_LoadUser ex singular ls None else
  if decide (rel = "PublishQuery") then LoadPublishQuery ex singular ls None else no_loader rel.
Definition asynqueryL (ex : X) (singular : bool) (rel : string) (ls : list loc) : Go W unit :=
  if decide (rel = "User") then Asynquery_LoadUser ex singular ls None else no_loader rel.
Definition publishQueryL (ex : X) (singular : bool) (rel : string) (ls : list loc) : Go W unit :=
  if decide (rel = "Upload") then LoadUpload ex singular ls None else no_loader rel.
Definition noL (ex : X) (singular : bool) (rel : string) (ls : list loc) : Go W unit := no_loader rel.

Definition User_One (ex : X) (q : Query) : Go W loc := One userTable (userHooks hs) userL ex q.
Definition User_OneG (q : Query) : Go W loc := User_One GetDB q.
Definition User_All (ex : X) (q : Query) : Go W (list loc) := All userTable (userHooks hs) userL ex q.
Definition User_AllG (q : Query) : Go W (list loc) := User_All GetDB q.
Definition LbrynetServer_One (ex : X) (q : Query) : Go W loc := One lbrynetServerTable (lbrynetServerHooks hs) lbrynetServerL ex q.
Definition LbrynetServer_OneG (q : Query) : Go W loc := LbrynetServer_One GetDB q.
Definition LbrynetServer_All (ex : X) (q : Query) : Go W (list loc) := All lbrynetServerTable (lbrynetServerHooks hs) lbrynetServerL ex q.
Definition LbrynetServer_AllG (q : Query) : Go W (list loc) := LbrynetServer_All GetDB q.
Definition Upload_One (ex : X) (q : Query) : Go W loc := One uploadTable (uploadHooks hs) uploadL ex q.
Definition Upload_OneG (q : Query) : Go W loc := Upload_One GetDB q.
Definition Upload_All (ex : X) (q : Query) : Go W (list loc) := All uploadTable (uploadHooks hs) uploadL ex q.
Definition Upload_AllG (q : Query) : Go W (list loc) := Upload_All GetDB q.
Definition Asynquery_One (ex : X) (q : Query) : Go W loc := One asynqueryTable (asynqueryHooks hs) asynqueryL ex q.
Definition Asynquery_OneG (q : Query) : Go W loc := Asynquery_One GetDB q.
Definition Asynquery_All (ex : X) (q : Query) : Go W (list loc) := All asynqueryTable (asynqueryHooks hs) asynqueryL ex q.
Definition Asynquery_AllG (q : Query) : Go W (list loc) := Asynquery_All GetDB q.
Definition PublishQuery_One (ex : X) (q : Query) : Go W loc := One publishQueryTable (publishQueryHooks hs) publishQueryL ex q.
Definition PublishQuery_OneG (q : Query) : Go W loc := PublishQuery_One GetDB q.
Definition PublishQuery_All (ex : X) (q : Query) : Go W (list loc) := All publishQueryTable (publishQueryHooks hs) publishQueryL ex q.
Definition PublishQuery_AllG (q : Query) : Go W (list loc) := PublishQuery_All GetDB q.
Definition QueryLog_One (ex : X) (q : Query) : Go W loc := One queryLogTable (queryLogHooks hs) noL ex q.
Definition QueryLog_OneG (q : Query) : Go W loc := QueryLog_One GetDB q.
Definition QueryLog_All (ex : X) (q : Query) : Go W (list loc) := All queryLogTable (queryLogHooks hs) noL ex q.
Definition QueryLog_AllG (q : Query) : Go W (list loc) := QueryLog_All GetDB q.
Definition GorpMigration_One (ex : X) (q : Query) : Go W loc := One gorpMigrationTable (gorpMigrationHooks hs) noL ex q.
Definition GorpMigration_OneG (q : Query) : Go W loc := GorpMigration_One GetDB q.
Definition GorpMigration_All (ex : X) (q : Query) : Go W (list loc) := All gorpMigrationTable (gorpMigrationHooks hs) noL ex q.
Definition GorpMigration_AllG (q : Query) : Go W (list loc) := GorpMigration_All GetDB q.
End relations.
