(* ===== verification/Postgres.v ===== *)
(** * The database behind the data layer

    A reference executor for the statements of [Boil.v]: tables of rows with the
    columns, defaults, not-null and unique constraints of the migrations in
    [src/internal/storage/migrations], and what each statement does to them, with
    PostgreSQL's error codes.  Statements run one at a time.  Foreign keys, checks
    and the enumeration types of the status columns are not enforced.

    A value is stored in its column's form: [jsonb] in a normal form of the text it
    was given (an invalid text is refused), a time to the microsecond; a value a
    statement compares with is brought into that form first.  What the form is belongs
    to the server ([PgTypes], its laws [PgTypesSpec]).  Times are instants in UTC,
    counted in nanoseconds, the location the data layer stamps them with. *)

From stdpp Require Import gmap strings.
From S2P Require Import Prelude GoLib Errors Boil Models.

Abbreviation Row := (gmap string SVal).
Definition row_get (r : Row) (c : string) : SVal := default SNull (r !! c).

(** ** Column types *)

Class PgTypes := {
  jsonb_in : string → option string;              (* the text read back, [None] for invalid input *)
  time_in : Z → Z }.
Class PgTypesSpec {PT : PgTypes} := {
  jsonb_in_idem s t : jsonb_in s = Some t → jsonb_in t = Some t;
  time_in_micros t : time_in t mod 1000 = 0 ∧ 2 * Z.abs (time_in t - t) <= 1000 }.

Section types.
Context {PT : PgTypes}.
Definition storable (v : SVal) : bool := match v with SJSON s => bool_decide (is_Some (jsonb_in s)) | _ => true end.
Definition stored (v : SVal) : SVal :=
  match v with SJSON s => SJSON (default s (jsonb_in s)) | STime t => STime (time_in t) | v => v end.

Lemma stored_null v : stored v = SNull ↔ v = SNull.
Proof. by destruct v. Qed.

Context {PS : PgTypesSpec}.
Lemma time_in_idem t : time_in (time_in t) = time_in t.
Proof using PS. destruct (time_in_micros t) as [H _], (time_in_micros (time_in t)) as [H' ?]. Z.div_mod_to_equations; lia. Qed.
Lemma stored_idem v : stored (stored v) = stored v.
Proof using PS.
  destruct v as [| | | | |s]; cbn; [done|done|done|by rewrite time_in_idem|done|].
  destruct (jsonb_in s) as [t|] eqn:E; cbn; [by rewrite (jsonb_in_idem _ _ E)|by rewrite E].
Qed.
Lemma storable_stored v : storable v = true → storable (stored v) = true.
Proof using PS.
  destruct v as [| | | | |s]; try done. cbn. rewrite !bool_decide_eq_true. intros [t E]. rewrite E. cbn. exists t. by apply jsonb_in_idem with s.
Qed.
End types.

(** ** Tables *)

Record Schema := mkSchema {
  sc_cols : list string;
  sc_unique : list (list string);                 (* the primary key first *)
  sc_notnull : list string;
  sc_default : string → Z → Z → SVal;             (* column, next value of the sequence, now() *)
  sc_jsonb : list string }.

Definition no_default (c : string) (n now : Z) : SVal := SNull.
Definition with_default (d : string) (f : Z → Z → SVal) (g : string → Z → Z → SVal) : string → Z → Z → SVal :=
  λ c n now, if decide (c = d) then f n now else g c n now.
Definition now_default (d : string) := with_default d (λ _ now, STime now).
Definition serial_default (d : string) := with_default d (λ n _, SInt n).
Definition const_default (d : string) (v : SVal) := with_default d (λ _ _, v).

Definition users_schema : Schema := mkSchema userAllColumns [["id"]] ["id"; "created_at"; "updated_at"]
  (now_default "created_at" (now_default "updated_at" no_default)) [].
Definition lbrynet_servers_schema : Schema := mkSchema lbrynetServerAllColumns [["id"]; ["name"]] lbrynetServerAllColumns
  (serial_default "id" (const_default "weight" (SInt 0) (now_default "created_at" (now_default "updated_at" (const_default "private" (SBool false) no_default))))) [].
Definition uploads_schema : Schema := mkSchema uploadAllColumns [["id"]] ["id"; "path"; "created_at"; "status"; "error"; "size"; "received"]
  (now_default "created_at" (const_default "received" (SInt 0) no_default)) [].
Definition asynqueries_schema : Schema := mkSchema asynqueryAllColumns [["id"]]
  ["id"; "user_id"; "created_at"; "status"; "error"; "upload_id"; "ready_to_run"; "file_ready"]
  (now_default "created_at" (const_default "ready_to_run" (SBool true) (const_default "file_ready" (SBool false) no_default)))
  ["body"; "response"; "file_meta"].
Definition publish_queries_schema : Schema := mkSchema publishQueryAllColumns [["upload_id"]] ["upload_id"; "created_at"; "status"; "error"]
  (now_default "created_at" no_default) ["query"; "response"].
Definition query_log_schema : Schema := mkSchema queryLogAllColumns [["id"]] ["id"; "method"; "timestamp"; "remote_ip"]
  (serial_default "id" (now_default "timestamp" no_default)) ["body"].
Definition gorp_migrations_schema : Schema := mkSchema gorpMigrationAllColumns [["id"]] ["id"] no_default [].

Definition schemas : gmap string Schema := list_to_map
  [("users", users_schema); ("lbrynet_servers", lbrynet_servers_schema); ("uploads", uploads_schema);
   ("asynqueries", asynqueries_schema); ("publish_queries", publish_queries_schema);
   ("query_log", query_log_schema); ("gorp_migrations", gorp_migrations_schema)].

Record DB := mkDB { db_tables : gmap string (list Row); db_seq : Z }.
Definition rows_of (d : DB) (tbl : string) : list Row := default [] (db_tables d !! tbl).
Definition set_rows (tbl : string) (rs : list Row) (d : DB) : DB := mkDB (<[tbl := rs]> (db_tables d)) (db_seq d).

(** ** Conditions *)

(** Two rows agree on a unique key; null differs from everything. *)
Definition key_clash (k : list string) (r r' : Row) : bool :=
  forallb (λ c, bool_decide (row_get r c = row_get r' c ∧ row_get r c ≠ SNull)) k.
Definition clashes (ks : list (list string)) (r r' : Row) : bool := existsb (λ k, key_clash k r r') ks.
Fixpoint unique_rows (ks : list (list string)) (rs : list Row) : bool :=
  match rs with [] => true | r :: rs => negb (existsb (clashes ks r) rs) && unique_rows ks rs end.

(** [WHERE (c1 = $1 AND ...) OR (c1 = $n ...)]: the arguments in groups. *)
Definition eq_group (cs : list string) (vs : list SVal) (r : Row) : bool :=
  forallb (λ p, bool_decide (row_get r p.1 = p.2 ∧ p.2 ≠ SNull)) (zip cs vs).
Fixpoint where_groups (cs : list string) (times : nat) (vs : list SVal) (r : Row) : bool :=
  match times with
  | O => false
  | S n => eq_group cs (take (length cs) vs) r || where_groups cs n (drop (length cs) vs) r
  end.

Definition cmp_svals (op : Op) (a b : SVal) : bool :=
  let by_Z (x y : Z) := match op with EQ => bool_decide (x = y) | NEQ => bool_decide (x ≠ y) | LT => bool_decide (x < y) | LTE => bool_decide (x <= y) | GT => bool_decide (y < x) | GTE => bool_decide (y <= x) end in
  match a, b with
  | SInt x, SInt y | STime x, STime y => by_Z x y
  | SBool x, SBool y => by_Z (if x then 1 else 0) (if y then 1 else 0)
  | SText x, SText y | SJSON x, SJSON y =>
    match op with EQ => bool_decide (x = y) | NEQ => bool_decide (x ≠ y)
    | LT => String.ltb x y | LTE => String.leb x y | GT => String.ltb y x | GTE => String.leb y x end
  | _, _ => false
  end.

Section executor.
Context {PT : PgTypes}.

Definition clause_holds (r : Row) (c : Clause) : bool :=
  match c with
  | CCmp _ col op v => cmp_svals op (row_get r col) (stored v)
  | CIsNull _ col => bool_decide (row_get r col = SNull)
  | CIsNotNull _ col => bool_decide (row_get r col ≠ SNull)
  | CIn col vs => existsb (λ v, cmp_svals EQ (row_get r col) (stored v)) vs
  end.
(** The text compared with a [jsonb] column is JSON. *)
Definition clause_ok (sc : Schema) (c : Clause) : bool :=
  match c with
  | CCmp _ col _ v => bool_decide (col ∉ sc_jsonb sc) || storable v
  | CIn col vs => bool_decide (col ∉ sc_jsonb sc) || forallb storable vs
  | _ => true
  end.
Definition query_holds (q : Query) (r : Row) : bool := forallb (clause_holds r) (q_where q).

(** ** Statements *)

(** The parts a statement is made of, over values in their columns' forms. *)

Definition pg_error (code msg : string) : error := EPq code msg.
Definition outcome := (error + Z * list (list (string * SVal)))%type.
Definition project (cs : list string) (r : Row) : list (string * SVal) := map (λ c, (c, row_get r c)) cs.

Definition set_cols (ps : list (string * SVal)) (r : Row) : Row := foldl (λ r p, <[p.1 := p.2]> r) r ps.
Definition fill (sc : Schema) (ps : list (string * SVal)) (seq now : Z) : Row :=
  list_to_map (map (λ c, (c, match list_find (λ p, p.1 = c) ps with Some (_, p) => p.2 | None => sc_default sc c seq now end)) (sc_cols sc)).
Definition cols_ok (sc : Schema) (cs : list string) : bool := bool_decide (cs ⊆ sc_cols sc ∧ NoDup cs).
Definition notnull_ok (sc : Schema) (r : Row) : bool := forallb (λ c, bool_decide (row_get r c ≠ SNull)) (sc_notnull sc).

Definition null_violation := pg_error "23502" "null value in column violates not-null constraint".
Definition unique_violation := pg_error "23505" "duplicate key value violates unique constraint".
Definition undefined_column := pg_error "42703" "column does not exist".
Definition no_unique_target := pg_error "42P10" "there is no unique or exclusion constraint matching the ON CONFLICT specification".

Definition invalid_json := pg_error "22P02" "invalid input syntax for type json".

Definition bump (d : DB) : DB := mkDB (db_tables d) (db_seq d + 1).

Definition pg_insert (sc : Schema) (tbl : string) (cols : list string) (vals : list SVal) (returning : list string) (now : Z) (d : DB) : outcome * DB :=
  if negb (cols_ok sc cols && bool_decide (length cols = length vals)) then (inl undefined_column, d) else
  let r := fill sc (zip cols vals) (db_seq d) now in
  let d := bump d in
  if negb (notnull_ok sc r) then (inl null_violation, d) else
  if existsb (clashes (sc_unique sc) r) (rows_of d tbl) then (inl unique_violation, d) else
  (inr (1, if decide (returning = []) then [] else [project returning r]), set_rows tbl (rows_of d tbl ++ [r]) d).

(** Rewriting the rows that satisfy [p]; a constraint that fails leaves them alone. *)
Definition pg_rewrite (sc : Schema) (tbl : string) (p : Row → bool) (f : Row → Row) (returning : list string) (d : DB) : outcome * DB :=
  let rs := map (λ r, if p r then f r else r) (rows_of d tbl) in
  if negb (forallb (notnull_ok sc) rs) then (inl null_violation, d) else
  if negb (unique_rows (sc_unique sc) rs) then (inl unique_violation, d) else
  let hit := filter (λ r, p r = true) (rows_of d tbl) in
  (inr (Z.of_nat (length hit), if decide (returning = []) then [] else map (λ r, project returning (f r)) hit), set_rows tbl rs d).

Definition pg_upsert (sc : Schema) (tbl : string) (cols : list string) (vals : list SVal) (action : option (list string * list string)) (returning : list string) (now : Z) (d : DB) : outcome * DB :=
  if negb (cols_ok sc cols && bool_decide (length cols = length vals)) then (inl undefined_column, d) else
  let r := fill sc (zip cols vals) (db_seq d) now in
  if negb (notnull_ok sc r) then (inl null_violation, bump d) else
  match action with
  | None =>
    if existsb (clashes (sc_unique sc) r) (rows_of d tbl) then (inr (0, []), bump d) else pg_insert sc tbl cols vals returning now d
  | Some (target, update) =>
    if negb (bool_decide (target ∈ sc_unique sc)) then (inl no_unique_target, d) else
    if existsb (key_clash target r) (rows_of d tbl) then
      pg_rewrite sc tbl (key_clash target r) (set_cols (project update r)) returning (bump d)
    else pg_insert sc tbl cols vals returning now d
  end.

Definition pg_select (tbl : string) (p : Row → bool) (sel : list string) (limit : option Z) (d : DB) : outcome * DB :=
  let rs := filter (λ r, p r = true) (rows_of d tbl) in
  let rs := match limit with Some n => take (Z.to_nat n) rs | None => rs end in
  (inr (Z.of_nat (length rs), map (project sel) rs), d).

Definition pg_query (sc : Schema) (q : Query) (d : DB) : outcome * DB :=
  let tbl := q_from q in
  if negb (forallb (clause_ok sc) (q_where q) && forallb storable (from_option (λ m, (map_to_list m).*2) [] (q_update q))) then (inl invalid_json, d) else
  match q_update q with
  | Some cols =>
    if negb (cols_ok sc (map_to_list cols).*1) then (inl undefined_column, d) else
    pg_rewrite sc tbl (query_holds q) (set_cols (map_to_list (stored <$> cols))) [] d
  | None =>
    if q_delete q then
      let keep := filter (λ r, query_holds q r = false) (rows_of d tbl) in
      (inr (Z.of_nat (length (rows_of d tbl)) - Z.of_nat (length keep), []), set_rows tbl keep d)
    else if q_count q then
      (inr (1, [[("count", SInt (Z.of_nat (length (filter (λ r, query_holds q r = true) (rows_of d tbl)))))]]), d)
    else pg_select tbl (query_holds q) (sc_cols sc) (q_limit q) d
  end.

Definition stmt_table (s : Stmt) : string :=
  match s with
  | SQuery q => q_from q
  | SInsert t _ _ | SUpsert t _ _ _ | SUpdate t _ _ _ | SDelete t _ _ | SSelect t _ _ _ | SExists t _ | SForget t _ => t
  end.

(** Arguments are read into their columns' forms before the statement runs; the
    server's clock counts microseconds. *)
Definition pg_run (s : Stmt) (args : list SVal) (now : Z) (d : DB) : outcome * DB :=
  if negb (forallb storable args) then (inl invalid_json, d) else
  let args := map stored args in
  let now := time_in now in
  match schemas !! stmt_table s with
  | None => (inl (pg_error "42P01" "relation does not exist"), d)
  | Some sc =>
    match s with
    | SQuery q => pg_query sc q d
    | SInsert tbl cols returning => pg_insert sc tbl cols args returning now d
    | SUpsert tbl cols action returning => pg_upsert sc tbl cols args action returning now d
    | SUpdate tbl set_ where_ times =>
      if negb (cols_ok sc set_) then (inl undefined_column, d) else
      let n := length set_ in
      pg_rewrite sc tbl (where_groups where_ times (drop n args)) (set_cols (zip set_ (take n args))) [] d
    | SDelete tbl where_ times =>
      let keep := filter (λ r, where_groups where_ times args r = false) (rows_of d tbl) in
      (inr (Z.of_nat (length (rows_of d tbl)) - Z.of_nat (length keep), []), set_rows tbl keep d)
    | SSelect tbl sel where_ times =>
      if negb (cols_ok sc sel) then (inl undefined_column, d) else
      pg_select tbl (where_groups where_ times args) (if decide (sel = []) then sc_cols sc else sel) None d
    | SExists tbl where_ =>
      (inr (1, [[("exists", SBool (existsb (where_groups where_ 1 args) (rows_of d tbl)))]]), d)
    | SForget tbl col =>
      pg_rewrite sc tbl (where_groups [col] 1 args) <[col := SNull]> [] d
    end
  end.

End executor.

(** ** The program's state and its executor *)

Record World := mkWorld {
  w_users : Mem User; w_servers : Mem LbrynetServer; w_uploads : Mem Upload; w_asynqueries : Mem Asynquery;
  w_queries : Mem PublishQuery; w_logs : Mem QueryLog; w_migrations : Mem GorpMigration; w_db : DB; w_now : Z }.

#[export] Instance World_User : Model World User := {
  mem := w_users;
  set_mem m w := mkWorld m (w_servers w) (w_uploads w) (w_asynqueries w) (w_queries w) (w_logs w) (w_migrations w) (w_db w) (w_now w) }.
#[export] Instance World_LbrynetServer : Model World LbrynetServer := {
  mem := w_servers;
  set_mem m w := mkWorld (w_users w) m (w_uploads w) (w_asynqueries w) (w_queries w) (w_logs w) (w_migrations w) (w_db w) (w_now w) }.
#[export] Instance World_Upload : Model World Upload := {
  mem := w_uploads;
  set_mem m w := mkWorld (w_users w) (w_servers w) m (w_asynqueries w) (w_queries w) (w_logs w) (w_migrations w) (w_db w) (w_now w) }.
#[export] Instance World_Asynquery : Model World Asynquery := {
  mem := w_asynqueries;
  set_mem m w := mkWorld (w_users w) (w_servers w) (w_uploads w) m (w_queries w) (w_logs w) (w_migrations w) (w_db w) (w_now w) }.
#[export] Instance World_PublishQuery : Model World PublishQuery := {
  mem := w_queries;
  set_mem m w := mkWorld (w_users w) (w_servers w) (w_uploads w) (w_asynqueries w) m (w_logs w) (w_migrations w) (w_db w) (w_now w) }.
#[export] Instance World_QueryLog : Model World QueryLog := {
  mem := w_logs;
  set_mem m w := mkWorld (w_users w) (w_servers w) (w_uploads w) (w_asynqueries w) (w_queries w) m (w_migrations w) (w_db w) (w_now w) }.
#[export] Instance World_GorpMigration : Model World GorpMigration := {
  mem := w_migrations;
  set_mem m w := mkWorld (w_users w) (w_servers w) (w_uploads w) (w_asynqueries w) (w_queries w) (w_logs w) m (w_db w) (w_now w) }.

Definition set_db (d : DB) (w : World) : World :=
  mkWorld (w_users w) (w_servers w) (w_uploads w) (w_asynqueries w) (w_queries w) (w_logs w) (w_migrations w) d (w_now w).

(** One statement of the executor. *)
Definition run_stmt `{PgTypes} (s : Stmt) (args : list SVal) : Go World (Z * list (list (string * SVal))) := λ w,
  match pg_run s args (w_now w) (w_db w) with
  | (inl e, d) => (RErr e, set_db d w)
  | (inr r, d) => (ROk r, set_db d w)
  end.

#[export] Instance World_Executor `{PgTypes} : Executor World unit := {
  GetDB := tt;
  Now := w_now;
  Exec _ s args := let! r := run_stmt s args in ret (inr r.1);
  QueryRow _ s args := let! r := run_stmt s args in match r.2 with row :: _ => ret row.*2 | [] => fail ErrNoRows end;
  RunQuery _ s args := let! r := run_stmt s args in ret (mkRows r.2 None None) }.

(** Where the memory of a type lies does not matter to the rest. *)
Class ModelSpec (O : Type) {M : Model World O} := {
  mem_set_mem (m : Mem O) w : mem (set_mem m w) = m;
  db_set_mem (m : Mem O) w : w_db (set_mem m w) = w_db w;
  now_set_mem (m : Mem O) w : w_now (set_mem m w) = w_now w;
  mem_set_db d w : mem (O := O) (set_db d w) = mem w;
  set_mem_same (w : World) : set_mem (with_objs (λ _, objs (mem (O := O) w)) (mem w)) w = w;
  set_set_mem (m m' : Mem O) w : set_mem m (set_mem m' w) = set_mem m w;
  set_mem_db (m : Mem O) d w : set_mem m (set_db d w) = set_db d (set_mem m w) }.
#[export] Instance User_ModelSpec : ModelSpec User. Proof. split; try done; by intros [[] [] [] [] [] [] [] ? ?]. Qed.
#[export] Instance LbrynetServer_ModelSpec : ModelSpec LbrynetServer. Proof. split; try done; by intros [[] [] [] [] [] [] [] ? ?]. Qed.
#[export] Instance Upload_ModelSpec : ModelSpec Upload. Proof. split; try done; by intros [[] [] [] [] [] [] [] ? ?]. Qed.
#[export] Instance Asynquery_ModelSpec : ModelSpec Asynquery. Proof. split; try done; by intros [[] [] [] [] [] [] [] ? ?]. Qed.
#[export] Instance PublishQuery_ModelSpec : ModelSpec PublishQuery. Proof. split; try done; by intros [[] [] [] [] [] [] [] ? ?]. Qed.
#[export] Instance QueryLog_ModelSpec : ModelSpec QueryLog. Proof. split; try done; by intros [[] [] [] [] [] [] [] ? ?]. Qed.
#[export] Instance GorpMigration_ModelSpec : ModelSpec GorpMigration. Proof. split; try done; by intros [[] [] [] [] [] [] [] ? ?]. Qed.

(** ** Unique keys stay unique *)

Definition unique_db (d : DB) : Prop :=
  ∀ tbl sc, schemas !! tbl = Some sc → unique_rows (sc_unique sc) (rows_of d tbl) = true.

Lemma rows_of_set d tbl rs tbl' : rows_of (set_rows tbl rs d) tbl' = if decide (tbl' = tbl) then rs else rows_of d tbl'.
Proof.
  unfold rows_of, set_rows. destruct (decide (tbl' = tbl)) as [->|]; simpl; [by rewrite lookup_insert_eq | by rewrite lookup_insert_ne by congruence].
Qed.

Lemma key_clash_sym k r r' : key_clash k r r' = key_clash k r' r.
Proof.
  unfold key_clash. induction k as [|c k IH]; simpl; [done|]. rewrite IH. f_equal. apply bool_decide_ext. split; intros [E N]; split; congruence.
Qed.

Lemma clashes_sym ks r r' : clashes ks r r' = clashes ks r' r.
Proof. unfold clashes. induction ks as [|k ks IH]; simpl; [done|]. by rewrite IH, key_clash_sym. Qed.

Lemma unique_rows_snoc ks rs r :
  unique_rows ks rs = true → existsb (clashes ks r) rs = false → unique_rows ks (rs ++ [r]) = true.
Proof.
  induction rs as [|r0 rs IH]; simpl; [done|]. rewrite andb_true_iff, orb_false_iff, negb_true_iff.
  intros [H0 H] [Hc Hr]. rewrite existsb_app, H0, (IH H Hr). simpl. by rewrite clashes_sym, Hc.
Qed.

Lemma existsb_filter_false {A} (f p : A → bool) b l :
  existsb f l = false → existsb f (filter (λ x, p x = b) l) = false.
Proof.
  induction l as [|a l IH]; simpl; [done|]. rewrite orb_false_iff. intros [Ha Hl].
  destruct (decide (p a = b)); [rewrite filter_cons_True by done; simpl; by rewrite Ha, IH|rewrite filter_cons_False by done; auto].
Qed.

Lemma unique_rows_filter ks (p : Row → bool) b rs :
  unique_rows ks rs = true → unique_rows ks (filter (λ r, p r = b) rs) = true.
Proof.
  induction rs as [|r rs IH]; simpl; [done|]. rewrite andb_true_iff, negb_true_iff. intros [Hr H].
  destruct (decide (p r = b)); [rewrite filter_cons_True by done|rewrite filter_cons_False by done; auto].
  simpl. rewrite (IH H), (existsb_filter_false _ p b) by done. done.
Qed.

Lemma unique_set_rows d tbl sc rs :
  unique_db d → schemas !! tbl = Some sc → unique_rows (sc_unique sc) rs = true → unique_db (set_rows tbl rs d).
Proof.
  intros Hd Hs Hr tbl' sc' Hs'. rewrite rows_of_set. destruct (decide (tbl' = tbl)) as [->|]; [|by apply Hd]. congruence.
Qed.

Lemma pg_insert_unique sc tbl cols vals ret_ now d :
  schemas !! tbl = Some sc → unique_db d → unique_db (pg_insert sc tbl cols vals ret_ now d).2.
Proof.
  intros Hs Hd. unfold pg_insert. split_match; [done|]. split_match; [done|].
  split_match; [done|]. eapply unique_set_rows; [done..|]. apply unique_rows_snoc; [by apply Hd|done].
Qed.

Lemma pg_rewrite_unique sc tbl p f ret_ d :
  schemas !! tbl = Some sc → unique_db d → unique_db (pg_rewrite sc tbl p f ret_ d).2.
Proof.
  intros Hs Hd. unfold pg_rewrite. split_match; [done|]. split_match; [done|].
  eapply unique_set_rows; [done..|]. by apply negb_false_iff.
Qed.

Lemma pg_filter_unique sc tbl p d :
  schemas !! tbl = Some sc → unique_db d → unique_db (set_rows tbl (filter (λ r, p r = false) (rows_of d tbl)) d).
Proof. intros Hs Hd. eapply unique_set_rows; [done..|]. apply unique_rows_filter. by apply Hd. Qed.

Create HintDb pg.
#[export] Hint Resolve pg_insert_unique pg_rewrite_unique pg_filter_unique : pg.

(** Whatever is run, a table never holds two rows that agree on a unique key. *)
Lemma pg_run_unique `{PgTypes} s args now d : unique_db d → unique_db (pg_run s args now d).2.
Proof.
  intros Hd. unfold pg_run. split_match; [done|]. generalize (map stored args) (time_in now). intros args' now'.
  destruct (schemas !! stmt_table s) as [sc|] eqn:Hs; [|done].
  destruct s; simpl in Hs; simpl; eauto with pg.
  - unfold pg_query. split_match; [done|]. destruct (q_update q); [split_match; simpl; eauto with pg|]. destruct (q_delete q); simpl; eauto with pg.
    destruct (q_count q); simpl; done.
  - unfold pg_upsert. split_match; [done|]. split_match; [done|]. destruct action as [[target upd]|].
    + split_match; [done|]. split_match; eauto with pg.
    + split_match; eauto with pg.
  - split_match; simpl; eauto with pg.
  - split_match; simpl; eauto with pg.
Qed.
