(* ===== verification/BoilSpec.v ===== *)
(** * What the generated operations guarantee

    The library's documented behaviour as laws ([BoilColumnsSpec], [QueriesSpec]),
    the well-formedness of a table and of its statement caches, and the theorems on
    [Insert], [Find], [Update], [Delete] and the hooks over the database of
    [Postgres.v]. *)

From S2P Require Import Prelude GoLib Errors Boil Models CacheKey Postgres.

Open Scope Z_scope.

(** ** Laws of the library *)

Class BoilColumnsSpec {BC : BoilColumns} := {
  Cols_Infer : Cols Infer = [];
  Cols_Whitelist cs : Cols (Whitelist cs) = cs;
  Cols_Greylist cs : Cols (Greylist cs) = cs;
  IsWhitelist_Infer : IsWhitelist Infer = false;
  IsWhitelist_Whitelist cs : IsWhitelist (Whitelist cs) = true;
  (** inferred: the columns without a default and the non-zero ones with one;
      returned are the other columns with a default *)
  insert_Infer all def nodef nz ins ret_ :
    InsertColumnSet Infer all def nodef nz = (ins, ret_) →
    (∀ c, c ∈ ins ↔ c ∈ nodef ∨ c ∈ nz) ∧ (∀ c, c ∈ ret_ ↔ c ∈ def ∧ c ∉ nz);
  (** the greylist is inserted besides the inferred columns *)
  insert_Greylist cs all def nodef nz ins ret_ :
    InsertColumnSet (Greylist cs) all def nodef nz = (ins, ret_) →
    (∀ c, c ∈ ins ↔ c ∈ nodef ∨ c ∈ nz ∨ c ∈ cs) ∧ (∀ c, c ∈ ret_ ↔ c ∈ def ∧ c ∉ ins);
  update_Infer all pk c : c ∈ UpdateColumnSet Infer all pk ↔ c ∈ all ∧ c ∉ pk;
  update_Whitelist cs all pk : UpdateColumnSet (Whitelist cs) all pk = cs;
  SetComplement_spec a b c : c ∈ SetComplement a b ↔ c ∈ a ∧ c ∉ b }.

(** Values a field of one type can hold. *)
Definition same_kind (a b : SVal) : bool :=
  match a, b with
  | SNull, SNull | SInt _, SInt _ | SText _, SText _ | STime _, STime _ | SBool _, SBool _ | SJSON _, SJSON _ => true
  | _, _ => false
  end.
Lemma same_kind_refl v : same_kind v v = true.
Proof. by destruct v. Qed.
Lemma stored_kind `{PgTypes} v : same_kind (stored v) v = true.
Proof. by destruct v. Qed.

(** A struct whose fields are independent: scanning into one changes that one. *)
Record struct_ok {O} (S : Struct O) : Prop := {
  so_nodup : NoDup (tags S);
  so_get f v o o' : f ∈ S → f_set f v o = Some o' → f_get f o' = v;
  so_frame f g v o o' : f ∈ S → g ∈ S → f_tag g ≠ f_tag f → f_set f v o = Some o' → f_get g o' = f_get g o;
  so_back f o o' v : f ∈ S → same_kind v (f_get f o') = true → is_Some (f_set f v o) }.

Class QueriesSpec {Q : Queries} := {
  NonZeroDefaultSet_spec {O} (S : Struct O) defs o c :
    c ∈ NonZeroDefaultSet S defs o ↔ c ∈ defs ∧ zero_at S o c = false;
  BindMapping_spec {O} (S : Struct O) cs :
    cs ⊆ tags S → ∃ m, BindMapping S cs = inr m ∧ (m = [] ↔ cs = []) ∧
      (∀ o, ValuesFromMapping S o m = map (value_of S o) cs) ∧
      (∀ o vs o', ScanMapping S o m vs = inr o' ↔ assign_all S o cs vs = Some o');
  BindMapping_unknown {O} (S : Struct O) cs m : BindMapping S cs = inr m → cs ⊆ tags S;
  BindRow_spec {O} (S : Struct O) o r o' : BindRow S o r = inr o' ↔ assign_all S o r.*1 r.*2 = Some o' }.

(** ** Structs *)

Section struct.
Context {O : Type} (S : Struct O) (HS : struct_ok S).

Lemma field_of_Some c f : field_of S c = Some f → f ∈ S ∧ f_tag f = c.
Proof.
  unfold field_of. destruct (list_find _ S) as [[i g]|] eqn:E; [|done]. intros [= <-].
  apply list_find_Some in E as (Hi & Ht & _). split; [by eapply list_elem_of_lookup_2|done].
Qed.

Lemma field_of_tag c : c ∈ tags S → ∃ f, field_of S c = Some f.
Proof.
  unfold tags, field_of. intros (f & -> & Hf)%list_elem_of_fmap.
  destruct (list_find (λ g, f_tag g = f_tag f) S) as [[i g]|] eqn:E; [by exists g|].
  rewrite list_find_None, Forall_forall in E. by destruct (E f Hf).
Qed.

Lemma assign_value o c v o' : assign S o c v = Some o' → value_of S o' c = v.
Proof using HS.
  unfold assign, value_of. destruct (field_of S c) as [f|] eqn:E; [|done]. simpl. intros H.
  apply field_of_Some in E as [Hf _]. by eapply so_get.
Qed.

Lemma assign_frame o c v o' d : assign S o c v = Some o' → d ≠ c → value_of S o' d = value_of S o d.
Proof using HS.
  unfold assign, value_of. destruct (field_of S c) as [f|] eqn:E; [|done]. simpl. intros H Hd.
  destruct (field_of S d) as [g|] eqn:E'; [|done]. simpl. apply field_of_Some in E as [Hf Ht], E' as [Hg Ht'].
  eapply so_frame; [done|exact Hf|exact Hg|congruence|done].
Qed.

(** Assigning the columns [cs] the values of a function. *)
Lemma assign_all_value g cs o o' :
  assign_all S o cs (map g cs) = Some o' → ∀ d, value_of S o' d = if decide (d ∈ cs) then g d else value_of S o d.
Proof using HS.
  revert o. induction cs as [|c cs IH]; intros o; cbn [assign_all map]; [intros [= <-] d; by rewrite decide_False by set_solver|].
  destruct (assign S o c (g c)) as [o1|] eqn:E; [|done]. cbn. intros H d. rewrite (IH _ H d).
  destruct (decide (d ∈ cs)); [by rewrite decide_True by set_solver|].
  destruct (decide (d = c)) as [->|]; [rewrite decide_True by set_solver; by eapply assign_value|].
  rewrite decide_False by set_solver. by eapply assign_frame.
Qed.

(** Values of the kinds an object has can be scanned. *)
Lemma assign_all_back g o' cs o :
  cs ⊆ tags S → (∀ c, c ∈ cs → same_kind (g c) (value_of S o' c) = true) → is_Some (assign_all S o cs (map g cs)).
Proof using HS.
  revert o. induction cs as [|c cs IH]; intros o Hcs Hg; cbn [assign_all map]; [done|].
  destruct (field_of_tag c) as [f Hf]; [set_solver|].
  assert (value_of S o' c = f_get f o') as Hv by (unfold value_of; by rewrite Hf).
  destruct (so_back _ HS f o o' (g c)) as [o1 H1]; [by apply field_of_Some in Hf as [? _]|rewrite <-Hv; apply Hg; by left|].
  assert (assign S o c (g c) = Some o1) as -> by (unfold assign; by rewrite Hf).
  apply IH; [set_solver|]. intros d Hd. apply Hg. by right.
Qed.
End struct.

(** ** Tables *)

(** A default the database fills in: a constant, the sequence or the clock. *)
Definition plain_default (now : Z) (v : SVal) : Prop :=
  match v with STime t => t = now | SJSON _ => False | _ => True end.

Record table_ok {O} (T : Table O) (sc : Schema) : Prop := {
  to_struct : struct_ok (struct_of T);
  to_tags : tags (struct_of T) = AllColumns T;
  to_all c : c ∈ AllColumns T ↔ c ∈ ColumnsWithDefault T ∨ c ∈ ColumnsWithoutDefault T;
  to_pk : PrimaryKeyColumns T ⊆ AllColumns T;
  to_names : names_ok (AllColumns T) = true;
  to_schema : schemas !! tableName T = Some sc;
  to_cols : sc_cols sc = AllColumns T;
  to_key : PrimaryKeyColumns T ∈ sc_unique sc;
  to_keynull : PrimaryKeyColumns T ⊆ sc_notnull sc;
  to_default c seq now : plain_default now (sc_default sc c seq now) }.

(** Every cached statement is the one its columns call for. *)
Record caches_ok {O} {BC : BoilColumns} {Q : Queries} (T : Table O) (m : Mem O) : Prop := {
  co_insert k c : insertCaches m !! k = Some c →
    ∃ cols nz, legal (AllColumns T) cols nz ∧ k = makeCacheKey cols nz ∧ build_insert T cols nz = inr c;
  co_update k c : updateCaches m !! k = Some c →
    ∃ cols, legal (AllColumns T) cols [] ∧ k = makeCacheKey cols [] ∧ build_update T cols = inr c }.

(** ** Rows *)

Lemma list_find_zip_map (g : string → SVal) (cs : list string) c :
  c ∈ cs → ∃ i, list_find (λ p, p.1 = c) (zip cs (map g cs)) = Some (i, (c, g c)).
Proof.
  induction cs as [|d cs IH]; [by intros ?%not_elem_of_nil|]. intros Hc. simpl.
  destruct (decide (d = c)) as [->|Hd]; [by exists 0%nat|].
  apply elem_of_cons in Hc as [->|Hc]; [done|]. destruct (IH Hc) as [i ->]. by eexists.
Qed.

Lemma list_find_zip_None (vs : list SVal) (cs : list string) (c : string) : c ∉ cs → list_find (λ p, p.1 = c) (zip cs vs) = None.
Proof.
  intros Hc. apply list_find_None, Forall_forall. intros [d v] Hd%elem_of_zip_l. simpl. set_solver.
Qed.

Lemma list_to_map_graph (l : list string) (h : string → SVal) c :
  c ∈ l → (list_to_map (map (λ c, (c, h c)) l) : gmap string SVal) !! c = Some (h c).
Proof.
  induction l as [|d l IH]; [by intros ?%not_elem_of_nil|]. intros H. cbn [map]. rewrite list_to_map_cons.
  destruct (decide (d = c)) as [->|]; [by rewrite lookup_insert_eq|]. rewrite lookup_insert_ne by done.
  apply elem_of_cons in H as [->|H]; [done|auto].
Qed.

Lemma fill_get sc g cs seq now c :
  c ∈ sc_cols sc → row_get (fill sc (zip cs (map g cs)) seq now) c = if decide (c ∈ cs) then g c else sc_default sc c seq now.
Proof.
  intros Hc. unfold row_get, fill.
  rewrite (list_to_map_graph _ (λ c, match list_find (λ p, p.1 = c) (zip cs (map g cs)) with Some (_, p) => p.2 | None => sc_default sc c seq now end) _ Hc). simpl.
  destruct (decide (c ∈ cs)) as [H|H]; [by destruct (list_find_zip_map g _ _ H) as [i ->]|by rewrite list_find_zip_None].
Qed.

Lemma set_cols_get g (wl : list string) r c :
  row_get (set_cols (zip wl (map g wl)) r) c = if decide (c ∈ wl) then g c else row_get r c.
Proof.
  unfold set_cols. revert r. induction wl as [|d wl IH]; intros r; [by rewrite decide_False by set_solver|].
  cbn. rewrite IH. destruct (decide (c ∈ wl)); [by rewrite decide_True by set_solver|]. unfold row_get.
  destruct (decide (c = d)) as [->|]; [by rewrite lookup_insert_eq, decide_True by set_solver|].
  rewrite lookup_insert_ne by done. by rewrite decide_False by set_solver.
Qed.

(** An insert that succeeded. *)
Lemma pg_insert_inv sc tbl cols vals ret_ now d n rows d' :
  pg_insert sc tbl cols vals ret_ now d = (inr (n, rows), d') →
  let r := fill sc (zip cols vals) (db_seq d) now in
  notnull_ok sc r = true ∧ existsb (clashes (sc_unique sc) r) (rows_of d tbl) = false ∧ n = 1 ∧
  rows = (if decide (ret_ = []) then [] else [project ret_ r]) ∧ d' = set_rows tbl (rows_of d tbl ++ [r]) (bump d).
Proof.
  unfold pg_insert. split_match; [done|]. split_match; [done|]. split_match; [done|].
  intros [= <- <- <-]. simpl in *. apply negb_false_iff in E0. done.
Qed.

Section crud.
Context {PT : PgTypes} {PS : PgTypesSpec}.
Context {BC : BoilColumns} {BS : BoilColumnsSpec} {Q : Queries} {QS : QueriesSpec}.
Context {O : Type} {M : Model World O} {MS : ModelSpec O} (T : Table O) (sc : Schema) (HT : table_ok T sc).
Context (hooks : Hooks World unit).

Abbreviation S := (struct_of T).

(** *** The caches are transparent *)

Lemma insert_cached m cols nz c :
  caches_ok T m → legal (AllColumns T) cols nz → insertCaches m !! makeCacheKey cols nz = Some c →
  build_insert T cols nz = inr c.
Proof using HT.
  intros Hm Hl Hc. destruct (co_insert _ _ Hm _ _ Hc) as (cols' & nz' & Hl' & Hk & Hb).
  destruct (makeCacheKey_inj _ (to_names _ _ HT) _ _ _ _ Hl Hl' Hk) as [-> ->]. done.
Qed.

Lemma update_cached m cols c :
  caches_ok T m → legal (AllColumns T) cols [] → updateCaches m !! makeCacheKey cols [] = Some c →
  build_update T cols = inr c.
Proof using HT.
  intros Hm Hl Hc. destruct (co_update _ _ Hm _ _ Hc) as (cols' & Hl' & Hk & Hb).
  destruct (makeCacheKey_inj _ (to_names _ _ HT) _ _ _ _ Hl Hl' Hk) as [-> _]. done.
Qed.

Lemma nz_legal defs o : defs ⊆ AllColumns T → NonZeroDefaultSet S defs o ⊆ AllColumns T.
Proof using QS. intros Hd c [Hc _]%NonZeroDefaultSet_spec. auto. Qed.

Lemma defaults_legal : ColumnsWithDefault T ⊆ AllColumns T.
Proof using HT. intros c Hc. apply (to_all _ _ HT). auto. Qed.

(** What [build_insert] gives, in terms of the column sets. *)
Lemma build_insert_inv cols nz c :
  build_insert T cols nz = inr c →
  ∃ ins ret_, InsertColumnSet cols (AllColumns T) (ColumnsWithDefault T) (ColumnsWithoutDefault T) nz = (ins, ret_) ∧
    ins ⊆ AllColumns T ∧ ret_ ⊆ AllColumns T ∧ ic_query c = SInsert (tableName T) ins ret_ ∧ (ic_retMapping c = [] ↔ ret_ = []) ∧
    (∀ o, ValuesFromMapping S o (ic_valueMapping c) = map (value_of S o) ins) ∧
    (∀ o vs o', ScanMapping S o (ic_retMapping c) vs = inr o' ↔ assign_all S o ret_ vs = Some o').
Proof using HT QS.
  unfold build_insert. destruct (InsertColumnSet _ _ _ _ _) as [ins ret_]. intros H. exists ins, ret_. split; [done|].
  rewrite <-(to_tags _ _ HT).
  destruct (BindMapping S ins) as [e|vm] eqn:E1; [done|]. destruct (BindMapping S ret_) as [e|rm] eqn:E2; [done|].
  injection H as <-. simpl.
  pose proof (BindMapping_unknown _ _ _ E1) as H1. pose proof (BindMapping_unknown _ _ _ E2) as H2.
  destruct (BindMapping_spec _ _ H1) as (m1 & B1 & _ & V1 & _). destruct (BindMapping_spec _ _ H2) as (m2 & B2 & N2 & _ & A2).
  rewrite E1 in B1. rewrite E2 in B2. injection B1 as <-. injection B2 as <-.
  repeat split; try done; try (by apply N2); try (by apply A2). f_equal. case_decide as D; [|done]. by symmetry; apply N2.
Qed.

(** *** Memory *)

Definition put (l : loc) (o : O) (w : World) : World := set_mem (with_objs <[l := o]> (mem w)) w.

Lemma put_mem l o w : mem (put l o w) = with_objs <[l := o]> (mem w).
Proof using MS. apply mem_set_mem. Qed.
Lemma put_db l o w : w_db (put l o w) = w_db w.
Proof using MS. apply db_set_mem. Qed.
Lemma put_now l o w : w_now (put l o w) = w_now w.
Proof using MS. apply now_set_mem. Qed.
Lemma put_objs l o w : objs (mem (put l o w)) = <[l := o]> (objs (mem w)).
Proof using MS. by rewrite put_mem. Qed.
Lemma put_insertCaches l o w : insertCaches (mem (put l o w)) = insertCaches (mem w).
Proof using MS. by rewrite put_mem. Qed.
Lemma put_updateCaches l o w : updateCaches (mem (put l o w)) = updateCaches (mem w).
Proof using MS. by rewrite put_mem. Qed.
Lemma set_db_now d w : w_now (set_db d w) = w_now w.
Proof. done. Qed.
Lemma set_db_db d w : w_db (set_db d w) = d.
Proof. done. Qed.

Lemma load_inv l w o w' : load (O := O) l w = (ROk o, w') → objs (mem w) !! l = Some o ∧ w' = w.
Proof. unfold load. destruct (objs (mem w) !! l); [|done]. by intros [= -> ->]. Qed.

Lemma update_obj_inv l f w w' :
  update_obj (O := O) l f w = (ROk tt, w') → ∃ o, objs (mem w) !! l = Some o ∧ w' = put l (f o) w.
Proof. unfold update_obj. intros (o & w1 & [Ho ->]%load_inv & [= <-])%bind_ok_inv. by exists o. Qed.

Lemma wrapping_inv {A} msg (c : Go World A) w a w' : wrapping msg c w = (ROk a, w') → c w = (ROk a, w').
Proof. unfold wrapping. by destruct (c w) as [[]]. Qed.

Lemma of_sum_inv {A} (r : error + A) (w : World) a w' : of_sum r w = (ROk a, w') → r = inr a ∧ w' = w.
Proof. destruct r; [done|]. by intros [= -> ->]. Qed.

Lemma run_stmt_inv s args w r w' :
  run_stmt s args w = (ROk r, w') → ∃ d, pg_run s args (w_now w) (w_db w) = (inr r, d) ∧ w' = set_db d w.
Proof. unfold run_stmt. destruct (pg_run _ _ _ _) as [[e|r'] d]; [done|]. intros [= -> <-]. by exists d. Qed.

(** The caches after an entry was added. *)
Lemma caches_ok_insert m cols nz c :
  caches_ok T m → legal (AllColumns T) cols nz → build_insert T cols nz = inr c →
  caches_ok T (mkMem (objs m) (<[makeCacheKey cols nz := c]> (insertCaches m)) (updateCaches m) (upsertCaches m)).
Proof.
  intros [H1 H2] Hl Hb. split; simpl; [|done]. intros k c' [[<- <-]|[_ H]]%lookup_insert_Some; eauto.
Qed.
Lemma caches_ok_update m cols c :
  caches_ok T m → legal (AllColumns T) cols [] → build_update T cols = inr c →
  caches_ok T (mkMem (objs m) (insertCaches m) (<[makeCacheKey cols [] := c]> (updateCaches m)) (upsertCaches m)).
Proof.
  intros [H1 H2] Hl Hb. split; simpl; [done|]. intros k c' [[<- <-]|[_ H]]%lookup_insert_Some; eauto.
Qed.
Lemma caches_ok_objs m f : caches_ok T m → caches_ok T (with_objs f m).
Proof. intros [H1 H2]. by split. Qed.

(** The arguments of a statement that succeeded. *)
Lemma pg_run_args s args now d r d' : pg_run s args now d = (inr r, d') → forallb storable args = true.
Proof. unfold pg_run. by destruct (forallb storable args). Qed.
Lemma storable_values o cs : forallb storable (map (value_of S o) cs) = true ↔ ∀ c, c ∈ cs → storable (value_of S o c) = true.
Proof.
  rewrite forallb_forall. split.
  - intros H c Hc. apply H, in_map. by apply list_elem_of_In.
  - intros H v (c & <- & Hc%list_elem_of_In)%in_map_iff. by apply H.
Qed.

Lemma pg_insert_run ins v ret_ now d r d' :
  pg_run (SInsert (tableName T) ins ret_) (map (value_of S v) ins) now d = (inr r, d') →
  (∀ c, c ∈ ins → storable (value_of S v c) = true) ∧
  pg_insert sc (tableName T) ins (map (λ c, stored (value_of S v c)) ins) ret_ (time_in now) d = (inr r, d').
Proof using HT.
  intros H. split; [by eapply storable_values, pg_run_args|]. unfold pg_run in H. split_match_in H; [done|].
  cbn [stmt_table] in H. by rewrite (to_schema _ _ HT), map_map in H.
Qed.

(** A successful [Insert], without hooks. *)
Lemma Insert_inv cols l w w' :
  hooks BeforeInsertHook = [] → hooks AfterInsertHook = [] → caches_ok T (mem w) → Cols cols ⊆ AllColumns T →
  Insert T hooks tt (Some l) cols w = (ROk tt, w') →
  ∃ o o' ins ret_ d n rows,
    let v := touchInsert T (w_now w) o in
    objs (mem w) !! l = Some o ∧
    InsertColumnSet cols (AllColumns T) (ColumnsWithDefault T) (ColumnsWithoutDefault T) (NonZeroDefaultSet S (ColumnsWithDefault T) v) = (ins, ret_) ∧
    ins ⊆ AllColumns T ∧ ret_ ⊆ AllColumns T ∧
    (∀ c, c ∈ ins → storable (value_of S v c) = true) ∧
    pg_insert sc (tableName T) ins (map (λ c, stored (value_of S v c)) ins) ret_ (time_in (w_now w)) (w_db w) = (inr (n, rows), d) ∧
    (if decide (ret_ = []) then o' = v else ∃ row, head rows = Some row ∧ assign_all S v ret_ row.*2 = Some o') ∧
    w_db w' = d ∧ objs (mem w') = <[l := o']> (objs (mem w)) ∧ caches_ok T (mem w').
Proof using HT QS MS.
  intros Hb Ha Hm Hc H. unfold Insert in H. rewrite Hb, Ha in H. simpl in H.
  apply bind_ok_inv in H as (now & w1 & [= <- <-] & H).
  apply bind_ok_inv in H as ([] & w2 & (o & Ho & ->)%update_obj_inv & H).
  apply bind_ok_inv in H as ([] & w3 & [= <-] & H).
  apply bind_ok_inv in H as (v & w4 & [Hv ->]%load_inv & H).
  rewrite put_objs, lookup_insert_eq in Hv. injection Hv as <-. set (v := touchInsert T (w_now w) o) in *.
  set (nz := NonZeroDefaultSet S (ColumnsWithDefault T) v) in *.
  assert (legal (AllColumns T) cols nz) as Hl by (split; [done|apply nz_legal, defaults_legal]).
  apply bind_ok_inv in H as (cached & w5 & [= <- <-] & H).
  apply bind_ok_inv in H as (c & w6 & Hcache & H).
  assert (build_insert T cols nz = inr c ∧ w6 = put l v w) as [Hbuild ->].
  { rewrite put_insertCaches in Hcache. destruct (insertCaches (mem w) !! _) as [c'|] eqn:E; [|by apply of_sum_inv].
    injection Hcache as <- <-. split; [by eapply insert_cached|done]. }
  destruct (build_insert_inv _ _ _ Hbuild) as (ins & ret_ & Hset & Hi & Hr & Hq & Hrm & Hvals & Hscan).
  apply bind_ok_inv in H as ([] & w7 & Hrun%wrapping_inv & H).
  apply bind_ok_inv in H as ([] & w8 & Hw8 & [= <-]).
  rewrite Hq, Hvals in Hrun.
  assert (∃ o' d n rows, ((∀ c, c ∈ ins → storable (value_of S v c) = true) ∧
    pg_insert sc (tableName T) ins (map (λ c, stored (value_of S v c)) ins) ret_ (time_in (w_now w)) (w_db w) = (inr (n, rows), d)) ∧
    (if decide (ret_ = []) then o' = v else ∃ row, head rows = Some row ∧ assign_all S v ret_ row.*2 = Some o') ∧
    w_db w7 = d ∧ objs (mem w7) = <[l := o']> (objs (mem w)) ∧ insertCaches (mem w7) = insertCaches (mem w) ∧
    updateCaches (mem w7) = updateCaches (mem w)) as (o' & d & n & rows & [Hst Hpg] & Ho' & Hd & Hobjs & Hic & Huc).
  { rewrite (decide_ext _ _ _ _ Hrm) in Hrun. destruct (decide (ret_ = [])) as [Hr0|Hr0].
    - apply bind_ok_inv in Hrun as (z & w9 & Hex & [= <-]). apply bind_ok_inv in Hex as ([n rows] & w10 & Hst & [= _ <-]).
      apply run_stmt_inv in Hst as (d & Hpg & ->). rewrite put_now, put_db in Hpg. apply pg_insert_run in Hpg.
      exists v, d, n, rows. split; [done|]. split; [done|]. split; [done|].
      by rewrite !mem_set_db, put_objs, put_insertCaches, put_updateCaches.
    - apply bind_ok_inv in Hrun as (row & w9 & Hex & Hst'). apply bind_ok_inv in Hst' as (o' & w11 & [Hsc ->]%of_sum_inv & [= <-]).
      apply bind_ok_inv in Hex as ([n rows] & w10 & Hst & Hrow). simpl in Hrow.
      destruct rows as [|row0 rows]; [done|]. injection Hrow as <- <-.
      apply run_stmt_inv in Hst as (d & Hpg & ->). rewrite put_now, put_db in Hpg. apply pg_insert_run in Hpg.
      exists o', d, n, (row0 :: rows). split; [done|].
      split; [exists row0; split; [done|by apply Hscan]|].
      change (set_mem (with_objs <[l:=o']> (mem (set_db d (put l v w)))) (set_db d (put l v w))) with (put l o' (set_db d (put l v w))).
      rewrite put_db, put_objs, put_insertCaches, put_updateCaches, !mem_set_db, put_objs, put_insertCaches, put_updateCaches.
      by rewrite insert_insert_eq. }
  exists o, o', ins, ret_, d, n, rows. split; [done|]. split; [done|]. split; [done|]. split; [done|]. split; [done|]. split; [done|]. split; [done|].
  assert (caches_ok T (mem w7)) as Hm7.
  { destruct Hm as [C1 C2]. split; [by rewrite Hic|by rewrite Huc]. }
  destruct (insertCaches (mem (put l v w)) !! _).
  - injection Hw8 as <-. done.
  - injection Hw8 as <-. rewrite db_set_mem, mem_set_mem. split; [done|]. split; [done|]. by apply caches_ok_insert.
Qed.

(** The row of the table is the object. *)
Definition mirrors (r : Row) (o : O) : Prop := ∀ c, c ∈ AllColumns T → row_get r c = value_of S o c.

(** The row holds the object, each value in the form of its column. *)
Definition kept (r : Row) (o : O) : Prop :=
  ∀ c, c ∈ AllColumns T → storable (value_of S o c) = true ∧ row_get r c = stored (value_of S o c).

(** Column sets that return every default the database fills in. *)
Definition inferring (cols : Columns) : Prop := cols = Infer ∨ ∃ cs, cols = Greylist cs.

Lemma inferring_covers cols nz ins ret_ :
  inferring cols →
  InsertColumnSet cols (AllColumns T) (ColumnsWithDefault T) (ColumnsWithoutDefault T) nz = (ins, ret_) →
  ∀ c, c ∈ AllColumns T → c ∈ ins ∨ c ∈ ret_.
Proof using BS HT.
  intros [->|[cs ->]] E c Hc%(to_all _ _ HT).
  - destruct (insert_Infer _ _ _ _ _ _ E) as [Hi Hr]. rewrite Hi, Hr. destruct (decide (c ∈ nz)); naive_solver.
  - destruct (insert_Greylist _ _ _ _ _ _ _ E) as [Hi Hr]. rewrite Hr. destruct (decide (c ∈ ins)); [by left|].
    right. split; [|done]. destruct Hc as [Hc|Hc]; [done|]. exfalso. naive_solver.
Qed.

Lemma project_values cs r : (project cs r).*1 = cs ∧ (project cs r).*2 = map (row_get r) cs.
Proof. unfold project. induction cs as [|c cs [IH1 IH2]]; [done|]. split; cbn; by f_equal. Qed.

(** A default is in its column's form. *)
Lemma default_stored c seq now : let v := sc_default sc c seq (time_in now) in storable v = true ∧ v = stored v.
Proof using HT PS.
  intros v. pose proof (to_default _ _ HT c seq (time_in now)) as H. fold v in H.
  destruct v; cbn in H; try done. subst. cbn. by rewrite time_in_idem.
Qed.

(** A successful insert that infers its columns appends one row that holds the
    object: the defaults of the database are read back. *)
Lemma Insert_sync cols l w w' :
  hooks BeforeInsertHook = [] → hooks AfterInsertHook = [] → caches_ok T (mem w) → Cols cols ⊆ AllColumns T → inferring cols →
  Insert T hooks tt (Some l) cols w = (ROk tt, w') →
  ∃ o o' r, objs (mem w) !! l = Some o ∧ objs (mem w') = <[l := o']> (objs (mem w)) ∧
    rows_of (w_db w') (tableName T) = rows_of (w_db w) (tableName T) ++ [r] ∧ kept r o' ∧
    notnull_ok sc r = true ∧ existsb (clashes (sc_unique sc) r) (rows_of (w_db w) (tableName T)) = false ∧
    caches_ok T (mem w').
Proof using HT QS MS BS PS.
  intros Hb Ha Hm Hc Hinf H. destruct (Insert_inv _ _ _ _ Hb Ha Hm Hc H) as (o & o' & ins & ret_ & d & n & rows & Ho & Hset & Hi & Hr & Hst & Hpg & Ho' & Hd & Hobjs & Hm').
  set (v := touchInsert T (w_now w) o) in *.
  apply pg_insert_inv in Hpg as (Hnn & Hcl & -> & -> & ->). set (r := fill _ _ _ _) in *.
  exists o, o', r. split; [done|]. split; [done|]. split; [by rewrite Hd, rows_of_set, decide_True|].
  split; [|split; [done|split; [done|done]]]. intros c Hca.
  assert (row_get r c = if decide (c ∈ ins) then stored (value_of S v c) else sc_default sc c (db_seq (w_db w)) (time_in (w_now w))) as Hget
    by (unfold r; by rewrite fill_get by (by rewrite (to_cols _ _ HT))).
  assert (storable (row_get r c) = true ∧ row_get r c = stored (row_get r c)) as Hrow.
  { rewrite Hget. case_decide; [|apply default_stored]. rewrite stored_idem. split; [by apply storable_stored, Hst|done]. }
  pose proof (inferring_covers _ _ _ _ Hinf Hset c Hca) as Hcov. destruct (decide (ret_ = [])) as [D|D].
  - subst ret_ o'. destruct Hcov as [Hin|?%not_elem_of_nil]; [|done]. rewrite Hget, decide_True by done. split; [by apply Hst|done].
  - destruct Ho' as (row & [= <-] & Has). rewrite (proj2 (project_values _ _)) in Has.
    rewrite (assign_all_value S (to_struct _ _ HT) _ _ _ _ Has). destruct (decide (c ∈ ret_)); [done|].
    destruct Hcov as [Hin|?]; [|done]. rewrite Hget, decide_True by done. split; [by apply Hst|done].
Qed.

(** *** Reading a row back *)

Lemma eq_group_mirror r r' : eq_group (PrimaryKeyColumns T) (map (row_get r) (PrimaryKeyColumns T)) r' = key_clash (PrimaryKeyColumns T) r' r.
Proof.
  unfold eq_group, key_clash. induction (PrimaryKeyColumns T) as [|c cs IH]; [done|]. cbn. rewrite IH. f_equal.
  apply bool_decide_ext. split; intros [E N]; split; congruence.
Qed.

Lemma pk_matches g r r' :
  (∀ c, c ∈ PrimaryKeyColumns T → stored (g c) = row_get r c) →
  where_groups (PrimaryKeyColumns T) 1 (map stored (map g (PrimaryKeyColumns T))) r' = key_clash (PrimaryKeyColumns T) r' r.
Proof.
  intros Hg. cbn. rewrite orb_false_r, firstn_all2 by (by rewrite !length_map). rewrite <-eq_group_mirror. f_equal. rewrite map_map.
  apply map_ext_in. intros c Hc%list_elem_of_In. by apply Hg.
Qed.

Lemma key_clash_self r : notnull_ok sc r = true → key_clash (PrimaryKeyColumns T) r r = true.
Proof using HT.
  unfold notnull_ok, key_clash. rewrite !forallb_forall. intros H c Hc%list_elem_of_In. apply bool_decide_eq_true. split; [done|].
  apply (to_keynull _ _ HT), list_elem_of_In, H, bool_decide_eq_true in Hc. done.
Qed.

Lemma clashes_key r r' : clashes (sc_unique sc) r r' = false → key_clash (PrimaryKeyColumns T) r r' = false.
Proof using HT.
  unfold clashes. intros H. apply not_true_iff_false. intros E. apply not_true_iff_false in H. destruct H.
  apply existsb_exists. exists (PrimaryKeyColumns T). split; [|done]. apply list_elem_of_In, (to_key _ _ HT).
Qed.

(** The object a whole row is bound to mirrors it. *)
Definition bound (r : Row) (o : O) : Prop :=
  assign_all S (newObject T) (AllColumns T) (map (row_get r) (AllColumns T)) = Some o.

Lemma bound_mirrors r o : bound r o → mirrors r o.
Proof using HT. intros Ho c Hc. rewrite (assign_all_value S (to_struct _ _ HT) _ _ _ _ Ho). by rewrite decide_True. Qed.

Lemma bind_row_inv r w l w' :
  bind_row T (project (AllColumns T) r) w = (ROk l, w') →
  ∃ o, bound r o ∧ objs (mem w) !! l = None ∧ w' = put l o w.
Proof using HT QS.
  unfold bind_row. intros (o & w1 & [Ho ->]%of_sum_inv & [= <- <-])%bind_ok_inv. exists o. split; [|split; [|done]].
  - apply BindRow_spec in Ho. by rewrite (proj1 (project_values _ _)), (proj2 (project_values _ _)) in Ho.
  - apply not_elem_of_dom, is_fresh.
Qed.

Lemma bind_row_ok r o w :
  (∀ c, c ∈ AllColumns T → same_kind (row_get r c) (value_of S o c) = true) →
  ∃ l w', bind_row T (project (AllColumns T) r) w = (ROk l, w').
Proof using HT QS.
  intros Hr. destruct (assign_all_back S (to_struct _ _ HT) (row_get r) o (AllColumns T) (newObject T)) as [o1 H1]; [|done|].
  { by rewrite (to_tags _ _ HT). }
  assert (BindRow S (newObject T) (project (AllColumns T) r) = inr o1) as E.
  { apply BindRow_spec. by rewrite (proj1 (project_values _ _)), (proj2 (project_values _ _)). }
  unfold bind_row, of_sum. rewrite E. eexists _, _. reflexivity.
Qed.

(** Binding rows allocates one fresh object for each. *)
Lemma bind_rows_ok rs w :
  (∀ r, r ∈ rs → ∃ o, mirrors r o) →
  ∃ fs w', mapM_go (bind_row T) (map (project (AllColumns T)) rs) w = (ROk fs, w') ∧
    (∃ ss, w' = set_mem (with_objs (λ _, ss) (mem w)) w) ∧
    (∀ f o, objs (mem w) !! f = Some o → objs (mem w') !! f = Some o) ∧ NoDup fs ∧ (∀ f, f ∈ fs → objs (mem w) !! f = None) ∧
    Forall2 (λ f r, ∃ o, objs (mem w') !! f = Some o ∧ bound r o) fs rs.
Proof using HT QS MS.
  revert w. induction rs as [|r rs IH]; intros w Hrs.
  { exists [], w. split; [done|]. split; [exists (objs (mem w)); by rewrite set_mem_same|]. split; [done|]. split; [constructor|].
    split; [by intros ? ?%not_elem_of_nil|constructor]. }
  destruct (Hrs r) as [o0 Ho0]; [by left|].
  destruct (bind_row_ok r o0 w) as (f & w1 & Hb); [intros c Hc; rewrite (Ho0 c Hc); apply same_kind_refl|]. destruct (bind_row_inv _ _ _ _ Hb) as (o & Ho & Hf & ->).
  destruct (IH (put f o w)) as (fs & w' & Hrun & [ss ->] & Hkeep & Hnd & Hfresh & Hall); [intros r' Hr'; apply Hrs; by right|].
  exists (f :: fs), (set_mem (with_objs (λ _, ss) (mem (put f o w))) (put f o w)). rewrite put_objs in *. split.
  { cbn [map mapM_go]. rewrite (bind_ok _ _ _ _ _ Hb). by rewrite (bind_ok _ _ _ _ _ Hrun). }
  split; [exists ss; unfold put; by rewrite set_set_mem, mem_set_mem|]. split; [|split; [|split]].
  - intros k o' Hk. apply Hkeep. rewrite lookup_insert_ne; [done|]. congruence.
  - constructor; [|done]. intros Hin%Hfresh. by rewrite lookup_insert_eq in Hin.
  - intros k [->|Hk]%elem_of_cons; [done|]. apply Hfresh in Hk. by apply lookup_insert_None in Hk as [? _].
  - constructor; [|done]. exists o. split; [|done]. apply Hkeep. by rewrite lookup_insert_eq.
Qed.

Lemma filter_none_clash r rs :
  existsb (clashes (sc_unique sc) r) rs = false → filter (λ r', key_clash (PrimaryKeyColumns T) r' r = true) rs = [].
Proof using HT.
  induction rs as [|r0 rs IH]; [done|]. simpl. rewrite orb_false_iff. intros [H0 H].
  rewrite filter_cons_False, IH; [done..|]. rewrite key_clash_sym. by rewrite (clashes_key _ _ H0).
Qed.

(** The primary key selects one row. *)
Lemma filter_pk r rs :
  unique_rows (sc_unique sc) rs = true → notnull_ok sc r = true → r ∈ rs →
  filter (λ r', key_clash (PrimaryKeyColumns T) r' r = true) rs = [r].
Proof using HT.
  intros Hu Hn. induction rs as [|r0 rs IH]; [by intros ?%not_elem_of_nil|]. simpl in Hu.
  apply andb_true_iff in Hu as [H0%negb_true_iff Hu]. intros [->|Hr]%elem_of_cons.
  - rewrite filter_cons_True by (by apply key_clash_self). f_equal. by apply filter_none_clash.
  - rewrite filter_cons_False; [auto|]. assert (clashes (sc_unique sc) r0 r = false) as Hc%clashes_key.
    { apply not_true_iff_false. intros E. apply not_true_iff_false in H0. destruct H0. apply existsb_exists. exists r.
      split; [by apply list_elem_of_In|done]. }
    by rewrite Hc.
Qed.

(** [Find] by the key of a stored row gives an object that mirrors it. *)
Lemma Find_row r o w :
  unique_rows (sc_unique sc) (rows_of (w_db w) (tableName T)) = true → notnull_ok sc r = true →
  r ∈ rows_of (w_db w) (tableName T) → kept r o →
  ∃ l o1, Find T tt (map (value_of S o) (PrimaryKeyColumns T)) [] w = (ROk l, put l o1 w) ∧ mirrors r o1 ∧ objs (mem w) !! l = None.
Proof using HT QS MS.
  intros Hu Hn Hr Ho. set (args := map (value_of S o) (PrimaryKeyColumns T)).
  assert (forallb storable args = true) as Hst by (apply storable_values; intros c Hc%(to_pk _ _ HT); by apply Ho).
  assert (∀ w0, pg_run (SSelect (tableName T) [] (PrimaryKeyColumns T) 1) args w0 (w_db w)
    = (inr (1, [project (AllColumns T) r]), w_db w)) as Hrun.
  { intros w0. unfold pg_run. rewrite Hst. cbn [negb stmt_table]. rewrite (to_schema _ _ HT). cbn -[where_groups]. unfold pg_select.
    rewrite (list_filter_iff _ (λ r', key_clash (PrimaryKeyColumns T) r' r = true)).
    - rewrite (filter_pk _ _ Hu Hn Hr). by rewrite (to_cols _ _ HT).
    - intros r'. unfold args. rewrite (pk_matches _ r); [done|]. intros c Hc%(to_pk _ _ HT). symmetry. by apply Ho. }
  assert (run_rows (W := World) tt (SSelect (tableName T) [] (PrimaryKeyColumns T) 1) args w
    = (ROk [project (AllColumns T) r], w)) as Hrows.
  { unfold run_rows, bind. cbn -[pg_run]. unfold run_stmt, bind. rewrite Hrun. cbn. by destruct w. }
  destruct (bind_row_ok r o w) as (l & w' & Hb); [intros c Hc; rewrite (proj2 (Ho c Hc)); apply stored_kind|].
  destruct (bind_row_inv _ _ _ _ Hb) as (o1 & Hm%bound_mirrors & Hl & ->).
  exists l, o1. split; [|done]. unfold Find, no_rows_or, bind_one. rewrite (bind_ok _ _ _ _ _ Hrows). by rewrite Hb.
Qed.

(** Insert, then find: the object found has the columns of the one inserted, each
    value in its column's form. *)
Lemma Insert_Find cols l w w' :
  hooks BeforeInsertHook = [] → hooks AfterInsertHook = [] → caches_ok T (mem w) → Cols cols ⊆ AllColumns T → inferring cols →
  unique_db (w_db w) →
  Insert T hooks tt (Some l) cols w = (ROk tt, w') →
  ∃ o' l1 o1, objs (mem w') !! l = Some o' ∧
    Find T tt (map (value_of S o') (PrimaryKeyColumns T)) [] w' = (ROk l1, put l1 o1 w') ∧
    ∀ c, c ∈ AllColumns T → value_of S o1 c = stored (value_of S o' c).
Proof using HT QS MS BS PS.
  intros Hb Ha Hm Hc Hi Hu H.
  destruct (Insert_sync _ _ _ _ Hb Ha Hm Hc Hi H) as (o & o' & r & _ & Hobjs & Hrows & Hkept & Hnn & Hcl & _).
  pose proof (Hu _ _ (to_schema _ _ HT)) as Hu0.
  destruct (Find_row r o' w') as (l1 & o1 & Hf & Hm1 & _); [|done| |done|].
  { rewrite Hrows. by apply unique_rows_snoc. }
  { rewrite Hrows. set_solver. }
  exists o', l1, o1. split; [by rewrite Hobjs, lookup_insert_eq|]. split; [exact Hf|].
  intros c Hc'. by rewrite <-(proj2 (Hkept _ Hc')), <-(Hm1 _ Hc').
Qed.

(** *** Updating *)

Lemma build_update_inv cols c :
  build_update T cols = inr c →
  ∃ wl, wl ≠ [] ∧ wl ⊆ AllColumns T ∧ uc_query c = SUpdate (tableName T) wl (PrimaryKeyColumns T) 1 ∧
    wl = (let wl := UpdateColumnSet cols (AllColumns T) (PrimaryKeyColumns T) in
          if IsWhitelist cols then wl else SetComplement wl ["created_at"]) ∧
    ∀ o, ValuesFromMapping S o (uc_valueMapping c) = map (value_of S o) wl ++ map (value_of S o) (PrimaryKeyColumns T).
Proof using HT QS.
  unfold build_update. set (wl := if IsWhitelist cols then _ else _). intros H. case_decide as D; [done|].
  destruct (BindMapping S (wl ++ PrimaryKeyColumns T)) as [e|vm] eqn:E; [done|]. injection H as <-. exists wl.
  pose proof (BindMapping_unknown _ _ _ E) as Hs. destruct (BindMapping_spec _ _ Hs) as (m & B & _ & V & _).
  rewrite E in B. injection B as <-. rewrite (to_tags _ _ HT) in Hs. simpl.
  repeat split; [done|intros x Hx; apply Hs, elem_of_app; by left|]. intros o. by rewrite V, map_app.
Qed.

Definition written (wl : list string) (o : O) : Row → Row := set_cols (zip wl (map (λ c, stored (value_of S o c)) wl)).
Definition same_key (o : O) (r : Row) : bool := eq_group (PrimaryKeyColumns T) (map (λ c, stored (value_of S o c)) (PrimaryKeyColumns T)) r.

Lemma pg_update wl o now d n rows d' :
  pg_run (SUpdate (tableName T) wl (PrimaryKeyColumns T) 1) (map (value_of S o) wl ++ map (value_of S o) (PrimaryKeyColumns T)) now d
    = (inr (n, rows), d') →
  n = Z.of_nat (length (filter (λ r, same_key o r = true) (rows_of d (tableName T)))) ∧
  d' = set_rows (tableName T) (map (λ r, if same_key o r then written wl o r else r) (rows_of d (tableName T))) d.
Proof using HT.
  unfold pg_run. split_match; [done|]. cbn [stmt_table]. rewrite (to_schema _ _ HT), map_app, !map_map. split_match; [done|]. unfold pg_rewrite.
  assert (∀ r, where_groups (PrimaryKeyColumns T) 1 (drop (length wl) (map (λ c, stored (value_of S o c)) wl ++ map (λ c, stored (value_of S o c)) (PrimaryKeyColumns T))) r
    = same_key o r) as Hw.
  { intros r. cbn. rewrite drop_app_length' by (by rewrite length_map).
    rewrite orb_false_r, firstn_all2 by (by rewrite length_map). done. }
  rewrite take_app_length' by (by rewrite length_map).
  split_match; [done|]. split_match; [done|]. intros [= <- _ <-]. split.
  - rewrite (list_filter_iff _ (λ r, same_key o r = true)); [done|]. intros r. rewrite <-Hw. done.
  - f_equal. apply map_ext. intros r. rewrite <-(Hw r). done.
Qed.

(** A successful [Update], without hooks: one statement over the rows with the
    object's key. *)
Lemma Update_inv cols l w n w' :
  hooks BeforeUpdateHook = [] → hooks AfterUpdateHook = [] → caches_ok T (mem w) → Cols cols ⊆ AllColumns T →
  Update T hooks tt l cols w = (ROk n, w') →
  ∃ o wl, let v := touchUpdate T (w_now w) o in
    objs (mem w) !! l = Some o ∧
    wl = (let wl := UpdateColumnSet cols (AllColumns T) (PrimaryKeyColumns T) in
          if IsWhitelist cols then wl else SetComplement wl ["created_at"]) ∧
    n = Z.of_nat (length (filter (λ r, same_key v r = true) (rows_of (w_db w) (tableName T)))) ∧
    w_db w' = set_rows (tableName T) (map (λ r, if same_key v r then written wl v r else r) (rows_of (w_db w) (tableName T))) (w_db w) ∧
    objs (mem w') = <[l := v]> (objs (mem w)) ∧ caches_ok T (mem w').
Proof using HT QS MS.
  intros Hb Ha Hm Hc H. unfold Update in H. rewrite Hb, Ha in H. simpl in H.
  apply bind_ok_inv in H as (now & w1 & [= <- <-] & H).
  apply bind_ok_inv in H as ([] & w2 & (o & Ho & ->)%update_obj_inv & H).
  apply bind_ok_inv in H as ([] & w3 & [= <-] & H).
  set (v := touchUpdate T (w_now w) o) in *.
  assert (legal (AllColumns T) cols []) as Hl by (split; [done|by intros ? ?%not_elem_of_nil]).
  apply bind_ok_inv in H as (cached & w5 & [= <- <-] & H).
  apply bind_ok_inv in H as (c & w6 & Hcache & H).
  assert (build_update T cols = inr c ∧ w6 = put l v w) as [Hbuild ->].
  { rewrite put_updateCaches in Hcache. destruct (updateCaches (mem w) !! _) as [c'|] eqn:E; [|by apply of_sum_inv].
    injection Hcache as <- <-. split; [by eapply update_cached|done]. }
  destruct (build_update_inv _ _ Hbuild) as (wl & Hne & Hwl & Hq & Hdef & Hvals).
  apply bind_ok_inv in H as (v' & w7 & [Hv ->]%load_inv & H).
  rewrite put_objs, lookup_insert_eq in Hv. injection Hv as <-. rewrite Hq, Hvals in H.
  apply bind_ok_inv in H as (res & w8 & Hex%wrapping_inv & H).
  apply bind_ok_inv in Hex as ([n' rows] & w9 & (d & Hpg & ->)%run_stmt_inv & [= <- <-]).
  rewrite put_now, put_db in Hpg. apply pg_update in Hpg as [-> ->].
  apply bind_ok_inv in H as (n0 & w10 & [[= <-] ->]%wrapping_inv%of_sum_inv & H).
  apply bind_ok_inv in H as ([] & w11 & Hw11 & H). apply bind_ok_inv in H as ([] & w12 & [= <-] & [= <- <-]).
  exists o, wl. split; [done|]. split; [done|]. split; [done|].
  destruct (updateCaches (mem (put l v w)) !! _); injection Hw11 as <-.
  - rewrite mem_set_db, put_objs, put_mem. split; [done|]. split; [done|]. by apply caches_ok_objs.
  - rewrite db_set_mem, mem_set_mem, mem_set_db, put_mem. split; [done|]. split; [done|].
    by apply (caches_ok_update (with_objs _ (mem w))), Hbuild; [apply caches_ok_objs|].
Qed.

(** *** Deleting *)

Lemma pk_values_eq o : pk_values T o = map (value_of S o) (PrimaryKeyColumns T).
Proof using HT QS.
  unfold pk_values, PrimaryKeyMapping. destruct (BindMapping_spec S (PrimaryKeyColumns T)) as (m & -> & _ & V & _); [|done].
  rewrite (to_tags _ _ HT). apply (to_pk _ _ HT).
Qed.

Lemma where_same_key o r :
  where_groups (PrimaryKeyColumns T) 1 (map stored (map (value_of S o) (PrimaryKeyColumns T))) r = same_key o r.
Proof. cbn. rewrite orb_false_r, map_map, firstn_all2 by (by rewrite length_map). done. Qed.

(** A successful [Delete] removes the rows with the object's key and nothing else. *)
Lemma Delete_inv l w n w' :
  hooks BeforeDeleteHook = [] → hooks AfterDeleteHook = [] →
  Delete T hooks tt (Some l) w = (ROk n, w') →
  ∃ o, objs (mem w) !! l = Some o ∧ mem w' = mem w ∧ forallb storable (map (value_of S o) (PrimaryKeyColumns T)) = true ∧
    w_db w' = set_rows (tableName T) (filter (λ r, same_key o r = false) (rows_of (w_db w) (tableName T))) (w_db w).
Proof using HT QS MS.
  intros Hb Ha H. unfold Delete in H. rewrite Hb, Ha in H. simpl in H.
  apply bind_ok_inv in H as ([] & w1 & [= <-] & H). apply bind_ok_inv in H as (o & w2 & [Ho ->]%load_inv & H).
  rewrite pk_values_eq in H. apply bind_ok_inv in H as (res & w3 & Hex%wrapping_inv & H).
  apply bind_ok_inv in Hex as ([n' rows] & w9 & (d & Hpg & ->)%run_stmt_inv & [= <- <-]).
  apply bind_ok_inv in H as (n0 & w10 & [[= <-] ->]%wrapping_inv%of_sum_inv & H).
  apply bind_ok_inv in H as ([] & w11 & [= <-] & [= <- <-]).
  exists o. split; [done|]. split; [apply mem_set_db|]. split; [by eapply pg_run_args|]. rewrite set_db_db.
  unfold pg_run in Hpg. split_match_in Hpg; [done|]. cbn [stmt_table] in Hpg. rewrite (to_schema _ _ HT) in Hpg. injection Hpg as _ _ <-.
  f_equal. apply list_filter_iff. intros r. by rewrite <-where_same_key.
Qed.

(** [XExists] reports whether a row has the key. *)
Lemma RowExists_spec o w :
  forallb storable (map (value_of S o) (PrimaryKeyColumns T)) = true →
  RowExists T tt (map (value_of S o) (PrimaryKeyColumns T)) w
    = (ROk (existsb (same_key o) (rows_of (w_db w) (tableName T))), w).
Proof using HT.
  intros Hst.
  assert (∀ rs, existsb (where_groups (PrimaryKeyColumns T) 1 (map stored (map (value_of S o) (PrimaryKeyColumns T)))) rs = existsb (same_key o) rs) as He.
  { induction rs as [|r rs IH]; [done|]. cbn -[where_groups]. by rewrite where_same_key, IH. }
  unfold RowExists, wrapping, bind. cbn -[pg_run]. unfold run_stmt, bind. unfold pg_run. rewrite Hst. cbn [negb stmt_table].
  rewrite (to_schema _ _ HT), He. by destruct w.
Qed.

(** *** Hooks *)

(** A hook that fails before a statement stops it: nothing reaches the database. *)
Lemma Insert_hook_stops cols l o e w w1 :
  objs (mem w) !! l = Some o →
  doHooks (hooks BeforeInsertHook) tt l (put l (touchInsert T (w_now w) o) w) = (RErr e, w1) →
  Insert T hooks tt (Some l) cols w = (RErr e, w1).
Proof.
  intros Ho H. unfold Insert. rewrite (bind_ok (gets Now) _ _ (w_now w) w) by done.
  rewrite (bind_ok _ _ _ tt (put l (touchInsert T (w_now w) o) w)); [by apply bind_err|].
  unfold update_obj. rewrite (bind_ok _ _ _ o w); [done|]. unfold load. by rewrite Ho.
Qed.
End crud.
