(* ===== verification/BoilCache.v ===== *)
(** * The statement caches do not change what is done

    [Insert] and [Update] keep the statements they built, by key.  Two states that
    differ in nothing but valid caches of a table lead to the same outcome and again
    to states that differ in nothing but valid caches, on every path. *)

From S2P Require Import Prelude GoLib Errors Boil Models CacheKey Postgres BoilSpec.

Section transparent.
Context {PT : PgTypes}.
Context {BC : BoilColumns} {Q : Queries} {QS : QueriesSpec}.
Context {O : Type} {M : Model World O} {MS : ModelSpec O} (T : Table O) (sc : Schema) (HT : table_ok T sc).

(** The state without the caches of the table. *)
Definition uncached (w : World) : World := set_mem (mkMem (objs (mem w)) ∅ ∅ ∅) w.

(** Equal up to valid caches. *)
Definition alike (w1 w2 : World) : Prop :=
  uncached w1 = uncached w2 ∧ caches_ok T (mem w1) ∧ caches_ok T (mem w2).

(** Alike states give the same outcome, with [P] of a value, and alike states. *)
Definition agree {A} (P : A → Prop) (c1 c2 : Go World A) : Prop :=
  ∀ w1 w2, alike w1 w2 →
    (c1 w1).1 = (c2 w2).1 ∧ alike (c1 w1).2 (c2 w2).2 ∧ (∀ a, (c1 w1).1 = ROk a → P a).

Lemma agree_bind {A B} (P : A → Prop) (P' : B → Prop) c1 c2 k1 k2 :
  agree P c1 c2 → (∀ a, P a → agree P' (k1 a) (k2 a)) → agree P' (bind c1 k1) (bind c2 k2).
Proof.
  intros Hc Hk w1 w2 Hw. destruct (Hc _ _ Hw) as (Hr & Hs & HP). unfold bind.
  destruct (c1 w1) as [r1 s1], (c2 w2) as [r2 s2]. simpl in *. subst r2.
  destruct r1 as [a|e|p]; [by apply Hk, Hs; apply HP|by split_and!..].
Qed.

Lemma agree_ret {A} (P : A → Prop) (a : A) : P a → agree P (ret a) (ret a).
Proof. intros HP w1 w2 Hw. split; [done|]. split; [done|]. by intros ? [= <-]. Qed.

Lemma agree_fail {A} (P : A → Prop) e : agree P (fail e) (fail e).
Proof. by intros w1 w2 Hw. Qed.

Lemma agree_of_sum {A} (r : error + A) : agree (λ a, r = inr a) (of_sum r) (of_sum r).
Proof. destruct r; [apply agree_fail|by apply agree_ret]. Qed.

Lemma agree_wrapping {A} (P : A → Prop) msg (c1 c2 : Go World A) : agree P c1 c2 → agree P (wrapping msg c1) (wrapping msg c2).
Proof.
  intros Hc w1 w2 Hw. destruct (Hc _ _ Hw) as (Hr & Hs & HP). unfold wrapping.
  destruct (c1 w1) as [r1 s1], (c2 w2) as [r2 s2]. simpl in *. subst r2. by destruct r1.
Qed.

Lemma alike_objs w1 w2 : alike w1 w2 → objs (mem w1) = objs (mem w2).
Proof using MS.
  intros [H _]. apply (f_equal (λ w, objs (mem (O := O) w))) in H. unfold uncached in H. by rewrite !mem_set_mem in H.
Qed.
Lemma alike_db w1 w2 : alike w1 w2 → w_db w1 = w_db w2.
Proof using MS. intros [H _]. apply (f_equal w_db) in H. unfold uncached in H. by rewrite !db_set_mem in H. Qed.
Lemma alike_now w1 w2 : alike w1 w2 → w_now w1 = w_now w2.
Proof using MS. intros [H _]. apply (f_equal w_now) in H. unfold uncached in H. by rewrite !now_set_mem in H. Qed.

Lemma uncached_set m w : uncached (set_mem m w) = set_mem (mkMem (objs m) ∅ ∅ ∅) w.
Proof using MS. unfold uncached. by rewrite mem_set_mem, set_set_mem. Qed.

(** Replacing the memory on both sides. *)
Lemma alike_set m1 m2 w1 w2 :
  alike w1 w2 → objs m1 = objs m2 → caches_ok T m1 → caches_ok T m2 → alike (set_mem m1 w1) (set_mem m2 w2).
Proof using MS.
  intros [H _] Ho H1 H2. split; [|by rewrite !mem_set_mem]. rewrite !uncached_set, Ho.
  rewrite <-(set_set_mem _ (mkMem (objs (mem w1)) ∅ ∅ ∅) w1), <-(set_set_mem _ (mkMem (objs (mem w2)) ∅ ∅ ∅) w2).
  unfold uncached in H. by rewrite H.
Qed.

Lemma alike_set_db d w1 w2 : alike w1 w2 → alike (set_db d w1) (set_db d w2).
Proof using MS.
  intros (H & H1 & H2). split; [|by rewrite !mem_set_db]. unfold uncached in *. rewrite !mem_set_db, !set_mem_db. by rewrite H.
Qed.

Lemma agree_gets {A} (f : World → A) (P : A → Prop) :
  (∀ w1 w2, alike w1 w2 → f w1 = f w2) → (∀ w, P (f w)) → agree P (gets f) (gets f).
Proof. intros Hf HP w1 w2 Hw. cbn. split; [by f_equal; apply Hf|]. split; [done|]. by intros a [= <-]. Qed.

Lemma agree_load l : agree (λ _, True) (load (O := O) l) (load l).
Proof using MS.
  intros w1 w2 Hw. unfold load. rewrite (alike_objs _ _ Hw). by destruct (objs (mem w2) !! l).
Qed.

Lemma agree_store l o : agree (λ _, True) (store (O := O) l o) (store l o).
Proof using MS.
  intros w1 w2 Hw. cbn. split; [done|]. split; [|done]. pose proof Hw as (_ & H1 & H2).
  apply alike_set; [done|by unfold with_objs; simpl; rewrite (alike_objs _ _ Hw)|by apply caches_ok_objs..].
Qed.

Lemma agree_update_obj l f : agree (λ _, True) (update_obj (O := O) l f) (update_obj l f).
Proof using MS. eapply agree_bind; [apply agree_load|]. intros o _. apply agree_store. Qed.

Lemma agree_run_stmt s args : agree (λ _, True) (run_stmt s args) (run_stmt s args).
Proof using MS.
  intros w1 w2 Hw. unfold run_stmt. rewrite (alike_db _ _ Hw), (alike_now _ _ Hw).
  destruct (pg_run _ _ _ _) as [[e|r] d]; (split; [done|]; split; [by apply alike_set_db|done]).
Qed.

Lemma agree_Exec s args : agree (λ _, True) (Exec tt s args) (Exec tt s args).
Proof using MS. eapply agree_bind; [apply agree_run_stmt|]. intros r _. by apply agree_ret. Qed.

Lemma agree_QueryRow s args : agree (λ _, True) (QueryRow tt s args) (QueryRow tt s args).
Proof using MS.
  eapply agree_bind; [apply agree_run_stmt|]. intros [n [|row rows]] _; [apply agree_fail|by apply agree_ret].
Qed.

(** Hooks that do not look at the caches. *)
Context (hooks : Hooks World unit) (Hhooks : ∀ p h l, h ∈ hooks p → agree (λ _, True) (h tt l) (h tt l)).

Lemma agree_doHooks p l : agree (λ _, True) (doHooks (hooks p) tt l) (doHooks (hooks p) tt l).
Proof using Hhooks.
  assert (∀ hs, hs ⊆ hooks p → agree (λ _, True) (doHooks hs tt l) (doHooks hs tt l)) as H; [|by apply H].
  induction hs as [|h hs IH]; intros Hs; [by apply agree_ret|].
  eapply agree_bind; [eapply Hhooks, Hs, list_elem_of_here|]. intros [] _. apply IH. intros x Hx. by apply Hs, list_elem_of_further.
Qed.

(** A cache lookup may differ between the two sides; what it can give is [V]. *)
Lemma agree_lookup {A B} (P : A → Prop) (V : option B → Prop) (f : World → option B) (k : option B → Go World A) :
  (∀ w1 w2, alike w1 w2 → V (f w1) ∧ V (f w2)) → (∀ x y, V x → V y → agree P (k x) (k y)) →
  agree P (bind (gets f) k) (bind (gets f) k).
Proof. intros HV Hk w1 w2 Hw. destruct (HV _ _ Hw) as [V1 V2]. by apply (Hk _ _ V1 V2 w1 w2). Qed.

(** A valid entry, or the statement built anew. *)
Definition valid {B} (build : error + B) (x : option B) : Prop := match x with Some c => build = inr c | None => True end.

Lemma agree_build {B} (build : error + B) x y :
  valid build x → valid build y →
  agree (λ c, build = inr c) (match x with Some c => ret c | None => of_sum build end) (match y with Some c => ret c | None => of_sum build end).
Proof.
  intros Hx Hy. destruct x as [c|], y as [c'|]; simpl in *; [..|apply agree_of_sum]; rewrite ?Hx, ?Hy in *.
  - injection Hy as <-. by apply agree_ret.
  - by apply agree_ret.
  - by apply agree_ret.
Qed.

(** Storing a valid entry on one side only. *)
Lemma alike_left m w1 w2 : alike w1 w2 → objs m = objs (mem w1) → caches_ok T m → alike (set_mem m w1) w2.
Proof using MS.
  intros (H & _ & H2) Ho Hm. split; [|by rewrite mem_set_mem]. by rewrite uncached_set, Ho.
Qed.
Lemma alike_sym w1 w2 : alike w1 w2 → alike w2 w1.
Proof. by intros (? & ? & ?). Qed.

Lemma agree_remember {B} (f : B → Mem O → Mem O) (c : B) (x y : option B) :
  (∀ m, objs (f c m) = objs m) → (∀ m, caches_ok T m → caches_ok T (f c m)) →
  agree (λ _, True) (match x with Some _ => ret tt | None => modify (λ w, set_mem (f c (mem w)) w) end)
    (match y with Some _ => ret tt | None => modify (λ w, set_mem (f c (mem w)) w) end).
Proof using MS.
  intros Hf Hc w1 w2 Hw. pose proof Hw as (_ & H1 & H2).
  destruct x, y; cbn; (split; [done|]; split; [|done]); [done|..].
  - apply alike_sym, alike_left; [by apply alike_sym|apply Hf|auto].
  - apply alike_left; [done|apply Hf|auto].
  - apply alike_set; [done|by rewrite !Hf; apply alike_objs|auto..].
Qed.

Lemma agree_Insert o cols :
  Cols cols ⊆ AllColumns T → agree (λ _, True) (Insert T hooks tt o cols) (Insert T hooks tt o cols).
Proof using HT QS MS Hhooks.
  intros Hcols. destruct o as [l|]; [|apply agree_fail]. unfold Insert.
  eapply agree_bind; [apply (agree_gets _ (λ _, True)); [apply alike_now|done]|]. intros now _.
  eapply agree_bind; [apply agree_update_obj|]. intros [] _.
  eapply agree_bind; [apply agree_doHooks|]. intros [] _.
  eapply agree_bind; [apply agree_load|]. intros v _.
  set (nz := NonZeroDefaultSet _ _ v).
  assert (legal (AllColumns T) cols nz) as Hl by (split; [done|by apply nz_legal, (defaults_legal T sc)]).
  apply (agree_lookup _ (valid (build_insert T cols nz))).
  { intros w1 w2 (_ & H1 & H2). split; unfold valid; (destruct (insertCaches _ !! _) eqn:E; [|done]); [apply (insert_cached T sc HT _ _ _ _ H1 Hl E)|apply (insert_cached T sc HT _ _ _ _ H2 Hl E)]. }
  intros x y Hx Hy. eapply agree_bind; [by apply agree_build|]. intros c Hb. cbn beta in Hb.
  eapply agree_bind; [apply agree_wrapping|].
  - case_decide.
    + eapply agree_bind; [apply agree_Exec|]. intros r _. by apply (agree_ret (λ _, True)).
    + eapply agree_bind; [apply agree_QueryRow|]. intros row _. eapply agree_bind; [apply agree_of_sum|]. intros v' _. apply agree_store.
  - intros [] _. eapply agree_bind; [|intros [] _; apply agree_doHooks].
    apply (agree_remember (λ c m, mkMem (objs m) (<[makeCacheKey cols nz := c]> (insertCaches m)) (updateCaches m) (upsertCaches m)));
      [done|]. intros m Hm. by apply caches_ok_insert.
Qed.

Lemma agree_Update l cols :
  Cols cols ⊆ AllColumns T → agree (λ _, True) (Update T hooks tt l cols) (Update T hooks tt l cols).
Proof using HT QS MS Hhooks.
  intros Hcols. unfold Update.
  eapply agree_bind; [apply (agree_gets _ (λ _, True)); [apply alike_now|done]|]. intros now _.
  eapply agree_bind; [apply agree_update_obj|]. intros [] _.
  eapply agree_bind; [apply agree_doHooks|]. intros [] _.
  assert (legal (AllColumns T) cols []) as Hl by (split; [done|by intros ? ?%not_elem_of_nil]).
  apply (agree_lookup _ (valid (build_update T cols))).
  { intros w1 w2 (_ & H1 & H2). split; unfold valid; (destruct (updateCaches _ !! _) eqn:E; [|done]); [apply (update_cached T sc HT _ _ _ H1 Hl E)|apply (update_cached T sc HT _ _ _ H2 Hl E)]. }
  intros x y Hx Hy. eapply agree_bind; [by apply agree_build|]. intros c Hb. cbn beta in Hb.
  eapply agree_bind; [apply agree_load|]. intros v _.
  eapply agree_bind; [apply agree_wrapping, agree_Exec|]. intros r _.
  eapply agree_bind; [apply agree_wrapping, agree_of_sum|]. intros n _.
  eapply agree_bind; [|intros [] _; eapply agree_bind; [apply agree_doHooks|intros [] _; by apply agree_ret]].
  apply (agree_remember (λ c m, mkMem (objs m) (insertCaches m) (<[makeCacheKey cols [] := c]> (updateCaches m)) (upsertCaches m)));
    [done|]. intros m Hm. by apply caches_ok_update.
Qed.
End transparent.
