(* ===== verification/ModelsSpec.v ===== *)
(** * The seven tables meet the conditions, and what follows

    Each struct of [Models.v] has independent tagged fields, its column lists agree
    with its tags and with the schema of the migrations; the library's laws can be
    met ([Reference]).  Then the theorems on the tables themselves. *)

From S2P Require Import Prelude GoLib Errors Boil Models CacheKey Postgres BoilSpec BoilCache Json.

Open Scope Z_scope.

(** ** Well-formed tables *)

Ltac fields H := repeat (apply elem_of_cons in H as [->|H]); try (by apply not_elem_of_nil in H).
Ltac struct_solver :=
  split;
  [ apply (bool_decide_unpack _); vm_compute; exact I
  | intros f v o o' Hf; fields Hf; destruct v; cbn; intros [= <-]; reflexivity
  | intros f g v o o' Hf Hg; fields Hf; fields Hg; cbn; intros Ht; try done; destruct v; cbn; intros [= <-]; reflexivity
  | intros f o o' v Hf; fields Hf; cbn; intros Hk; try (by destruct v; try done; eexists);
    match type of Hk with context [from_option _ _ ?x] => destruct x end; destruct v; try done; by eexists ].

Lemma user_struct_ok : struct_ok userStruct.
Proof. struct_solver. Qed.
Lemma lbrynetServer_struct_ok : struct_ok lbrynetServerStruct.
Proof. struct_solver. Qed.
Lemma upload_struct_ok : struct_ok uploadStruct.
Proof. struct_solver. Qed.
Lemma asynquery_struct_ok : struct_ok asynqueryStruct.
Proof. struct_solver. Qed.
Lemma publishQuery_struct_ok : struct_ok publishQueryStruct.
Proof. struct_solver. Qed.
Lemma queryLog_struct_ok : struct_ok queryLogStruct.
Proof. struct_solver. Qed.
Lemma gorpMigration_struct_ok : struct_ok gorpMigrationStruct.
Proof. struct_solver. Qed.

Ltac table_solver struct_lemma names_lemma :=
  split; [exact struct_lemma|reflexivity|intros c; cbn; set_solver|cbn; set_solver|exact names_lemma|reflexivity|reflexivity|cbn; set_solver|cbn; set_solver
  | intros c seq now; cbn; unfold const_default, now_default, serial_default, with_default, no_default; repeat case_decide; done ].

Lemma user_table_ok : table_ok userTable users_schema.
Proof. table_solver user_struct_ok users_names_ok. Qed.
Lemma lbrynetServer_table_ok : table_ok lbrynetServerTable lbrynet_servers_schema.
Proof. table_solver lbrynetServer_struct_ok lbrynet_servers_names_ok. Qed.
Lemma upload_table_ok : table_ok uploadTable uploads_schema.
Proof. table_solver upload_struct_ok uploads_names_ok. Qed.
Lemma asynquery_table_ok : table_ok asynqueryTable asynqueries_schema.
Proof. table_solver asynquery_struct_ok asynqueries_names_ok. Qed.
Lemma publishQuery_table_ok : table_ok publishQueryTable publish_queries_schema.
Proof. table_solver publishQuery_struct_ok publish_queries_names_ok. Qed.
Lemma queryLog_table_ok : table_ok queryLogTable query_log_schema.
Proof. table_solver queryLog_struct_ok query_log_names_ok. Qed.
Lemma gorpMigration_table_ok : table_ok gorpMigrationTable gorp_migrations_schema.
Proof. table_solver gorpMigration_struct_ok gorp_migrations_names_ok. Qed.

(** ** Libraries and a database that meet the laws *)

Module Reference.
Definition missing (a b : list string) : list string := filter (λ x, x ∉ b) a.

#[export] Instance columns : BoilColumns := {
  Infer := mkColumns 1 [];
  Whitelist cs := mkColumns 2 cs;
  Greylist cs := mkColumns 3 cs;
  IsWhitelist c := bool_decide (Kind c = 2);
  InsertColumnSet c all def nodef nz :=
    if decide (Kind c = 1) then (nodef ++ nz, missing def nz) else
    let ins := if decide (Kind c = 2) then Cols c else nodef ++ nz ++ missing (Cols c) (nodef ++ nz) in
    (ins, missing def ins);
  UpdateColumnSet c all pk := if decide (Kind c = 2) then Cols c else missing all pk;
  SetComplement := missing }.

Lemma missing_spec a b c : c ∈ missing a b ↔ c ∈ a ∧ c ∉ b.
Proof. unfold missing. rewrite list_elem_of_filter. naive_solver. Qed.

#[export] Instance columns_spec : BoilColumnsSpec.
Proof.
  split; try done.
  - intros all def nodef nz ins ret_. cbn -[missing]. intros [= <- <-]. split; intros c; [apply elem_of_app|apply missing_spec].
  - intros cs all def nodef nz ins ret_. cbn -[missing]. intros [= <- <-]. split; intros c; [|apply missing_spec].
    rewrite !elem_of_app, missing_spec, elem_of_app. destruct (decide (c ∈ nodef)), (decide (c ∈ nz)); naive_solver.
  - intros all pk c. apply missing_spec.
  - intros a b c. apply missing_spec.
Qed.

(** Positions of fields. *)
Definition position {O} (S : Struct O) (c : string) : error + Z :=
  match list_find (λ f, f_tag f = c) S with
  | Some (i, _) => inr (Z.of_nat i)
  | None => inl (EText "unable to find field for column")
  end.
Fixpoint positions {O} (S : Struct O) (cs : list string) : error + list Z :=
  match cs with
  | [] => inr []
  | c :: cs => match position S c, positions S cs with
               | inr i, inr m => inr (i :: m)
               | inl e, _ | _, inl e => inl e
               end
  end.
Definition field_at {O} (S : Struct O) (i : Z) : option (Field O) := S !! Z.to_nat i.
Definition of_option {A} (x : option A) : error + A := match x with Some a => inr a | None => inl (EText "converting driver.Value type") end.
Fixpoint scan {O} (S : Struct O) (o : O) (m : list Z) (vs : list SVal) : option O :=
  match m, vs with
  | [], [] => Some o
  | i :: m, v :: vs => field_at S i ≫= λ f, f_set f v o ≫= λ o, scan S o m vs
  | _, _ => None
  end.

#[export] Instance queries : Queries := {
  NonZeroDefaultSet O S defs o := filter (λ c, zero_at S o c = false) defs;
  BindMapping O := positions;
  ValuesFromMapping O S o m := map (λ i, from_option (λ f, f_get f o) SNull (field_at S i)) m;
  ScanMapping O S o m vs := of_option (scan S o m vs);
  BindRow O S o r := of_option (assign_all S o r.*1 r.*2) }.

Lemma position_spec {O} (S : Struct O) c i : position S c = inr i → field_at S i = field_of S c ∧ is_Some (field_of S c).
Proof.
  unfold position, field_at, field_of. destruct (list_find _ S) as [[j f]|] eqn:E; [|done]. intros [= <-].
  apply list_find_Some in E as (Hj & _ & _). rewrite Nat2Z.id, Hj. by split.
Qed.

Lemma positions_spec {O} (S : Struct O) cs m :
  positions S cs = inr m → cs ⊆ tags S ∧ (m = [] ↔ cs = []) ∧
    (∀ o, map (λ i, from_option (λ f, f_get f o) SNull (field_at S i)) m = map (value_of S o) cs) ∧
    (∀ vs o, scan S o m vs = assign_all S o cs vs).
Proof.
  revert m. induction cs as [|c cs IH]; intros m; cbn.
  { intros [= <-]. split; [by intros ? ?%not_elem_of_nil|]. split; [done|]. split; [done|]. intros vs o. by destruct vs. }
  destruct (position S c) as [?|i] eqn:Ei; [done|]. destruct (positions S cs) as [?|m'] eqn:Em; [done|]. intros [= <-].
  apply position_spec in Ei as [Hi [f Hf]]. destruct (IH m' eq_refl) as (Hs & _ & Hv & Ha).
  split; [|split; [done|split]].
  - intros d [->|Hd]%elem_of_cons; [|by apply Hs]. apply field_of_Some in Hf as [Hf <-].
    unfold tags. apply list_elem_of_fmap. by exists f.
  - intros o. cbn. f_equal; [|apply Hv]. unfold value_of. by rewrite Hi.
  - intros vs o. destruct vs as [|v vs]; [done|]. cbn. unfold assign. rewrite Hi, Hf. cbn.
    destruct (f_set f v o); [apply Ha|done].
Qed.

Lemma positions_ok {O} (S : Struct O) cs : cs ⊆ tags S → ∃ m, positions S cs = inr m.
Proof.
  induction cs as [|c cs IH]; intros Hs; [by exists []|].
  destruct IH as [m Hm]; [intros d Hd; apply Hs; by right|].
  destruct (field_of_tag S c) as [f Hf]; [apply Hs; by left|]. cbn. unfold position. unfold field_of in Hf.
  destruct (list_find _ S) as [[i g]|]; [|done]. rewrite Hm. by eexists.
Qed.

Lemma of_option_spec {A} (x : option A) a : of_option x = inr a ↔ x = Some a.
Proof. destruct x; cbn; split; congruence. Qed.

#[export] Instance queries_spec : QueriesSpec.
Proof.
  split; intros O S.
  - intros defs o c. cbn. rewrite list_elem_of_filter. naive_solver.
  - intros cs [m Hm]%positions_ok. exists m. split; [done|]. destruct (positions_spec _ _ _ Hm) as (_ & Hn & Hv & Ha).
    split; [done|]. split; [done|]. intros o vs o'. cbn. by rewrite of_option_spec, Ha.
  - intros cs m H. by destruct (positions_spec _ _ _ H).
  - intros o r o'. apply of_option_spec.
Qed.

(** JSON texts as Go prints their values, times to the nearest microsecond. *)
#[export] Instance types : PgTypes := {
  jsonb_in s := unmarshal s ≫= print;
  time_in t := (t + 500) / 1000 * 1000 }.
#[export] Instance types_spec : PgTypesSpec.
Proof.
  split.
  - intros s t. cbn. intros (v & Hv & Hp)%bind_Some.
    pose proof (unmarshal_decoded _ _ Hv) as [_ Hutf Hh Hn]. rewrite (unmarshal_print _ _ Hp Hutf Hh), Hn. exact Hp.
  - intros t. cbn. split; [apply Z.mod_mul; lia|]. Z.div_mod_to_equations. lia.
Qed.
End Reference.

(** ** Theorems *)

(** Membership in a list of names. *)
Ltac in_list := apply (bool_decide_unpack _); vm_compute; exact I.

Definition no_hooks {W X} : ModelHooks W X :=
  mkModelHooks (λ _, []) (λ _, []) (λ _, []) (λ _, []) (λ _, []) (λ _, []) (λ _, []).
Definition empty_mem {O} : Mem O := mkMem ∅ ∅ ∅ ∅.
Definition empty_db : DB := mkDB ∅ 1.
Definition world0 (d : DB) : World :=
  mkWorld empty_mem empty_mem empty_mem empty_mem empty_mem empty_mem empty_mem d 1000.

Lemma empty_caches_ok {O} {BC : BoilColumns} {Q : Queries} (T : Table O) ob : caches_ok T (mkMem ob ∅ ∅ ∅).
Proof. split; intros k c; cbn; by rewrite lookup_empty. Qed.
Lemma empty_unique : unique_db empty_db.
Proof. intros tbl sc _. done. Qed.

Section theorems.
Context {PT : PgTypes} {PS : PgTypesSpec}.
Context {BC : BoilColumns} {BS : BoilColumnsSpec} {Q : Queries} {QS : QueriesSpec}.
Context {O : Type} {M : Model World O} {MS : ModelSpec O} (T : Table O) (sc : Schema) (HT : table_ok T sc).
Context (hooks : Hooks World unit).

(** C28: [Insert] with inferred or greylisted columns and then [Find] by the primary key,
    on a table without hooks, with statement caches that hold what the code itself
    puts there: the object found has, in every column, the value the inserted object
    has in memory, defaults of the database included, in the form the column stores:
    [jsonb] normalised, times to the microsecond, everything else unchanged. *)
Theorem insert_find_roundtrip cols l w w' :
  hooks BeforeInsertHook = [] → hooks AfterInsertHook = [] → caches_ok T (mem w) → unique_db (w_db w) →
  Cols cols ⊆ AllColumns T → cols = Infer ∨ (∃ cs, cols = Greylist cs) →
  Insert T hooks tt (Some l) cols w = (ROk tt, w') →
  ∃ o' l1 w1 o1, objs (mem w') !! l = Some o' ∧
    Find T tt (map (value_of (struct_of T) o') (PrimaryKeyColumns T)) [] w' = (ROk l1, w1) ∧ objs (mem w1) !! l1 = Some o1 ∧
    ∀ c, c ∈ AllColumns T → value_of (struct_of T) o1 c = stored (value_of (struct_of T) o' c).
Proof using HT QS MS BS PS.
  intros Hb Ha Hm Hu Hc Hi H.
  destruct (Insert_Find T sc HT hooks _ _ _ _ Hb Ha Hm Hc Hi Hu H) as (o' & l1 & o1 & Ho & Hf & Heq).
  exists o', l1, (put l1 o1 w'), o1. split; [done|]. split; [done|]. split; [|done]. by rewrite put_objs, lookup_insert_eq.
Qed.

(** C39: [Update] with inferred columns writes the object into the rows with its key,
    every column but the key and [created_at], each value in the form its column
    stores; the other rows are untouched, and the number of rows written is returned. *)
Theorem update_infer_writes l w n w' :
  hooks BeforeUpdateHook = [] → hooks AfterUpdateHook = [] → caches_ok T (mem w) →
  Update T hooks tt l Infer w = (ROk n, w') →
  ∃ o v, objs (mem w) !! l = Some o ∧ v = touchUpdate T (w_now w) o ∧ objs (mem w') !! l = Some v ∧
    Forall2 (λ r r', if same_key T v r
      then (∀ c, row_get r' c = if decide (c ∈ AllColumns T ∧ (c ∉ PrimaryKeyColumns T) ∧ c ≠ "created_at") then stored (value_of (struct_of T) v c) else row_get r c)
      else r' = r) (rows_of (w_db w) (tableName T)) (rows_of (w_db w') (tableName T)) ∧
    n = Z.of_nat (length (filter (λ r, same_key T v r = true) (rows_of (w_db w) (tableName T)))).
Proof using HT QS MS BS.
  intros Hb Ha Hm H. destruct (Update_inv T sc HT hooks _ _ _ _ _ Hb Ha Hm ltac:(rewrite Cols_Infer; by intros ? ?%not_elem_of_nil) H)
    as (o & wl & Ho & Hwl & Hn & Hd & Hobjs & _).
  set (v := touchUpdate T (w_now w) o) in *. exists o, v. split; [done|]. split; [done|].
  split; [by rewrite Hobjs, lookup_insert_eq|]. split; [|done]. rewrite Hd, rows_of_set, decide_True by done. clear Hn Hd H.
  rewrite IsWhitelist_Infer in Hwl. induction (rows_of (w_db w) (tableName T)) as [|r rs IH]; [by constructor|]. constructor; [|done].
  destruct (same_key T v r); [|done]. intros c. unfold written. rewrite set_cols_get. apply decide_ext.
  rewrite Hwl, SetComplement_spec, update_Infer. clear PS. set_solver.
Qed.

(** [Update] with a whitelist writes the listed columns and no others, not even the
    [updated_at] it has set on the object. *)
Theorem update_whitelist_writes cs l w n w' :
  hooks BeforeUpdateHook = [] → hooks AfterUpdateHook = [] → caches_ok T (mem w) → cs ⊆ AllColumns T →
  Update T hooks tt l (Whitelist cs) w = (ROk n, w') →
  ∃ o v, objs (mem w) !! l = Some o ∧ v = touchUpdate T (w_now w) o ∧ objs (mem w') !! l = Some v ∧
    Forall2 (λ r r', if same_key T v r
      then (∀ c, row_get r' c = if decide (c ∈ cs) then stored (value_of (struct_of T) v c) else row_get r c)
      else r' = r) (rows_of (w_db w) (tableName T)) (rows_of (w_db w') (tableName T)).
Proof using HT QS MS BS.
  intros Hb Ha Hm Hcs H. destruct (Update_inv T sc HT hooks _ _ _ _ _ Hb Ha Hm ltac:(by rewrite Cols_Whitelist) H)
    as (o & wl & Ho & Hwl & Hn & Hd & Hobjs & _).
  set (v := touchUpdate T (w_now w) o) in *. exists o, v. split; [done|]. split; [done|].
  split; [by rewrite Hobjs, lookup_insert_eq|]. rewrite Hd, rows_of_set, decide_True by done.
  rewrite IsWhitelist_Whitelist, update_Whitelist in Hwl. cbn in Hwl. subst wl. clear Hn Hd H.
  induction (rows_of (w_db w) (tableName T)) as [|r rs IH]; [by constructor|]. constructor; [|done].
  destruct (same_key T v r); [|done]. intros c. unfold written. by rewrite set_cols_get.
Qed.

(** After [Delete] no row has the object's key, and the other rows are all there. *)
Theorem delete_removes l w n w' :
  hooks BeforeDeleteHook = [] → hooks AfterDeleteHook = [] →
  Delete T hooks tt (Some l) w = (ROk n, w') →
  ∃ o, objs (mem w) !! l = Some o ∧
    RowExists T tt (map (value_of (struct_of T) o) (PrimaryKeyColumns T)) w' = (ROk false, w') ∧
    ∀ r, same_key T o r = false → r ∈ rows_of (w_db w) (tableName T) → r ∈ rows_of (w_db w') (tableName T).
Proof using HT QS MS.
  intros Hb Ha H. destruct (Delete_inv T sc HT hooks _ _ _ _ Hb Ha H) as (o & Ho & _ & Hst & Hd). exists o. split; [done|]. split.
  - rewrite (RowExists_spec T sc HT) by done. do 2 f_equal. rewrite Hd, rows_of_set, decide_True by done. apply not_true_iff_false.
    rewrite existsb_exists. intros (r & Hr%list_elem_of_In & E). apply list_elem_of_filter in Hr as [Hr _]. congruence.
  - intros r Hk Hr. rewrite Hd, rows_of_set, decide_True by done. by apply list_elem_of_filter.
Qed.

(** C40: The statement caches are transparent: from two states equal but for valid caches,
    [Insert] and [Update] end alike, with the same outcome, whatever path they take. *)
Theorem statement_caches_transparent o cols l cols' w1 w2 :
  (∀ p h l, h ∈ hooks p → agree T (λ _, True) (h tt l) (h tt l)) →
  Cols cols ⊆ AllColumns T → Cols cols' ⊆ AllColumns T → alike T w1 w2 →
  ((Insert T hooks tt o cols w1).1 = (Insert T hooks tt o cols w2).1 ∧
   alike T (Insert T hooks tt o cols w1).2 (Insert T hooks tt o cols w2).2) ∧
  ((Update T hooks tt l cols' w1).1 = (Update T hooks tt l cols' w2).1 ∧
   alike T (Update T hooks tt l cols' w1).2 (Update T hooks tt l cols' w2).2).
Proof using HT QS MS.
  intros Hh Hc Hc' Hw. split.
  - by destruct (agree_Insert T sc HT hooks Hh o cols Hc w1 w2 Hw) as (? & ? & _).
  - by destruct (agree_Update T sc HT hooks Hh l cols' Hc' w1 w2 Hw) as (? & ? & _).
Qed.
End theorems.

(** A draft query stays a draft because [ready_to_run] is greylisted: its column is
    written as given.  With inferred columns the database's default [true] would be
    stored, and read back into the object. *)
Theorem draft_needs_greylist `{PgTypesSpec} `{BoilColumnsSpec} `{QueriesSpec} (hs : ModelHooks World unit) l o w cols w' :
  asynqueryHooks hs BeforeInsertHook = [] → asynqueryHooks hs AfterInsertHook = [] → caches_ok asynqueryTable (mem w) →
  objs (mem w) !! l = Some o → aq_ReadyToRun o = false → cols = Infer ∨ cols = Greylist ["ready_to_run"] →
  Asynquery_Insert hs tt (Some l) cols w = (ROk tt, w') →
  ∃ o' r, objs (mem w') !! l = Some o' ∧ rows_of (w_db w') "asynqueries" = rows_of (w_db w) "asynqueries" ++ [r] ∧
    row_get r "ready_to_run" = SBool (aq_ReadyToRun o') ∧
    (cols = Infer → aq_ReadyToRun o' = true) ∧ (cols = Greylist ["ready_to_run"] → aq_ReadyToRun o' = false).
Proof.
  intros Hb Ha Hm Ho Hr Hcols Hins.
  assert (Cols cols ⊆ AllColumns asynqueryTable) as Hl.
  { destruct Hcols as [->| ->]; rewrite ?Cols_Infer, ?Cols_Greylist; cbn; set_solver. }
  assert (inferring cols) as Hinf by (destruct Hcols as [->| ->]; [by left|right; by eexists]).
  pose proof asynquery_table_ok as HT.
  destruct (Insert_inv _ _ HT _ _ _ _ _ Hb Ha Hm Hl Hins) as (o0 & o' & ins & ret_ & d & n & rows & Ho0 & Hset & Hi & _ & _ & Hpg & _ & Hd & Hobjs & _).
  destruct (Insert_sync _ _ HT _ _ _ _ _ Hb Ha Hm Hl Hinf Hins) as (_ & o2 & r2 & _ & Hobjs2 & Hrows2 & Hmir & _).
  rewrite Ho in Ho0. injection Ho0 as <-. set (v := touchInsert asynqueryTable (w_now w) o) in *.
  assert (o2 = o') as ->.
  { apply (f_equal (λ m, m !! l)) in Hobjs2. rewrite Hobjs, !lookup_insert_eq in Hobjs2. congruence. }
  exists o', r2. split; [by rewrite Hobjs2, lookup_insert_eq|]. split; [done|].
  assert (row_get r2 "ready_to_run" = SBool (aq_ReadyToRun o')) as Hrow by (apply (Hmir "ready_to_run"); in_list).
  split; [done|]. rewrite Hd in Hrows2.
  apply pg_insert_inv in Hpg as (_ & _ & _ & _ & ->). rewrite rows_of_set, decide_True in Hrows2 by done.
  apply app_inj_2 in Hrows2 as [_ [= Hr2]]; [|done]. rewrite <-Hr2, fill_get in Hrow by in_list.
  assert (aq_ReadyToRun v = false) as Hv by (rewrite <-Hr; unfold v; cbn; unfold asynquery_touchInsert; by repeat case_decide).
  assert (zero_at asynqueryStruct v "ready_to_run" = true) as Hz by (change (negb (aq_ReadyToRun v) = true); by rewrite Hv).
  assert (value_of asynqueryStruct v "ready_to_run" = SBool false) as Hval by (change (SBool (aq_ReadyToRun v) = SBool false); by rewrite Hv).
  assert ("ready_to_run" ∉ NonZeroDefaultSet (struct_of asynqueryTable) (ColumnsWithDefault asynqueryTable) v) as Hnz.
  { intros [_ E]%NonZeroDefaultSet_spec. cbn [struct_of asynqueryTable] in E. congruence. }
  split; intros ->.
  - destruct (insert_Infer _ _ _ _ _ _ Hset) as [Hin _]. rewrite decide_False in Hrow; [by injection Hrow|].
    rewrite Hin. cbn. set_solver.
  - destruct (insert_Greylist _ _ _ _ _ _ _ Hset) as [Hin _]. rewrite decide_True in Hrow; [|rewrite Hin; set_solver].
    cbn [struct_of asynqueryTable] in Hrow. rewrite Hval in Hrow. by injection Hrow.
Qed.

(** ** Witnesses *)

Module Witnesses.
Import Reference.

Definition bob : User := mkUser 7 0 0 None (Some 3) None None None.
Definition draft : Asynquery := mkAsynquery "a1" 7 0 None "received" "" "up1" None None false false None None.
Definition stored_bob : Row := fill users_schema (zip userAllColumns (map (value_of userStruct (set_u_UpdatedAt 5000 (set_u_CreatedAt 5000 bob))) userAllColumns)) 1 0.
Definition db_bob : DB := set_rows "users" [stored_bob] empty_db.
Definition with_bob (d : DB) : World :=
  mkWorld (mkMem {[1%positive := bob]} ∅ ∅ ∅) empty_mem empty_mem (mkMem {[1%positive := draft]} ∅ ∅ ∅) empty_mem empty_mem empty_mem d 1000.

Lemma nothing_listed : Cols Infer ⊆ userAllColumns.
Proof. intros c Hc. by apply not_elem_of_nil in Hc. Qed.
Lemma bob_caches d : caches_ok userTable (w_users (with_bob d)).
Proof. apply empty_caches_ok. Qed.
Lemma draft_caches d : caches_ok asynqueryTable (w_asynqueries (with_bob d)).
Proof. apply empty_caches_ok. Qed.

Lemma insert_find_roundtrip_witness :
  let w' := (Insert userTable (λ _, []) tt (Some 1%positive) Infer (with_bob empty_db)).2 in
  ∃ o' l1 w1 o1, objs (w_users w') !! 1%positive = Some o' ∧ Find userTable tt [SInt 7] [] w' = (ROk l1, w1) ∧
    objs (w_users w1) !! l1 = Some o1 ∧ u_CreatedAt o1 = 1000 ∧ ∀ c, c ∈ userAllColumns → value_of userStruct o1 c = stored (value_of userStruct o' c).
Proof.
  intros w'.
  assert (Insert userTable (λ _, []) tt (Some 1%positive) Infer (with_bob empty_db) = (ROk tt, w')) as E by (vm_compute; reflexivity).
  destruct (insert_find_roundtrip (M := World_User) userTable users_schema user_table_ok (λ _, []) Infer 1%positive (with_bob empty_db) w'
    eq_refl eq_refl (bob_caches _) empty_unique nothing_listed (or_introl eq_refl) E) as (o' & l1 & w1 & o1 & H1 & H2 & H3 & H4).
  exists o', l1, w1, o1.
  assert (o' = mkUser 7 1000 1000 None (Some 3) None None None) as -> by (vm_compute in H1; congruence).
  split; [exact H1|]. split; [exact H2|]. split; [exact H3|]. split; [|exact H4].
  specialize (H4 "created_at" ltac:(in_list)). change (STime (u_CreatedAt o1) = STime 1000) in H4. congruence.
Defined.

(** White space of a body is not stored, text that is not JSON is refused. *)
Example body_is_normalised : stored (SJSON "[ 1, true ]") = SJSON "[1,true]" ∧ storable (SJSON "[ 1") = false.
Proof. split; vm_compute; reflexivity. Qed.

Lemma update_infer_writes_witness :
  let w := with_bob db_bob in
  let w' := (Update userTable (λ _, []) tt 1%positive Infer w).2 in
  let v := set_u_UpdatedAt 1000 bob in
  row_get stored_bob "created_at" = STime 5000 ∧ objs (w_users w') !! 1%positive = Some v ∧
  Forall2 (λ r r', if same_key userTable v r
      then (∀ c, row_get r' c = if decide (c ∈ userAllColumns ∧ (c ∉ userPrimaryKeyColumns) ∧ c ≠ "created_at") then stored (value_of userStruct v c) else row_get r c)
      else r' = r) [stored_bob] (rows_of (w_db w') "users").
Proof.
  intros w w' v.
  assert (Update userTable (λ _, []) tt 1%positive Infer w = (ROk 1, w')) as E by (vm_compute; reflexivity).
  destruct (update_infer_writes (M := World_User) userTable users_schema user_table_ok (λ _, []) 1%positive w 1 w'
    eq_refl eq_refl (bob_caches _) E) as (o & v' & H1 & Hv & H2 & H3 & Hn).
  split; [vm_compute; reflexivity|].
  assert (o = bob) as -> by (vm_compute in H1; injection H1 as <-; reflexivity). subst v'. split; [exact H2|exact H3].
Defined.

Lemma update_whitelist_writes_witness :
  let w := with_bob db_bob in
  let w' := (Update userTable (λ _, []) tt 1%positive (Whitelist ["last_seen_at"]) w).2 in
  let v := set_u_UpdatedAt 1000 bob in
  objs (w_users w') !! 1%positive = Some v ∧ row_get stored_bob "updated_at" = STime 5000 ∧
  Forall2 (λ r r', if same_key userTable v r
      then (∀ c, row_get r' c = if decide (c ∈ ["last_seen_at"]) then stored (value_of userStruct v c) else row_get r c)
      else r' = r) [stored_bob] (rows_of (w_db w') "users").
Proof.
  intros w w' v.
  assert (Update userTable (λ _, []) tt 1%positive (Whitelist ["last_seen_at"]) w = (ROk 1, w')) as E by (vm_compute; reflexivity).
  destruct (update_whitelist_writes (M := World_User) userTable users_schema user_table_ok (λ _, []) ["last_seen_at"] 1%positive w 1 w'
    eq_refl eq_refl (bob_caches _) ltac:(cbn; set_solver) E) as (o & v' & H1 & Hv & H2 & H3).
  assert (o = bob) as -> by (vm_compute in H1; injection H1 as <-; reflexivity). subst v'.
  split; [exact H2|]. split; [vm_compute; reflexivity|exact H3].
Defined.

Lemma delete_removes_witness :
  let w := with_bob db_bob in
  let w' := (Delete userTable (λ _, []) tt (Some 1%positive) w).2 in
  RowExists userTable tt [SInt 7] w = (ROk true, w) ∧ RowExists userTable tt [SInt 7] w' = (ROk false, w').
Proof.
  intros w w'.
  assert (Delete userTable (λ _, []) tt (Some 1%positive) w = (ROk 1, w')) as E by (vm_compute; reflexivity).
  destruct (delete_removes (M := World_User) userTable users_schema user_table_ok (λ _, []) 1%positive w 1 w' eq_refl eq_refl E) as (o & H1 & H2 & _).
  assert (o = bob) as -> by (vm_compute in H1; injection H1 as <-; reflexivity). split; [vm_compute; reflexivity|exact H2].
Defined.

Lemma statement_caches_transparent_witness :
  let w := with_bob db_bob in
  let c := mkUpdateCache (SUpdate "users" ["last_seen_at"] ["id"] 1) [5; 0] in
  let w2 := set_mem (mkMem {[1%positive := bob]} ∅ {[ "2last_seen_at" := c ]} ∅) w in
  (Update userTable (λ _, []) tt 1%positive (Whitelist ["last_seen_at"]) w).1
    = (Update userTable (λ _, []) tt 1%positive (Whitelist ["last_seen_at"]) w2).1.
Proof.
  intros w c w2.
  refine (proj1 (proj2 (statement_caches_transparent (M := World_User) userTable users_schema user_table_ok (λ _, []) None Infer 1%positive (Whitelist ["last_seen_at"]) w w2 _ _ _ _))).
  - intros p h l H. by apply not_elem_of_nil in H.
  - apply nothing_listed.
  - cbn. set_solver.
  - split; [reflexivity|]. split; [apply bob_caches|]. split; cbn; [intros k x; by rewrite lookup_empty|].
    intros k x [<- <-]%lookup_singleton_Some. exists (Whitelist ["last_seen_at"]). split; [split; cbn; set_solver|].
    split; vm_compute; reflexivity.
Defined.

Lemma draft_needs_greylist_witness :
  let w := with_bob empty_db in
  ∃ o1 o2,
    objs (w_asynqueries (Asynquery_Insert no_hooks tt (Some 1%positive) Infer w).2) !! 1%positive = Some o1 ∧ aq_ReadyToRun o1 = true ∧
    objs (w_asynqueries (Asynquery_Insert no_hooks tt (Some 1%positive) (Greylist ["ready_to_run"]) w).2) !! 1%positive = Some o2 ∧ aq_ReadyToRun o2 = false.
Proof.
  intros w. set (w1 := (Asynquery_Insert no_hooks tt (Some 1%positive) Infer w).2).
  set (w2 := (Asynquery_Insert no_hooks tt (Some 1%positive) (Greylist ["ready_to_run"]) w).2).
  assert (Asynquery_Insert no_hooks tt (Some 1%positive) Infer w = (ROk tt, w1)) as E1 by (vm_compute; reflexivity).
  assert (Asynquery_Insert no_hooks tt (Some 1%positive) (Greylist ["ready_to_run"]) w = (ROk tt, w2)) as E2 by (vm_compute; reflexivity).
  assert (objs (w_asynqueries w) !! 1%positive = Some draft) as Ho by (vm_compute; reflexivity).
  destruct (draft_needs_greylist no_hooks 1%positive draft w Infer w1
    eq_refl eq_refl (draft_caches _) Ho eq_refl (or_introl eq_refl) E1) as (o1 & r1 & H1 & _ & _ & H1' & _).
  destruct (draft_needs_greylist no_hooks 1%positive draft w (Greylist ["ready_to_run"]) w2
    eq_refl eq_refl (draft_caches _) Ho eq_refl (or_intror eq_refl) E2) as (o2 & r2 & H2 & _ & _ & _ & H2').
  exists o1, o2. split; [exact H1|]. split; [by apply H1'|]. split; [exact H2|]. by apply H2'.
Defined.
End Witnesses.
