(* ===== verification/RelationsSpec.v ===== *)
(** * What loading a relation guarantees

    Eager loading of the servers of a slice of users ([LoadLbrynetServer]), which the
    wallet, the tracker and the asynchronous queries rely on, over the database of
    [Postgres.v]; and what [RemoveLbrynetServer] does to the server's slice of users. *)

From S2P Require Import Prelude GoLib Errors Boil Models CacheKey Relations Postgres BoilSpec BoilCache ModelsSpec.

Open Scope Z_scope.

(** [queries.Equal] on the values of two columns of one type. *)
Class QueriesEqualSpec {QE : QueriesEqual} := Equal_spec a b : Equal a b = bool_decide (a = b).

(** ** States *)

Abbreviation users w := (objs (w_users w)).
Abbreviation servers w := (objs (w_servers w)).
Definition set_users (us : gmap loc User) (w : World) : World := set_mem (with_objs (λ _, us) (w_users w)) w.
Definition set_servers (ss : gmap loc LbrynetServer) (w : World) : World := set_mem (with_objs (λ _, ss) (w_servers w)) w.

Lemma update_user l f w u : users w !! l = Some u → update_obj l f w = (ROk tt, set_users (<[l := f u]> (users w)) w).
Proof. intros H. unfold update_obj, bind, load. cbn. by rewrite H. Qed.
Lemma update_server l f w s : servers w !! l = Some s → update_obj l f w = (ROk tt, set_servers (<[l := f s]> (servers w)) w).
Proof. intros H. unfold update_obj, bind, load. cbn. by rewrite H. Qed.
Lemma load_user l w u : users w !! l = Some u → load (O := User) l w = (ROk u, w).
Proof. intros H. unfold load. cbn. by rewrite H. Qed.
Lemma load_server l w s : servers w !! l = Some s → load (O := LbrynetServer) l w = (ROk s, w).
Proof. intros H. unfold load. cbn. by rewrite H. Qed.

(** The user's server, once loaded. *)
Definition server_of (u : User) : option loc := u_R u ≫= userR_LbrynetServer.
(** Columns are all of a user but its relations. *)
Definition same_columns (u u' : User) : Prop := set_u_R None u = set_u_R None u'.

Section loading.
Context {PT : PgTypes}.
Context {BC : BoilColumns} {Q : Queries} {QS : QueriesSpec} {QE : QueriesEqual} {QES : QueriesEqualSpec}.

Abbreviation key u := (opt_int (u_LbrynetServerID u)).
Abbreviation args_of := (load_args (W := World) (user_withR id) (λ u, opt_int (u_LbrynetServerID u)) Equal true).

(** The keys to look up are those of the users, without null and each once. *)
Lemma load_args_spec ls args w :
  (∀ l, l ∈ ls → is_Some (users w !! l)) →
  ∃ args' us, args_of ls args w = (ROk args', set_users us w) ∧
    (∀ l, us !! l = if decide (l ∈ ls) then user_withR id <$> users w !! l else users w !! l) ∧
    (∀ v, v ∈ args' ↔ v ∈ args ∨ v ≠ SNull ∧ ∃ l u, l ∈ ls ∧ users w !! l = Some u ∧ key u = v).
Proof using QES.
  revert args w. induction ls as [|l ls IH]; intros args w Hls.
  { exists args, (users w). split; [by destruct w as [[] ? ? ? ? ? ? ? ?]|]. split; [done|]. intros v. split; [by left|].
    intros [?|(_ & l & u & ?%not_elem_of_nil & _)]; done. }
  destruct (Hls l) as [u Hu]; [by left|]. cbn [load_args].
  rewrite (bind_ok _ _ _ _ _ (update_user _ _ _ _ Hu)). set (w1 := set_users _ w).
  assert (users w1 !! l = Some (user_withR id u)) as Hu1 by (unfold w1; cbn; by rewrite lookup_insert_eq).
  rewrite (bind_ok _ _ _ _ _ (load_user _ _ _ Hu1)).
  assert (∀ args0, (∀ v, v ∈ args0 ↔ v ∈ args ∨ v ≠ SNull ∧ key u = v) →
    ∃ args' us, args_of ls args0 w1 = (ROk args', set_users us w) ∧
    (∀ k, us !! k = if decide (k ∈ l :: ls) then user_withR id <$> users w !! k else users w !! k) ∧
    (∀ v, v ∈ args' ↔ v ∈ args ∨ v ≠ SNull ∧ ∃ k u, k ∈ l :: ls ∧ users w !! k = Some u ∧ key u = v)) as Hstep.
  { intros args0 H0. destruct (IH args0 w1) as (args' & us & Hrun & Hus & Hargs).
    { intros k Hk. unfold w1. cbn. rewrite lookup_insert_is_Some'. right. apply Hls. by right. }
    exists args', us. split; [by rewrite Hrun|]. split.
    - intros k. rewrite Hus. unfold w1. cbn [w_users set_users set_mem with_objs objs World_User].
      destruct (decide (k = l)) as [->|Hk].
      + rewrite lookup_insert_eq, Hu. rewrite (decide_True (P := l ∈ l :: ls)) by (by left). by case_decide.
      + rewrite lookup_insert_ne by done. apply decide_ext. rewrite elem_of_cons. naive_solver.
    - intros v. rewrite Hargs, H0. split.
      + intros [[?|[Hn <-]]|(Hn & k & u' & Hk & Hk' & <-)]; [by left| |].
        * right. split; [done|]. exists l, u. by split; [left|].
        * right. split; [done|]. unfold w1 in Hk'. cbn in Hk'. destruct (decide (k = l)) as [->|Hkl].
          -- rewrite lookup_insert_eq in Hk'. injection Hk' as <-. exists l, u. by split; [left|].
          -- rewrite lookup_insert_ne in Hk' by done. exists k, u'. by split; [right|].
      + intros [?|(Hn & k & u' & [->|Hk]%elem_of_cons & Hk' & <-)]; [by left; left|left; right; split; congruence|].
        right. split; [done|]. destruct (decide (k = l)) as [->|Hkl].
        * exists l, (user_withR id u'). split; [done|]. split; [|done]. unfold w1. cbn. rewrite lookup_insert_eq. congruence.
        * exists k, u'. split; [done|]. split; [|done]. unfold w1. cbn. by rewrite lookup_insert_ne. }
  destruct (existsb _ args) eqn:Ein.
  - apply Hstep. intros v. split; [by left|]. intros [?|[_ <-]]; [done|].
    apply existsb_exists in Ein as (a & Ha%list_elem_of_In & E). rewrite Equal_spec in E. apply bool_decide_eq_true in E as ->. done.
  - change (key (user_withR id u)) with (key u). unfold IsNil. case_bool_decide as Hn; cbn.
    + apply Hstep. intros v. split; [by left|]. intros [?|[Hv <-]]; done.
    + apply Hstep. intros v. rewrite elem_of_app, list_elem_of_singleton. naive_solver.
Qed.

(** Rows that hold values of the column types. *)
Definition typed_servers (d : DB) : Prop :=
  ∀ r, r ∈ rows_of d "lbrynet_servers" → ∃ o, mirrors lbrynetServerTable r o.

Lemma bind_servers rs w :
  (∀ r, r ∈ rs → ∃ o, mirrors lbrynetServerTable r o) →
  ∃ fs ss, mapM_go (bind_row lbrynetServerTable) (map (project lbrynetServerAllColumns) rs) w = (ROk fs, set_servers ss w) ∧
    (∀ f o, servers w !! f = Some o → ss !! f = Some o) ∧ NoDup fs ∧ (∀ f, f ∈ fs → servers w !! f = None) ∧
    Forall2 (λ f r, ∃ o, ss !! f = Some o ∧ mirrors lbrynetServerTable r o) fs rs.
Proof using QS.
  intros Hrs. destruct (bind_rows_ok _ _ lbrynetServer_table_ok rs w Hrs) as (fs & w' & Hrun & [ss ->] & Hkeep & Hnd & Hfresh & Hall).
  exists fs, ss. split; [exact Hrun|]. split; [exact Hkeep|]. split; [done|]. split; [exact Hfresh|].
  eapply Forall2_impl; [exact Hall|]. intros f r (o & Ho & Hb). exists o. split; [exact Ho|].
  by apply (bound_mirrors _ _ lbrynetServer_table_ok).
Qed.

Definition id_in (args : list SVal) (r : Row) : bool := existsb (λ v, cmp_svals EQ (row_get r "id") (stored v)) args.

Lemma fetch_servers what closing args w :
  typed_servers (w_db w) →
  ∃ fs ss, fetch lbrynetServerTable "id" what closing tt args None w = (ROk fs, set_servers ss w) ∧
    (∀ f o, servers w !! f = Some o → ss !! f = Some o) ∧ NoDup fs ∧ (∀ f, f ∈ fs → servers w !! f = None) ∧
    Forall2 (λ f r, ∃ o, ss !! f = Some o ∧ mirrors lbrynetServerTable r o) fs
      (filter (λ r, id_in args r = true) (rows_of (w_db w) "lbrynet_servers")).
Proof using QS.
  intros Hty. destruct (bind_servers (filter (λ r, id_in args r = true) (rows_of (w_db w) "lbrynet_servers")) w) as (fs & ss & Hrun & Hrest).
  { intros r [_ Hr]%list_elem_of_filter. by apply Hty. }
  exists fs, ss. split; [|done]. unfold fetch.
  set (q := NewQuery _). set (rs := filter _ _) in *.
  assert (RunQuery (W := World) (X := unit) tt (SQuery q) [] w = (ROk (mkRows (map (project lbrynetServerAllColumns) rs) None None), w)) as Hq.
  { unfold RunQuery, World_Executor, run_stmt, bind. unfold pg_run. cbn [stmt_table]. change (q_from q) with "lbrynet_servers".
    change (schemas !! "lbrynet_servers") with (Some lbrynet_servers_schema). unfold pg_query, pg_select. cbn [forallb negb map].
    assert (filter (λ r, query_holds q r = true) (rows_of (w_db w) (q_from q)) = rs) as Hf.
    { apply list_filter_iff. intros r. unfold query_holds, q. cbn. rewrite andb_true_r. done. }
    change (forallb (clause_ok lbrynet_servers_schema) (q_where q) && _) with true. cbn [negb].
    change (q_update q) with (@None (gmap string SVal)). change (q_delete q) with false. change (q_count q) with false. change (q_limit q) with (@None Z).
    rewrite Hf. by destruct w. }
  rewrite (bind_ok _ _ _ (mkRows (map (project lbrynetServerAllColumns) rs) None None) w) by (unfold wrapping; by rewrite Hq).
  rewrite (bind_ok _ _ _ fs (set_servers ss w)); [done|]. unfold wrapping. cbn [rows_all]. by rewrite Hrun.
Qed.

Abbreviation find_server := (match_foreign (W := World) (λ u, opt_int (u_LbrynetServerID u)) (λ s, SInt (s_ID s)) Equal link_user_server).

(** Servers keep their identity while slices of users are filled in. *)
Definition same_servers (ss ss' : gmap loc LbrynetServer) : Prop :=
  ∀ f o, ss !! f = Some o → ∃ o', ss' !! f = Some o' ∧ s_ID o' = s_ID o.

Lemma same_servers_trans ss1 ss2 ss3 : same_servers ss1 ss2 → same_servers ss2 ss3 → same_servers ss1 ss3.
Proof. intros H1 H2 f o (o' & Ho & E)%H1. destruct (H2 _ _ Ho) as (o'' & ? & ?). exists o''. split; [done|congruence]. Qed.

(** Some loaded server matches the user, or none does. *)
Definition matching (u : User) (fs : list loc) (ss : gmap loc LbrynetServer) (f : loc) : Prop :=
  f ∈ fs ∧ ∃ o, ss !! f = Some o ∧ key u = SInt (s_ID o).

Lemma find_server_spec l fs w u :
  users w !! l = Some u → (∀ f, f ∈ fs → is_Some (servers w !! f)) →
  ∃ us ss, find_server l fs w = (ROk tt, set_servers ss (set_users us w)) ∧ same_servers (servers w) ss ∧
    ((∃ f, matching u fs (servers w) f ∧ us = <[l := user_withR (userR_server (Some f)) u]> (users w)) ∨
     (us = users w ∧ ∀ f, ¬ matching u fs (servers w) f)).
Proof using QES.
  intros Hu. induction fs as [|f fs IH]; intros Hfs.
  { exists (users w), (servers w). split; [by destruct w as [[] [] ? ? ? ? ? ? ?]|]. split; [by intros f o; exists o|].
    right. split; [done|]. by intros f [?%not_elem_of_nil _]. }
  destruct (Hfs f) as [o Ho]; [by left|]. cbn [match_foreign].
  rewrite (bind_ok _ _ _ _ _ (load_user _ _ _ Hu)), (bind_ok _ _ _ _ _ (load_server _ _ _ Ho)), Equal_spec.
  case_bool_decide as E.
  - unfold link_user_server. rewrite (bind_ok _ _ _ _ _ (update_user _ _ _ _ Hu)).
    set (us := <[l := _]> (users w)).
    rewrite (update_server f _ (set_users us w) o) by done. exists us. eexists. split; [reflexivity|]. split.
    + intros k o' Hk. destruct (decide (k = f)) as [->|].
      * assert (o' = o) as -> by congruence. eexists. split; [by rewrite lookup_insert_eq|done].
      * exists o'. by rewrite lookup_insert_ne.
    + left. exists f. split; [|done]. split; [by left|]. by exists o.
  - destruct IH as (us & ss & Hrun & Hss & Hcases); [intros k Hk; apply Hfs; by right|]. exists us, ss. split; [done|]. split; [done|].
    destruct Hcases as [(k & (Hk & o' & Ho' & Ek) & ->)|[-> Hno]].
    + left. exists k. split; [|done]. split; [by right|]. by exists o'.
    + right. split; [done|]. intros k ([->|Hk]%elem_of_cons & o' & Ho' & Ek); [congruence|]. apply (Hno k). split; [done|]. by exists o'.
Qed.

(** What a user becomes: its columns stay, its server is the matching one if any. *)
Definition attached (fs : list loc) (ss : gmap loc LbrynetServer) (u u' : User) : Prop :=
  same_columns u u' ∧
  ((∃ f, matching u fs ss f ∧ server_of u' = Some f) ∨ (server_of u' = server_of u ∧ ∀ f, ¬ matching u fs ss f)).

Lemma matching_same u fs ss ss' f :
  (∀ k, k ∈ fs → is_Some (ss !! k)) → same_servers ss ss' → matching u fs ss' f ↔ matching u fs ss f.
Proof.
  intros Hfs Hss. split; intros (Hf & o & Ho & E); (split; [done|]).
  - destruct (Hfs f Hf) as [o' Ho']. exists o'. split; [done|]. destruct (Hss _ _ Ho') as (o2 & ? & ?). congruence.
  - destruct (Hss _ _ Ho) as (o' & ? & ?). exists o'. split; congruence.
Qed.

Lemma attach_all ls fs w :
  NoDup ls → (∀ l, l ∈ ls → is_Some (users w !! l)) → (∀ f, f ∈ fs → is_Some (servers w !! f)) →
  ∃ us ss, for_each (λ local, find_server local fs) ls w = (ROk tt, set_servers ss (set_users us w)) ∧ same_servers (servers w) ss ∧
    (∀ l, l ∉ ls → us !! l = users w !! l) ∧
    (∀ l u, l ∈ ls → users w !! l = Some u → ∃ u', us !! l = Some u' ∧ attached fs (servers w) u u').
Proof using QES.
  revert w. induction ls as [|l ls IH]; intros w Hnd Hls Hfs.
  { exists (users w), (servers w). split; [by destruct w as [[] [] ? ? ? ? ? ? ?]|]. split; [by intros f o; exists o|].
    split; [done|]. by intros l u ?%not_elem_of_nil. }
  apply NoDup_cons in Hnd as [Hl Hnd]. destruct (Hls l) as [u Hu]; [by left|].
  destruct (find_server_spec l fs w u Hu Hfs) as (us1 & ss1 & Hrun1 & Hss1 & Hc).
  assert (∀ k, k ≠ l → us1 !! k = users w !! k) as Hk1.
  { intros k Hk. destruct Hc as [(f & _ & ->)|[-> _]]; [by rewrite lookup_insert_ne|done]. }
  assert (∃ u1, us1 !! l = Some u1 ∧ attached fs (servers w) u u1) as (u1 & Hu1 & Hat).
  { destruct Hc as [(f & Hf & ->)|[-> Hno]].
    - exists (user_withR (userR_server (Some f)) u). split; [by rewrite lookup_insert_eq|]. split; [done|]. left. by exists f.
    - exists u. split; [done|]. split; [done|]. by right. }
  set (w1 := set_servers ss1 (set_users us1 w)) in *.
  destruct (IH w1) as (us & ss & Hrun & Hss & Hout & Hin); [done|..].
  { intros k Hk. change (is_Some (us1 !! k)). rewrite Hk1 by congruence. apply Hls. by right. }
  { intros f Hf. change (is_Some (ss1 !! f)). destruct (Hfs f Hf) as [o Ho]. destruct (Hss1 _ _ Ho) as (o' & -> & _). done. }
  exists us, ss. split; [cbn [for_each]; rewrite (bind_ok _ _ _ _ _ Hrun1); exact Hrun|].
  split; [by eapply same_servers_trans|]. split.
  - intros k Hk. rewrite Hout by (intros ?; apply Hk; by right). apply Hk1. intros ->. apply Hk. by left.
  - intros k uk [->|Hk]%elem_of_cons Huk.
    + exists u1. rewrite Hout by done. split; [done|]. congruence.
    + assert (k ≠ l) as Hkl by congruence. destruct (Hin k uk Hk) as (u' & Hu' & Hsc & Hm).
      { change (us1 !! k = Some uk). by rewrite Hk1. }
      exists u'. split; [done|]. split; [done|]. destruct Hm as [(f & Hf & Hsf)|[Hsf Hno]].
      * left. exists f. split; [|done]. by apply (matching_same uk fs (servers w) ss1 f).
      * right. split; [done|]. intros f Hf. apply (Hno f). by apply (matching_same uk fs (servers w) ss1 f).
Qed.

(** Every row is found by its key among the loaded servers. *)
Lemma loaded_matches args fs ss rs u sid :
  Forall2 (λ f r, ∃ o, ss !! f = Some o ∧ mirrors lbrynetServerTable r o) fs (filter (λ r, id_in args r = true) rs) →
  u_LbrynetServerID u = Some sid → SInt sid ∈ args →
  (∃ f, matching u fs ss f) ↔ ∃ r, r ∈ rs ∧ row_get r "id" = SInt sid.
Proof.
  intros Hall Hu Hargs.
  assert (∀ r o, mirrors lbrynetServerTable r o → row_get r "id" = SInt (s_ID o)) as Hid by (intros r o Hm; apply (Hm "id"); by left).
  split.
  - intros (f & Hf & o & Ho & E). apply list_elem_of_lookup in Hf as [i Hi].
    destruct (Forall2_lookup_l _ _ _ _ _ Hall Hi) as (r & Hr & o' & Ho' & Hm). exists r.
    apply list_elem_of_lookup_2, list_elem_of_filter in Hr as [_ Hr]. split; [done|]. rewrite (Hid _ _ Hm).
    rewrite Hu in E. cbn in E. congruence.
  - intros (r & Hr & E). assert (r ∈ filter (λ r, id_in args r = true) rs) as [i Hi]%list_elem_of_lookup.
    { apply list_elem_of_filter. split; [|done]. apply existsb_exists. exists (SInt sid). split; [by apply list_elem_of_In|].
      rewrite E. cbn. by rewrite bool_decide_true. }
    destruct (Forall2_lookup_r _ _ _ _ _ Hall Hi) as (f & Hf & o & Ho & Hm). exists f. split; [by eapply list_elem_of_lookup_2|].
    exists o. split; [done|]. rewrite Hu. cbn. rewrite <-(Hid _ _ Hm). congruence.
Qed.

(** Loading the servers of a slice of users succeeds; every user keeps its columns
    and gets the server its [lbrynet_server_id] names, when a row has that id: the
    object in [R.LbrynetServer] is new and mirrors a row with that id.  A user with a
    null or dangling id keeps the server it had. *)
Lemma LoadLbrynetServer_slice (hs : ModelHooks World unit) ls w :
  userHooks hs AfterSelectHook = [] → NoDup ls → (∀ l, l ∈ ls → is_Some (users w !! l)) → typed_servers (w_db w) →
  ∃ w', LoadLbrynetServer hs tt false ls None w = (ROk tt, w') ∧ w_db w' = w_db w ∧
    ∀ l u, l ∈ ls → users w !! l = Some u → ∃ u', users w' !! l = Some u' ∧ same_columns u u' ∧
      ((∃ sid r f s, u_LbrynetServerID u = Some sid ∧ r ∈ rows_of (w_db w) "lbrynet_servers" ∧ row_get r "id" = SInt sid ∧
          server_of u' = Some f ∧ servers w !! f = None ∧ servers w' !! f = Some s ∧ s_ID s = sid) ∨
       (server_of u' = server_of u ∧ ∀ sid r, u_LbrynetServerID u = Some sid → r ∈ rows_of (w_db w) "lbrynet_servers" → row_get r "id" ≠ SInt sid)).
Proof using QS QES.
  intros Hh Hnd Hls Hty. unfold LoadLbrynetServer, load_to_one. rewrite Hh.
  destruct (load_args_spec ls [] w Hls) as (args & us0 & Hrun0 & Hus0 & Hargs).
  rewrite (bind_ok _ _ _ _ _ Hrun0). set (w0 := set_users us0 w).
  assert (∀ l u, l ∈ ls → users w !! l = Some u → us0 !! l = Some (user_withR id u)) as Hus0'.
  { intros l u Hl Hu. rewrite Hus0, decide_True by done. by rewrite Hu. }
  assert (∀ u, same_columns u (user_withR id u) ∧ server_of (user_withR id u) = server_of u) as Hid.
  { intros [? ? ? ? ? ? ? [[]|]]; done. }
  destruct (decide (args = [])) as [Hnil|Hne].
  { exists w0. split; [done|]. split; [done|]. intros l u Hl Hu. exists (user_withR id u). split; [by apply Hus0'|].
    split; [apply Hid|]. right. split; [apply Hid|]. intros sid r Hsid _ _.
    assert (SInt sid ∈ args) as Hin; [|rewrite Hnil in Hin; by apply not_elem_of_nil in Hin].
    apply Hargs. right. split; [done|]. exists l, u. by rewrite Hsid. }
  destruct (fetch_servers "LbrynetServer" "of eager load for" args w0 Hty) as (fs & ss & Hrun1 & Hkeep & Hndf & Hfresh & Hall).
  rewrite (bind_ok _ _ _ _ _ Hrun1). cbn [length]. rewrite decide_True by done. rewrite (bind_ok _ _ _ tt (set_servers ss w0)) by done.
  set (w1 := set_servers ss w0).
  assert (∀ f, f ∈ fs → is_Some (servers w1 !! f)) as Hfs.
  { intros f [i Hi]%list_elem_of_lookup. destruct (Forall2_lookup_l _ _ _ _ _ Hall Hi) as (r & _ & o & Ho & _). by exists o. }
  destruct (attach_all ls fs w1 Hnd) as (us & ss' & Hrun2 & Hss & _ & Hin); [|done|].
  { intros l Hl. destruct (Hls l Hl) as [u Hu]. exists (user_withR id u). by apply Hus0'. }
  exists (set_servers ss' (set_users us w1)). split.
  { destruct fs as [|f fs]; [|done]. rewrite <-Hrun2. clear. induction ls as [|l ls IH]; [done|]. exact IH. }
  split; [done|]. intros l u Hl Hu. destruct (Hin l (user_withR id u) Hl (Hus0' _ _ Hl Hu)) as (u' & Hu' & Hsc & Hm).
  exists u'. split; [done|]. split; [unfold same_columns in *; etrans; [apply Hid|exact Hsc]|].
  destruct Hm as [(f & Hf & Hsf)|[Hsf Hno]].
  - left. pose proof Hf as (Hf1 & o & Ho & E). destruct (u_LbrynetServerID u) as [sid|] eqn:Hsid; [|by cbn in E; rewrite Hsid in E].
    assert (SInt sid ∈ args) as Harg by (apply Hargs; right; split; [done|]; exists l, u; by rewrite Hsid).
    destruct (proj1 (loaded_matches args fs ss (rows_of (w_db w) "lbrynet_servers") (user_withR id u) sid Hall Hsid Harg)) as (r & Hr & Er); [by exists f|].
    destruct (Hss _ _ Ho) as (s & Hs & Es). exists sid, r, f, s. split; [done|]. split; [done|]. split; [done|]. split; [done|].
    split; [by apply Hfresh|]. split; [done|]. cbn in E. rewrite Hsid in E. cbn in E. congruence.
  - right. split; [by rewrite Hsf; apply Hid|]. intros sid r Hsid Hr Er.
    assert (SInt sid ∈ args) as Harg by (apply Hargs; right; split; [done|]; exists l, u; by rewrite Hsid).
    destruct (proj2 (loaded_matches args fs ss (rows_of (w_db w) "lbrynet_servers") (user_withR id u) sid Hall Hsid Harg)) as (f & Hf); [by exists r|].
    by apply (Hno f).
Qed.
End loading.

(** ** Users with their servers *)

Section users.
Context {PT : PgTypes}.
Context {BC : BoilColumns} {Q : Queries} {QS : QueriesSpec} {QE : QueriesEqual} {QES : QueriesEqualSpec}.

(** Scanning columns leaves the relations alone, and they are no column. *)
Lemma assign_all_R cs vs u u' : assign_all userStruct u cs vs = Some u' → u_R u' = u_R u.
Proof.
  revert u vs. induction cs as [|c cs IH]; intros u [|v vs]; cbn [assign_all]; try done; [by intros [= <-]|].
  destruct (assign userStruct u c v) as [u1|] eqn:E; [|done]. intros H. rewrite (IH _ _ H).
  unfold assign in E. destruct (field_of userStruct c) as [f|] eqn:Ef; [|done]. apply field_of_Some in Ef as [Hf _].
  fields Hf; destruct v; cbn in E; try done; by injection E as <-.
Qed.

Lemma value_of_R u u' c : same_columns u u' → value_of userStruct u c = value_of userStruct u' c.
Proof.
  intros H. unfold value_of. destruct (field_of userStruct c) as [f|] eqn:E; [|done]. apply field_of_Some in E as [Hf _].
  destruct u, u'. unfold same_columns, set_u_R in H. cbn in H. injection H as -> -> -> -> -> -> ->. fields Hf; done.
Qed.

Definition typed_users (d : DB) : Prop := ∀ r, r ∈ rows_of d "users" → ∃ u, mirrors userTable r u.

(** The server a user has, against the rows of the servers' table. *)
Definition has_server (w : World) (u : User) : Prop :=
  match server_of u with
  | Some f => ∃ s sid, servers w !! f = Some s ∧ s_ID s = sid ∧ u_LbrynetServerID u = Some sid ∧
                       ∃ r, r ∈ rows_of (w_db w) "lbrynet_servers" ∧ row_get r "id" = SInt sid
  | None => ∀ sid r, u_LbrynetServerID u = Some sid → r ∈ rows_of (w_db w) "lbrynet_servers" → row_get r "id" ≠ SInt sid
  end.

Definition selects (q : Query) : Prop := q_from q = "users" ∧ q_update q = None ∧ q_delete q = false ∧ q_count q = false.

Lemma run_rows_users q w :
  selects q → ∃ rs, rs ⊆ rows_of (w_db w) "users" ∧
    rs = match q_limit q with Some n => take (Z.to_nat n) (filter (λ r, query_holds q r = true) (rows_of (w_db w) "users")) | None => filter (λ r, query_holds q r = true) (rows_of (w_db w) "users") end ∧
    run_rows (W := World) (X := unit) tt (SQuery q) [] w = (ROk (map (project userAllColumns) rs), w).
Proof.
  intros (Hf & Hu & Hd & Hc). eexists. split; [|split; [reflexivity|]].
  - intros r Hr. assert (r ∈ filter (λ r, query_holds q r = true) (rows_of (w_db w) "users")) as Hr'.
    { destruct (q_limit q); [by eapply elem_of_take in Hr as (? & ? & _); eapply list_elem_of_lookup_2|done]. }
    by apply list_elem_of_filter in Hr' as [_ ?].
  - unfold run_rows, bind. cbn -[pg_run]. unfold run_stmt, bind, pg_run. cbn [stmt_table]. rewrite Hf.
    change (schemas !! "users") with (Some users_schema). unfold pg_query, pg_select. rewrite Hu, Hd, Hc, Hf.
    replace (forallb (clause_ok users_schema) (q_where q)) with true; [by destruct w|].
    symmetry. apply forallb_forall. by intros [] _.
Qed.

(** C35: Users selected with [qm.Load("LbrynetServer")]: one object per row, with the
    row's columns, and in [R.LbrynetServer] the server its [lbrynet_server_id]
    names, or nil when there is none. *)
Theorem users_loaded_with_servers (hs : ModelHooks World unit) q w :
  userHooks hs AfterSelectHook = [] → selects q → q_load q = ["LbrynetServer"] → q_limit q = None →
  typed_users (w_db w) → typed_servers (w_db w) →
  ∃ ls w', User_All hs tt q w = (ROk ls, w') ∧ w_db w' = w_db w ∧
    Forall2 (λ l r, ∃ u, users w' !! l = Some u ∧ mirrors userTable r u ∧ has_server w' u)
      ls (filter (λ r, query_holds q r = true) (rows_of (w_db w) "users")).
Proof using QS QES.
  intros Hh Hq Hload Hlim Htu Hts. destruct (run_rows_users q w Hq) as (rs & Hsub & Hrs & Hrun). rewrite Hlim in Hrs. rewrite <-Hrs.
  destruct (bind_rows_ok _ _ user_table_ok rs w) as (ls & w1 & Hbind & [us ->] & _ & Hnd & Hfresh & Hall); [intros r Hr; by apply Htu, Hsub|].
  set (w1 := set_mem (with_objs (λ _, us) (mem w)) w) in *.
  assert (bind_all userTable (X := unit) tt (SQuery q) [] w = (ROk ls, w1)) as Hba by (unfold bind_all; by rewrite (bind_ok _ _ _ _ _ Hrun)).
  assert (∀ l, l ∈ ls → is_Some (users w1 !! l)) as Hls.
  { intros l [i Hi]%list_elem_of_lookup. destruct (Forall2_lookup_l _ _ _ _ _ Hall Hi) as (r & _ & o & Ho & _). by exists o. }
  destruct (LoadLbrynetServer_slice hs ls w1 Hh Hnd Hls Hts) as (w2 & Hload2 & Hdb & Hin).
  exists ls, (if decide (ls = []) then w1 else w2). split.
  { unfold User_All, All. rewrite Hload, Hh. cbn [length].
    rewrite (bind_ok _ _ _ ls (if decide (ls = []) then w1 else w2)); [by rewrite decide_True by done|].
    unfold wrapping. rewrite (bind_ok _ _ _ _ _ Hba). case_decide; [done|]. cbn [eager_all].
    rewrite (bind_ok _ _ _ tt w2); [done|]. rewrite (bind_ok _ _ _ tt w2); [done|exact Hload2]. }
  split; [by case_decide|]. case_decide as Hnil.
  { subst ls. apply Forall2_nil_inv_l in Hall as ->. constructor. }
  apply Forall2_same_length_lookup. split; [by eapply Forall2_length|]. intros i l r Hl Hr.
  destruct (Forall2_lookup_lr _ _ _ _ _ _ Hall Hl Hr) as (u & Hu & Hbound).
  assert (server_of u = None) as Hnone by (unfold server_of; by rewrite (assign_all_R _ _ _ _ Hbound)).
  destruct (Hin l u) as (u' & Hu' & Hsc & Hm); [by eapply list_elem_of_lookup_2|exact Hu|].
  assert (u_LbrynetServerID u' = u_LbrynetServerID u) as Hsid.
  { destruct u, u'. unfold same_columns, set_u_R in Hsc. cbn in *. congruence. }
  exists u'. split; [done|]. split.
  { intros c Hc. rewrite (bound_mirrors _ _ user_table_ok _ _ Hbound c Hc). by apply value_of_R. }
  unfold has_server. rewrite Hdb, Hsid. destruct Hm as [(sid & r' & f & s & H1 & H2 & H3 & -> & _ & H5 & H6)|[-> Hno]].
  - exists s, sid. split; [done|]. split; [done|]. split; [done|]. by exists r'.
  - rewrite Hnone. exact Hno.
Qed.
End users.

Module RelationWitnesses.
Import Reference Witnesses.

#[local] Instance equal : QueriesEqual := λ a b, bool_decide (a = b).
#[local] Instance equal_spec : QueriesEqualSpec.
Proof. by intros a b. Qed.

Definition sdk3 : LbrynetServer := mkLbrynetServer 3 "sdk3" "http://sdk3" 1 5000 5000 false None.
Definition row_of_server (s : LbrynetServer) : Row :=
  fill lbrynet_servers_schema (zip lbrynetServerAllColumns (map (value_of lbrynetServerStruct s) lbrynetServerAllColumns)) 1 0.
Definition row_of_user (u : User) : Row :=
  fill users_schema (zip userAllColumns (map (value_of userStruct u) userAllColumns)) 1 0.
Definition eve : User := mkUser 8 5000 5000 None (Some 9) None None None.
Definition db2 : DB := set_rows "users" [row_of_user bob; row_of_user eve] (set_rows "lbrynet_servers" [row_of_server sdk3] empty_db).

Lemma mirrors_row_of_user u : mirrors userTable (row_of_user u) u.
Proof. intros c Hc. unfold row_of_user. rewrite fill_get by done. by rewrite decide_True. Qed.
Lemma mirrors_row_of_server s : mirrors lbrynetServerTable (row_of_server s) s.
Proof. intros c Hc. unfold row_of_server. rewrite fill_get by done. by rewrite decide_True. Qed.

Lemma users_loaded_with_servers_witness :
  ∃ ls w', User_All no_hooks tt (Users [qm_Load "LbrynetServer"]) (world0 db2) = (ROk ls, w') ∧ w_db w' = db2 ∧ length ls = 2%nat ∧
    Forall2 (λ l r, ∃ u, users w' !! l = Some u ∧ mirrors userTable r u ∧ has_server w' u) ls
      (filter (λ r, query_holds (Users [qm_Load "LbrynetServer"]) r = true) (rows_of db2 "users")).
Proof.
  destruct (users_loaded_with_servers no_hooks (Users [qm_Load "LbrynetServer"]) (world0 db2)) as (ls & w' & Hrun & Hdb & Hall).
  - reflexivity.
  - split; [reflexivity|]. split; [reflexivity|]. split; reflexivity.
  - reflexivity.
  - reflexivity.
  - intros r Hr. change (r ∈ [row_of_user bob; row_of_user eve]) in Hr.
    apply elem_of_cons in Hr as [->|Hr]; [exists bob; apply mirrors_row_of_user|].
    apply list_elem_of_singleton in Hr as ->. exists eve. apply mirrors_row_of_user.
  - intros r Hr. change (r ∈ [row_of_server sdk3]) in Hr. apply list_elem_of_singleton in Hr as ->. exists sdk3. apply mirrors_row_of_server.
  - exists ls, w'. split; [exact Hrun|]. split; [exact Hdb|]. split; [|exact Hall]. apply Forall2_length in Hall. exact Hall.
Defined.

(** ** [RemoveLbrynetServer] *)

(** A server with two users in its slice, both loaded. *)
Definition linked : World :=
  let a := set_u_R (Some (mkUserR (Some 1%positive) [] [])) (set_u_LbrynetServerID (Some 3) bob) in
  let b := set_u_R (Some (mkUserR (Some 1%positive) [] [])) (set_u_LbrynetServerID (Some 3) eve) in
  mkWorld (mkMem {[1%positive := a; 2%positive := b]} ∅ ∅ ∅)
    (mkMem {[1%positive := set_s_R (Some (mkLbrynetServerR [1%positive; 2%positive])) sdk3]} ∅ ∅ ∅)
    empty_mem empty_mem empty_mem empty_mem empty_mem db2 1000.

(** Removing the server of the first user drops the second one from the server's
    slice and keeps the first: the loop looks for a key different from the one just
    set to null. *)
Lemma remove_server_drops_another :
  (RemoveLbrynetServer no_hooks tt 1%positive (Some 1%positive) linked).1 = ROk tt ∧
  (s_R <$> servers (RemoveLbrynetServer no_hooks tt 1%positive (Some 1%positive) linked).2 !! 1%positive)
    = Some (Some (mkLbrynetServerR [1%positive])).
Proof. split; vm_compute; reflexivity. Qed.

(** A user whose relations were never loaded: the row is updated, then the method
    panics on the nil [R]. *)
Lemma remove_server_panics :
  let w := with_bob db2 in
  let '(r, w') := RemoveLbrynetServer no_hooks tt 1%positive None w in
  r = RPanic "invalid memory address or nil pointer dereference" ∧
  map (λ r, row_get r "lbrynet_server_id") (rows_of (w_db w') "users") = [SNull; SInt 9].
Proof. vm_compute. split; reflexivity. Qed.
End RelationWitnesses.
