(* ===== verification/Settings.v ===== *)
(** * Settings

    Models [config/config.go] and [apps/lbrytv/config/config.go]: the settings the
    other components read, the choice of SDK servers, time-outs per method, and the
    overriding of settings with its restoring.

    The settings library (viper) is a parameter: [Viper], with the laws of [Get] and
    [Set] in [ViperSpec].  Reading the configuration file and binding environment
    variables at start-up are left out. *)

From S2P Require Import Prelude GoLib Rpc Errors Services Boil Models Relations.
From Stdlib Require Import Ascii String.

Local Open Scope Z_scope.
Local Open Scope string_scope.

Class Viper (V : Type) := {
  v_Get : V → string → value;
  v_Set : V → string → value → V;
  v_SetDefault : V → string → value → V;
  v_GetString : V → string → string;
  v_GetBool : V → string → bool;
  v_GetInt : V → string → Z;
  v_GetDuration : V → string → Z;
  v_GetStringSlice : V → string → list string;
  v_GetStringMapString : V → string → gmap string string;
  v_UnmarshalDB : V → string * string }.               (* UnmarshalKey("Database"): DBName, Options *)

Record DBConfig := mkDBConfig { Connection : string; DBName : string; Options : string }.
Record ConfigWrapper (V : Type) := mkConfig { cw_Viper : V; cw_configName : string; cw_overridden : gmap string value }.
Arguments mkConfig {V}. Arguments cw_Viper {V}. Arguments cw_configName {V}. Arguments cw_overridden {V}.

Definition GetFullDSN (c : DBConfig) : string := Connection c.
Definition GetDBName (c : DBConfig) : string := DBName c.

Section wrapper.
Context {V : Type} `{!Viper V}.
Implicit Types c : ConfigWrapper V.

Definition cw_IsProduction c : bool := negb (v_GetBool (cw_Viper c) "Debug").
Definition cw_GetDatabase c : DBConfig :=
  let '(name, options) := v_UnmarshalDB (cw_Viper c) in mkDBConfig (v_GetString (cw_Viper c) "DatabaseDSN") name options.

Definition cw_Override (key : string) (val : value) c : ConfigWrapper V :=
  mkConfig (v_Set (cw_Viper c) key val) (cw_configName c) (<[key := v_Get (cw_Viper c) key]> (cw_overridden c)).

Definition cw_RestoreOverridden c : ConfigWrapper V :=
  if decide (cw_overridden c = ∅) then c else
  mkConfig (foldl (λ v '(k, val), v_Set v k val) (cw_Viper c) (map_to_list (cw_overridden c))) (cw_configName c) ∅.
End wrapper.

(** ** The settings of the API server *)

Section settings.
Context {V : Type} `{!Viper V} (ToDuration : string → Z).             (* cast.ToDuration *)
Implicit Types c : ConfigWrapper V.

Definition lbrynetServers : string := "LbrynetServers".
Definition deprecatedLbrynetSetting : string := "Lbrynet".

Record LoggingOpts := mkLoggingOpts { lo_level : string; lo_format : string }.

Definition str (key : string) c : string := v_GetString (cw_Viper c) key.
Definition IsProduction c : bool := cw_IsProduction c.
Definition GetInternalAPIHost c : string := str "InternalAPIHost" c.
Definition oauth c : gmap string string := v_GetStringMapString (cw_Viper c) "oauth".
Definition GetOauthProviderURL c : string := default "" (oauth c !! "providerurl").
Definition GetOauthClientID c : string := default "" (oauth c !! "clientid").
Definition GetOauthTokenURL c : string := default "" (oauth c !! "providerurl") +:+ default "" (oauth c !! "tokenpath").
Definition GetSturdyCacheMaster c : string := str "sturdycache.master" c.
Definition GetSturdyCacheReplicas c : list string := v_GetStringSlice (cw_Viper c) "sturdycache.replicas".
Definition GetSturdyCachePassword c : string := str "sturdycache.password" c.
Definition GetDatabase c : DBConfig := cw_GetDatabase c.
Definition GetSentryDSN c : string := str "SentryDSN" c.
Definition GetPublishSourceDir c : string := str "PublishSourceDir" c.
Definition GetGeoPublishSourceDir c : string := str "GeoPublishSourceDir" c.
(** The default is stored by the first call. *)
Definition GetGeoPublishConcurrency c : Z * ConfigWrapper V :=
  let v := v_SetDefault (cw_Viper c) "GeoPublishConcurrency" (VInt 3) in
  (v_GetInt v "GeoPublishConcurrency", mkConfig v (cw_configName c) (cw_overridden c)).
Definition ShouldLogResponses c : bool := v_GetBool (cw_Viper c) "ShouldLogResponses".
Definition GetPaidTokenPrivKey c : string := str "PaidTokenPrivKey" c.
Definition GetUploadTokenPrivateKey c : string := TrimSpace (str "UploadTokenPrivateKey" c).
Definition GetUploadServiceURL c : string := str "UploadServiceURL" c.
Definition GetStreamsV5 c : gmap string string := v_GetStringMapString (cw_Viper c) "StreamsV5".
Definition GetStreamsV6 c : gmap string string := v_GetStringMapString (cw_Viper c) "StreamsV6".
Definition GetArfleetCDN c : string := str "ArfleetCDN" c.
Definition GetArfleetEnabled c : bool := v_GetBool (cw_Viper c) "ArfleetEnabled".
Definition GetAddress c : string := str "Address" c.
Definition GetSimpleAdminToken c : string := str "SimpleAdminToken" c.
Definition GetTokenCacheTimeout c : Z := v_GetDuration (cw_Viper c) "TokenCacheTimeout".
Definition GetCacheGetterRetries c : Z := v_GetInt (cw_Viper c) "CacheGetterRetries".
Definition GetCacheGetterInterval c : Z := v_GetDuration (cw_Viper c) "CacheGetterInterval".
Definition GetCORSDomains c : list string := v_GetStringSlice (cw_Viper c) "CORSDomains".
Definition GetRPCTimeout (method : string) c : option Z :=
  match v_GetStringMapString (cw_Viper c) "RPCTimeouts" !! method with
  | Some t => Some (ToDuration t)
  | None => None
  end.
Definition GetProfiling c : bool := v_GetBool (cw_Viper c) "Profiling".
Definition GetLoggingOpts c : LoggingOpts := mkLoggingOpts (str "logging.level" c) (str "logging.format" c).
Definition Override (key : string) (val : value) c : ConfigWrapper V := cw_Override key val c.
Definition RestoreOverridden c : ConfigWrapper V := cw_RestoreOverridden c.

Section servers.
Context {W X : Type} {Ex : Executor W X} {BC : BoilColumns} {Q : Queries} {QE : QueriesEqual}.
Context {MU : Model W User} {MS : Model W LbrynetServer} {MUp : Model W Upload} {MA : Model W Asynquery}
  {MP : Model W PublishQuery} {MQ : Model W QueryLog} {MG : Model W GorpMigration}.
Context (hs : ModelHooks W X).

(** The servers of the configuration; [None] is a nil map, which makes the router read
    the database. *)
Definition GetLbrynetServers c : Go W (option (gmap string string)) :=
  let deprecated := str deprecatedLbrynetSetting c in
  let servers := v_GetStringMapString (cw_Viper c) lbrynetServers in
  if negb (String.eqb deprecated "") && (0 <? size servers)%nat then gopanic "only one of Lbrynet and LbrynetServers can be set"
  else if (0 <? size servers)%nat then ret (Some servers)
  else if negb (String.eqb deprecated "") then ret (Some {["sdk" := deprecated]})
  else
    let! r := try (LbrynetServer_AllG hs (LbrynetServers [])) in
    match r with
    | inl err => gopanic ("Could not retrieve lbrynet server list from db: " +:+ Error err)
    | inr [] => gopanic "There are no servers listed in the db and config is not set."
    | inr _ => ret None
    end.
End servers.
End settings.

(** ** Overriding and restoring *)

Definition flat (k : string) : bool := all_chars (λ ch, negb (Ascii.eqb ch ".")) k.

(** Keys do not depend on case; a set value is found under its key and changes no
    other key.  Keys with dots name settings inside others and are left out, as is
    setting nil, which uncovers the value below. *)
Class ViperSpec {V} {VP : Viper V} := {
  v_Get_case (v : V) k k' : ToLower k = ToLower k' → v_Get v k = v_Get v k';
  v_Get_Set (v : V) k k' x : flat k = true → flat k' = true → x ≠ VNil →
    v_Get (v_Set v k x) k' = if decide (ToLower k = ToLower k') then x else v_Get v k' }.

Section override.
Context {V : Type} {VP : Viper V} {VS : ViperSpec}.
Implicit Types c : ConfigWrapper V.

Definition overrides (kvs : list (string * value)) c : ConfigWrapper V := foldl (λ c '(k, x), Override k x c) c kvs.
Definition lower_keys (kvs : list (string * value)) : list string := map (λ kv, ToLower kv.1) kvs.
Definition settable (kvs : list (string * value)) : Prop :=
  Forall (λ kv, flat kv.1 = true ∧ kv.2 ≠ VNil) kvs ∧ NoDup (lower_keys kvs).

Lemma lower_elem kvs k x : (k, x) ∈ kvs → ToLower k ∈ lower_keys kvs.
Proof. intros Hin. apply list_elem_of_fmap. by exists (k, x). Qed.

Lemma NoDup_fmap_fst_lower (l : list (string * value)) :
  (∀ k1 y1 k2 y2, (k1, y1) ∈ l → (k2, y2) ∈ l → ToLower k1 = ToLower k2 → k1 = k2) → NoDup l.*1 → NoDup (lower_keys l).
Proof.
  induction l as [|[k y] l IH]; intros Hinj Hnd; [constructor|]. cbn in Hnd |- *. apply NoDup_cons in Hnd as [Hk Hnd]. constructor.
  - intros ([k' y'] & E & Hin)%list_elem_of_fmap. cbn in E. apply Hk. rewrite (Hinj k y k' y' ltac:(by left) ltac:(by right) E).
    by apply (list_elem_of_fmap_2 fst _ (k', y')).
  - apply IH; [|done]. intros; eapply Hinj; [right..|]; done.
Qed.

(** Overridden keys are told apart by their lower-case form. *)
Lemma lower_inj kvs k1 k2 : NoDup (lower_keys kvs) → k1 ∈ kvs.*1 → k2 ∈ kvs.*1 → ToLower k1 = ToLower k2 → k1 = k2.
Proof.
  intros Hnd ([k1' x1] & -> & H1)%list_elem_of_fmap ([k2' x2] & -> & H2)%list_elem_of_fmap E. cbn in *.
  apply list_elem_of_lookup in H1 as [i Hi]. apply list_elem_of_lookup in H2 as [j Hj].
  assert (i = j) as ->; [|congruence]. apply (NoDup_lookup (lower_keys kvs) i j (ToLower k1') Hnd); unfold lower_keys; rewrite list_lookup_fmap.
  - by rewrite Hi.
  - rewrite Hj. cbn. by rewrite E.
Qed.

(** Setting several keys. *)
Definition set_all (kvs : list (string * value)) (v : V) : V := foldl (λ v '(k, x), v_Set v k x) v kvs.

Lemma set_all_other kvs v k : settable kvs → flat k = true → ToLower k ∉ lower_keys kvs → v_Get (set_all kvs v) k = v_Get v k.
Proof using VS.
  unfold settable. revert v. induction kvs as [|[k0 x0] kvs IH]; intros v [Hok Hnd] Hf Hn; [done|].
  apply Forall_cons in Hok as [[Hf0 Hx0] Hok]. apply NoDup_cons in Hnd as [_ Hnd]. apply not_elem_of_cons in Hn as [Hne Hn]. cbn in Hne, Hf0, Hx0.
  change (set_all _ v) with (set_all kvs (v_Set v k0 x0)). rewrite IH by done. rewrite v_Get_Set by done. by rewrite decide_False by congruence.
Qed.

Lemma set_all_in kvs v k x : settable kvs → (k, x) ∈ kvs → v_Get (set_all kvs v) k = x.
Proof using VS.
  unfold settable. revert v. induction kvs as [|[k0 x0] kvs IH]; intros v [Hok Hnd] Hin; [by apply not_elem_of_nil in Hin|].
  apply Forall_cons in Hok as [[Hf0 Hx0] Hok]. apply NoDup_cons in Hnd as [Hn Hnd]. cbn in Hf0, Hx0, Hn.
  change (set_all _ v) with (set_all kvs (v_Set v k0 x0)). apply elem_of_cons in Hin as [[= -> ->]|Hin]; [|by apply IH].
  rewrite set_all_other by done. rewrite v_Get_Set by done. by rewrite decide_True.
Qed.

(** [Override] sets the values and records the ones there were. *)
Lemma overrides_viper kvs c : cw_Viper (overrides kvs c) = set_all kvs (cw_Viper c).
Proof using Type. revert c. induction kvs as [|[k x] kvs IH]; intros c; [done|]. apply (IH (Override k x c)). Qed.

Lemma overrides_recorded kvs c k :
  settable kvs → cw_overridden (overrides kvs c) !! k =
    if decide (k ∈ kvs.*1) then Some (v_Get (cw_Viper c) k) else cw_overridden c !! k.
Proof using VS.
  unfold settable. revert c. induction kvs as [|[k0 x0] kvs IH]; intros c [Hok Hnd]; [done|].
  apply Forall_cons in Hok as [[Hf0 Hx0] Hok]. apply NoDup_cons in Hnd as [Hn Hnd]. cbn in Hf0, Hx0, Hn.
  change (overrides _ c) with (overrides kvs (Override k0 x0 c)). rewrite IH by done. cbn.
  destruct (decide (k ∈ kvs.*1)) as [Hin|Hin].
  - rewrite (decide_True (P := k ∈ k0 :: kvs.*1)) by (by right). f_equal. apply list_elem_of_fmap in Hin as ([k' x'] & -> & Hin).
    rewrite v_Get_Set; [|done|by apply (proj1 (Forall_forall _ _) Hok (k', x') Hin)|done].
    rewrite decide_False; [done|]. cbn. intros E. apply Hn. rewrite E. by eapply lower_elem.
  - destruct (decide (k = k0)) as [->|Hne].
    + rewrite lookup_insert_eq. by rewrite decide_True by (by left).
    + rewrite lookup_insert_ne by done. by rewrite decide_False by (by intros [?|?]%elem_of_cons).
Qed.

(** Settings that were overridden, each once, are all restored, and nothing is left
    recorded. *)
Theorem RestoreOverridden_restores kvs c k :
  cw_overridden c = ∅ → settable kvs → (∀ k x, (k, x) ∈ kvs → v_Get (cw_Viper c) k ≠ VNil) → flat k = true →
  cw_overridden (RestoreOverridden (overrides kvs c)) = ∅ ∧
  v_Get (cw_Viper (RestoreOverridden (overrides kvs c))) k = v_Get (cw_Viper c) k.
Proof using VS.
  intros He Hs Hset Hf. unfold RestoreOverridden, cw_RestoreOverridden.
  assert (∀ k, cw_overridden (overrides kvs c) !! k = if decide (k ∈ kvs.*1) then Some (v_Get (cw_Viper c) k) else None) as Hrec.
  { intros k'. rewrite (overrides_recorded kvs c k' Hs), He. done. }
  set (m := cw_overridden (overrides kvs c)) in *.
  assert (∀ k' y, (k', y) ∈ map_to_list m ↔ k' ∈ kvs.*1 ∧ y = v_Get (cw_Viper c) k') as Hm.
  { intros k' y. rewrite elem_of_map_to_list, Hrec. case_decide; naive_solver. }
  assert (settable (map_to_list m)) as Hsm.
  { split.
    - apply Forall_forall. intros [k' y] [Hin ->]%Hm. apply list_elem_of_fmap in Hin as ([k1 x1] & -> & Hin).
      split; [by apply (proj1 (Forall_forall _ _) (proj1 Hs) _ Hin)|by apply (Hset k1 x1)].
    - unfold lower_keys. assert (NoDup (map (λ kv : string * value, ToLower kv.1) kvs)) as Hnd by apply Hs.
      apply NoDup_fmap_fst_lower; [|apply NoDup_fst_map_to_list]. intros k1 y1 k2 y2 [H1 _]%Hm [H2 _]%Hm E.
      by eapply lower_inj. }
  case_decide as Hm0; cbn.
  - split; [done|]. assert (kvs = []) as ->; [|done]. destruct kvs as [|[k0 x0] kvs]; [done|]. specialize (Hrec k0). rewrite Hm0 in Hrec.
    rewrite decide_True in Hrec by (by left). done.
  - split; [done|]. fold (set_all (map_to_list m) (cw_Viper (overrides kvs c))). rewrite overrides_viper.
    destruct (decide (ToLower k ∈ lower_keys (map_to_list m))) as [Hin|Hin].
    + apply list_elem_of_fmap in Hin as ([k' y] & E & Hin). cbn in E. rewrite (v_Get_case _ k k') by done.
      rewrite (set_all_in _ _ _ _ Hsm Hin). apply Hm in Hin as [_ ->]. by apply v_Get_case.
    + rewrite set_all_other by done. apply set_all_other; [done..|]. intros ([k' x'] & E & Hk')%list_elem_of_fmap. apply Hin.
      cbn in E. rewrite E. apply (lower_elem _ _ (v_Get (cw_Viper c) k')), Hm. split; [|done]. by apply (list_elem_of_fmap_2 fst _ (k', x')).
Qed.
End override.

(** ** A store of settings *)

Module MapViper.
Abbreviation Store := (gmap string value).
Definition get_str (v : Store) (k : string) : string := match v !! ToLower k with Some (VStr s) => s | _ => "" end.
#[export] Instance store : Viper Store := {|
  v_Get v k := default VNil (v !! ToLower k);
  v_Set v k x := <[ToLower k := x]> v;
  v_SetDefault v k x := match v !! ToLower k with Some _ => v | None => <[ToLower k := x]> v end;
  v_GetString := get_str;
  v_GetBool v k := match v !! ToLower k with Some (VBool b) => b | _ => false end;
  v_GetInt v k := match v !! ToLower k with Some (VInt z) => z | _ => 0 end;
  v_GetDuration v k := match v !! ToLower k with Some (VInt z) => z | _ => 0 end;
  v_GetStringSlice v k := match v !! ToLower k with Some (VStrs l) => l | _ => [] end;
  v_GetStringMapString v k := match v !! ToLower k with Some (VMap m) => omap as_string m | _ => ∅ end;
  v_UnmarshalDB v := ("oapi", "sslmode=disable") |}.
#[export] Instance store_spec : ViperSpec (V := Store).
Proof.
  split; [by intros v k k' E; cbn; rewrite E|]. intros v k k' x _ _ _. cbn.
  destruct (decide (ToLower k = ToLower k')) as [->|]; [by rewrite lookup_insert_eq|by rewrite lookup_insert_ne].
Qed.

Definition c0 : ConfigWrapper Store := mkConfig {["lbrynet" := VStr "http://sdk"; "debug" := VBool false]} "oapi" ∅.
Definition tests : list (string * value) := [("Lbrynet", VStr "http://other"); ("Debug", VBool true)].

Lemma RestoreOverridden_restores_witness :
  IsProduction (overrides tests c0) = false ∧ IsProduction (RestoreOverridden (overrides tests c0)) = true ∧
  v_Get (cw_Viper (RestoreOverridden (overrides tests c0))) "Lbrynet" = VStr "http://sdk".
Proof.
  split; [vm_compute; reflexivity|]. split; [vm_compute; reflexivity|].
  etrans; [apply (RestoreOverridden_restores tests c0 "Lbrynet")|vm_compute; reflexivity].
  - reflexivity.
  - split; [by repeat constructor|]. apply (bool_decide_unpack _). vm_compute. exact I.
  - intros k x Hin. unfold tests in Hin. repeat (apply elem_of_cons in Hin as [[= -> ->]|Hin]; [vm_compute; discriminate|]).
    by apply not_elem_of_nil in Hin.
  - reflexivity.
Defined.

(** A setting overridden twice comes back as the first override, not as it was. *)
Lemma overridden_twice_is_lost :
  let c := Override "Lbrynet" (VStr "http://b") (Override "Lbrynet" (VStr "http://a") c0) in
  v_Get (cw_Viper (RestoreOverridden c)) "Lbrynet" = VStr "http://a".
Proof. vm_compute. reflexivity. Qed.
End MapViper.
