(* ===== verification/AuditLog.v ===== *)
(** * The audit log

    Models [internal/audit/audit.go]: a call to the SDK that moves funds is recorded
    as a row of [query_log].  The row's statement is the generated code of [Models.v]. *)

From S2P Require Import Prelude GoLib Errors Boil Models Postgres BoilSpec ModelsSpec.

Local Open Scope Z_scope.

Section audit.
Context {W X : Type} {Ex : Executor W X} {BC : BoilColumns} {Q : Queries} {MQ : Model W QueryLog}.
Context (hs : ModelHooks W X).

Definition query_log_entry (userID : Z) (remoteIP method body : string) : QueryLog :=
  mkQueryLog 0 method 0 (Some userID) remoteIP (Some body).

(** An error of the insert is logged; the entry is returned all the same. *)
Definition LogQuery (userID : Z) (remoteIP method body : string) : Go W loc :=
  let! qLog := alloc (query_log_entry userID remoteIP method body) in
  let! err := try (QueryLog_InsertG hs (Some qLog) Infer) in
  ret qLog.

Lemma LogQuery_run userID remoteIP method body w l w1 :
  alloc (query_log_entry userID remoteIP method body) w = (ROk l, w1) →
  LogQuery userID remoteIP method body w =
    (match (QueryLog_InsertG hs (Some l) Infer w1).1 with RPanic p => RPanic p | _ => ROk l end, (QueryLog_InsertG hs (Some l) Infer w1).2).
Proof.
  intros Ha. unfold LogQuery. rewrite (bind_ok _ _ _ _ _ Ha). unfold bind, try.
  by destruct (QueryLog_InsertG hs (Some l) Infer w1) as [[]].
Qed.
End audit.

(** If the insert succeeds, exactly one row is added and it holds the user, the
    address, the method and the body of the call, normalised as its [jsonb] column does. *)
Theorem LogQuery_records {PT : PgTypes} {BC : BoilColumns} {BS : BoilColumnsSpec} {Q : Queries} {QS : QueriesSpec}
    (hs : ModelHooks World unit) userID remoteIP method body w l w1 w' :
  queryLogHooks hs BeforeInsertHook = [] → queryLogHooks hs AfterInsertHook = [] → caches_ok queryLogTable (mem w1) →
  alloc (query_log_entry userID remoteIP method body) w = (ROk l, w1) →
  QueryLog_InsertG hs (Some l) Infer w1 = (ROk tt, w') →
  LogQuery hs userID remoteIP method body w = (ROk l, w') ∧
  ∃ r, rows_of (w_db w') "query_log" = rows_of (w_db w) "query_log" ++ [r] ∧
    row_get r "user_id" = SInt userID ∧ row_get r "remote_ip" = SText remoteIP ∧
    row_get r "method" = SText method ∧ row_get r "body" = stored (SJSON body).
Proof.
  intros Hb Ha Hm Hal Hins. split; [rewrite (LogQuery_run _ _ _ _ _ _ _ _ Hal); by rewrite Hins|].
  pose proof queryLog_table_ok as HT. unfold QueryLog_InsertG, QueryLog_Insert in Hins.
  assert (Cols Infer ⊆ AllColumns queryLogTable) as Hl by (rewrite Cols_Infer; by intros ? ?%not_elem_of_nil).
  destruct (Insert_inv _ _ HT _ _ _ _ _ Hb Ha Hm Hl Hins) as (o & o' & ins & ret_ & d & n & rows & Ho & Hset & Hi & _ & _ & Hpg & _ & Hd & _).
  apply pg_insert_inv in Hpg as (_ & _ & _ & _ & Ed).
  assert (objs (mem w1) !! l = Some (query_log_entry userID remoteIP method body) ∧ w_db w1 = w_db w) as [Ho1 Hdb].
  { injection Hal as <- <-. destruct w. cbn. by rewrite lookup_insert_eq. }
  rewrite Ho in Ho1. injection Ho1 as ->.
  eexists. split; [rewrite Hd, Ed, Hdb, rows_of_set, decide_True by done; reflexivity|].
  destruct (insert_Infer _ _ _ _ _ _ Hset) as [Hin _].
  split_and!; (rewrite fill_get by in_list; rewrite decide_True; [done|rewrite Hin; left; in_list]).
Qed.

Module AuditRun.
Import Reference.

(** A payment of user 7 is on record. *)
Lemma LogQuery_records_witness :
  ∃ l w' r, LogQuery (no_hooks (X := unit)) 7 "203.0.113.9" "wallet_send" "{}" (world0 empty_db) = (ROk l, w') ∧
    rows_of (w_db w') "query_log" = [r] ∧ row_get r "user_id" = SInt 7 ∧ row_get r "method" = SText "wallet_send".
Proof.
  destruct (alloc (query_log_entry 7 "203.0.113.9" "wallet_send" "{}") (world0 empty_db)) as [[l|?|?] w1] eqn:Ea; [|discriminate Ea..].
  assert (w1 = (alloc (query_log_entry 7 "203.0.113.9" "wallet_send" "{}") (world0 empty_db)).2) as Hw1 by (by rewrite Ea).
  assert (l = 1%positive) as -> by (cbn in Ea; injection Ea as <- _; vm_compute; reflexivity).
  destruct (LogQuery_records (no_hooks (X := unit)) 7 "203.0.113.9" "wallet_send" "{}" (world0 empty_db) 1%positive w1
    (QueryLog_InsertG (no_hooks (X := unit)) (Some 1%positive) Infer w1).2) as (Hrun & r & Hrows & Hu & _ & Hm & _).
  - reflexivity.
  - reflexivity.
  - rewrite Hw1. apply empty_caches_ok.
  - exact Ea.
  - rewrite Hw1. vm_compute. reflexivity.
  - eexists _, _, r. split; [exact Hrun|]. split; [exact Hrows|]. split; [exact Hu|exact Hm].
Defined.
End AuditRun.
