(* ===== verification/CacheText.v ===== *)
(** * The query cache as text

    [json.Marshal] as [print] makes the cache keys concrete: requests read from JSON are
    kept apart by the wallet they act on.  The entries themselves: [MarshalBinary] and
    [UnmarshalBinary] of [CachedResponse] ([app/query/cache.go]), compressed JSON of a
    struct; the entry read back is the answer that was stored.  The compression
    ([pierrec/lz4]) and the JSON form of [jsonrpc.RPCError] are parameters. *)

From S2P Require Import Prelude GoLib Rpc Errors Query Router Iapi Http Services WalletDB Hashes Caller Access AccessSpec Cache CacheSpec Json.
From Stdlib Require Import Ascii String.

Local Open Scope string_scope.
Local Open Scope nat_scope.

(** ** Keys *)

#[local] Instance json_text : JSONMarshal := print.

Lemma decoded_VStr d s : valid_utf8 s = true → decoded d (VStr s).
Proof. intros H. by apply decoded_scalar. Qed.
Lemma decoded_members d (m : gmap string value) : decoded (S d) (VMap m) → map_Forall (λ k v, valid_utf8 k = true ∧ decoded d v) m.
Proof.
  intros [[p Hp] Hu Hh Hn] k v Hk. cbn [print] in Hp. apply fmap_Some in Hp as (es & Hes & _). apply members_Forall2 in Hes.
  cbn [utf8_value] in Hu. apply utf8_members in Hu. cbn [height] in Hh. apply le_S_n, height_members in Hh.
  apply elem_of_map_to_list in Hk as Hin. rewrite Forall_forall in Hu, Hh. destruct (Hu _ Hin) as [Hku Hvu]. split; [done|]. split.
  - apply list_elem_of_lookup in Hin as [i Hi]. destruct (Forall2_lookup_r _ _ _ _ _ Hes Hi) as (e & _ & _ & He). by eexists.
  - done.
  - apply (Hh _ Hin).
  - injection Hn as Hn. apply (f_equal (lookup k)) in Hn. rewrite lookup_fmap, Hk in Hn. by injection Hn.
Qed.
(** Setting a string keeps a map of parameters within JSON. *)
Lemma decoded_insert d v k s : decoded (S d) v → valid_utf8 k = true → valid_utf8 s = true →
  decoded (S d) (VMap (<[k := VStr s]> (default ∅ (as_map v)))).
Proof.
  intros Hv Hk Hs. apply decoded_map, map_Forall_insert_2; [by split; [|apply decoded_VStr]|].
  destruct v; try apply map_Forall_empty. cbn. by apply decoded_members.
Qed.

(** C30: Users do not share cache entries: queries of two different wallets for the same
    wallet-accepting method, [resolve] included, whose parameters were read from JSON,
    are never looked up under the same digest input. *)
Theorem cache_keys_isolate_json req1 req2 s1 s2 w1 w2 q1 q2 :
  unmarshal s1 = Some (Params req1) → unmarshal s2 = Some (Params req2) →
  NewQuery req1 w1 = ROk q1 → NewQuery req2 w2 = ROk q2 →
  Method req1 = Method req2 → Method req1 ∈ walletSpecificMethods →
  w1 ≠ "" → w2 ≠ "" → valid_utf8 w1 = true → valid_utf8 w2 = true → w1 ≠ w2 →
  cache_preimage (NewCacheRequest (q_Method q1) (q_Params q1) "") ≠
  cache_preimage (NewCacheRequest (q_Method q2) (q_Params q2) "").
Proof.
  intros Hs1 Hs2 Hq1 Hq2 Hm Hin Hw1 Hw2 Hu1 Hu2 Hne Heq.
  apply NewQuery_ok_inv in Hq1 as (_ & _ & _ & [(_ & _ & Hr1)|(_ & _ & [?|?])]); [|done..].
  apply NewQuery_ok_inv in Hq2 as (_ & _ & _ & [(_ & _ & Hr2)|(_ & _ & [?|?])]); [|congruence|done].
  unfold q_Method, q_Params in Heq. rewrite Hr1, Hr2 in Heq. simpl in Heq.
  apply cache_preimage_inj in Heq; [|done..]. simpl in Heq.
  assert (∀ s req w, unmarshal s = Some (Params req) → valid_utf8 w = true →
    decoded max_depth (VMap (<[ParamWalletID := VStr w]> (default ∅ (as_map (Params req)))))) as Hd.
  { intros s req w Hs Hw. apply unmarshal_decoded in Hs. by apply (decoded_insert (Nat.pred max_depth)). }
  destruct (Hd _ _ _ Hs1 Hu1) as [[p1 Hp1] U1 D1 N1], (Hd _ _ _ Hs2 Hu2) as [[p2 Hp2] U2 D2 N2].
  unfold json_Marshal, json_text in Heq. rewrite Hp1, Hp2 in Heq. simpl in Heq. subst p2.
  pose proof (print_inj _ _ _ Hp1 Hp2 U1 U2 D1 D2) as Hn. rewrite N1, N2 in Hn. injection Hn as Hn.
  apply (f_equal (lookup ParamWalletID)) in Hn. rewrite !lookup_insert_eq in Hn. by injection Hn.
Qed.
(** ** Entries *)

(** [pierrec/lz4]: the frame writer and reader. *)
Class LZ4 := {
  lz4_write : string → option string;
  lz4_read : string → option string;
}.
(** The JSON text of a [*jsonrpc.RPCError] that is not nil, and decoding a value into
    the one a pointer holds. *)
Class RPCErrorJSON := {
  error_print : RPCError → option string;
  error_decode : option RPCError → value → option RPCError;
}.

Section entries.
Context `{!LZ4, !RPCErrorJSON}.

Definition cached_text (r : CachedResponse) : option string :=
  res ← print (cr_Result r);
  err ← match cr_Error r with None => Some "null" | Some e => error_print e end;
  Some (struct_text [("Result", res); ("Error", err)]).

Definition MarshalBinary (r : CachedResponse) : option string :=
  val ← cached_text r; lz4_write val.

Definition decode_field (r : option CachedResponse) (e : string * value) : option CachedResponse :=
  r ← r;
  if String.eqb (fold_name e.1) "result" then Some {| cr_Result := e.2; cr_Error := cr_Error r |}
  else if String.eqb (fold_name e.1) "error" then
    match e.2 with
    | VNil => Some {| cr_Result := cr_Result r; cr_Error := None |}
    | v => x ← error_decode (cr_Error r) v; Some {| cr_Result := cr_Result r; cr_Error := Some x |}
    end
  else Some r.
Definition empty_cached : CachedResponse := {| cr_Result := VNil; cr_Error := None |}.

(** [decoder.Decode(r)] into an empty response. *)
Definition decode_cached (s : string) : option CachedResponse :=
  match decode_object s with
  | None => None
  | Some None => Some empty_cached
  | Some (Some es) => foldl decode_field (Some empty_cached) es
  end.

Definition UnmarshalBinary (data : string) : option CachedResponse :=
  s ← lz4_read data; decode_cached s.

(** What was encoded without an error is decoded as it was, numbers as literals. *)
Lemma decode_cached_text r s : cr_Error r = None → utf8_value (cr_Result r) = true → height (cr_Result r) < max_depth →
  cached_text r = Some s → decode_cached s = Some {| cr_Result := norm (cr_Result r); cr_Error := None |}.
Proof.
  intros He Hu Hh. unfold cached_text. rewrite He. destruct (print (cr_Result r)) as [p|] eqn:Hp; [|done]. cbn [mbind option_bind]. intros [= <-].
  unfold decode_cached. rewrite <-(app_empty_r (struct_text _)).
  rewrite (decode_struct [("Result", p); ("Error", "null")] [("Result", norm (cr_Result r)); ("Error", VNil)] ""); [done| |done].
  repeat constructor; cbn [fst snd]; [apply (print_parse _ _ Hp Hu); lia|].
  apply (print_parse VNil "null"); [done..|]. cbn. lia.
Qed.
Lemma cached_roundtrip r : (∀ s, ∃ b, lz4_write s = Some b ∧ lz4_read b = Some s) → cr_Error r = None →
  is_Some (print (cr_Result r)) → utf8_value (cr_Result r) = true → height (cr_Result r) < max_depth →
  ∃ b, MarshalBinary r = Some b ∧ UnmarshalBinary b = Some {| cr_Result := norm (cr_Result r); cr_Error := None |}.
Proof.
  intros Hz He [p Hp] Hu Hh. destruct (cached_text r) as [s|] eqn:Hs.
  2: { unfold cached_text in Hs. by rewrite He, Hp in Hs. }
  destruct (Hz s) as (b & Hb & Hr). exists b. unfold MarshalBinary, UnmarshalBinary. rewrite Hs, Hr. split; [done|]. by apply decode_cached_text.
Qed.

(** C31: A cache entry is read back as the answer that was stored: the result of an SDK
    answer, read from JSON with numbers kept as literals, survives [MarshalBinary] and
    [UnmarshalBinary] unchanged, provided the compression can be undone. *)
Theorem cached_response_roundtrip s m v :
  (∀ s, ∃ b, lz4_write s = Some b ∧ lz4_read b = Some s) →
  unmarshal s = Some (VMap m) → m !! "result" = Some v →
  ∃ b, MarshalBinary {| cr_Result := v; cr_Error := None |} = Some b ∧
       UnmarshalBinary b = Some {| cr_Result := v; cr_Error := None |}.
Proof.
  intros Hz Hs Hv. apply unmarshal_decoded, (decoded_members (Nat.pred max_depth)) in Hs. destruct (Hs _ _ Hv) as [_ [Hp Hu Hh Hn]].
  destruct (cached_roundtrip {| cr_Result := v; cr_Error := None |} Hz eq_refl Hp Hu) as (b & Hb & Hr).
  - cbn. unfold max_depth in *. lia.
  - exists b. split; [done|]. rewrite Hr. cbn. by rewrite Hn.
Qed.
End entries.

(** ** Concrete texts *)

Definition ex_lz4 : LZ4 := {| lz4_write := λ s, Some ("LZ" +:+ s); lz4_read := λ s, Some (TrimPrefix s "LZ") |}.
Definition ex_error_json : RPCErrorJSON := {| error_print := λ _, None; error_decode := λ _ _, None |}.
Definition jq (s : string) : string := String quote (s +:+ String quote "").
Definition ex_answer : string :=
  "{" +:+ jq "jsonrpc" +:+ ": " +:+ jq "2.0" +:+ ", " +:+ jq "result" +:+ ": {" +:+ jq "items" +:+ ": [{" +:+ jq "amount" +:+ ": 1.50, " +:+
  jq "name" +:+ ": " +:+ jq "caf\u00e9 <3" +:+ "}], " +:+ jq "total" +:+ ": 12345678901234567890}}".
Definition ex_result : value :=
  VMap {["items" := VList [VMap {["amount" := VNum "1.50"; "name" := VStr ("caf" +:+ encode_rune 233 +:+ " <3")]}]; "total" := VNum "12345678901234567890"]}.

Lemma cached_response_roundtrip_witness :
  @MarshalBinary ex_lz4 ex_error_json {| cr_Result := ex_result; cr_Error := None |} =
    Some ("LZ{" +:+ jq "Result" +:+ ":{" +:+ jq "items" +:+ ":[{" +:+ jq "amount" +:+ ":1.50," +:+ jq "name" +:+ ":" +:+
          jq ("caf" +:+ encode_rune 233 +:+ " \u003c3") +:+ "}]," +:+ jq "total" +:+ ":12345678901234567890}," +:+ jq "Error" +:+ ":null}") ∧
  ∃ b, @MarshalBinary ex_lz4 ex_error_json {| cr_Result := ex_result; cr_Error := None |} = Some b ∧
       @UnmarshalBinary ex_lz4 ex_error_json b = Some {| cr_Result := ex_result; cr_Error := None |}.
Proof.
  split; [vm_compute; reflexivity|].
  eapply (@cached_response_roundtrip ex_lz4 ex_error_json ex_answer {["jsonrpc" := VStr "2.0"; "result" := ex_result]}).
  - intros s. exists ("LZ" +:+ s). split; [reflexivity|]. cbn. by rewrite TrimPrefix_app.
  - vm_compute. reflexivity.
  - vm_compute. reflexivity.
Defined.

Definition ex_params : string := "{" +:+ jq "urls" +:+ ": " +:+ jq "what" +:+ "}".
Lemma cache_keys_isolate_json_witness :
  ∃ q1 q2, NewQuery ex_resolve "lbrytv-id.1.wallet" = ROk q1 ∧ NewQuery ex_resolve "lbrytv-id.2.wallet" = ROk q2 ∧
    cache_preimage (NewCacheRequest (q_Method q1) (q_Params q1) "") ≠
    cache_preimage (NewCacheRequest (q_Method q2) (q_Params q2) "").
Proof.
  eexists _, _. split; [vm_compute; reflexivity|]. split; [vm_compute; reflexivity|].
  eapply (cache_keys_isolate_json ex_resolve ex_resolve ex_params ex_params "lbrytv-id.1.wallet" "lbrytv-id.2.wallet");
    [vm_compute; reflexivity|vm_compute; reflexivity|vm_compute; reflexivity|vm_compute; reflexivity|reflexivity| |done|done|reflexivity|reflexivity|done].
  apply methodInList_true. vm_compute. reflexivity.
Defined.
