(* ===== verification/UploadsServer.v ===== *)
(** * The upload service as a server

    Models the launcher of [apps/uploads/uploads.go] (options, [Notifier],
    [BuildHandler] with its routes and middlewares, the liveness endpoints, shutdown),
    the listeners of [listenToHooks] as a transition system, the logging middleware of
    [json_logger.go] and [retryComplete] of the command.

    Parameters: go-chi's router ([Chi]) and CORS handler, tusd (its middleware and the
    operations), S3, the queue's connection.  The pattern for origins is compiled and
    matched as [regexp] does, for the syntax [QuoteMeta] and [ReplaceAll] produce. *)

From S2P Require Import Prelude GoLib Rpc Errors Http Services Asynquery Uploads.
From Stdlib Require Import Ascii String.

Local Open Scope string_scope.
Local Open Scope Z_scope.

(** ** The origins the service accepts *)

(** The characters [regexp.QuoteMeta] escapes. *)
Definition special (a : ascii) : bool :=
  existsb (Ascii.eqb a) ["\"; "."; "+"; "*"; "?"; "("; ")"; "|"; "["; "]"; "{"; "}"; "^"; "$"]%char.
Fixpoint QuoteMeta (s : string) : string :=
  match s with
  | "" => ""
  | String a s => if special a then String "\" (String a (QuoteMeta s)) else String a (QuoteMeta s)
  end.

(** [strings.ReplaceAll(s, old, new)] for an [old] of two characters. *)
Fixpoint ReplaceAll2 (s : string) (x y : ascii) (new : string) : string :=
  match s with
  | String a s1 =>
    match s1 with
    | String b s2 => if Ascii.eqb a x && Ascii.eqb b y then new +:+ ReplaceAll2 s2 x y new else String a (ReplaceAll2 s1 x y new)
    | "" => s
    end
  | "" => ""
  end.

Definition originPattern (d : string) : string := ReplaceAll2 (QuoteMeta d) "\" "*" ".*".
Definition allowOriginPattern (corsDomains : list string) : string :=
  "^(" +:+ Join (map originPattern corsDomains) "|" +:+ ")$".

Example pattern_ex : allowOriginPattern ["https://*.odysee.com"; "http://localhost:*"] = "^(https://.*\.odysee\.com|http://localhost:.*)$".
Proof. reflexivity. Qed.

(** *** Regular expressions of this form *)

Inductive item := Lit (a : ascii) | AnyStar.
#[export] Instance item_eq : EqDecision item.
Proof. solve_decision. Defined.

Definition plain_char (a : ascii) : bool := (N_of_ascii a <? 128)%N && negb (special a).

(** The alternatives of a group up to its closing parenthesis and the end; other syntax
    and characters beyond ASCII are outside the model. *)
Fixpoint parse_alts (s : string) : option (list (list item)) :=
  match s with
  | "" => None
  | String a s1 =>
    if Ascii.eqb a ")" then (if String.eqb s1 "$" then Some [[]] else None)
    else if Ascii.eqb a "|" then alts ← parse_alts s1; Some ([] :: alts)
    else
      let add i r := match r with Some (alt :: alts) => Some ((i :: alt) :: alts) | _ => None end in
      if Ascii.eqb a "\" then
        match s1 with String b s2 => if special b then add (Lit b) (parse_alts s2) else None | "" => None end
      else if Ascii.eqb a "." then
        match s1 with String b s2 => if Ascii.eqb b "*" then add AnyStar (parse_alts s2) else None | "" => None end
      else if plain_char a then add (Lit a) (parse_alts s1) else None
  end.
Definition compile (p : string) : option (list (list item)) :=
  if HasPrefix p "^(" then parse_alts (TrimPrefix p "^(") else None.

(** A whole string matches an alternative; the dot stands for anything but a newline. *)
Definition newline : ascii := "010".
Fixpoint match_items (its : list item) : string → bool :=
  match its with
  | [] => λ s, String.eqb s ""
  | Lit a :: its => λ s, match s with String b s => Ascii.eqb a b && match_items its s | "" => false end
  | AnyStar :: its =>
    fix any s := match_items its s || match s with String b s => negb (Ascii.eqb b newline) && any s | "" => false end
  end.
Definition MatchString (alts : list (list item)) (s : string) : bool := existsb (λ its, match_items its s) alts.

(** The test tusd makes on the [Origin] of a request; a pattern that does not compile
    panics at start-up. *)
Definition allowOrigin (corsDomains : list string) (origin : string) : option bool :=
  alts ← compile (allowOriginPattern corsDomains); Some (MatchString alts origin).

(** *** What it means: wild cards in domains *)

Fixpoint glob (d : string) : string → bool :=
  match d with
  | "" => λ s, String.eqb s ""
  | String c d =>
    if Ascii.eqb c "*" then fix any s := glob d s || match s with String b s => negb (Ascii.eqb b newline) && any s | "" => false end
    else λ s, match s with String b s => Ascii.eqb c b && glob d s | "" => false end
  end.

Definition item_of (c : ascii) : item := if Ascii.eqb c "*" then AnyStar else Lit c.
Fixpoint items_of (d : string) : list item :=
  match d with "" => [] | String c d => item_of c :: items_of d end.

Lemma match_items_glob d s : match_items (items_of d) s = glob d s.
Proof.
  revert s. induction d as [|c d IH]; intros s; [done|]. cbn [items_of glob]. unfold item_of. destruct (Ascii.eqb c "*").
  - induction s as [|b s IHs]; cbn; rewrite IH; [done|]. f_equal. f_equal. exact IHs.
  - destruct s as [|b s]; cbn; [done|]. by rewrite IH.
Qed.

(** The pattern of one domain, character by character. *)
Definition quoted_char (c : ascii) : string :=
  if Ascii.eqb c "*" then ".*" else if special c then String "\" (String c "") else String c "".
Lemma ReplaceAll2_cons a s x y new : (∀ s', s = String y s' → a ≠ x) → ReplaceAll2 (String a s) x y new = String a (ReplaceAll2 s x y new).
Proof.
  intros H. destruct s as [|b s]; [done|]. cbn [ReplaceAll2]. destruct (Ascii.eqb_spec a x) as [->|]; [|done].
  destruct (Ascii.eqb_spec b y) as [->|]; [|done]. by destruct (H s).
Qed.
Lemma QuoteMeta_star d s : QuoteMeta d ≠ String "*" s.
Proof. destruct d as [|c d]; [done|]. cbn [QuoteMeta]. destruct (special c) eqn:E; intros H; [discriminate H|]. injection H as -> _. discriminate E. Qed.
Lemma originPattern_cons c d : originPattern (String c d) = quoted_char c +:+ originPattern d.
Proof.
  unfold originPattern, quoted_char. cbn [QuoteMeta]. destruct (Ascii.eqb_spec c "*") as [->|Hc]; [reflexivity|].
  destruct (special c) eqn:Hs; rewrite !ReplaceAll2_cons; try done.
  - intros s' H. by destruct (QuoteMeta_star d s').
  - by intros s' [= -> _].
  - intros s' H. by destruct (QuoteMeta_star d s').
Qed.

Definition add_item (i : item) (r : option (list (list item))) : option (list (list item)) :=
  match r with Some (alt :: alts) => Some ((i :: alt) :: alts) | _ => None end.
Lemma parse_char c t : (N_of_ascii c <? 128)%N = true → parse_alts (quoted_char c +:+ t) = add_item (item_of c) (parse_alts t).
Proof. destruct c as [[] [] [] [] [] [] [] []]; try discriminate; intros _; reflexivity. Qed.
Definition ascii_string (s : string) : bool := all_chars (λ a, (N_of_ascii a <? 128)%N) s.

(** A domain followed by what ends an alternative. *)
Lemma parse_domain d t alts : ascii_string d = true → parse_alts t = Some ([] :: alts) → parse_alts (originPattern d +:+ t) = Some (items_of d :: alts).
Proof.
  intros Hd Ht. induction d as [|c d IH]; [done|]. cbn in Hd. apply andb_true_iff in Hd as [Hc Hd].
  rewrite originPattern_cons, <-app_assoc_str, parse_char, IH by done. done.
Qed.
Lemma parse_domains ds : ds ≠ [] → forallb ascii_string ds = true →
  parse_alts (Join (map originPattern ds) "|" +:+ ")$") = Some (map items_of ds).
Proof.
  induction ds as [|d ds IH]; [done|]. intros _ [Hd Hds]%andb_true_iff. destruct ds as [|d' ds].
  - cbn [map Join]. by apply parse_domain.
  - change (Join (map originPattern (d :: d' :: ds)) "|") with (originPattern d +:+ "|" +:+ Join (map originPattern (d' :: ds)) "|").
    rewrite <-app_assoc_str. apply parse_domain; [done|].
    change (parse_alts (("|" +:+ Join (map originPattern (d' :: ds)) "|") +:+ ")$")) with
      (alts ← parse_alts (Join (map originPattern (d' :: ds)) "|" +:+ ")$"); Some ([] :: alts)).
    by rewrite IH.
Qed.

(** An origin is accepted exactly if it matches one of the configured domains, a star in
    which stands for any text and every other character for itself. *)
Lemma allowOrigin_glob ds origin : ds ≠ [] → forallb ascii_string ds = true →
  allowOrigin ds origin = Some (existsb (λ d, glob d origin) ds).
Proof.
  intros Hne Hds. unfold allowOrigin, compile, allowOriginPattern. rewrite HasPrefix_app, TrimPrefix_app, parse_domains by done.
  cbn. f_equal. unfold MatchString. clear. induction ds as [|d ds IH]; [done|]. cbn. by rewrite match_items_glob, IH.
Qed.
Example origins_ex :
  map (allowOrigin ["https://*.odysee.com"; "https://odysee.com"]) ["https://x.odysee.com"; "https://xodysee.com"; "https://odysee.com.evil"] =
  [Some true; Some false; Some false].
Proof. vm_compute. reflexivity. Qed.
(** The default of the launcher accepts no origin but the empty one. *)
Lemma default_origin s : allowOrigin [""] s = Some (String.eqb s "").
Proof. rewrite allowOrigin_glob by done. cbn. by rewrite orb_false_r. Qed.

(** ** The launcher *)

Record Launcher := mkLauncher {
  l_corsDomains : list string;
  l_db : bool;                       (* set? *)
  l_fileLocker : bool;
  l_httpAddress : string;
  l_prefix : string;
  l_publicKey : bool;
  l_queueRedisURL : string;
  l_s3client : bool;
  l_s3bucket : string;
  l_logger : bool;
}.
Variant LauncherOption :=
| WithLogger | WithS3Client | WithS3Bucket (bucket : string) | WithFileLocker | WithPublicKey
| WithForkliftRequestsConnURL (url : string) | WithDB | WithCORSDomains (domains : list string).
Definition apply_option (l : Launcher) (o : LauncherOption) : Launcher :=
  let '(mkLauncher c d f a p k q s b g) := l in
  match o with
  | WithLogger => mkLauncher c d f a p k q s b true
  | WithS3Client => mkLauncher c d f a p k q true b g
  | WithS3Bucket bucket => mkLauncher c d f a p k q s bucket g
  | WithFileLocker => mkLauncher c d true a p k q s b g
  | WithPublicKey => mkLauncher c d f a p true q s b g
  | WithForkliftRequestsConnURL url => mkLauncher c d f a p k url s b g
  | WithDB => mkLauncher c true f a p k q s b g
  | WithCORSDomains domains => mkLauncher domains d f a p k q s b g
  end.
Definition NewLauncher (options : list LauncherOption) : Launcher :=
  foldl apply_option (mkLauncher [""] false false "0.0.0.0:8080" "/v1" false "" false "" false) options.

(** What the libraries find broken at start-up. *)
Record UpStartup := mkUpStartup {
  us_validator : option error;                       (* keybox.NewValidator *)
  us_bucket : option (error * option string);        (* CreateBucket, with the code of an API error *)
  us_redisURI : string → option error;               (* asynq.ParseRedisURI *)
  us_queue : option error;                           (* queue.New *)
  us_tusd : option error;                            (* tusd.NewUnroutedHandler *)
}.

(** Whether there is a notifier. *)
Definition Notifier (st : UpStartup) (l : Launcher) : error + bool :=
  if String.eqb (l_queueRedisURL l) "" then inr false else
  match us_redisURI st (l_queueRedisURL l), us_queue st with
  | Some err, _ => inl err
  | None, Some err => inl err
  | None, None => inr true
  end.

Record UReq := mkUReq {
  uq_Method : string;
  uq_Path : string;
  uq_Header : Header;
  uq_Body : string;
  uq_User : option Z;                (* the user of the context *)
}.
Definition uq_set_Path (p : string) (q : UReq) : UReq := mkUReq (uq_Method q) p (uq_Header q) (uq_Body q) (uq_User q).
Definition uq_set_User (u : option Z) (q : UReq) : UReq := mkUReq (uq_Method q) (uq_Path q) (uq_Header q) (uq_Body q) u.

Definition UHandler : Type := UReq → Go UpDB Writer.
Definition UMiddleware : Type := UHandler → UHandler.
Definition uchain (mws : list UMiddleware) (h : UHandler) : UHandler := foldr (λ mw h, mw h) h mws.

#[warnings="-register-all"]
Inductive ChiRoute :=
| Handle (method pattern : string) (h : UHandler)
| SubRoute (pattern : string) (mws : list UMiddleware) (routes : list ChiRoute).

(** go-chi: a router serves the part of the path that is left to route, by the method
    the request came with. *)
Class Chi := chi_ServeHTTP : list UMiddleware → list ChiRoute → string → string → UHandler.

Record TusdConfig := mkTusdConfig {
  tc_BasePath : string;
  tc_AllowOrigin : string → bool;
}.
Record ChiCorsOptions := mkChiCors {
  cc_AllowedOrigins : list string; cc_AllowedMethods : list string; cc_AllowedHeaders : list string;
  cc_AllowCredentials : bool; cc_MaxAge : Z }.
Class UploadLibs := {
  tusd_DefaultAllowOrigin : string → bool;
  tusd_Handler_Middleware : TusdConfig → UMiddleware;
  tusd_op : TusdConfig → string → UHandler;
  chi_cors : ChiCorsOptions → UMiddleware;
  prom_Handler : UHandler;
}.

Section build.
Context `{!UploadTokens Header, !Chi, !UploadLibs} (env : UpEnv) (ParseRequestURI : string → error + string) (decode_url : string → error + string).

(** [JSONLogger.Middleware]: the response is observed, not changed. *)
Definition httpLogger : UMiddleware := λ next q, next q.

Definition auth_Middleware : UMiddleware := λ next q,
  match authByToken (uq_Method q) (uq_Header q) with
  | Answered w => ret w
  | Passed None => next q
  | Passed (Some uid) => next (uq_set_User (Some uid) q)
  end.
Definition access_Middleware : UMiddleware := λ next q,
  let! v := verifyUploadFileAccess env (uq_Path q) (uq_User q) in
  match v with
  | Answered w => ret w
  | Passed u => next (uq_set_User u q)
  end.
Definition stripPrefix (prefix : string) : UMiddleware := λ next q,
  let p := TrimPrefix (uq_Path q) prefix in
  if (String.length p <? String.length (uq_Path q))%nat then next (uq_set_Path p q)
  else ret (http_Error newWriter "404 page not found" 404).

Definition livez (cancelled : bool) : UHandler := λ _,
  if cancelled then ret (http_Error newWriter "upload service is shutting down" 503)
  else ret (WriteBody (CText "OK") newWriter).
Definition healthz : UHandler := λ _, ret (WriteBody (CText "OK") newWriter).

Definition nonUploadCors (corsDomains : list string) : ChiCorsOptions :=
  mkChiCors corsDomains ["GET"; "POST"; "OPTIONS"] ["Accept"; "Authorization"; "Content-Type"; "X-Requested-With"] false 300.

Definition postURL (notifier : bool) : UHandler := λ q, PostURL env ParseRequestURI decode_url (uq_User q) notifier (uq_Body q).

Definition upload_routes (tus : TusdConfig) : list ChiRoute :=
  [Handle "POST" "/" (tusd_op tus "PostFile");
   Handle "HEAD" "/*" (tusd_op tus "HeadFile");
   Handle "PATCH" "/*" (tusd_op tus "PatchFile");
   Handle "DELETE" "/*" (tusd_op tus "DelFile");
   Handle "OPTIONS" "/" (tusd_op tus "PostFile");
   Handle "OPTIONS" "/*" (tusd_op tus "HeadFile")].

Definition server_routes (l : Launcher) (tus : TusdConfig) (notifier cancelled : bool) : list ChiRoute :=
  [SubRoute (l_prefix l) [auth_Middleware]
     [SubRoute "/uploads" [stripPrefix (l_prefix l +:+ "/uploads"); tusd_Handler_Middleware tus; access_Middleware] (upload_routes tus);
      SubRoute "/urls" [chi_cors (nonUploadCors (l_corsDomains l))] [Handle "POST" "/" (postURL notifier)]];
   Handle "GET" "/livez" (livez cancelled);
   Handle "GET" "/healthz" healthz;
   Handle "GET" "/internal/metrics" prom_Handler].

(** What is built: tusd's configuration and whether uploads are handed on. *)
Record Built := { bu_tus : TusdConfig; bu_notifier : bool }.

Definition BuildHandler (st : UpStartup) (l : Launcher) : result error Built :=
  match us_validator st with
  | Some err => RErr err
  | None =>
    if negb (l_s3client l) then RPanic "nil pointer dereference" else
    let bucket := match us_bucket st with
                  | Some (err, code) => if decide (code = Some "BucketAlreadyOwnedByYou") then None else Some err
                  | None => None
                  end in
    match bucket with
    | Some err => RErr err
    | None =>
      match Notifier st l with
      | inl err => RErr err
      | inr notifier =>
        match match l_corsDomains l with
              | [] => Some tusd_DefaultAllowOrigin
              | ds => alts ← compile (allowOriginPattern ds); Some (MatchString alts)
              end with
        | None => RPanic "regexp: Compile"
        | Some origin =>
          match us_tusd st with
          | Some err => RErr (EText ("unable to create tusd handler: " +:+ Error err))
          | None => ROk {| bu_tus := mkTusdConfig (l_prefix l +:+ "/uploads") origin; bu_notifier := notifier |}
          end
        end
      end
    end
  end.

(** The server's handler, before or after [StartShutdown]. *)
Definition serve (l : Launcher) (b : Built) (cancelled : bool) : UHandler := λ q,
  chi_ServeHTTP [httpLogger] (server_routes l (bu_tus b) (bu_notifier b) cancelled) (uq_Method q) (uq_Path q) q.
End build.

(** ** What a request can do *)

(** The patterns of go-chi that occur here: a path, or everything below one. *)
Definition chi_match (pattern path : string) : bool :=
  if HasSuffix pattern "*" then HasPrefix path (substring 0 (String.length pattern - 1) pattern) else String.eqb pattern path.
(** A subrouter gets what follows its pattern, at least a slash. *)
Definition chi_mount (pattern path : string) : option string :=
  if String.eqb pattern path then Some "/"
  else if HasPrefix path (pattern +:+ "/") then Some (TrimPrefix path pattern) else None.

Class ChiSpec `{!Chi} := {
  (** The middlewares of a router run around its routing, which answers by itself or
      runs a route for the method and the path, or a subrouter. *)
  chi_law : ∀ mws rs method path, ∃ h : UHandler,
    (∀ q s, chi_ServeHTTP mws rs method path q s = uchain mws h q s) ∧
    ∀ q s,
      (h q s).2 = s ∨
      (∃ pattern hd, Handle method pattern hd ∈ rs ∧ chi_match pattern path = true ∧ h q s = hd q s) ∨
      (∃ pattern ms rs' path', SubRoute pattern ms rs' ∈ rs ∧ chi_mount pattern path = Some path' ∧
         h q s = chi_ServeHTTP ms rs' method path' q s);
}.

(** A middleware of a library answers by itself or passes the request on, its headers,
    path, body and user as they are. *)
Definition same_request (q q' : UReq) : Prop :=
  uq_Path q' = uq_Path q ∧ uq_Header q' = uq_Header q ∧ uq_Body q' = uq_Body q ∧ uq_User q' = uq_User q.
Definition passes (mw : UMiddleware) : Prop := ∀ next q s,
  (mw next q s).2 = s ∨ ∃ q', same_request q q' ∧ (mw next q s).2 = (next q' s).2.

Class UploadLibsSpec `{!UploadLibs} := {
  tusd_passes : ∀ tus, passes (tusd_Handler_Middleware tus);
  cors_passes : ∀ o, passes (chi_cors o);
  prom_keeps : ∀ q s, (prom_Handler q s).2 = s;
}.

Definition same_tables (s s' : UpDB) : Prop :=
  ud_uploads s' = ud_uploads s ∧ ud_urls s' = ud_urls s ∧ ud_queue s' = ud_queue s.

Section reach.
Context `{!UploadTokens Header, !Chi, !UploadLibs, !ChiSpec, !UploadLibsSpec} (env : UpEnv) (ParseRequestURI : string → error + string) (decode_url : string → error + string).
Context (l : Launcher) (b : Built).

(** The token in a request's headers is valid and names the user. *)
Definition token_user (q : UReq) (uid : Z) : Prop :=
  ∃ subject, ParseToken (TokenFromHeader (uq_Header q)) = inr subject ∧ jwt_Validate (TokenFromHeader (uq_Header q)) = None ∧
    ParseInt subject 32 = Some uid.

(** A tus operation runs for the user of the token; an upload it names is theirs. *)
Definition tus_ran (q : UReq) (s s' : UpDB) : Prop :=
  ∃ op q1 s1 uid, op ∈ ["PostFile"; "HeadFile"; "PatchFile"; "DelFile"] ∧
    uq_Path q = l_prefix l +:+ "/uploads" +:+ uq_Path q1 ∧ uq_Header q1 = uq_Header q ∧ uq_Body q1 = uq_Body q ∧
    uq_User q1 = Some uid ∧ uid ≠ 0 ∧ token_user q uid ∧
    (extractUploadIDFromPath (uq_Path q1) ≠ "" →
       ∃ u, ud_uploads s !! extractUploadIDFromPath (uq_Path q1) = Some u ∧ up_UserID u = uid) ∧
    same_tables s s1 ∧ s' = (tusd_op (bu_tus b) op q1 s1).2.
(** A URL is recorded for the user of the token. *)
Definition url_posted (q : UReq) (s s' : UpDB) : Prop :=
  ∃ s1 uid, uq_Method q = "POST" ∧ token_user q uid ∧ same_tables s s1 ∧
    s' = (PostURL env ParseRequestURI decode_url (Some uid) (bu_notifier b) (uq_Body q) s1).2.
Definition effect (q : UReq) (s s' : UpDB) : Prop := same_tables s s' ∨ tus_ran q s s' ∨ url_posted q s s'.

Lemma same_tables_refl s : same_tables s s.
Proof. done. Qed.
Lemma same_tables_trans s1 s2 s3 : same_tables s1 s2 → same_tables s2 s3 → same_tables s1 s3.
Proof. intros (?&?&?) (?&?&?). split_and!; congruence. Qed.

Lemma TrimPrefix_shorter x p : (String.length (TrimPrefix x p) < String.length x)%nat → x = p +:+ TrimPrefix x p.
Proof.
  destruct (HasPrefix x p) eqn:E.
  - apply HasPrefix_true in E as [t ->]. by rewrite TrimPrefix_app.
  - rewrite TrimPrefix_none by done. lia.
Qed.

Lemma verify_cases path u s :
  same_tables s (verifyUploadFileAccess env path u s).2 ∧
  (∀ u', (verifyUploadFileAccess env path u s).1 = ROk (Passed u') →
     ∃ uid, u = Some uid ∧ u' = Some uid ∧ uid ≠ 0 ∧
       (extractUploadIDFromPath path ≠ "" → ∃ up, ud_uploads s !! extractUploadIDFromPath path = Some up ∧ up_UserID up = uid)).
Proof.
  unfold verifyUploadFileAccess. destruct u as [uid|]; [|done]. destruct (Z.eqb_spec uid 0) as [->|Hz]; [done|].
  destruct (String.eqb_spec (extractUploadIDFromPath path) "") as [He|Hne]; cbn [negb].
  - split; [done|]. intros u' [= <-]. exists uid. rewrite He. done.
  - unfold bind, try, GetUpload.
    destruct (up_op_cases env (λ s, match ud_uploads s !! extractUploadIDFromPath path with
      | Some u => if up_UserID u =? uid then (inr u, s) else (inl sql_ErrNoRows, s)
      | None => (inl sql_ErrNoRows, s) end) s) as [[e ->]|(a & s' & Hf & ->)]; [done|].
    destruct (ud_uploads s !! extractUploadIDFromPath path) as [up|] eqn:Hup; [|done].
    destruct (Z.eqb_spec (up_UserID up) uid) as [Hu|]; [|done]. injection Hf as <- <-. cbn. split; [done|].
    intros u' [= <-]. exists uid. split_and!; [done..|]. intros _. by exists up.
Qed.

(** Below [/uploads]. *)
Lemma uploads_effect m path q s :
  (∀ uid, uq_User q = Some uid → token_user q uid) →
  effect q s (chi_ServeHTTP [stripPrefix (l_prefix l +:+ "/uploads"); tusd_Handler_Middleware (bu_tus b); access_Middleware env]
    (upload_routes (bu_tus b)) m path q s).2.
Proof.
  intros Hq. destruct (chi_law [stripPrefix (l_prefix l +:+ "/uploads"); tusd_Handler_Middleware (bu_tus b); access_Middleware env]
    (upload_routes (bu_tus b)) m path) as (h & -> & Hh). cbn [uchain foldr]. unfold stripPrefix at 1.
  destruct (Nat.ltb_spec (String.length (TrimPrefix (uq_Path q) (l_prefix l +:+ "/uploads"))) (String.length (uq_Path q))) as [Hlt|]; [|by left].
  apply TrimPrefix_shorter in Hlt as Hp. set (q2 := uq_set_Path _ q).
  destruct (tusd_passes (bu_tus b) (access_Middleware env h) q2 s) as [->|(q3 & (Hp3 & Hh3 & Hb3 & Hu3) & ->)]; [by left|].
  unfold access_Middleware, bind. destruct (verify_cases (uq_Path q3) (uq_User q3) s) as [Ht Hv].
  destruct (verifyUploadFileAccess env (uq_Path q3) (uq_User q3) s) as [[[w|u']|e|e] s1]; try by left.
  destruct (Hv u' eq_refl) as (uid & Hu & -> & Hz & Hown). cbn in Ht.
  destruct (Hh (uq_set_User (Some uid) q3) s1) as [->|[(pattern & hd & Hin & _ & ->)|(pattern & ms & rs' & path' & Hin & _ & _)]].
  - by left.
  - right. left. assert (∃ op, op ∈ ["PostFile"; "HeadFile"; "PatchFile"; "DelFile"] ∧ hd = tusd_op (bu_tus b) op) as (op & Hop & ->).
    { unfold upload_routes in Hin. rewrite !elem_of_cons, elem_of_nil in Hin.
      destruct Hin as [Heq|[Heq|[Heq|[Heq|[Heq|[Heq|[]]]]]]]; injection Heq as _ _ ->; eexists; (split; [|reflexivity]); set_solver. }
    rewrite Hu3 in Hu. exists op, (uq_set_User (Some uid) q3), s1, uid. cbn. rewrite Hp3 in *. split_and!; try done.
    + by rewrite app_assoc_str.
    + by apply Hq.
  - unfold upload_routes in Hin. rewrite !elem_of_cons, elem_of_nil in Hin. naive_solver.
Qed.

(** Below [/urls]. *)
Lemma urls_effect path q s :
  (∀ uid, uq_User q = Some uid → token_user q uid) → (uq_Method q ≠ "OPTIONS" → is_Some (uq_User q)) →
  effect q s (chi_ServeHTTP [chi_cors (nonUploadCors (l_corsDomains l))]
    [Handle "POST" "/" (postURL env ParseRequestURI decode_url (bu_notifier b))] (uq_Method q) path q s).2.
Proof.
  intros Hq Hs. destruct (chi_law [chi_cors (nonUploadCors (l_corsDomains l))]
    [Handle "POST" "/" (postURL env ParseRequestURI decode_url (bu_notifier b))] (uq_Method q) path) as (h & -> & Hh). cbn [uchain foldr].
  destruct (cors_passes (nonUploadCors (l_corsDomains l)) h q s) as [->|(q3 & (Hp3 & Hh3 & Hb3 & Hu3) & ->)]; [by left|].
  destruct (Hh q3 s) as [->|[(pattern & hd & Hin & _ & ->)|(pattern & ms & rs' & path' & Hin & _ & _)]].
  - by left.
  - apply list_elem_of_singleton in Hin. injection Hin as Hm -> ->. destruct Hs as [uid Hu]; [congruence|]. right. right.
    exists s, uid. split_and!; [done|by apply Hq|done|]. unfold postURL. by rewrite Hu3, Hb3, Hu.
  - by apply list_elem_of_singleton in Hin.
Qed.

Lemma effect_same q q' s s' : uq_Method q' = uq_Method q → uq_Path q' = uq_Path q → uq_Header q' = uq_Header q → uq_Body q' = uq_Body q →
  effect q' s s' → effect q s s'.
Proof.
  intros Hm Hp Hh Hb [?|[He|He]]; [by left|right; left|right; right].
  - destruct He as (op & q1 & s1 & uid & He). exists op, q1, s1, uid. unfold token_user in *. rewrite Hp, Hh, Hb in He. done.
  - destruct He as (s1 & uid & He). exists s1, uid. unfold token_user in *. rewrite Hm, Hh, Hb in He. done.
Qed.

(** Below the prefix, once the token was looked at. *)
Lemma v1_effect (h : UHandler) path q s :
  (∃ pattern ms rs' path',
    SubRoute pattern ms rs' ∈ [SubRoute "/uploads" [stripPrefix (l_prefix l +:+ "/uploads"); tusd_Handler_Middleware (bu_tus b); access_Middleware env] (upload_routes (bu_tus b));
      SubRoute "/urls" [chi_cors (nonUploadCors (l_corsDomains l))] [Handle "POST" "/" (postURL env ParseRequestURI decode_url (bu_notifier b))]] ∧
    chi_mount pattern path = Some path' ∧ h q s = chi_ServeHTTP ms rs' (uq_Method q) path' q s) →
  (∀ uid, uq_User q = Some uid → token_user q uid) → (uq_Method q ≠ "OPTIONS" → is_Some (uq_User q)) →
  effect q s (h q s).2.
Proof.
  intros (pattern & ms & rs' & path' & Hin & _ & ->) Hq Hs. rewrite !elem_of_cons, elem_of_nil in Hin.
  destruct Hin as [Heq|[Heq|[]]]; injection Heq as -> -> ->; [by apply uploads_effect|by apply urls_effect].
Qed.

(** C11: Whatever is sent to the upload service, by whatever method and path: the tables
    and the queue stay as they are, or a tus operation runs for the user of a valid token
    in the request's own headers, on the path below [/uploads], and an upload the path
    names is in the table as this user's; or a URL is recorded for the user of such a
    token. *)
Theorem uploads_server_guarded cancelled q s :
  uq_User q = None → effect q s (serve env ParseRequestURI decode_url l b cancelled q s).2.
Proof.
  intros Hq. unfold serve. destruct (chi_law [httpLogger] (server_routes env ParseRequestURI decode_url l (bu_tus b) (bu_notifier b) cancelled)
    (uq_Method q) (uq_Path q)) as (h & -> & Hh). cbn [uchain foldr]. unfold httpLogger.
  destruct (Hh q s) as [->|[(pattern & hd & Hin & _ & ->)|(pattern & ms & rs' & path' & Hin & _ & ->)]]; [by left|..];
    unfold server_routes in Hin; rewrite !elem_of_cons, elem_of_nil in Hin.
  { left. destruct Hin as [Heq|[Heq|[Heq|[Heq|[]]]]]; [done|..]; injection Heq as _ _ ->; [by destruct cancelled|done|]. by rewrite prom_keeps. }
  destruct Hin as [Heq|[?|[?|[?|[]]]]]; [|done..]. injection Heq as -> -> ->. clear h Hh.
  match goal with |- effect _ _ (chi_ServeHTTP ?mws ?rs ?m ?p _ _).2 => destruct (chi_law mws rs m p) as (h & -> & Hh) end.
  cbn [uchain foldr]. unfold auth_Middleware, authByToken.
  destruct (String.eqb_spec (uq_Method q) "OPTIONS") as [Hm|Hm].
  - destruct (Hh q s) as [->|[(? & ? & Hin & _ & _)|Hin]]; [by left|rewrite !elem_of_cons, elem_of_nil in Hin; naive_solver|].
    apply (v1_effect h _ q s Hin); congruence.
  - destruct (extractUserIDFromRequest (uq_Header q)) as [e|uid] eqn:Hx; [by left|].
    destruct (Hh (uq_set_User (Some uid) q) s) as [->|[(? & ? & Hin & _ & _)|Hin]]; [by left|rewrite !elem_of_cons, elem_of_nil in Hin; naive_solver|].
    apply (effect_same q (uq_set_User (Some uid) q)); [done..|]. apply (v1_effect h _ _ s Hin); [|by eexists].
    cbn. intros ? [= <-]. by apply extractUserID_inv.
Qed.
End reach.

(** ** Origins of the built server *)

(** The pattern tusd is given accepts exactly the origins that match a configured
    domain. *)
Lemma BuildHandler_origin `{!UploadLibs} st l b : BuildHandler st l = ROk b → l_corsDomains l ≠ [] → forallb ascii_string (l_corsDomains l) = true →
  ∀ origin, tc_AllowOrigin (bu_tus b) origin = existsb (λ d, glob d origin) (l_corsDomains l).
Proof.
  intros Hb Hne Ha origin. pose proof (allowOrigin_glob (l_corsDomains l) origin Hne Ha) as Ho. unfold allowOrigin in Ho.
  unfold BuildHandler in Hb. destruct (us_validator st); [done|]. destruct (l_s3client l); [|done]. cbn [negb] in Hb.
  destruct (match us_bucket st with Some _ => _ | None => _ end); [done|]. destruct (Notifier st l); [done|].
  destruct (l_corsDomains l) as [|d ds]; [done|]. destruct (compile _) as [alts|]; [|done]. cbn in Hb, Ho.
  destruct (us_tusd st); [done|]. injection Hb as <-. cbn. by injection Ho.
Qed.

(** A start-up fails exactly for a key that is not usable, a bucket that can be neither
    created nor is ours, a queue that cannot be reached when one is configured, or tusd;
    a bucket of ours is no error. *)
Lemma BuildHandler_ok `{!UploadLibs} st l :
  l_s3client l = true → l_corsDomains l ≠ [] → forallb ascii_string (l_corsDomains l) = true →
  (∃ b, BuildHandler st l = ROk b) ↔
  us_validator st = None ∧ (∀ err code, us_bucket st = Some (err, code) → code = Some "BucketAlreadyOwnedByYou") ∧
  (l_queueRedisURL l ≠ "" → us_redisURI st (l_queueRedisURL l) = None ∧ us_queue st = None) ∧ us_tusd st = None.
Proof.
  intros Hs Hne Ha. pose proof (allowOrigin_glob (l_corsDomains l) "" Hne Ha) as Ho. unfold allowOrigin in Ho.
  unfold BuildHandler, Notifier. rewrite Hs. cbn [negb].
  assert (∃ f, match l_corsDomains l with [] => Some tusd_DefaultAllowOrigin | ds => alts ← compile (allowOriginPattern ds); Some (MatchString alts) end = Some f) as [f ->].
  { destruct (l_corsDomains l) as [|d ds]; [done|]. destruct (compile _); [by eexists|done]. }
  destruct (us_validator st); [naive_solver|]. destruct (String.eqb_spec (l_queueRedisURL l) "") as [Hq|Hq];
    destruct (us_bucket st) as [[err code]|]; try case_decide; destruct (us_redisURI st (l_queueRedisURL l)), (us_queue st), (us_tusd st); naive_solver.
Qed.

(** Without a queue configured there is no notifier, and a URL that was recorded makes the
    handler dereference nil. *)
Lemma url_without_queue_panics env parse decode uid body data s s1 s2 :
  (let! u := of_sum (decode body) in Bind env parse u) s = (ROk data, s1) →
  CreateURL env (pl_UploadID data) uid (pl_URL data) (pl_Filename data) s1 = (ROk tt, s2) →
  PostURL env parse decode (Some uid) false body s = (RPanic "nil pointer dereference", s2).
Proof. intros Hb Hc. unfold PostURL, bind at 1, try at 1. rewrite Hb. unfold bind at 1, try at 1. by rewrite Hc. Qed.

(** ** The listeners and the shutdown *)

(** The four goroutines of [listenToHooks] and the channel that stops them: a select
    waits on the channel the field held when the select began. *)
Inductive phase := Starting | Waiting (ch : nat) | Handling | Stopped.

Record Hooks := mkHooks {
  hk_stopChan : nat;                 (* [h.stopChan]: 0 is made by [BuildHandler], 1 at the end of [listenToHooks] *)
  hk_closed : gset nat;
  hk_listeners : list phase;
}.
Definition hooks_start : Hooks := mkHooks 0 ∅ (replicate 4 Starting).

Inductive hook_step : Hooks → Hooks → Prop :=
| step_select c cl ls i ph : ls !! i = Some ph → ph = Starting ∨ ph = Handling →
    hook_step (mkHooks c cl ls) (mkHooks c cl (<[i := Waiting c]> ls))
| step_event c cl ls i ch : ls !! i = Some (Waiting ch) → hook_step (mkHooks c cl ls) (mkHooks c cl (<[i := Handling]> ls))
| step_stop c cl ls i ch : ls !! i = Some (Waiting ch) → ch ∈ cl → hook_step (mkHooks c cl ls) (mkHooks c cl (<[i := Stopped]> ls))
| step_replace cl ls : hook_step (mkHooks 0 cl ls) (mkHooks 1 cl ls)
| step_close cl ls : 1%nat ∉ cl → hook_step (mkHooks 1 cl ls) (mkHooks 1 ({[1%nat]} ∪ cl) ls).

(** The first channel is never closed. *)
Lemma first_channel_open h : rtc hook_step hooks_start h → 0%nat ∉ hk_closed h.
Proof.
  intros H. remember hooks_start as h0 eqn:E. assert (0%nat ∉ hk_closed h0) as H0 by (subst; set_solver). clear E.
  induction H as [h|h1 h2 h3 Hs _ IH]; [done|]. apply IH. destruct Hs; cbn in *; set_solver.
Qed.

(** A shutdown can leave listeners behind: those whose first select began before the
    channel was replaced are woken by nothing but an event. *)
Lemma shutdown_can_miss_listeners :
  ∃ h, rtc hook_step hooks_start h ∧ 1%nat ∈ hk_closed h ∧ hk_listeners h = replicate 4 (Waiting 0) ∧
    ∀ h', hook_step h h' → ∃ i, h' = mkHooks (hk_stopChan h) (hk_closed h) (<[i := Handling]> (hk_listeners h)).
Proof.
  exists (mkHooks 1 {[1%nat]} (replicate 4 (Waiting 0))). split_and!; [|set_solver|done|].
  - eapply rtc_l; [apply (step_select _ _ _ 0%nat Starting); [done|by left]|]. eapply rtc_l; [apply (step_select _ _ _ 1%nat Starting); [done|by left]|].
    eapply rtc_l; [apply (step_select _ _ _ 2%nat Starting); [done|by left]|]. eapply rtc_l; [apply (step_select _ _ _ 3%nat Starting); [done|by left]|].
    eapply rtc_l; [apply step_replace|]. eapply rtc_l; [apply step_close; set_solver|]. cbn. rewrite right_id_L by apply _. apply rtc_refl.
  - assert (∀ i ph, replicate 4 (Waiting 0) !! i = Some ph → ph = Waiting 0) as Hw by (by intros i ph [-> _]%lookup_replicate).
    intros h' Hs. inversion Hs as [c cl ls i ph Hi Hph|c cl ls i ch Hi|c cl ls i ch Hi Hc| |cl ls Hc]; subst.
    + apply Hw in Hi as ->. by destruct Hph.
    + by exists i.
    + apply Hw in Hi as [= ->]. set_solver.
    + set_solver.
Qed.
(** A listener that began its select afterwards is stopped. *)
Lemma shutdown_stops_later_listeners h i : hk_stopChan h = 1%nat → 1%nat ∈ hk_closed h → hk_listeners h !! i = Some (Waiting 1) →
  ∃ h', hook_step h h' ∧ hk_listeners h' !! i = Some Stopped.
Proof.
  destruct h as [c cl ls]. cbn. intros -> Hc Hi. eexists. split; [by eapply step_stop|]. cbn. apply list_lookup_insert_eq. by eapply lookup_lt_Some.
Qed.

(** *** [StartShutdown] and [CompleteShutdown] *)

Record Running := mkRunning {
  ru_built : bool;                   (* [BuildHandler] has returned *)
  ru_cancelled : bool;               (* the context of [/livez] *)
  ru_serving : bool;                 (* the listener of the HTTP server accepts *)
  ru_closed : bool;                  (* the stop channel *)
}.
Definition StartShutdown : Go Running unit := λ r,
  if ru_built r then (ROk tt, mkRunning true true (ru_serving r) (ru_closed r)) else (RPanic "nil pointer dereference", r).
Definition CompleteShutdown : Go Running unit := λ r,
  if negb (ru_built r) then (RPanic "nil pointer dereference", r) else
  let r := mkRunning true (ru_cancelled r) false (ru_closed r) in
  if ru_closed r then (RPanic "close of closed channel", r) else (ROk tt, mkRunning true (ru_cancelled r) false true).

(** The sequence of [serve] in the command: the probe fails first, while requests are
    still served; a second sequence would panic. *)
Lemma shutdown_order r : ru_built r = true → ru_serving r = true → ru_closed r = false →
  ∃ r1 r2, StartShutdown r = (ROk tt, r1) ∧ ru_cancelled r1 = true ∧ ru_serving r1 = true ∧
    CompleteShutdown r1 = (ROk tt, r2) ∧ ru_serving r2 = false ∧ ru_closed r2 = true ∧
    (CompleteShutdown r2).1 = RPanic "close of closed channel".
Proof. destruct r as [[] c [] []]; cbn; try done. intros _ _ _. by eexists _, _. Qed.

(** *** [retryComplete] of the command *)

Definition retryComplete (env : UpEnv) (notifier : bool) (bucket id : string) (uid : Z) : Go UpDB unit :=
  let! u := GetUpload env uid id in
  if decide (up_Status u = UploadCompleted) then
    if notifier then UploadReceived env (up_UserID u) id (up_Filename u) {| loc_Bucket := bucket; loc_Key := up_Key u |}
    else gopanic "nil pointer dereference"
  else fail (EText "upload is not in completed state").

(** The task is the one the completed upload should have sent. *)
Lemma retry_resends `{!UploadTokens Req} env bucket (e : HookEvent Req) uid s u : hook_user (Completed e) = uid →
  ud_uploads s !! he_ID e = Some u → up_UserID u = uid → up_Status u = UploadCompleted → up_Filename u = he_Filename e → up_Key u = he_Key e →
  ue_fault env (ud_tick s) = None → ue_fault env (S (ud_tick s)) = None →
  ∃ s', retryComplete env true bucket (he_ID e) uid s = (ROk tt, s') ∧ ud_queue s' = (ud_queue s ++ [task_of bucket (Completed e)])%list ∧ ud_uploads s' = ud_uploads s.
Proof.
  intros Hh Hu Hid Hst Hf Hk F1 F2. unfold retryComplete, bind, GetUpload, up_op. rewrite F1, Hu, Hid, Z.eqb_refl. rewrite decide_True by done.
  unfold UploadReceived, send_forklift, up_op. cbn [ud_tick]. rewrite F2. eexists. split; [done|]. cbn. split; [|done]. unfold task_of. cbn.
  by rewrite Hid, Hf, Hk, Hh.
Qed.

(** ** A concrete server *)

Module UpSrvEx.
(** A router that takes the first route that fits. *)
Fixpoint ex_route (method path : string) (rt : ChiRoute) : option UHandler :=
  match rt with
  | Handle m p h => if String.eqb m method && chi_match p path then Some h else None
  | SubRoute p ms rs =>
    match chi_mount p path with
    | None => None
    | Some path' =>
      Some (uchain ms (default (λ _, ret (http_Error newWriter "404 page not found" 404))
        ((fix first (rs : list ChiRoute) : option UHandler :=
            match rs with [] => None | rt :: rs => match ex_route method path' rt with Some h => Some h | None => first rs end end) rs)))
    end
  end.
Fixpoint ex_first (method path : string) (rs : list ChiRoute) : option UHandler :=
  match rs with [] => None | rt :: rs => match ex_route method path rt with Some h => Some h | None => ex_first method path rs end end.
#[export] Instance ex_chi : Chi := λ mws rs method path,
  uchain mws (default (λ _, ret (http_Error newWriter "404 page not found" 404)) (ex_first method path rs)).

Lemma ex_first_elem method path rs h : ex_first method path rs = Some h → ∃ rt, rt ∈ rs ∧ ex_route method path rt = Some h.
Proof.
  induction rs as [|rt rs IH]; [done|]. cbn. destruct (ex_route method path rt) eqn:E.
  - intros [= <-]. exists rt. split; [apply elem_of_cons; by left|done].
  - intros (rt' & ? & ?)%IH. exists rt'. split; [apply elem_of_cons; by right|done].
Qed.
Lemma ex_first_eq method path rs :
  (fix first (rs : list ChiRoute) : option UHandler :=
     match rs with [] => None | rt :: rs => match ex_route method path rt with Some h => Some h | None => first rs end end) rs = ex_first method path rs.
Proof. induction rs as [|rt rs IH]; [done|]. cbn. by rewrite IH. Qed.
#[export] Instance ex_chi_spec : ChiSpec.
Proof.
  split. intros mws rs method path. eexists. split; [intros; reflexivity|]. intros q s.
  destruct (ex_first method path rs) as [h|] eqn:E; [|by left]. right. apply ex_first_elem in E as (rt & Hin & Hrt).
  destruct rt as [m p hd|p ms rs']; cbn in Hrt.
  - destruct (String.eqb_spec m method) as [->|]; [|done]. destruct (chi_match p path) eqn:Hp; [|done]. injection Hrt as <-. left. by exists p, hd.
  - destruct (chi_mount p path) as [path'|] eqn:Hp; [|done]. injection Hrt as <-. right. exists p, ms, rs', path'. split_and!; [done..|].
    cbn. unfold chi_ServeHTTP, ex_chi. by rewrite ex_first_eq.
Qed.

Definition preflight : UMiddleware := λ next q, if String.eqb (uq_Method q) "OPTIONS" then ret newWriter else next q.
(** An operation that removes the upload its path names. *)
Definition ex_op : UHandler := λ q s, (ROk newWriter, set_uploads (delete (extractUploadIDFromPath (uq_Path q)) (ud_uploads s)) s).
#[export] Instance ex_libs : UploadLibs := {|
  tusd_DefaultAllowOrigin := λ _, true; tusd_Handler_Middleware := λ _, preflight; tusd_op := λ _ _, ex_op;
  chi_cors := λ _, preflight; prom_Handler := λ _, ret newWriter |}.
Lemma preflight_passes : passes preflight.
Proof. intros next q s. unfold preflight. destruct (String.eqb _ _); [by left|]. right. by exists q. Qed.
#[export] Instance ex_libs_spec : UploadLibsSpec.
Proof. split; intros; first [apply preflight_passes|reflexivity]. Qed.

#[export] Instance ex_tokens : UploadTokens Header := {|
  TokenFromHeader := λ h, Header_Get h "Authorization";
  ParseToken := λ t, if String.eqb t "seven" then inr "7" else if String.eqb t "eight" then inr "8" else inl (EText "bad token");
  jwt_Validate := λ _, None |}.
Definition id : string := "0123456789abcdef0123456789abcdef".
Definition ex_env : UpEnv := {| ue_fault _ := None; ue_rand _ := inr [] |}.
Definition ex_launcher : Launcher := NewLauncher [WithS3Client; WithCORSDomains ["https://*.odysee.com"]].
Definition ex_startup : UpStartup := mkUpStartup None (Some (EText "owned", Some "BucketAlreadyOwnedByYou")) (λ _, None) None None.
Definition ex_state : UpDB := mkUp {[id := mkUpload 7 "clip" "k1" UploadReceiving 10 0 "" null_meta]} ∅ [] 0.
Definition del (token : string) : UReq := mkUReq "DELETE" ("/v1/uploads/" +:+ id) {["Authorization" := [token]]} "" None.
End UpSrvEx.

Section witness.
Import UpSrvEx.

(** The owner reaches the operation, another user does not. *)
Lemma uploads_server_guarded_witness :
  ∃ b, BuildHandler ex_startup ex_launcher = ROk b ∧
    ud_uploads (serve ex_env (λ _, inl (EText "")) (λ _, inl (EText "")) ex_launcher b false (del "seven") ex_state).2 = ∅ ∧
    ud_uploads (serve ex_env (λ _, inl (EText "")) (λ _, inl (EText "")) ex_launcher b false (del "eight") ex_state).2 = ud_uploads ex_state ∧
    effect ex_env (λ _, inl (EText "")) (λ _, inl (EText "")) ex_launcher b (del "seven") ex_state
      (serve ex_env (λ _, inl (EText "")) (λ _, inl (EText "")) ex_launcher b false (del "seven") ex_state).2.
Proof.
  eexists. split; [vm_compute; reflexivity|]. split; [vm_compute; reflexivity|]. split; [vm_compute; reflexivity|].
  apply uploads_server_guarded. reflexivity.
Defined.
End witness.
