(* ===== verification/WatchmanClient.v ===== *)
(** * The watchman's client

    Models the generated client of the reporter service
    ([apps/watchman/gen/http/reporter/client], [gen/reporter/client.go]): the request
    body and its JSON text, the payload the command line builds with its validation,
    requests and the decoding of responses; and the JSON decoding of the server's body.
    A report the command line accepts is received by the server as the same report.

    Parameters: the transport ([Do]) and what makes a URL invalid. *)

From S2P Require Import Prelude GoLib Rpc Errors Http Keybox Watchman Json.
From Stdlib Require Import Ascii String.

Local Open Scope string_scope.
Local Open Scope Z_scope.

(** ** Bodies *)

(** [AddRequestBody] of the client: required fields are no pointers. *)
Record ClientBody := mkClientBody {
  cb_URL : string;
  cb_Duration : Z;
  cb_Position : Z;
  cb_RelPosition : Z;
  cb_RebufCount : Z;
  cb_RebufDuration : Z;
  cb_Protocol : string;
  cb_Cache : option string;
  cb_Player : string;
  cb_UserID : string;
  cb_Bandwidth : option Z;
  cb_Bitrate : option Z;
  cb_Device : string;
}.

Definition NewAddRequestBody (p : PlaybackReport) : ClientBody := {|
  cb_URL := pr_URL p; cb_Duration := pr_Duration p; cb_Position := pr_Position p; cb_RelPosition := pr_RelPosition p;
  cb_RebufCount := pr_RebufCount p; cb_RebufDuration := pr_RebufDuration p; cb_Protocol := pr_Protocol p; cb_Cache := pr_Cache p;
  cb_Player := pr_Player p; cb_UserID := pr_UserID p; cb_Bandwidth := pr_Bandwidth p; cb_Bitrate := pr_Bitrate p; cb_Device := pr_Device p |}.

(** Fields marked [omitempty] are left out when they are nil. *)
Definition omitempty {A} (name : string) (show : A → string) (o : option A) : list (string * string) :=
  match o with Some x => [(name, show x)] | None => [] end.
Definition body_fields (b : ClientBody) : list (string * string) :=
  [("url", quoted (cb_URL b)); ("duration", Itoa (cb_Duration b)); ("position", Itoa (cb_Position b));
   ("rel_position", Itoa (cb_RelPosition b)); ("rebuf_count", Itoa (cb_RebufCount b)); ("rebuf_duration", Itoa (cb_RebufDuration b));
   ("protocol", quoted (cb_Protocol b))] ++
  omitempty "cache" quoted (cb_Cache b) ++
  [("player", quoted (cb_Player b)); ("user_id", quoted (cb_UserID b))] ++
  omitempty "bandwidth" Itoa (cb_Bandwidth b) ++ omitempty "bitrate" Itoa (cb_Bitrate b) ++
  [("device", quoted (cb_Device b))].
(** [Encoder.Encode] ends the text with a newline. *)
Definition body_text (b : ClientBody) : string := struct_text (body_fields b) +:+ String "010" "".

(** ** Decoding bodies *)

(** A string or an [int32] for a field; [null] for none. *)
Definition as_string (v : value) : option (option string) :=
  match v with VStr s => Some (Some s) | VNil => Some None | _ => None end.
Definition as_int32 (v : value) : option (option Z) :=
  match v with VNum lit => z ← ParseInt lit 32; Some (Some z) | VNil => Some None | _ => None end.

(** One member of the text into the server's body. *)
Definition set_server (b : option AddRequestBody) (e : string * value) : option AddRequestBody :=
  b ← b;
  let '(mkBody url du po rp rc rd pr ca pl us bw br de) := b in
  let name := fold_name e.1 in let v := e.2 in
  if String.eqb name "url" then x ← as_string v; Some (mkBody x du po rp rc rd pr ca pl us bw br de)
  else if String.eqb name "duration" then x ← as_int32 v; Some (mkBody url x po rp rc rd pr ca pl us bw br de)
  else if String.eqb name "position" then x ← as_int32 v; Some (mkBody url du x rp rc rd pr ca pl us bw br de)
  else if String.eqb name "rel_position" then x ← as_int32 v; Some (mkBody url du po x rc rd pr ca pl us bw br de)
  else if String.eqb name "rebuf_count" then x ← as_int32 v; Some (mkBody url du po rp x rd pr ca pl us bw br de)
  else if String.eqb name "rebuf_duration" then x ← as_int32 v; Some (mkBody url du po rp rc x pr ca pl us bw br de)
  else if String.eqb name "protocol" then x ← as_string v; Some (mkBody url du po rp rc rd x ca pl us bw br de)
  else if String.eqb name "cache" then x ← as_string v; Some (mkBody url du po rp rc rd pr x pl us bw br de)
  else if String.eqb name "player" then x ← as_string v; Some (mkBody url du po rp rc rd pr ca x us bw br de)
  else if String.eqb name "user_id" then x ← as_string v; Some (mkBody url du po rp rc rd pr ca pl x bw br de)
  else if String.eqb name "bandwidth" then x ← as_int32 v; Some (mkBody url du po rp rc rd pr ca pl us x br de)
  else if String.eqb name "bitrate" then x ← as_int32 v; Some (mkBody url du po rp rc rd pr ca pl us bw x de)
  else if String.eqb name "device" then x ← as_string v; Some (mkBody url du po rp rc rd pr ca pl us bw br x)
  else Some b.
Definition no_body : AddRequestBody := mkBody None None None None None None None None None None None None None.

(** The body of a request as the server's decoder finds it. *)
Definition decode_body (s : string) : Watchman.decoded :=
  match skip_ws s with
  | "" => DecodeEOF
  | _ =>
    match decode_object s with
    | None => DecodeError (EText "json")
    | Some None => Decoded no_body
    | Some (Some es) => match foldl set_server (Some no_body) es with Some b => Decoded b | None => DecodeError (EText "json") end
    end
  end.

(** One member into the client's body: [null] leaves what is no pointer as it is. *)
Definition keep {A} (old : A) (o : option A) : A := default old o.
Definition set_client (b : option ClientBody) (e : string * value) : option ClientBody :=
  b ← b;
  let '(mkClientBody url du po rp rc rd pr ca pl us bw br de) := b in
  let name := fold_name e.1 in let v := e.2 in
  if String.eqb name "url" then x ← as_string v; Some (mkClientBody (keep url x) du po rp rc rd pr ca pl us bw br de)
  else if String.eqb name "duration" then x ← as_int32 v; Some (mkClientBody url (keep du x) po rp rc rd pr ca pl us bw br de)
  else if String.eqb name "position" then x ← as_int32 v; Some (mkClientBody url du (keep po x) rp rc rd pr ca pl us bw br de)
  else if String.eqb name "rel_position" then x ← as_int32 v; Some (mkClientBody url du po (keep rp x) rc rd pr ca pl us bw br de)
  else if String.eqb name "rebuf_count" then x ← as_int32 v; Some (mkClientBody url du po rp (keep rc x) rd pr ca pl us bw br de)
  else if String.eqb name "rebuf_duration" then x ← as_int32 v; Some (mkClientBody url du po rp rc (keep rd x) pr ca pl us bw br de)
  else if String.eqb name "protocol" then x ← as_string v; Some (mkClientBody url du po rp rc rd (keep pr x) ca pl us bw br de)
  else if String.eqb name "cache" then x ← as_string v; Some (mkClientBody url du po rp rc rd pr x pl us bw br de)
  else if String.eqb name "player" then x ← as_string v; Some (mkClientBody url du po rp rc rd pr ca (keep pl x) us bw br de)
  else if String.eqb name "user_id" then x ← as_string v; Some (mkClientBody url du po rp rc rd pr ca pl (keep us x) bw br de)
  else if String.eqb name "bandwidth" then x ← as_int32 v; Some (mkClientBody url du po rp rc rd pr ca pl us x br de)
  else if String.eqb name "bitrate" then x ← as_int32 v; Some (mkClientBody url du po rp rc rd pr ca pl us bw x de)
  else if String.eqb name "device" then x ← as_string v; Some (mkClientBody url du po rp rc rd pr ca pl us bw br (keep de x))
  else Some b.
Definition zero_body : ClientBody := mkClientBody "" 0 0 0 0 0 "" None "" "" None None "".

(** ** The command line *)

(** The checks of [BuildAddPayload], in its order. *)
Definition client_checks (b : ClientBody) : list fieldError :=
  too_long "body.url" (Some (cb_URL b)) 512 ++
  too_small "body.duration" (Some (cb_Duration b)) 0 ++
  too_large "body.duration" (Some (cb_Duration b)) 60000 ++
  too_small "body.position" (Some (cb_Position b)) 0 ++
  too_small "body.rel_position" (Some (cb_RelPosition b)) 0 ++
  too_large "body.rel_position" (Some (cb_RelPosition b)) 100 ++
  too_small "body.rebuf_count" (Some (cb_RebufCount b)) 0 ++
  too_small "body.rebuf_duration" (Some (cb_RebufDuration b)) 0 ++
  too_large "body.rebuf_duration" (Some (cb_RebufDuration b)) 60000 ++
  not_among "body.protocol" (Some (cb_Protocol b)) ["stb"; "hls"; "lvs"] ++
  not_among "body.cache" (cb_Cache b) ["local"; "player"; "miss"] ++
  too_long "body.player" (Some (cb_Player b)) 128 ++
  too_short "body.user_id" (Some (cb_UserID b)) 1 ++
  too_long "body.user_id" (Some (cb_UserID b)) 45 ++
  not_among "body.device" (Some (cb_Device b)) ["ios"; "adr"; "web"; "dsk"; "stb"].

Inductive payloadError := InvalidJSON | InvalidBody (errs : list fieldError).

(** [json.Unmarshal] reads the whole text. *)
Definition BuildAddPayload (reporterAddBody : string) : payloadError + PlaybackReport :=
  match unmarshal reporterAddBody, decode_object reporterAddBody with
  | Some _, Some es =>
    match match es with None => Some zero_body | Some es => foldl set_client (Some zero_body) es end with
    | None => inl InvalidJSON
    | Some b =>
      match client_checks b with
      | [] => inr (mkReport (cb_URL b) (cb_Duration b) (cb_Position b) (cb_RelPosition b) (cb_RebufCount b) (cb_RebufDuration b)
                     (cb_Protocol b) (cb_Cache b) (cb_Player b) (cb_UserID b) (cb_Bandwidth b) (cb_Bitrate b) (cb_Device b))
      | errs => inl (InvalidBody errs)
      end
    end
  | _, _ => inl InvalidJSON
  end.

(** ** Requests and responses *)

Record CRequest := mkCRequest { cr_Method : string; cr_URL : string; cr_Body : string }.
Record CResponse := mkCResponse { cs_StatusCode : Z; cs_Body : string }.

(** The errors of goa's client. *)
Inductive clientError :=
| ErrInvalidURL (url : string) (err : error)
| ErrEncodingError | ErrRequestError (err : error)
| ErrDecodingError | ErrValidationError (errs : list fieldError)
| ErrInvalidResponse (code : Z) (body : string)
| ClientMultiFieldError (message : string).

Definition AddReporterPath : string := "/reports/playback".
Definition HealthzReporterPath : string := "/healthz".

Section client.
Context (scheme host : string) (invalid_url : string → option error) (Do : CRequest → error + CResponse).

(** [url.URL.String] for a scheme, a host and a path. *)
Definition url_String (path : string) : string := scheme +:+ "://" +:+ host +:+ path.
Definition build_request (method path : string) : clientError + CRequest :=
  let u := url_String path in
  match invalid_url u with Some err => inl (ErrInvalidURL u err) | None => inr (mkCRequest method u "") end.
Definition BuildAddRequest : clientError + CRequest := build_request "POST" AddReporterPath.
Definition BuildHealthzRequest : clientError + CRequest := build_request "GET" HealthzReporterPath.

Definition EncodeAddRequest (req : CRequest) (p : PlaybackReport) : CRequest :=
  mkCRequest (cr_Method req) (cr_URL req) (body_text (NewAddRequestBody p)).

(** [AddMultiFieldErrorResponseBody]: its message, nil without one. *)
Definition set_message (m : option (option string)) (e : string * value) : option (option string) :=
  m ← m; if String.eqb (fold_name e.1) "message" then as_string e.2 else Some m.
Definition decode_message (s : string) : option (option string) :=
  match decode_object s with
  | None => None
  | Some None => Some None
  | Some (Some es) => foldl set_message (Some None) es
  end.
Definition ValidateAddMultiFieldErrorResponseBody (m : option string) : list fieldError := require "message" m.

Definition DecodeAddResponse (resp : CResponse) : option clientError :=
  if cs_StatusCode resp =? 201 then None
  else if cs_StatusCode resp =? 400 then
    match decode_message (cs_Body resp) with
    | None => Some ErrDecodingError
    | Some m =>
      match ValidateAddMultiFieldErrorResponseBody m, m with
      | [], Some message => Some (ClientMultiFieldError message)
      | errs, _ => Some (ErrValidationError errs)
      end
    end
  else Some (ErrInvalidResponse (cs_StatusCode resp) (cs_Body resp)).

Definition DecodeHealthzResponse (resp : CResponse) : clientError + string :=
  if cs_StatusCode resp =? 200 then
    match decode (cs_Body resp) with
    | Some (VStr s, _) => inr s
    | Some (VNil, _) => inr ""
    | _ => inl ErrDecodingError
    end
  else inl (ErrInvalidResponse (cs_StatusCode resp) (cs_Body resp)).

(** [Client.Add] and [Client.Healthz]. *)
Definition Client_Add (p : PlaybackReport) : option clientError :=
  match BuildAddRequest with
  | inl err => Some err
  | inr req =>
    match Do (EncodeAddRequest req p) with
    | inl err => Some (ErrRequestError err)
    | inr resp => DecodeAddResponse resp
    end
  end.
Definition Client_Healthz : clientError + string :=
  match BuildHealthzRequest with
  | inl err => inl err
  | inr req =>
    match Do req with
    | inl err => inl (ErrRequestError err)
    | inr resp => DecodeHealthzResponse resp
    end
  end.
End client.

(** ** From the client to the server *)

(** A report as the server's body holds it. *)
Definition body_of (p : PlaybackReport) : AddRequestBody :=
  mkBody (Some (pr_URL p)) (Some (pr_Duration p)) (Some (pr_Position p)) (Some (pr_RelPosition p)) (Some (pr_RebufCount p)) (Some (pr_RebufDuration p))
    (Some (pr_Protocol p)) (pr_Cache p) (Some (pr_Player p)) (Some (pr_UserID p)) (pr_Bandwidth p) (pr_Bitrate p) (Some (pr_Device p)).

Definition utf8_opt (o : option string) : Prop := ∀ s, o = Some s → valid_utf8 s = true.
Record sendable (p : PlaybackReport) : Prop := {
  se_url : valid_utf8 (pr_URL p) = true;
  se_protocol : valid_utf8 (pr_Protocol p) = true;
  se_cache : utf8_opt (pr_Cache p);
  se_player : valid_utf8 (pr_Player p) = true;
  se_user : valid_utf8 (pr_UserID p) = true;
  se_device : valid_utf8 (pr_Device p) = true;
  se_numbers : Forall int32 [pr_Duration p; pr_Position p; pr_RelPosition p; pr_RebufCount p; pr_RebufDuration p];
  se_bandwidth : int32_opt (pr_Bandwidth p);
  se_bitrate : int32_opt (pr_Bitrate p);
}.

(** What the members of the text are read as. *)
Definition omitted {A} (name : string) (show : A → value) (o : option A) : list (string * value) :=
  match o with Some x => [(name, show x)] | None => [] end.
Definition num (z : Z) : value := VNum (Itoa z).
Definition body_values (b : ClientBody) : list (string * value) :=
  [("url", VStr (cb_URL b)); ("duration", num (cb_Duration b)); ("position", num (cb_Position b));
   ("rel_position", num (cb_RelPosition b)); ("rebuf_count", num (cb_RebufCount b)); ("rebuf_duration", num (cb_RebufDuration b));
   ("protocol", VStr (cb_Protocol b))] ++
  omitted "cache" VStr (cb_Cache b) ++
  [("player", VStr (cb_Player b)); ("user_id", VStr (cb_UserID b))] ++
  omitted "bandwidth" num (cb_Bandwidth b) ++ omitted "bitrate" num (cb_Bitrate b) ++
  [("device", VStr (cb_Device b))].

Definition member_reads (e : string * string) (v : string * value) : Prop :=
  e.1 = v.1 ∧ valid_utf8 e.1 = true ∧ reads (parse_value (Nat.pred max_depth)) e.2 v.2.
Lemma member_string name s : valid_utf8 name = true → valid_utf8 s = true → member_reads (name, quoted s) (name, VStr s).
Proof. intros Hn Hs. split_and!; [done..|]. intros t _. by apply parse_quoted_back. Qed.
Lemma member_num name z : valid_utf8 name = true → member_reads (name, Itoa z) (name, num z).
Proof. intros Hn. split_and!; [done..|]. intros t Ht. apply parse_number_back; [apply valid_Itoa|done]. Qed.

Lemma body_members p : sendable p → Forall2 member_reads (body_fields (NewAddRequestBody p)) (body_values (NewAddRequestBody p)).
Proof.
  intros [Hu Hpr Hca Hpl Hus Hde _ _ _]. unfold body_fields, body_values. cbn [NewAddRequestBody cb_URL cb_Duration cb_Position cb_RelPosition cb_RebufCount cb_RebufDuration cb_Protocol cb_Cache cb_Player cb_UserID cb_Bandwidth cb_Bitrate cb_Device].
  repeat apply Forall2_app; unfold omitempty, omitted; repeat case_match;
    repeat first [apply Forall2_nil_2 | apply Forall2_cons_2]; first [by apply member_num | apply member_string; [done|]; auto].
Qed.

Lemma as_int32_num z : int32 z → as_int32 (num z) = Some (Some z).
Proof. intros Hz. unfold as_int32, num. by rewrite ParseInt_Itoa. Qed.
#[local] Arguments as_int32 : simpl never.
#[local] Arguments num : simpl never.

Lemma set_server_values p : sendable p → foldl set_server (Some no_body) (body_values (NewAddRequestBody p)) = Some (body_of p).
Proof.
  intros [_ _ _ _ _ _ Hn Hbw Hbr]. destruct p as [url du po rp rc rd pr ca pl us bw br de]. cbn [pr_Duration pr_Position pr_RelPosition pr_RebufCount pr_RebufDuration pr_Bandwidth pr_Bitrate] in *.
  repeat (apply Forall_cons in Hn as [? Hn]).
  unfold body_values, body_of, omitted. cbn [NewAddRequestBody cb_URL cb_Duration cb_Position cb_RelPosition cb_RebufCount cb_RebufDuration cb_Protocol cb_Cache cb_Player cb_UserID cb_Bandwidth cb_Bitrate cb_Device pr_URL pr_Duration pr_Position pr_RelPosition pr_RebufCount pr_RebufDuration pr_Protocol pr_Cache pr_Player pr_UserID pr_Bandwidth pr_Bitrate pr_Device].
  destruct ca, bw as [b1|], br as [b2|]; try specialize (Hbw b1 eq_refl); try specialize (Hbr b2 eq_refl);
    cbn; repeat (rewrite as_int32_num by done; cbn); reflexivity.
Qed.
Lemma skip_ws_body b : skip_ws (body_text b) = body_text b.
Proof. done. Qed.

(** The server's decoder finds in the client's text the fields of the report. *)
Lemma server_decodes p : sendable p → decode_body (body_text (NewAddRequestBody p)) = Decoded (body_of p).
Proof.
  intros Hp. unfold decode_body. rewrite skip_ws_body. unfold body_text at 1. unfold body_text.
  rewrite (decode_struct _ (body_values (NewAddRequestBody p))); [|by apply body_members|done].
  rewrite set_server_values by done. reflexivity.
Qed.
Lemma body_of_report p : NewAddPlaybackReport (body_of p) = Some p.
Proof. by destruct p. Qed.

(** *** What the command line accepts *)

Record client_ok (b : ClientBody) : Prop := {
  ok_url : valid_utf8 (cb_URL b) = true; ok_protocol : valid_utf8 (cb_Protocol b) = true; ok_cache : utf8_opt (cb_Cache b);
  ok_player : valid_utf8 (cb_Player b) = true; ok_user : valid_utf8 (cb_UserID b) = true; ok_device : valid_utf8 (cb_Device b) = true;
  ok_numbers : Forall int32 [cb_Duration b; cb_Position b; cb_RelPosition b; cb_RebufCount b; cb_RebufDuration b];
  ok_bandwidth : int32_opt (cb_Bandwidth b); ok_bitrate : int32_opt (cb_Bitrate b);
}.
Lemma as_string_utf8 v x : utf8_value v = true → as_string v = Some x → utf8_opt x.
Proof. destruct v; cbn; try done; intros H [= <-] s'; [done|]. by intros [= <-]. Qed.
Lemma as_int32_range v x : as_int32 v = Some x → int32_opt x.
Proof.
  unfold as_int32. destruct v as [| | |lit| | | | |]; try done; [by intros [= <-]|]. destruct (ParseInt lit 32) as [z|] eqn:E; [|done].
  intros [= <-] y [= <-]. by apply ParseInt_range in E.
Qed.
Lemma keep_utf8 old x : valid_utf8 old = true → utf8_opt x → valid_utf8 (keep old x) = true.
Proof. destruct x; [|done]. intros _ H. by apply H. Qed.
Lemma keep_int32 old x : int32 old → int32_opt x → int32 (keep old x).
Proof. destruct x; [|done]. intros _ H. by apply H. Qed.
Create HintDb watchman_client.
#[local] Hint Resolve as_string_utf8 as_int32_range keep_utf8 keep_int32 : watchman_client.

Lemma set_client_ok b e b' : client_ok b → utf8_value e.2 = true → set_client (Some b) e = Some b' → client_ok b'.
Proof.
  intros [Hu Hpr Hca Hpl Hus Hde Hn Hbw Hbr] He. destruct b as [url du po rp rc rd pr ca pl us bw br de].
  cbn in Hu, Hpr, Hca, Hpl, Hus, Hde, Hn, Hbw, Hbr. repeat (apply Forall_cons in Hn as [? Hn]).
  unfold set_client. cbn [mbind option_bind]. cbv zeta.
  repeat (destruct (String.eqb (fold_name e.1) _);
    [first [destruct (as_string e.2) as [x|] eqn:Hx; [apply as_string_utf8 in Hx; [|done]|done]|destruct (as_int32 e.2) as [x|] eqn:Hx; [apply as_int32_range in Hx|done]];
     intros [= <-]; split; cbn; rewrite ?Forall_cons, ?Forall_nil; auto 10 with watchman_client|]).
  intros [= <-]. split; cbn; rewrite ?Forall_cons, ?Forall_nil; auto 10.
Qed.
Lemma set_client_None es : foldl set_client None es = None.
Proof. induction es as [|e es IH]; [done|]. exact IH. Qed.
Lemma set_clients_ok es b b' : client_ok b → Forall (λ e, utf8_value e.2 = true) es → foldl set_client (Some b) es = Some b' → client_ok b'.
Proof.
  intros Hb Hes. revert b Hb. induction Hes as [|e es He _ IH]; intros b Hb; [by intros [= <-]|]. cbn [foldl].
  destruct (set_client (Some b) e) as [b1|] eqn:E; [|by rewrite set_client_None]. apply IH. by eapply set_client_ok.
Qed.
Lemma zero_body_ok : client_ok zero_body.
Proof. split; try done. repeat constructor; done. Qed.

Lemma BuildAddPayload_inv s p : BuildAddPayload s = inr p → sendable p ∧ ValidateAddRequestBody (body_of p) = [].
Proof.
  unfold BuildAddPayload. destruct (unmarshal s); [|done]. destruct (decode_object s) as [es|] eqn:Hes; [|done].
  destruct (match es with None => Some zero_body | Some es => _ end) as [b|] eqn:Hb; [|done].
  destruct (client_checks b) eqn:Hc; [|done]. intros [= <-].
  assert (client_ok b) as [] .
  { destruct es as [es|]; [|injection Hb as <-; apply zero_body_ok]. apply decode_object_ok in Hes.
    eapply set_clients_ok; [apply zero_body_ok| |exact Hb]. eapply Forall_impl; [exact Hes|]. by intros e [_ [_ ? _ _]]. }
  split; [by split|]. exact Hc.
Qed.

(** C27: A report the command line accepts reaches the service as it is: the text the
    client sends is decoded by the server, passes its validation, and gives the report
    the command line built from its own JSON argument. *)
Theorem client_report_received s p h addr :
  BuildAddPayload s = inr p →
  DecodeAddRequest (mkWRequest h addr (decode_body (body_text (NewAddRequestBody p)))) = inr (Some p).
Proof.
  intros [Hp Hv]%BuildAddPayload_inv. unfold DecodeAddRequest. cbn [wr_body]. rewrite server_decodes by done. by rewrite Hv, body_of_report.
Qed.

Definition jfield (name text : string) : string := quoted name +:+ ": " +:+ text.
Definition ex_arg : string := "{" +:+ Join
  [jfield "url" (quoted "@a#f/caf<3"); jfield "duration" "30000"; jfield "Position" "5"; jfield "rel_position" "13"; jfield "rebuf_count" "0";
   jfield "protocol" (quoted "hls"); jfield "cache" (quoted "miss"); jfield "player" (quoted "sg-p2"); jfield "user_id" (quoted "432521");
   jfield "bandwidth" "null"; jfield "bitrate" "-7"; jfield "device" (quoted "ios")] ", " +:+ "}".
Definition ex_report : PlaybackReport := mkReport "@a#f/caf<3" 30000 5 13 0 0 "hls" (Some "miss") "sg-p2" "432521" None (Some (-7)) "ios".

Lemma client_report_received_witness :
  BuildAddPayload ex_arg = inr ex_report ∧
  DecodeAddRequest (mkWRequest ∅ "1.2.3.4:5" (decode_body (body_text (NewAddRequestBody ex_report)))) = inr (Some ex_report).
Proof.
  split; [vm_compute; reflexivity|]. apply (client_report_received ex_arg). vm_compute. reflexivity.
Defined.

(** The command line fills in what its argument leaves out, where zero is allowed: the
    server, which requires every field, would have refused the same text. *)
Example missing_fields_filled :
  BuildAddPayload (struct_text [("protocol", quoted "hls"); ("user_id", quoted "1"); ("device", quoted "web")]) =
    inr (mkReport "" 0 0 0 0 0 "hls" None "" "1" None None "web") ∧
  DecodeAddRequest (mkWRequest ∅ "" (decode_body (struct_text [("protocol", quoted "hls"); ("user_id", quoted "1"); ("device", quoted "web")]))) =
    inl (Invalid (map MissingFieldError ["url"; "duration"; "position"; "rel_position"; "rebuf_count"; "rebuf_duration"; "player"])).
Proof. split; vm_compute; reflexivity. Qed.

(** *** Answers *)

(** The client reports success exactly for the status the service answers a stored
    report with, and the service's own error with its message. *)
Lemma Client_Add_success scheme host invalid_url Do p : Client_Add scheme host invalid_url Do p = None ↔
  invalid_url (url_String scheme host AddReporterPath) = None ∧
  ∃ body, Do (mkCRequest "POST" (url_String scheme host AddReporterPath) (body_text (NewAddRequestBody p))) = inr (mkCResponse 201 body).
Proof.
  unfold Client_Add, BuildAddRequest, build_request. destruct (invalid_url _); [naive_solver|].
  unfold EncodeAddRequest. cbn [cr_Method cr_URL]. destruct (Do _) as [err|[code body]]; [naive_solver|].
  unfold DecodeAddResponse. cbn [cs_StatusCode cs_Body]. destruct (Z.eqb_spec code 201) as [->|Hne].
  - split; [|done]. intros _. split; [done|]. by exists body.
  - split; [|intros (_ & body' & [= -> _]); done].
    destruct (code =? 400); [|done]. destruct (decode_message body) as [[m|]|]; done.
Qed.
Lemma Client_Add_message message : valid_utf8 message = true →
  DecodeAddResponse (mkCResponse 400 (struct_text [("message", quoted message)])) = Some (ClientMultiFieldError message).
Proof.
  intros Hm. unfold DecodeAddResponse, decode_message. cbn [cs_StatusCode cs_Body Z.eqb Pos.eqb].
  rewrite <-(app_empty_r (struct_text _)), (decode_struct _ [("message", VStr message)]); [done| |done].
  constructor; [|constructor]. by apply member_string.
Qed.
