(* ===== verification/PromMetrics.v ===== *)
(** * Metrics

    The Prometheus metrics of the packages, as their declarations in the source give
    them, the registrations at start-up and the functions that observe values
    ([internal/metrics], [app/query/metrics.go], [app/asynquery/metrics.go],
    [app/geopublish/metrics], [apps/*/metrics.go], [pkg/queue/metrics.go],
    [pkg/redislocker/metrics.go], and [observeFailure]/[observeSuccess] of the handlers).

    Registering a name twice and giving a vector the wrong number of label values panic:
    neither happens.  The Prometheus library is a parameter: [BuildFQName] joins the
    parts of a name, [Register] accepts a metric whose name is new. *)

From S2P Require Import Prelude GoLib Errors.
From Stdlib Require Import Ascii String.

Local Open Scope string_scope.
Local Open Scope Z_scope.

Inductive kind := Counter | Gauge | Histogram | Summary.
Record Metric := mkMetric {
  mt_kind : kind;
  mt_Namespace : string;
  mt_Subsystem : string;
  mt_Name : string;
  mt_labels : list string;           (* none for a plain metric *)
}.

(** ** Declarations *)

(** *** [internal/metrics/metrics.go] *)

Definition IAPIAuthSuccessDurations : Metric := mkMetric Histogram "iapi" "auth" "success_seconds" [].
Definition IAPIAuthFailedDurations : Metric := mkMetric Histogram "iapi" "auth" "failed_seconds" [].
Definition IAPIAuthErrorDurations : Metric := mkMetric Histogram "iapi" "auth" "error_seconds" [].
Definition AuthTokenCacheHits : Metric := mkMetric Counter "auth" "cache" "hits" [].
Definition AuthTokenCacheMisses : Metric := mkMetric Counter "auth" "cache" "misses" [].
Definition ProxyE2ECallDurations : Metric := mkMetric Histogram "proxy" "e2e_calls" "total_seconds" ["method"].
Definition ProxyE2ECallFailedDurations : Metric := mkMetric Histogram "proxy" "e2e_calls" "failed_seconds" ["method"; "kind"].
Definition ProxyE2ECallCounter : Metric := mkMetric Counter "proxy" "e2e_calls" "total_count" ["method"].
Definition ProxyE2ECallFailedCounter : Metric := mkMetric Counter "proxy" "e2e_calls" "failed_count" ["method"; "kind"].
Definition ProxyCallDurations : Metric := mkMetric Histogram "proxy" "calls" "total_seconds" ["method"; "endpoint"; "origin"].
Definition ProxyCallFailedDurations : Metric := mkMetric Histogram "proxy" "calls" "failed_seconds" ["method"; "endpoint"; "origin"; "kind"].
Definition ProxyCallCounter : Metric := mkMetric Counter "proxy" "calls" "total_count" ["method"; "endpoint"; "origin"].
Definition ProxyCallFailedCounter : Metric := mkMetric Counter "proxy" "calls" "failed_count" ["method"; "endpoint"; "origin"; "kind"].
Definition ProxyQueryCacheHitCount : Metric := mkMetric Counter "proxy" "cache" "hit_count" ["method"].
Definition ProxyQueryCacheMissCount : Metric := mkMetric Counter "proxy" "cache" "miss_count" ["method"].
Definition ProxyQueryCacheErrorCount : Metric := mkMetric Counter "proxy" "cache" "error_count" ["method"].
Definition LbrynetWalletsLoaded : Metric := mkMetric Gauge "lbrynet" "wallets" "count" ["source"].
Definition UIBufferCount : Metric := mkMetric Counter "ui" "content" "buffer_count" [].
Definition UITimeToStart : Metric := mkMetric Histogram "ui" "content" "time_to_start" ["player"].
Definition LbrytvCallDurations : Metric := mkMetric Histogram "lbrytv" "calls" "total_seconds" ["path"].
Definition LbrytvNewUsers : Metric := mkMetric Counter "lbrytv" "users" "count" [].
Definition LbrytvPurchases : Metric := mkMetric Counter "lbrytv" "purchase" "count" [].
Definition LbrytvPurchaseAmounts : Metric := mkMetric Histogram "lbrytv" "purchase" "amounts" [].
Definition LbrytvStreamRequests : Metric := mkMetric Counter "lbrytv" "stream" "count" ["type"].
Definition LbrytvDBOpenConnections : Metric := mkMetric Gauge "lbrytv" "db" "conns_open" [].
Definition LbrytvDBInUseConnections : Metric := mkMetric Gauge "lbrytv" "db" "conns_in_use" [].
Definition LbrytvDBIdleConnections : Metric := mkMetric Gauge "lbrytv" "db" "conns_idle" [].
Definition LbrynetXCallDurations : Metric := mkMetric Histogram "lbrynext" "calls" "total_seconds" ["method"; "endpoint"; "group"].
Definition LbrynetXCallFailedDurations : Metric := mkMetric Histogram "lbrynext" "calls" "failed_seconds" ["method"; "endpoint"; "group"; "kind"].
Definition LbrynetXCallCounter : Metric := mkMetric Counter "lbrynext" "calls" "total_count" ["method"; "endpoint"; "group"].
Definition LbrynetXCallFailedCounter : Metric := mkMetric Counter "lbrynext" "calls" "failed_count" ["method"; "endpoint"; "group"; "kind"].
Definition PublishVolumeMB : Metric := mkMetric Counter "publish" "" "volume_mb" [].
Definition operations : Metric := mkMetric Summary "op" "" "latency_seconds" ["name"; "tag"].

(** *** [app/query/metrics.go] *)

Definition query_QueryCacheOperationDuration : Metric := mkMetric Histogram "query_cache" "" "operation_duration_seconds" ["operation"; "result"; "method"].
Definition query_QueryCacheRetrievalDuration : Metric := mkMetric Histogram "query_cache" "" "retrieval_duration_seconds" ["result"; "method"].
Definition query_QueryCacheRetrievalFailures : Metric := mkMetric Counter "query_cache" "" "retrieval_retries" ["kind"; "method"].
Definition query_QueryCacheRetrySuccesses : Metric := mkMetric Summary "query_cache" "" "retry_successes" [].
Definition query_QueryCacheErrorCount : Metric := mkMetric Counter "query_cache" "" "error_count" ["area"].

(** *** [app/geopublish/metrics/metrics.go] *)

Definition geo_UploadsCreated : Metric := mkMetric Counter "geopublish" "" "uploads_created" [].
Definition geo_UploadsProcessed : Metric := mkMetric Counter "geopublish" "" "uploads_processed" [].
Definition geo_UploadsCanceled : Metric := mkMetric Counter "geopublish" "" "uploads_canceled" [].
Definition geo_UploadsFailed : Metric := mkMetric Counter "geopublish" "" "uploads_failed" [].
Definition geo_UploadsDBErrors : Metric := mkMetric Counter "geopublish" "" "uploads_db_errors" [].
Definition geo_QueriesSent : Metric := mkMetric Counter "geopublish" "" "queries_sent" [].
Definition geo_QueriesCompleted : Metric := mkMetric Counter "geopublish" "" "queries_completed" [].
Definition geo_QueriesFailed : Metric := mkMetric Counter "geopublish" "" "queries_failed" [].
Definition geo_QueriesErrored : Metric := mkMetric Counter "geopublish" "" "queries_errored" [].
Definition geo_QueueTasks : Metric := mkMetric Gauge "geopublish" "" "queue_tasks" ["status"].
Definition geo_EgressBytes : Metric := mkMetric Counter "geopublish" "" "egress_bytes_total" [].
Definition geo_EgressDuration : Metric := mkMetric Counter "geopublish" "" "egress_duration_total" [].
Definition geo_AnalysisDuration : Metric := mkMetric Counter "geopublish" "" "analysis_duration_total" [].
Definition geo_FileSize : Metric := mkMetric Histogram "geopublish" "" "upload_size_mb" ["media_type"].
Definition geo_ProcessingTime : Metric := mkMetric Histogram "geopublish" "" "processing_time" ["stage"].
Definition geo_ProcessingErrors : Metric := mkMetric Counter "geopublish" "" "processing_errors" ["stage"].

(** *** [app/asynquery/metrics.go] *)

Definition aq_InternalErrors : Metric := mkMetric Counter "asynquery" "" "errors" ["area"].
Definition aq_QueriesSent : Metric := mkMetric Counter "asynquery" "" "queries_sent" [].
Definition aq_QueriesCompleted : Metric := mkMetric Counter "asynquery" "" "queries_completed" [].
Definition aq_QueriesFailed : Metric := mkMetric Counter "asynquery" "" "queries_failed" [].
Definition aq_QueriesErrored : Metric := mkMetric Counter "asynquery" "" "queries_errored" [].
Definition aq_DraftsCreated : Metric := mkMetric Counter "asynquery" "" "drafts_created_total" [].
Definition aq_CommitsTotal : Metric := mkMetric Counter "asynquery" "" "commits_total" [].
Definition aq_CommitEnqueueFailed : Metric := mkMetric Counter "asynquery" "" "commit_enqueue_failed_total" [].

(** *** [apps/watchman/metrics.go] *)

Definition wm_httpResponses : Metric := mkMetric Histogram "" "" "watchman_http_responses" ["endpoint"; "status_code"].

(** *** [apps/forklift/metrics.go] *)

Definition fk_waitTimeMinutes : Metric := mkMetric Histogram "forklift" "" "wait_time_minutes" [].
Definition fk_processingDurationSeconds : Metric := mkMetric Counter "forklift" "" "processing_duration_seconds" ["stage"].
Definition fk_processingErrors : Metric := mkMetric Counter "forklift" "" "processing_errors" ["stage"].
Definition fk_egressVolumeMB : Metric := mkMetric Counter "forklift" "" "egress_volume_mb" [].
Definition fk_egressDurationSeconds : Metric := mkMetric Counter "forklift" "" "egress_duration_seconds" [].

(** *** [apps/uploads/metrics.go] *)

Definition up_userAuthErrors : Metric := mkMetric Counter "uploads_v4" "" "user_auth_errors" [].
Definition up_sqlErrors : Metric := mkMetric Counter "uploads_v4" "" "sql_errors" [].
Definition up_redisErrors : Metric := mkMetric Counter "uploads_v4" "" "redis_errors" [].

(** *** [pkg/queue/metrics.go] *)

Definition qu_queueTasks : Metric := mkMetric Gauge "queue" "" "queue_tasks" ["status"].

(** *** [pkg/redislocker/metrics.go] *)

Definition rl_locked : Metric := mkMetric Counter "redislocker" "" "locked" [].
Definition rl_unlocked : Metric := mkMetric Counter "redislocker" "" "unlocked" [].
Definition rl_fileLockedErrors : Metric := mkMetric Counter "redislocker" "errors" "file_locked" [].
Definition rl_unlockErrors : Metric := mkMetric Counter "redislocker" "errors" "unlock" [].

(** ** Registrations *)

(** [promauto] registers at the initialization of a package. *)
Definition metrics_init : list Metric :=
  [IAPIAuthSuccessDurations; IAPIAuthFailedDurations; IAPIAuthErrorDurations; AuthTokenCacheHits; AuthTokenCacheMisses;
   ProxyE2ECallDurations; ProxyE2ECallFailedDurations; ProxyE2ECallCounter; ProxyE2ECallFailedCounter;
   ProxyCallDurations; ProxyCallFailedDurations; ProxyCallCounter; ProxyCallFailedCounter;
   ProxyQueryCacheHitCount; ProxyQueryCacheMissCount; ProxyQueryCacheErrorCount; LbrynetWalletsLoaded; UIBufferCount; UITimeToStart;
   LbrytvCallDurations; LbrytvNewUsers; LbrytvPurchases; LbrytvPurchaseAmounts; LbrytvStreamRequests;
   LbrytvDBOpenConnections; LbrytvDBInUseConnections; LbrytvDBIdleConnections;
   LbrynetXCallDurations; LbrynetXCallFailedDurations; LbrynetXCallCounter; LbrynetXCallFailedCounter; PublishVolumeMB; operations].
Definition query_init : list Metric :=
  [query_QueryCacheOperationDuration; query_QueryCacheRetrievalDuration; query_QueryCacheRetrievalFailures; query_QueryCacheRetrySuccesses; query_QueryCacheErrorCount].
Definition geo_RegisterMetrics : list Metric :=
  [geo_UploadsCreated; geo_UploadsProcessed; geo_UploadsCanceled; geo_UploadsFailed;
   geo_QueriesSent; geo_QueriesCompleted; geo_QueriesFailed; geo_QueriesErrored;
   geo_QueueTasks; geo_ProcessingTime; geo_ProcessingErrors; geo_EgressBytes; geo_EgressDuration; geo_AnalysisDuration; geo_FileSize].
Definition aq_registerMetrics : list Metric :=
  [aq_InternalErrors; aq_QueriesSent; aq_QueriesCompleted; aq_QueriesFailed; aq_QueriesErrored; aq_DraftsCreated; aq_CommitsTotal; aq_CommitEnqueueFailed].
Definition wm_RegisterMetrics : list Metric := [wm_httpResponses].
Definition fk_registerMetrics : list Metric :=
  [fk_waitTimeMinutes; fk_processingDurationSeconds; fk_processingErrors; fk_egressVolumeMB; fk_egressDurationSeconds].
Definition up_registerMetrics : list Metric := [up_userAuthErrors; up_sqlErrors; up_redisErrors].
Definition qu_registerMetrics : list Metric := [qu_queueTasks].
Definition rl_RegisterMetrics : list Metric := [rl_locked; rl_unlocked; rl_fileLockedErrors; rl_unlockErrors].

(** The API process: packages, then [InstallRoutes] and the call manager. *)
Definition api_metrics : list Metric := metrics_init ++ query_init ++ geo_RegisterMetrics ++ rl_RegisterMetrics ++ aq_registerMetrics.
(** The registry of the upload service. *)
Definition upload_metrics : list Metric := up_registerMetrics ++ rl_RegisterMetrics.

Section register.
Context {R : Type} (BuildFQName : string → string → string → string) (Register : Metric → R → error + R) (names : R → gset string).
Definition fq (m : Metric) : string := BuildFQName (mt_Namespace m) (mt_Subsystem m) (mt_Name m).

Hypothesis BuildFQName_join : ∀ ns ss n, n ≠ "" → BuildFQName ns ss n = Join (filter (λ x, x ≠ "") [ns; ss; n]) "_".
Hypothesis Register_new : ∀ m r, fq m ∉ names r → ∃ r', Register m r = inr r' ∧ names r' = {[fq m]} ∪ names r.

(** [MustRegister] *)
Fixpoint MustRegister (ms : list Metric) (r : R) : result error R :=
  match ms with
  | [] => ROk r
  | m :: ms => match Register m r with inl err => RPanic (Error err) | inr r => MustRegister ms r end
  end.

Lemma MustRegister_new ms r : NoDup (map fq ms) → (∀ m, m ∈ ms → fq m ∉ names r) → ∃ r', MustRegister ms r = ROk r' ∧ names r' = list_to_set (map fq ms) ∪ names r.
Proof.
  revert r. induction ms as [|m ms IH]; intros r Hnd Hnew; [exists r; split; [done|]; set_solver|].
  cbn in Hnd. apply NoDup_cons in Hnd as [Hm Hnd]. destruct (Register_new m r) as (r1 & Hr & Hn); [apply Hnew; set_solver|].
  destruct (IH r1 Hnd) as (r2 & Hr2 & Hn2).
  { intros m' Hm'. rewrite Hn. apply not_elem_of_union. split; [|apply Hnew; set_solver].
    intros Heq%elem_of_singleton. apply Hm. rewrite <-Heq. by apply list_elem_of_fmap_2. }
  exists r2. cbn. rewrite Hr. split; [done|]. rewrite Hn2, Hn. set_solver.
Qed.

Definition joined (m : Metric) : string := Join (filter (λ x, x ≠ "") [mt_Namespace m; mt_Subsystem m; mt_Name m]) "_".
Lemma fq_joined ms : Forall (λ m, mt_Name m ≠ "") ms → map fq ms = map joined ms.
Proof. induction 1 as [|m ms Hm _ IH]; [done|]. cbn. rewrite IH. unfold fq. by rewrite BuildFQName_join. Qed.

(** The start-up of the API registers all its metrics without a panic, whatever else the
    default registry holds under other names, and the upload service its own. *)
Lemma api_metrics_register r : (∀ m, m ∈ api_metrics → fq m ∉ names r) →
  ∃ r', MustRegister api_metrics r = ROk r' ∧ names r' = list_to_set (map fq api_metrics) ∪ names r.
Proof.
  apply MustRegister_new. rewrite fq_joined.
  - apply (bool_decide_unpack _). vm_compute. exact I.
  - apply (bool_decide_unpack _). vm_compute. exact I.
Qed.
Lemma upload_metrics_register r : (∀ m, m ∈ upload_metrics → fq m ∉ names r) →
  ∃ r', MustRegister upload_metrics r = ROk r' ∧ names r' = list_to_set (map fq upload_metrics) ∪ names r.
Proof.
  apply MustRegister_new. rewrite fq_joined.
  - apply (bool_decide_unpack _). vm_compute. exact I.
  - apply (bool_decide_unpack _). vm_compute. exact I.
Qed.
End register.

(** A counter the event loop of geopublish increments is in no registry. *)
Example db_errors_not_exported : ¬ In geo_UploadsDBErrors api_metrics.
Proof. intros H. repeat (destruct H as [H|H]; [discriminate H|]). destruct H. Qed.

(** ** Observations *)

(** A metric, the values of its labels, and what is added or observed; durations are
    nanoseconds. *)
Definition observation : Type := Metric * list string * Z.
(** [WithLabelValues] panics otherwise. *)
Definition fits (o : observation) : bool := (List.length o.1.2 =? List.length (mt_labels o.1.1))%nat.

(** [app/proxy]; the handlers of uploads fix the method ([app/publish], [app/geopublish]). *)
Definition observeFailure (d : Z) (method kind : string) : list observation :=
  [(ProxyE2ECallDurations, [method], d); (ProxyE2ECallFailedDurations, [method; kind], d);
   (ProxyE2ECallCounter, [method], 1); (ProxyE2ECallFailedCounter, [method; kind], 1)].
Definition observeSuccess (d : Z) (method : string) : list observation :=
  [(ProxyE2ECallDurations, [method], d); (ProxyE2ECallCounter, [method], 1)].
Definition publish_observeFailure (d : Z) (kind : string) : list observation := observeFailure d "publish" kind.
Definition publish_observeSuccess (d : Z) : list observation := observeSuccess d "publish".
Definition ObserveQueryCacheOperation (operation result method : string) (elapsed : Z) : list observation :=
  [(query_QueryCacheOperationDuration, [operation; result; method], elapsed)].
Definition ObserveQueryCacheRetrievalDuration (result method : string) (elapsed : Z) : list observation :=
  [(query_QueryCacheRetrievalDuration, [result; method], elapsed)].
(** The metrics of [Caller.Call]. *)
Definition call_observations (method endpoint origin : string) (failed : bool) (duration : Z) : list observation :=
  [(ProxyCallCounter, [method; endpoint; origin], 1); (ProxyCallDurations, [method; endpoint; origin], duration)] ++
  if failed then [(ProxyCallFailedDurations, [method; endpoint; origin; "net"], duration); (ProxyCallFailedCounter, [method; endpoint; origin; "net"], 1)] else [].
(** The metrics of an error answer in [Handle] of the proxy. *)
Definition rpc_error_observations (method endpoint origin : string) (duration : Z) : list observation :=
  [(ProxyCallFailedDurations, [method; endpoint; origin; "rpc"], duration); (ProxyCallFailedCounter, [method; endpoint; origin; "rpc"], 1)].
Definition queue_observations (m : Metric) (active completed pending failed : Z) : list observation :=
  [(m, ["active"], active); (m, ["completed"], completed); (m, ["pending"], pending); (m, ["failed"], failed)].
(** [float64(time.Since(start))] is the number of nanoseconds. *)
Definition observeDuration (stage : string) (elapsed : Z) : list observation := [(fk_processingDurationSeconds, [stage], elapsed)].
Definition observeError (stage : string) : list observation := [(fk_processingErrors, [stage], 1)].
(** [prometheus.Labels] by name. *)
Definition Operation_labels (name tag : string) : list (string * string) := [("name", name); ("tag", tag)].
Definition Operation_End (name tag : string) (elapsed : Z) : list observation := [(operations, map snd (Operation_labels name tag), elapsed)].

(** Every vector gets a value for each of its labels. *)
Lemma observations_fit d elapsed m e o k s t r n1 n2 n3 n4 :
  forallb fits (observeFailure d m k ++ observeSuccess d m ++ publish_observeFailure d k ++ publish_observeSuccess d ++
    ObserveQueryCacheOperation o r m elapsed ++ ObserveQueryCacheRetrievalDuration r m elapsed ++
    call_observations m e o true d ++ call_observations m e o false d ++ rpc_error_observations m e o d ++
    queue_observations geo_QueueTasks n1 n2 n3 n4 ++ queue_observations qu_queueTasks n1 n2 n3 n4 ++
    observeDuration s elapsed ++ observeError s ++ Operation_End s t elapsed) = true.
Proof. reflexivity. Qed.
Lemma operation_labels name tag : map fst (Operation_labels name tag) = mt_labels operations.
Proof. reflexivity. Qed.

(** A failed end-to-end call is counted once more in the totals than a success is, and in
    the failures: totals never fall behind failures. *)
Definition total (m : Metric) (os : list observation) : Z :=
  foldr (λ o acc, (if String.eqb (mt_Name o.1.1) (mt_Name m) && String.eqb (mt_Subsystem o.1.1) (mt_Subsystem m) && String.eqb (mt_Namespace o.1.1) (mt_Namespace m) then o.2 else 0) + acc) 0 os.
Lemma total_app m os os' : total m (os ++ os')%list = total m os + total m os'.
Proof. unfold total. rewrite foldr_app. induction os as [|o os IH]; [done|]. cbn [foldr]. rewrite IH. lia. Qed.
Lemma totals_cover_failures (calls : list (string * option string * Z)) :
  let os := flat_map (λ c : string * option string * Z, match c.1.2 with Some k => observeFailure c.2 c.1.1 k | None => observeSuccess c.2 c.1.1 end) calls in
  total ProxyE2ECallCounter os = Z.of_nat (List.length calls) ∧
  total ProxyE2ECallFailedCounter os = Z.of_nat (List.length (filter (λ c, is_Some c.1.2) calls)).
Proof.
  induction calls as [|[[m [k|]] d] calls [IH1 IH2]]; [done|..]; cbn [flat_map]; rewrite !total_app, IH1, IH2; clear.
  - rewrite filter_cons_True by by eexists. cbn. lia.
  - rewrite filter_cons_False by by intros [? [=]]. cbn. lia.
Qed.

(** Two and a half seconds add two and a half billion to a counter named in seconds. *)
Example seconds_are_nanoseconds : total fk_processingDurationSeconds (observeDuration "analyze" 2500000000) = 2500000000.
Proof. reflexivity. Qed.
