(* ===== verification/Logging.v ===== *)
(** * Logging and reports

    Models [pkg/logging] with its zap adapter ([zapadapter.go]: levels, key-value
    loggers, the writer that turns tusd's lines of pairs into structured entries),
    and of [internal/monitor] the module loggers, whose [WithFields] masks tokens in
    production, and the reports to Sentry.

    zap, logrus and Sentry are the list of the entries they were given; zap's own
    filtering by level is a parameter of a logger. *)

From S2P Require Import Prelude GoLib Rpc Errors.
From Stdlib Require Import Ascii String.

Local Open Scope string_scope.
Local Open Scope nat_scope.

(** ** Levels *)

Inductive level := TraceLevel | DebugLevel | InfoLevel | WarnLevel | ErrorLevel | FatalLevel.
#[export] Instance level_eq : EqDecision level.
Proof. solve_decision. Defined.

Record entry := mkEntry { en_level : level; en_message : string; en_fields : list (string * value) }.

(** A logger: which levels zap's core has enabled, and the fields of its entries. *)
Record kvLogger := mkKV { kv_Enabled : level → bool; kv_fields : list (string * value) }.

Definition emit (l : kvLogger) (lv : level) (msg : string) (kvs : list (string * value)) : list entry :=
  [mkEntry lv msg (kv_fields l ++ kvs)].
Definition emit_if (l : kvLogger) (lv : level) (msg : string) (kvs : list (string * value)) : list entry :=
  if kv_Enabled l lv then emit l lv msg kvs else [].

(** [Trace] falls back to debug entries, without asking. *)
Definition kv_Trace (l : kvLogger) := emit l DebugLevel.
Definition kv_Debug (l : kvLogger) := emit_if l DebugLevel.
Definition kv_Info (l : kvLogger) := emit_if l InfoLevel.
Definition kv_Warn (l : kvLogger) := emit_if l WarnLevel.
Definition kv_Error (l : kvLogger) := emit_if l ErrorLevel.
Definition kv_Fatal (l : kvLogger) := emit l FatalLevel.
Definition kv_With (l : kvLogger) (kvs : list (string * value)) : kvLogger := mkKV (kv_Enabled l) (kv_fields l ++ kvs).

Definition LevelEnabled (l : kvLogger) (lv : level) : bool :=
  match lv with
  | TraceLevel | DebugLevel => kv_Enabled l DebugLevel
  | InfoLevel => kv_Enabled l InfoLevel
  | WarnLevel => kv_Enabled l WarnLevel
  | ErrorLevel => kv_Enabled l ErrorLevel
  | FatalLevel => true
  end.

Definition kv_log (l : kvLogger) (lv : level) : string → list (string * value) → list entry :=
  match lv with
  | TraceLevel => kv_Trace l | DebugLevel => kv_Debug l | InfoLevel => kv_Info l
  | WarnLevel => kv_Warn l | ErrorLevel => kv_Error l | FatalLevel => kv_Fatal l
  end.

(** An entry is written exactly if its level is reported as enabled, [Trace] apart; it
    carries the fields given to [With], in order, and then its own. *)
Lemma kv_log_spec l lv msg kvs : lv ≠ TraceLevel →
  kv_log l lv msg kvs = if LevelEnabled l lv then [mkEntry lv msg (kv_fields l ++ kvs)] else [].
Proof. by destruct lv. Qed.
Lemma kv_With_app l k1 k2 : kv_With (kv_With l k1) k2 = kv_With l (k1 ++ k2).
Proof. unfold kv_With. cbn. by rewrite app_assoc. Qed.
(** A trace entry is written as debug even where debug is off. *)
Example trace_unfiltered msg kvs : kv_log (mkKV (λ _, false) []) TraceLevel msg kvs = [mkEntry DebugLevel msg kvs].
Proof. reflexivity. Qed.

(** ** Contexts and references *)

(** [GetFromContext]: without a logger in the context, one that writes nothing. *)
Definition ctx_logger : Type := option kvLogger.
Definition AddToContext (ctx : ctx_logger) (l : kvLogger) : ctx_logger := Some l.
Inductive some_logger := Noop | KV (l : kvLogger).
Definition GetFromContext (ctx : ctx_logger) : some_logger := match ctx with Some l => KV l | None => Noop end.

Definition AddLogRef (l : kvLogger) (sdHash : string) : kvLogger :=
  if (8 <=? String.length sdHash)%nat then kv_With l [("ref", VStr (substring 0 8 sdHash))] else kv_With l [("ref?", VStr sdHash)].
(** [range] over the trace data, in the order Go happens to choose. *)
Definition TracedLogger (l : kvLogger) (data : list (string * string)) : kvLogger :=
  foldl (λ l '(k, v), kv_With l [(k, VStr v)]) l data.
Lemma TracedLogger_fields l data : kv_fields (TracedLogger l data) = (kv_fields l ++ map (λ '(k, v), (k, VStr v)) data)%list.
Proof.
  revert l. induction data as [|[k v] data IH]; intros l; cbn; [by rewrite app_nil_r|].
  change (foldl _ _ data) with (TracedLogger (kv_With l [(k, VStr v)]) data). rewrite IH. cbn. by rewrite <-app_assoc.
Qed.

(** ** Lines of pairs *)

Definition dquote : ascii := "034".
Definition word (a : ascii) : bool :=
  let n := N_of_ascii a in
  ((48 <=? n) && (n <=? 57) || (65 <=? n) && (n <=? 90) || (97 <=? n) && (n <=? 122) || (n =? 95))%N.
Fixpoint span (p : ascii → bool) (s : string) : string * string :=
  match s with
  | String a s1 => if p a then (String a (span p s1).1, (span p s1).2) else ("", s)
  | "" => ("", "")
  end.

(** The match at the start of a string (a word, an equals sign, a quoted text that is not
    empty), and what follows it. *)
Definition match_pair (s : string) : option (string * string * string) :=
  match span word s with
  | ("", _) => None
  | (k, String a (String b r)) =>
    if Ascii.eqb a "=" && Ascii.eqb b dquote then
      match span (λ c, negb (Ascii.eqb c dquote)) r with
      | ("", _) => None
      | (v, String _ rest) => Some (k, v, rest)
      | (_, "") => None
      end
    else None
  | _ => None
  end.
(** [FindAllStringSubmatch(message, -1)] *)
Fixpoint find_pairs (fuel : nat) (s : string) : list (string * string) :=
  match fuel with
  | O => []
  | S fuel =>
    match s with
    | "" => []
    | String _ s1 => match match_pair s with
                     | Some (k, v, rest) => (k, v) :: find_pairs fuel rest
                     | None => find_pairs fuel s1
                     end
    end
  end.

(** [kvLogger.Write]: zap filters by itself here. *)
Definition kv_Write (l : kvLogger) (p : string) : list entry :=
  let message := TrimSpace p in
  match find_pairs (String.length message) message with
  | [] => emit l InfoLevel message []
  | (_, event) :: matches => emit l InfoLevel event (map (λ '(k, v), (k, VStr v)) matches)
  end.

Definition jpair (e : string * string) : string := e.1 +:+ "=" +:+ String dquote (e.2 +:+ String dquote "").
Definition line (es : list (string * string)) : string := Join (map jpair es) " ".
Example write_ex : kv_Write (mkKV (λ _, true) []) (line [("event", "UploadCreated"); ("id", "ab c"); ("size", "5")] +:+ String "010" "") =
  [mkEntry InfoLevel "UploadCreated" [("id", VStr "ab c"); ("size", VStr "5")]].
Proof. vm_compute. reflexivity. Qed.

(** *** Reading a line back *)

Definition not_quote (c : ascii) : bool := negb (Ascii.eqb c dquote).
Definition good_pair (e : string * string) : bool :=
  negb (String.eqb e.1 "") && all_chars word e.1 && negb (String.eqb e.2 "") && all_chars not_quote e.2.

Lemma span_stop p s a t : all_chars p s = true → p a = false → span p (s +:+ String a t) = (s, String a t).
Proof.
  induction s as [|b s IH].
  { intros _ Ha. change ("" +:+ String a t) with (String a t). cbn. by rewrite Ha. }
  cbn. intros [Hb Hs]%andb_true_iff Ha.
  change (String b s +:+ String a t) with (String b (s +:+ String a t)). cbn. by rewrite Hb, IH.
Qed.
Lemma match_pair_back e t : good_pair e = true → match_pair (jpair e +:+ t) = Some (e.1, e.2, t).
Proof.
  destruct e as [k v]. unfold good_pair, jpair. cbn [fst snd]. rewrite !andb_true_iff, !negb_true_iff, !String.eqb_neq. intros [[[Hk Hkw] Hv] Hvq].
  unfold match_pair. rewrite <-app_assoc_str.
  change (("=" +:+ String dquote (v +:+ String dquote "")) +:+ t) with (String "=" (String dquote ((v +:+ String dquote "") +:+ t))).
  rewrite span_stop by done. destruct k as [|a k]; [done|]. change (Ascii.eqb "=" "=" && Ascii.eqb dquote dquote) with true. cbn iota.
  rewrite <-app_assoc_str. change (String dquote "" +:+ t) with (String dquote t). rewrite (span_stop not_quote) by done. by destruct v.
Qed.
Lemma find_pairs_skip fuel s : word " " = false → find_pairs (S fuel) (String " " s) = find_pairs fuel s.
Proof. done. Qed.
Lemma jpair_length e : (0 < String.length (jpair e))%nat.
Proof. unfold jpair. rewrite !length_app_str. cbn. lia. Qed.
Lemma find_pairs_line es fuel : forallb good_pair es = true → String.length (line es) ≤ fuel → find_pairs fuel (line es) = es.
Proof.
  revert fuel. induction es as [|e es IH]; intros fuel; [by destruct fuel|]. intros [He Hes]%andb_true_iff Hf.
  pose proof (jpair_length e) as Hl. destruct es as [|e' es].
  - change (line [e]) with (jpair e) in *. destruct fuel as [|fuel]; [lia|]. pose proof (match_pair_back e "" He) as Hm. rewrite app_empty_r in Hm.
    destruct (jpair e) as [|a s] eqn:E; [cbn in Hl; lia|]. cbn [find_pairs]. rewrite Hm. destruct e. by destruct fuel.
  - change (line (e :: e' :: es)) with (jpair e +:+ " " +:+ line (e' :: es)) in *. rewrite !length_app_str in Hf. cbn [String.length] in Hf.
    destruct fuel as [|[|fuel]]; [lia..|]. pose proof (match_pair_back e (" " +:+ line (e' :: es)) He) as Hm.
    destruct (jpair e) as [|a s] eqn:E; [cbn in Hl; lia|]. change (String a s +:+ " " +:+ line (e' :: es)) with (String a (s +:+ " " +:+ line (e' :: es))) in *.
    cbn [find_pairs]. rewrite Hm. change (" " +:+ line (e' :: es)) with (String " " (line (e' :: es))). destruct e as [k v]. cbn [fst snd]. f_equal.
    change (match match_pair (String " " (line (e' :: es))) with Some (k, v, rest) => (k, v) :: find_pairs fuel rest | None => find_pairs fuel (line (e' :: es)) end = e' :: es).
    change (match_pair (String " " (line (e' :: es)))) with (@None (string * string * string)). apply IH; [done|]. cbn [String.length] in Hf. lia.
Qed.

Definition all_space (s : string) : bool := all_chars is_space s.
Lemma TrimRight_space s : all_space s = true → TrimRight s = "".
Proof. induction s as [|a s IH]; [done|]. cbn. intros [Ha Hs]%andb_true_iff. by rewrite IH, Ha. Qed.
Lemma TrimRight_keep s a ws : is_space a = false → all_space ws = true → TrimRight (s +:+ String a ws) = s +:+ String a "".
Proof.
  intros Ha Hw. induction s as [|b s IH].
  - change ("" +:+ String a ws) with (String a ws). cbn. by rewrite TrimRight_space, Ha.
  - change (String b s +:+ String a ws) with (String b (s +:+ String a ws)). cbn [TrimRight]. rewrite IH. by destruct s.
Qed.
Lemma line_ends e es : ∃ s, line (e :: es) = s +:+ String dquote "".
Proof.
  revert e. induction es as [|e' es IH]; intros e.
  - exists (e.1 +:+ "=" +:+ String dquote e.2). change (line [e]) with (jpair e). unfold jpair. by rewrite <-!app_assoc_str.
  - destruct (IH e') as [s Hs]. exists (jpair e +:+ " " +:+ s). change (line (e :: e' :: es)) with (jpair e +:+ " " +:+ line (e' :: es)).
    rewrite Hs. by rewrite !app_assoc_str.
Qed.
Lemma word_not_space a : word a = true → is_space a = false.
Proof. destruct a as [[] [] [] [] [] [] [] []]; vm_compute; done. Qed.
Lemma TrimSpace_line e es ws : good_pair e = true → all_space ws = true → TrimSpace (line (e :: es) +:+ ws) = line (e :: es).
Proof.
  intros He Hw. assert (∃ a s, line (e :: es) = String a s ∧ is_space a = false) as (a & s & Hl & Ha).
  { destruct e as [[|a k] v]; [done|]. unfold good_pair in He. cbn in He. rewrite !andb_true_iff in He. destruct He as [[[Hk _] _] _].
    destruct es; eexists a, _; (split; [reflexivity|]); by apply word_not_space. }
  unfold TrimSpace. assert (TrimLeft (line (e :: es) +:+ ws) = line (e :: es) +:+ ws) as ->.
  { rewrite Hl. change (String a s +:+ ws) with (String a (s +:+ ws)). cbn. by rewrite Ha. }
  destruct (line_ends e es) as [t ->]. rewrite <-app_assoc_str. by apply TrimRight_keep.
Qed.

(** A line of pairs, white space after it apart, becomes an entry with the value of the
    first pair as its message and the other pairs as its fields, in order; a value that
    is empty or holds a quote is outside. *)
Lemma kv_Write_line l k event es ws : forallb good_pair ((k, event) :: es) = true → all_space ws = true →
  kv_Write l (line ((k, event) :: es) +:+ ws) = [mkEntry InfoLevel event (kv_fields l ++ map (λ '(k, v), (k, VStr v)) es)].
Proof.
  intros Hes Hw. unfold kv_Write. pose proof Hes as [He _]%andb_true_iff. rewrite TrimSpace_line by done. by rewrite find_pairs_line.
Qed.

(** ** Module loggers of [internal/monitor] *)

Definition TokenF : string := "token".
Definition valueMask : string := "****".
Definition LogMode (isProduction : bool) : string := if isProduction then "production" else "develop".
Definition configureLevel (isProduction : bool) : level := if isProduction then InfoLevel else TraceLevel.

Abbreviation fields := (gmap string value).
Record ModuleLogger := mkModule { ml_level : level; ml_fields : fields; ml_discard : bool }.
Definition NewModuleLogger (isProduction : bool) (hostname moduleName : string) : ModuleLogger :=
  mkModule (configureLevel isProduction)
    (if String.eqb hostname "" then {["module" := VStr moduleName]} else <["host" := VStr hostname]> {["module" := VStr moduleName]}) false.

Definition is_empty (v : value) : bool := match v with VStr "" => true | _ => false end.
(** The fields of the entry and the caller's map afterwards, which is changed in place. *)
Definition mask (isProduction : bool) (fs : fields) : fields :=
  match fs !! TokenF with
  | Some v => if negb (is_empty v) && isProduction then <[TokenF := VStr valueMask]> fs else fs
  | None => fs
  end.
Definition WithFields (isProduction : bool) (m : ModuleLogger) (fs : fields) : fields * fields :=
  let fs := mask isProduction fs in (fs ∪ ml_fields m, fs).
Definition ml_Log (m : ModuleLogger) : fields := ml_fields m.
Definition ml_Disable (m : ModuleLogger) : ModuleLogger := mkModule FatalLevel (ml_fields m) true.

(** In production no entry made with [WithFields] shows a token. *)
Lemma WithFields_masks host name fs v :
  (WithFields true (NewModuleLogger true host name) fs).1 !! TokenF = Some v → v = VStr "" ∨ v = VStr valueMask.
Proof.
  unfold WithFields, NewModuleLogger, mask. cbn [fst ml_fields]. rewrite lookup_union.
  assert ((if String.eqb host "" then {["module" := VStr name]} else <["host" := VStr host]> {["module" := VStr name]} : fields) !! TokenF = None) as ->
    by (by destruct (String.eqb host "")).
  rewrite (right_id_L None (∪)). destruct (fs !! TokenF) as [x|] eqn:Hx; [|by rewrite Hx].
  destruct (is_empty x) eqn:E; cbn [negb andb].
  - rewrite Hx. intros [= <-]. left. by destruct x as [| | | |[]| | | |].
  - rewrite lookup_insert_eq. intros [= <-]. by right.
Qed.
Lemma WithFields_others p m fs k : k ≠ TokenF → (WithFields p m fs).2 !! k = fs !! k.
Proof. intros Hk. unfold WithFields, mask. cbn [snd]. destruct (fs !! TokenF); [|done]. destruct (_ && _); [|done]. by rewrite lookup_insert_ne. Qed.
(** The map given by the caller holds the mask afterwards. *)
Example WithFields_changes_argument :
  (WithFields true (NewModuleLogger true "" "auth") {[TokenF := VStr "secret"]}).2 = {[TokenF := VStr valueMask]}.
Proof. vm_compute. reflexivity. Qed.

(** ** Sentry *)

Record sentryEvent := mkSentry { ev_user : string; ev_extra : gmap string string; ev_error : option error }.

(** The identifier of the event is not kept. *)
Definition ErrorToSentry_event (err : option error) (params : list (gmap string string)) : sentryEvent * option string :=
  let extra := default ∅ (head params) in (mkSentry (default "" (extra !! "user_id")) extra err, None).
Definition ConfigureSentry (dsn : string) (init : option error) : bool :=
  if String.eqb dsn "" then false else match init with Some _ => false | None => true end.

Lemma ErrorToSentry_no_id err params : (ErrorToSentry_event err params).2 = None.
Proof. done. Qed.
