(* ===== verification/StackTrace.v ===== *)
(** * Stack traces of errors

    Models [internal/errors/stack.go] (a frame's package and function, its line of
    source, its text) and the part of [errors.go] that works on [*traced] pointers: the
    objects live in a store, so that [wrap] returning its argument and [Prefix] changing
    it in place show.  ([Errors.v] models errors as values.)

    Parameters: the runtime's symbol table and the files it names, and the stack a call
    of [runtime.Callers] finds. *)

From S2P Require Import Prelude GoLib Errors.
From Stdlib Require Import Ascii String.

Local Open Scope string_scope.
Local Open Scope Z_scope.

(** ** Names of functions *)

(** [strings.LastIndex] and [strings.Index] of a character, as the parts they split. *)
Fixpoint cut_first (c : ascii) (s : string) : option (string * string) :=
  match s with
  | "" => None
  | String a s1 => if Ascii.eqb a c then Some ("", s1)
                   else match cut_first c s1 with Some (l, r) => Some (String a l, r) | None => None end
  end.
Fixpoint cut_last (c : ascii) (s : string) : option (string * string) :=
  match s with
  | "" => None
  | String a s1 => match cut_last c s1 with
                   | Some (l, r) => Some (String a l, r)
                   | None => if Ascii.eqb a c then Some ("", s1) else None
                   end
  end.
(** The center dot is two bytes. *)
Fixpoint undot (s : string) : string :=
  match s with
  | String a s1 =>
    match s1 with
    | String b s2 => if (N_of_ascii a =? 194)%N && (N_of_ascii b =? 183)%N then String "." (undot s2) else String a (undot s1)
    | "" => s
    end
  | "" => ""
  end.

Definition packageAndName (name : string) : string * string :=
  let '(pkg, name) := match cut_last "/" name with Some (dir, rest) => (dir +:+ "/", rest) | None => ("", name) end in
  let '(pkg, name) := match cut_first "." name with Some (p, rest) => (pkg +:+ p, rest) | None => (pkg, name) end in
  (pkg, undot name).

Example packageAndName_ex :
  packageAndName "github.com/OdyseeTeam/odysee-api/app/query.(*Caller).Call" = ("github.com/OdyseeTeam/odysee-api/app/query", "(*Caller).Call") ∧
  packageAndName "main.main" = ("main", "main") ∧
  packageAndName ("runtime/debug.*T" +:+ String "194" (String "183" "ptrmethod")) = ("runtime/debug", "*T.ptrmethod").
Proof. split_and!; vm_compute; reflexivity. Qed.

Definition without (c : ascii) (s : string) : bool := all_chars (λ a, negb (Ascii.eqb a c)) s.
Lemma cut_first_app c l r : without c l = true → cut_first c (l +:+ String c r) = Some (l, r).
Proof.
  induction l as [|a l IH].
  { intros _. change ("" +:+ String c r) with (String c r). cbn. by rewrite Ascii.eqb_refl. }
  cbn. intros [Ha Hl]%andb_true_iff. apply negb_true_iff in Ha. change (String a l +:+ String c r) with (String a (l +:+ String c r)). cbn. by rewrite Ha, IH.
Qed.
Lemma cut_last_none c s : without c s = true → cut_last c s = None.
Proof. induction s as [|a s IH]; [done|]. cbn. intros [Ha Hs]%andb_true_iff. apply negb_true_iff in Ha. by rewrite IH, Ha. Qed.
Lemma cut_last_append c l r : without c r = true → cut_last c (l +:+ String c r) = Some (l, r).
Proof.
  intros Hr. induction l as [|a l IH].
  - change ("" +:+ String c r) with (String c r). cbn. by rewrite (cut_last_none _ _ Hr), Ascii.eqb_refl.
  - change (String a l +:+ String c r) with (String a (l +:+ String c r)). cbn. by rewrite IH.
Qed.
Definition not_center (a : ascii) : bool := negb (N_of_ascii a =? 194)%N.
Lemma undot_plain s : all_chars not_center s = true → undot s = s.
Proof.
  induction s as [|a s IH]; [done|]. cbn [all_chars]. intros [Ha Hs]%andb_true_iff. apply negb_true_iff in Ha.
  destruct s as [|b s]; [done|].
  change ((if (N_of_ascii a =? 194)%N && (N_of_ascii b =? 183)%N then String "." (undot s) else String a (undot (String b s))) = String a (String b s)).
  rewrite Ha. cbn [andb]. by rewrite IH.
Qed.

(** A qualified name is split into the path of the package, the last element of which
    ends at its first dot, and the name of the function or method. *)
Lemma packageAndName_spec dir pkg fn :
  without "/" pkg = true → without "." pkg = true → without "/" fn = true → all_chars not_center fn = true →
  packageAndName (dir +:+ "/" +:+ pkg +:+ "." +:+ fn) = (dir +:+ "/" +:+ pkg, fn) ∧ packageAndName (pkg +:+ "." +:+ fn) = (pkg, fn).
Proof.
  intros Hp Hd Hf Hc. assert (without "/" (pkg +:+ String "." fn) = true) as Hs.
  { unfold without in *. rewrite all_chars_app. cbn. by rewrite Hp, Hf. }
  change ("/" +:+ pkg +:+ "." +:+ fn) with (String "/" (pkg +:+ String "." fn)). change (pkg +:+ "." +:+ fn) with (pkg +:+ String "." fn).
  unfold packageAndName. rewrite cut_last_append, (cut_last_none _ _ Hs) by done. rewrite cut_first_app, undot_plain by done. split; [|done].
  by rewrite app_assoc_str.
Qed.

(** ** Frames *)

Record stackFrame := mkFrame { fr_File : string; fr_LineNumber : Z; fr_Name : string; fr_Package : string; fr_ProgramCounter : Z }.

(** The symbol table: the function of a program counter, its name, and the file and line
    of an address of it; [ReadFile] is the file system. *)
Class Runtime := {
  FuncForPC : Z → option string;
  FileLine : Z → string * Z;
  ReadFile : string → error + string;
  Callers : list Z;
  hexadecimal : Z → string;
}.

Section frames.
Context `{!Runtime}.

Definition frame_Func (pc : Z) : option string := if pc =? 0 then None else FuncForPC pc.
Definition newStackFrame (pc : Z) : stackFrame :=
  match frame_Func pc with
  | None => mkFrame "" 0 "" "" pc
  | Some fn =>
    let '(pkg, name) := packageAndName fn in
    let '(file, line) := FileLine (pc - 1) in
    mkFrame file line name pkg pc
  end.

(** [bytes.Trim(line, " \t")] *)
Definition blank (a : ascii) : bool := Ascii.eqb a " " || Ascii.eqb a "009".
Fixpoint trim_left (s : string) : string :=
  match s with String a s1 => if blank a then trim_left s1 else s | "" => "" end.
Fixpoint trim_right (s : string) : string :=
  match s with
  | String a s1 => match trim_right s1 with "" => if blank a then "" else String a "" | r => String a r end
  | "" => ""
  end.
Definition trim (s : string) : string := trim_right (trim_left s).

Definition SourceLine (fr : stackFrame) : error + string :=
  match ReadFile (fr_File fr) with
  | inl err => inl (Err err)
  | inr data =>
    let lines := Split data "010" in
    if (fr_LineNumber fr <=? 0) || (Z.of_nat (List.length lines) <=? fr_LineNumber fr) then inr "???"
    else match lines !! Z.to_nat (fr_LineNumber fr - 1) with Some l => inr (trim l) | None => inr "???" end
  end.
Definition nl : string := String "010" "".
Definition frame_String (fr : stackFrame) : string :=
  fr_File fr +:+ ":" +:+ Itoa (fr_LineNumber fr) +:+ " (0x" +:+ hexadecimal (fr_ProgramCounter fr) +:+ ")" +:+ nl +:+
  match SourceLine fr with inr source => String "009" (fr_Name fr +:+ ": " +:+ source +:+ nl) | inl _ => "" end.

Definition unlines (ls : list string) : string := foldr (λ l acc, l +:+ nl +:+ acc) "" ls.
Lemma Split_unlines ls : Forall (λ l, without "010" l = true) ls → Split (unlines ls) "010" = (ls ++ [""])%list.
Proof.
  induction 1 as [|l ls Hl _ IH]; [done|]. cbn [unlines foldr]. change (foldr _ "" ls) with (unlines ls). change (nl +:+ unlines ls) with (String "010" (unlines ls)).
  revert Hl. induction l as [|a l IHl]; intros Hl.
  - change ("" +:+ String "010" (unlines ls)) with (String "010" (unlines ls)). cbn [Split]. by rewrite Ascii.eqb_refl, IH.
  - cbn in Hl. apply andb_true_iff in Hl as [Ha Hl]. apply negb_true_iff in Ha.
    change (String a l +:+ String "010" (unlines ls)) with (String a (l +:+ String "010" (unlines ls))). cbn [Split]. by rewrite Ha, IHl.
Qed.

(** Every line of a file that ends with a newline is found by its number, from 1, and
    no other number finds one. *)
Lemma SourceLine_spec fr ls : ReadFile (fr_File fr) = inr (unlines ls) → Forall (λ l, without "010" l = true) ls →
  SourceLine fr = inr (if decide (0 < fr_LineNumber fr) then match ls !! Z.to_nat (fr_LineNumber fr - 1) with Some l => trim l | None => "???" end else "???").
Proof.
  intros Hr Hls. unfold SourceLine. rewrite Hr, Split_unlines, length_app by done. cbn [List.length].
  case_decide as Hpos; [|by rewrite (proj2 (Z.leb_le _ _)) by lia]. rewrite (proj2 (Z.leb_gt _ _)) by lia. cbn [orb].
  destruct (Z.leb_spec (Z.of_nat (List.length ls + 1)) (fr_LineNumber fr)) as [Hge|Hlt].
  - by rewrite lookup_ge_None_2 by lia.
  - destruct (lookup_lt_is_Some_2 ls (Z.to_nat (fr_LineNumber fr - 1))) as [l Hl]; [lia|]. by rewrite (lookup_app_l_Some _ _ _ _ Hl), Hl.
Qed.

(** ** Traced errors in the store *)

Record traced := mkTraced { tr_err : error; tr_stack : list Z; tr_frames : option (list stackFrame); tr_prefix : string }.
Abbreviation Store := (gmap positive traced).
(** A Go error: nil, a pointer to a traced one, or another. *)
Inductive goerror := GNil | GTraced (l : positive) | GOther (e : error).

Definition traced_Error (t : traced) : string :=
  if String.eqb (tr_prefix t) "" then Error (tr_err t) else tr_prefix t +:+ ": " +:+ Error (tr_err t).
Definition message (s : Store) (e : goerror) : option string :=
  match e with GNil => None | GTraced l => traced_Error <$> s !! l | GOther e => Some (Error e) end.

(** [wrap] on an error: a traced one is returned as it is. *)
Definition store_wrap (e : goerror) (s : Store) : goerror * Store :=
  match e with
  | GNil => (GNil, s)
  | GTraced l => (GTraced l, s)
  | GOther e => let l := fresh (dom s) in (GTraced l, <[l := mkTraced e Callers None ""]> s)
  end.
Definition store_Prefix (prefix : string) (e : goerror) (s : Store) : goerror * Store :=
  match store_wrap e s with
  | (GTraced l, s) =>
    (GTraced l, alter (λ t, mkTraced (tr_err t) (tr_stack t) (tr_frames t)
      (if String.eqb (tr_prefix t) "" then prefix else prefix +:+ ": " +:+ tr_prefix t)) l s)
  | r => r
  end.
(** The frames are computed once and kept. *)
Definition StackFrames (l : positive) (s : Store) : list stackFrame * Store :=
  match s !! l with
  | None => ([], s)
  | Some t =>
    match tr_frames t with
    | Some fs => (fs, s)
    | None => let fs := map newStackFrame (tr_stack t) in (fs, <[l := mkTraced (tr_err t) (tr_stack t) (Some fs) (tr_prefix t)]> s)
    end
  end.
Definition concat (l : list string) : string := foldr String.append "" l.
Definition traced_Trace (l : positive) (s : Store) : string * Store :=
  let '(fs, s) := StackFrames l s in (concat (map frame_String fs), s).
Definition Trace (e : goerror) (s : Store) : string * Store :=
  match store_wrap e s with (GTraced l, s) => traced_Trace l s | (_, s) => ("", s) end.
Definition TypeName (type_of : error → string) (t : traced) : string := type_of (tr_err t).
Definition FullTrace (type_of : error → string) (e : goerror) (s : Store) : string * Store :=
  match store_wrap e s with
  | (GTraced l, s) =>
    let head := match s !! l with Some t => TypeName type_of t +:+ " " +:+ traced_Error t | None => "" end in
    let '(tr, s) := traced_Trace l s in (head +:+ nl +:+ tr, s)
  | (_, s) => ("", s)
  end.

(** [Prefix] gives the prefixed error, and changes the error it was given: whoever holds
    the same traced error sees the prefix too. *)
Lemma Prefix_message p e s : e ≠ GNil → p ≠ "" → (∀ l, e = GTraced l → is_Some (s !! l)) →
  message (store_Prefix p e s).2 (store_Prefix p e s).1 = (λ m, p +:+ ": " +:+ m) <$> message s e.
Proof.
  intros He Hp Hl. apply String.eqb_neq in Hp. destruct e as [|l|e]; [done|..]; cbn [store_Prefix store_wrap fst snd message].
  - destruct (Hl l eq_refl) as [t Ht]. rewrite lookup_alter_eq, Ht. cbn. f_equal. unfold traced_Error. cbn.
    destruct (String.eqb (tr_prefix t) "") eqn:E; [by rewrite Hp|]. destruct (String.eqb_spec (p +:+ ": " +:+ tr_prefix t) "") as [H0|_]; [by destruct p|].
    by rewrite !app_assoc_str.
  - rewrite lookup_alter_eq, lookup_insert_eq. cbn. unfold traced_Error. cbn. by rewrite Hp.
Qed.
Lemma Prefix_aliases p l s : (store_Prefix p (GTraced l) s).1 = GTraced l ∧
  (p ≠ "" → is_Some (s !! l) → message (store_Prefix p (GTraced l) s).2 (GTraced l) = (λ m, p +:+ ": " +:+ m) <$> message s (GTraced l)).
Proof. split; [done|]. intros Hp Hl. apply (Prefix_message p (GTraced l) s); [done..|]. by intros l' [= <-]. Qed.
(** A trace can be taken again, with the same result and the store as it is then. *)
Lemma Trace_again l s : let '(t1, s1) := traced_Trace l s in traced_Trace l s1 = (t1, s1).
Proof.
  unfold traced_Trace, StackFrames. destruct (s !! l) as [t|] eqn:E; [|by rewrite E]. destruct (tr_frames t) as [fs|] eqn:Ef.
  - by rewrite E, Ef.
  - by rewrite lookup_insert_eq.
Qed.
(** Taking traces changes no message. *)
Lemma Trace_keeps_messages l s e : message (traced_Trace l s).2 e = message s e.
Proof.
  unfold traced_Trace, StackFrames. destruct (s !! l) as [t|] eqn:E; [|done]. destruct (tr_frames t); [done|]. destruct e as [|l'|]; [done| |done]. cbn.
  destruct (decide (l = l')) as [->|Hne]; [by rewrite lookup_insert_eq, E|by rewrite lookup_insert_ne].
Qed.
End frames.
