(* ===== verification/Launchers.v ===== *)
(** * Start-up of the services

    Models the launcher of [apps/forklift/forklift.go], the options and [NewHandler] of
    [app/geopublish/geopublish.go], the forklift of [app/geopublish/forklift/forklift.go]
    (options, [NewForklift], [Start], [Shutdown]), the web application of
    [pkg/app/app.go], [internal/handler/handler.go], which nothing uses, and the command
    of the forklift ([serve] of [apps/forklift/cmd/main.go]).

    What the libraries find at start-up (directories, stores, Redis, listeners) is a
    parameter; a field that holds a library's object records whether it is set. *)

From S2P Require Import Prelude GoLib Rpc Errors Http Databases.
From Stdlib Require Import String.

Local Open Scope string_scope.
Local Open Scope Z_scope.

(** ** The forklift's launcher *)

Module ForkliftLauncher.

Record Launcher := mkLauncher {
  blobPath : string;
  downloadsPath : string;
  requestsConnURL : string;
  responsesConnURL : string;
  reflectorConfig : bool;            (* set? *)
  retriever : option string;         (* the directory it downloads to *)
  httpRetriever : option string;
  logger : bool;
  db : bool;
  concurrency : Z;
  reflectorWorkers : Z;
  metricsAddress : string;
  s3client : bool;
}.
Variant LauncherOption :=
| WithLogger | WithDownloadsPath (path : string) | WithBlobPath (path : string) | WithRequestsConnURL (url : string)
| WithResponsesConnURL (url : string) | WithReflectorConfig (cfg : bool) | WithS3Client (client : bool) | WithRetriever (r : option string)
| WithHTTPRetriever (r : option string) | WithConcurrency (n : Z) | WithReflectorWorkers (n : Z) | WithDB (given : bool) | ExposeMetrics (address : list string).

Definition launcher_option (l : Launcher) (o : LauncherOption) : Launcher :=
  let '(mkLauncher b d q s c r h g db n w m s3) := l in
  match o with
  | WithLogger => mkLauncher b d q s c r h true db n w m s3
  | WithDownloadsPath p => mkLauncher b p q s c r h g db n w m s3
  | WithBlobPath p => mkLauncher p d q s c r h g db n w m s3
  | WithRequestsConnURL u => mkLauncher b d u s c r h g db n w m s3
  | WithResponsesConnURL u => mkLauncher b d q u c r h g db n w m s3
  | WithReflectorConfig cfg => mkLauncher b d q s cfg r h g db n w m s3
  | WithS3Client client => mkLauncher b d q s c r h g db n w m client
  | WithRetriever r => mkLauncher b d q s c r h g db n w m s3
  | WithHTTPRetriever h => mkLauncher b d q s c r h g db n w m s3
  | WithConcurrency k => mkLauncher b d q s c r h g db k w m s3
  | WithReflectorWorkers k => mkLauncher b d q s c r h g db n k m s3
  | WithDB given => mkLauncher b d q s c r h g given n w m s3
  | ExposeMetrics address => mkLauncher b d q s c r h g db n w (match address with [] => ":8080" | a :: _ => a end) s3
  end.

(** [os.MkdirTemp] for the two directories: its error or the path. *)
Definition NewLauncher (mkBlobs mkDownloads : error + string) (options : list LauncherOption) : result error Launcher :=
  let l := foldl launcher_option (mkLauncher "" "" "" "" false None None false false 10 1 "" false) options in
  let or_temp path temp := if String.eqb path "" then temp else inr path in
  match or_temp (blobPath l) mkBlobs with
  | inl err => RPanic (Error err)
  | inr b =>
    match or_temp (downloadsPath l) mkDownloads with
    | inl err => RPanic (Error err)
    | inr d =>
      ROk (mkLauncher b d (requestsConnURL l) (responsesConnURL l) (reflectorConfig l)
        (Some (default d (retriever l))) (Some (default d (httpRetriever l)))
        (logger l) (db l) (concurrency l) (reflectorWorkers l) (metricsAddress l) (s3client l))
    end
  end.

Record Startup := {
  st_analyzer : option error;
  st_destinations : option error;      (* blobs.CreateStoresFromConfig *)
  st_store : option error;             (* blobs.NewStore *)
  st_queue : option error;             (* queue.NewWithResponses *)
  st_listen : string → option error;   (* net.Listen *)
}.

(** The queue that was built: its settings, the task types it handles, and the address
    the metrics are served at. *)
Record Built := mkBuilt {
  bq_concurrency : Z;
  bq_delayFunc : bool;                 (* set with [WithDelayFunc]? *)
  bq_workers : Z;
  bq_handlers : list string;
  bq_metrics : option string;
}.
Definition wrapped {A} (what : string) (e : option error) (k : result error A) : result error A :=
  match e with Some err => RErr (EWrapf what err "") | None => k end.

(** Without a configuration of the reflector, [cfg.Sub] dereferences nil. *)
Definition Build (st : Startup) (l : Launcher) : result error Built :=
  if negb (db l) then RErr (EText "database is required") else
  match retriever l with
  | None => RErr (EText "retriever is required")
  | Some _ =>
    match st_analyzer st with
    | Some err => RErr err
    | None =>
      if negb (reflectorConfig l) then RPanic "invalid memory address or nil pointer dereference" else
      wrapped "cannot initialize reflector destination stores: " (st_destinations st) (
      wrapped "cannot initialize reflector store: " (st_store st) (
      wrapped "unable to initialize queue: " (st_queue st) (
      let built m := ROk (mkBuilt (concurrency l) false (reflectorWorkers l) ["forklift:upload:incoming"; "forklift:url:incoming"] m) in
      if String.eqb (metricsAddress l) "" then built None
      else match st_listen st ":8080" with
           | Some err => RErr (EWrapf ("failed to bind http metrics server to " +:+ metricsAddress l +:+ ": ") err "")
           | None => built (Some ":8080")
           end)))
    end
  end.

(** A launcher that was made has both retrievers. *)
Lemma NewLauncher_retrievers mb md options l : NewLauncher mb md options = ROk l → is_Some (retriever l) ∧ is_Some (httpRetriever l).
Proof.
  unfold NewLauncher. generalize (foldl launcher_option (mkLauncher "" "" "" "" false None None false false 10 1 "" false) options). intros l0.
  destruct (if String.eqb (blobPath l0) "" then mb else inr (blobPath l0)); [done|].
  destruct (if String.eqb (downloadsPath l0) "" then md else inr (downloadsPath l0)); [done|].
  intros [= <-]. cbn. split; by eexists.
Qed.
(** A launcher that was made can be built exactly if a database and a configuration of
    the reflector were given and the libraries start. *)
Lemma Build_ok mb md options l st : NewLauncher mb md options = ROk l →
  (∃ b, Build st l = ROk b) ↔ db l = true ∧ st_analyzer st = None ∧ reflectorConfig l = true ∧ st_destinations st = None ∧ st_store st = None ∧
    st_queue st = None ∧ (metricsAddress l ≠ "" → st_listen st ":8080" = None).
Proof.
  intros [[r Hr] _]%NewLauncher_retrievers. unfold Build, wrapped. rewrite Hr.
  destruct (db l), (st_analyzer st), (reflectorConfig l), (st_destinations st), (st_store st), (st_queue st); try naive_solver.
  cbn [negb]. destruct (String.eqb_spec (metricsAddress l) ""), (st_listen st ":8080"); naive_solver.
Qed.
(** The options that say nothing about the directories get directories of their
    own. *)
Lemma NewLauncher_paths b d options l : NewLauncher (inr b) (inr d) options = ROk l → b ≠ "" → d ≠ "" →
  blobPath l ≠ "" ∧ downloadsPath l ≠ "".
Proof.
  intros Hl Hb Hd. unfold NewLauncher in Hl.
  destruct (String.eqb_spec (blobPath (foldl launcher_option (mkLauncher "" "" "" "" false None None false false 10 1 "" false) options)) "");
    destruct (String.eqb_spec (downloadsPath (foldl launcher_option (mkLauncher "" "" "" "" false None None false false 10 1 "" false) options)) "");
    injection Hl as <-; cbn; split; done.
Qed.
(** The metrics are served at port 8080, whatever address was asked for. *)
Lemma metrics_address_ignored st l b : Build st l = ROk b → metricsAddress l ≠ "" → bq_metrics b = Some ":8080".
Proof.
  intros Hb Hm%String.eqb_neq. unfold Build, wrapped in Hb. rewrite Hm in Hb. repeat case_match; simplify_eq/=; done.
Qed.
(** The forklift's own retry delays are not given to the queue. *)
Lemma retry_delay_unused st l b : Build st l = ROk b → bq_delayFunc b = false.
Proof. intros Hb. unfold Build, wrapped in Hb. repeat case_match; simplify_eq/=; done. Qed.
End ForkliftLauncher.

(** ** The handler of geopublish *)

Module GeoHandler.
Record HandlerOptions := mkOptions { userGetter : bool; uploadPath : string; tusConfig : option string; db : bool; queue : bool }.
Variant HandlerOption := WithUploadPath (p : string) | WithUserGetter | WithDB | WithQueue | WithTusConfig (basePath : string).
Definition handler_option (o : HandlerOptions) (f : HandlerOption) : HandlerOptions :=
  let '(mkOptions u p t d q) := o in
  match f with
  | WithUploadPath p => mkOptions u p t d q
  | WithUserGetter => mkOptions true p t d q
  | WithDB => mkOptions u p t true q
  | WithQueue => mkOptions u p t d true
  | WithTusConfig b => mkOptions u p (Some b) d q
  end.
Definition defaultOptions : HandlerOptions := mkOptions false "./uploads" None false false.

(** The base path of the handler, from the path of the tus configuration. *)
Definition base_path (bp : string) : string :=
  let bp := match bp with "" => "" | String c _ => if String.eqb (String c "") "/" then bp else "/" +:+ bp end in
  if HasSuffix bp "/" then substring 0 (String.length bp - 1) bp else bp.
Record Handler := { h_uploadPath : string; h_basePath : string; h_notifies : bool }.

Definition NewHandler (mkdir : string → option error) (tusd : option error) (options : list HandlerOption) : error + Handler :=
  let o := foldl handler_option defaultOptions options in
  if negb (userGetter o) then inl (EText "user getter is required") else
  match mkdir (uploadPath o), tusd with
  | Some err, _ => inl err
  | None, Some err => inl err
  | None, None => inr {| h_uploadPath := uploadPath o; h_basePath := base_path (default "" (tusConfig o)); h_notifies := true |}
  end.
Example base_paths : map base_path ["/api/v3/publish/"; "api/v3"; ""; "/"] = ["/api/v3/publish"; "/api/v3"; ""; ""].
Proof. reflexivity. Qed.
Lemma user_getter_required mkdir tusd options h : NewHandler mkdir tusd options = inr h → In WithUserGetter options.
Proof.
  intros Hh. unfold NewHandler in Hh. destruct (userGetter _) eqn:E; [|done]. clear Hh. revert E.
  assert (∀ o, userGetter (foldl handler_option o options) = true → userGetter o = true ∨ In WithUserGetter options) as H.
  { induction options as [|f options IH]; intros o; [by left|]. cbn. intros Ho%IH. destruct o as [u p t d q], f; cbn in *; tauto. }
  intros [?|?]%H; done.
Qed.
End GeoHandler.

(** ** The forklift of geopublish *)

Module GeoForklift.
Record ForkliftOptions := mkOptions { concurrency : Z; maxRetry : Z }.
Variant ForkliftOption := WithConcurrency (n : Z) | WithMaxRetry (n : Z) | WithLogger.
Definition forklift_option (o : ForkliftOptions) (f : ForkliftOption) : ForkliftOptions :=
  match f with
  | WithConcurrency n => mkOptions n (maxRetry o)
  | WithMaxRetry n => mkOptions (concurrency o) n
  | WithLogger => o
  end.
Record Forklift := mkForklift { f_options : ForkliftOptions; f_delayFunc : bool; f_ticking : bool; f_started : bool; f_stopped : bool }.
Definition NewForklift (ping carriage : option error) (options : list ForkliftOption) : error + Forklift :=
  let o := foldl forklift_option (mkOptions 0 10) options in
  match ping, carriage with
  | Some err, _ => inl (EWrapf "unable to connect to redis server: " err "")
  | None, Some err => inl err
  | None, None => inr (mkForklift o true false false false)
  end.

(** The ticker that reports the queue starts first, and keeps running if the server does
    not start. *)
Definition Start (server : option error) : Go Forklift unit := λ f,
  match server with
  | Some err => (RErr (EWrapf "could not start asynq server: " err ""), mkForklift (f_options f) (f_delayFunc f) true (f_started f) (f_stopped f))
  | None => (ROk tt, mkForklift (f_options f) (f_delayFunc f) true true (f_stopped f))
  end.
(** [close(f.stopChan)] ends the ticker, and panics the second time. *)
Definition Shutdown : Go Forklift unit := λ f,
  if f_stopped f then (RPanic "close of closed channel", f) else (ROk tt, mkForklift (f_options f) (f_delayFunc f) false false true).
Lemma shutdown_once f : f_stopped f = false → ∃ f', Shutdown f = (ROk tt, f') ∧ (Shutdown f').1 = RPanic "close of closed channel".
Proof. intros H. unfold Shutdown. rewrite H. by eexists. Qed.
End GeoForklift.

(** ** The web application *)

Module WebApp.
Record Options := mkOptions { Headers : gmap string string; StopWait : Z; WriteTimeout : Z; IdleTimeout : Z; ReadHeaderTimeout : Z }.
Variant Option := OHeader (key v : string) | OStopWait (t : Z) | OAllowOrigin (origin : string) | OLogger.
Definition set_headers (f : gmap string string → gmap string string) (o : Options) : Options :=
  mkOptions (f (Headers o)) (StopWait o) (WriteTimeout o) (IdleTimeout o) (ReadHeaderTimeout o).
Definition AllowOrigin (origin : string) (hs : gmap string string) : gmap string string :=
  let hs := <["Access-Control-Max-Age" := "7200"]> (<["Access-Control-Allow-Headers" := "Origin, X-Requested-With, Content-Type, Accept"]> (<["Access-Control-Allow-Origin" := origin]> hs)) in
  if String.eqb origin "*" then <["Vary" := "Origin"]> hs else hs.
Definition app_option (o : Options) (f : Option) : Options :=
  match f with
  | OHeader k v => set_headers (insert k v) o
  | OStopWait t => mkOptions (Headers o) t (WriteTimeout o) (IdleTimeout o) (ReadHeaderTimeout o)
  | OAllowOrigin origin => set_headers (AllowOrigin origin) o
  | OLogger => o
  end.
Definition second : Z := 10 ^ 9.
Definition New (setters : list Option) : Options :=
  foldl app_option (mkOptions {["Server" := "odysee-api"]} (15 * second) (5 * second) (10 * second) (5 * second)) setters.

(** Every header of the application is set before the handler runs. *)
Definition headersMiddleware {W} (headers : gmap string string) (next : Writer → Go W Writer) (w : Writer) : Go W Writer :=
  next (map_fold (λ k v w, SetHeader k v w) w headers).

(** The server's goroutine: the exit status of the process, if the server's error ends it. *)
Definition App_Start (served : option error) : option Z :=
  match served with
  | Some err => if String.eqb (Error err) "http: Server closed" then None else Some 1
  | None => None
  end.
(** [http.Server.Shutdown] under the deadline: when, if at all, the connections are idle. *)
Definition App_Shutdown (o : Options) (idle : option Z) : option error :=
  match idle with
  | Some t => if (t =? 0) || (t <? StopWait o) then None else Some (EText "context deadline exceeded")
  | None => Some (EText "context deadline exceeded")
  end.
(** Only the last setting of the deadline counts, and what follows it may set headers. *)
Lemma stop_wait_set t before after idle : (∀ o, In o after → ∃ k v, o = OHeader k v) → idle < t →
  App_Shutdown (New (before ++ OStopWait t :: after)) (Some idle) = None.
Proof.
  intros Ha Hi. unfold New. rewrite foldl_app. cbn [foldl]. generalize (foldl app_option (mkOptions {["Server" := "odysee-api"]} (15 * second) (5 * second) (10 * second) (5 * second)) before).
  intros o. assert (∀ o, StopWait (foldl app_option o after) = StopWait o) as Hs.
  { induction after as [|a after IH]; intros o'; [done|]. cbn. rewrite IH; [|intros; apply Ha; by right].
    by destruct (Ha a (or_introl eq_refl)) as (k & v & ->). }
  unfold App_Shutdown. rewrite Hs. cbn. by rewrite (proj2 (Z.ltb_lt idle t) Hi), orb_true_r.
Qed.

(** The origin that is allowed depends on the request exactly when it is named: that is
    when [Vary] is needed, and the code sets it in the other case. *)
Lemma vary_only_for_any origin : AllowOrigin origin ∅ !! "Vary" = if String.eqb origin "*" then Some "Origin" else None.
Proof. unfold AllowOrigin. by destruct (String.eqb origin "*"). Qed.
End WebApp.

(** ** The handler nothing uses *)

Module UnusedHandler.
Record Response := mkResponse { rs_Status : Z; rs_RedirectURL : string; rs_Error : option error }.

(** [Log] of the package, which does not return. *)
Definition Log {W A} : Go W A := gopanic "not implemented".

Section serve.
Context {W : Type} (statusError : error → option Z) (h : RPCRequest → Go W Response).

(** The status of a response without one. *)
Definition with_status (r : Response) : Response :=
  if rs_Status r =? 0 then
    mkResponse (match rs_Error r with
                | Some err => match statusError err with Some s => s | None => 500 end
                | None => if String.eqb (rs_RedirectURL r) "" then 200 else 302
                end) (rs_RedirectURL r) (rs_Error r)
  else r.

(** The body is absent, unreadable, no JSON, or a request. What follows the first [Log]
    is dead code. *)
Definition ServeHTTP (body : option (error + option RPCRequest)) : Go W Writer :=
  match body with
  | None => ret (WriteBody (CText "empty request body") (WriteHeader 400 newWriter))
  | Some (inl _) => ret (WriteBody (CText "error reading request body") (WriteHeader 400 newWriter))
  | Some (inr None) => ret (WriteHeader 400 newWriter)
  | Some (inr (Some req)) =>
    let! rsp := h req in
    let _ := with_status rsp in Log
  end.

(** It answers nothing but requests it cannot read: any other ends in the panic of [Log],
    after the function behind it has run. *)
Lemma every_request_panics req w rsp w' : h req w = (ROk rsp, w') → ServeHTTP (Some (inr (Some req))) w = (RPanic "not implemented", w').
Proof. intros Hh. unfold ServeHTTP, bind at 1. by rewrite Hh. Qed.
End serve.
End UnusedHandler.

(** ** The forklift's command *)

Module ForkliftCommand.
Import ForkliftLauncher.

(** What the command reads from its configuration, and what it finds. *)
Record Env := {
  e_read : option error;                            (* configng.Read *)
  e_s3 : S3Config → S3Config * option error;        (* UnmarshalKey("IncomingStorage") *)
  e_call_first : bool;
  e_aws : option error;
  e_bucket : S3Client → string → option error;
  e_pg : PostgresConfig → PostgresConfig * option error;
  e_open : string → option error;                   (* sql.Open *)
  e_mkdir : string → option error;
  e_reflector : bool;                               (* has "ReflectorStorage" *)
  e_ints : string → Z;
  e_strings : string → string;
  e_temp : error + string;
  e_startup : Startup;
}.
Variant Ended := Panicked (text : string) | Fatal (text : string) | Serving (b : Built).

Definition verify (c : S3Config) : S3Config := mkS3Config (Endpoint c) (Region c) (Bucket c) (Key c) (Secret c) (Flavor c) true.
Definition panicking (e : error) : Ended := Panicked (Error e).

Definition serve (env : Env) : Ended :=
  match e_read env with
  | Some err => panicking (EWrapf "failed to read config: " err "")
  | None =>
    let '(s3cfg, serr) := ReadS3Config (e_s3 env) (e_call_first env) in
    match serr, NewS3Client (e_aws env) (e_bucket env) (verify s3cfg) with
    | Some err, _ => panicking (EWrapf "cannot parse s3 config: " err "")
    | None, inl err => panicking (EWrapf "cannot create s3 client: " err "")
    | None, inr _ =>
      match e_open env (dsn_GetFullDSN (ReadPostgresConfig (e_pg env))), e_mkdir env (e_strings env "BlobPath"), e_mkdir env (e_strings env "UploadPath") with
      | Some _, _, _ => Fatal "db connection failed"
      | None, Some _, _ => Fatal "failed to create working directory"
      | None, None, Some _ => Fatal "failed to create working directory"
      | None, None, None =>
        match NewLauncher (e_temp env) (e_temp env)
          [WithDB true; WithReflectorConfig (e_reflector env); WithConcurrency (e_ints env "Concurrency"); WithReflectorWorkers (e_ints env "ReflectorWorkers");
           WithBlobPath (e_strings env "BlobPath"); WithS3Client true; WithDownloadsPath (e_strings env "UploadPath");
           WithRequestsConnURL (e_strings env "ForkliftRequestsConnURL"); WithResponsesConnURL (e_strings env "AsynqueryRequestsConnURL");
           WithLogger; ExposeMetrics []] with
        | ROk l => match Build (e_startup env) l with ROk b => Serving b | RErr err => panicking err | RPanic p => Panicked p end
        | RErr err => panicking err
        | RPanic p => Panicked p
        end
      end
    end
  end.

(** A forklift that serves has an S3 bucket that was verified and a configured reflector,
    handles both kinds of uploads with the configured concurrency, and serves its metrics. *)
Lemma serve_ok env b : serve env = Serving b →
  (∃ client, NewS3Client (e_aws env) (e_bucket env) (verify (ReadS3Config (e_s3 env) (e_call_first env)).1) = inr client ∧
    e_bucket env client (Bucket (ReadS3Config (e_s3 env) (e_call_first env)).1) = None) ∧ e_reflector env = true ∧
  b = mkBuilt (e_ints env "Concurrency") false (e_ints env "ReflectorWorkers") ["forklift:upload:incoming"; "forklift:url:incoming"] (Some ":8080").
Proof.
  unfold serve. destruct (e_read env); [done|]. destruct (ReadS3Config _ _) as [s3cfg [err|]]; [done|]. cbn [fst].
  destruct (NewS3Client _ _ _) as [|client] eqn:Hc; [done|]. destruct (e_open env _); [done|].
  destruct (e_mkdir env _); [done|]. destruct (e_mkdir env _); [done|]. destruct (NewLauncher _ _ _) as [l| |] eqn:Hl; try done.
  destruct (Build _ l) as [b'| |] eqn:Hb; [|done..]. intros [= ->]. split.
  { exists client. split; [done|]. by apply (proj2 (proj2 (proj2 (NewS3Client_ok _ _ _ _ Hc)))). }
  unfold NewLauncher in Hl. cbn in Hl. repeat (case_match; try done; simplify_eq/=); unfold Build, wrapped in Hb; cbn in Hb;
    destruct (e_reflector env); repeat (case_match; try done; simplify_eq/=); done.
Qed.
End ForkliftCommand.
