(* ===== verification/Endpoints.v ===== *)
(** * Servers and contexts

    The parts that connect handlers of other files to their servers: the mounting of the
    report collector ([apps/watchman/gen/http/reporter/server/server.go],
    [gen/reporter/endpoints.go], [cmd/watchman/http.go], [cmd/watchman/main.go],
    [log/log.go]), the context of a query ([app/query/context.go]), the options of the tus
    handler of [app/publish/tus.go] with the check before an upload is created, the
    breadcrumbs of [app/publish/middleware.go], and the listener of [server/server.go].

    The router of goa, zap and Sentry are parameters. *)

From S2P Require Import Prelude GoLib Rpc Errors Http Services Auth Publish Watchman.
From Stdlib Require Import String.

Local Open Scope string_scope.
Local Open Scope Z_scope.

(** ** The server of playback reports *)

Module WatchmanServer.
Variant endpoint := EAdd | EHealthz | ECORS | EMetrics.
#[export] Instance endpoint_eq_dec : EqDecision endpoint.
Proof. solve_decision. Defined.

(** [MountPoint]: the mount points the server announces. *)
Record MountPoint := mkMount { mp_Method : string; mp_Verb : string; mp_Pattern : string }.
Definition Mounts : list MountPoint :=
  [mkMount "Add" "POST" "/reports/playback"; mkMount "Healthz" "GET" "/healthz"; mkMount "CORS" "OPTIONS" "/reports/playback"; mkMount "CORS" "OPTIONS" "/healthz"].

(** What is registered with the router, in the order it is. *)
Definition MountAddHandler : list (string * string * endpoint) := [("POST", "/reports/playback", EAdd)].
Definition MountHealthzHandler : list (string * string * endpoint) := [("GET", "/healthz", EHealthz)].
Definition MountCORSHandler : list (string * string * endpoint) := [("OPTIONS", "/reports/playback", ECORS); ("OPTIONS", "/healthz", ECORS)].
Definition Mount : list (string * string * endpoint) := MountAddHandler ++ MountHealthzHandler ++ MountCORSHandler.
Definition registered : list (string * string * endpoint) := ("GET", "/internal/metrics", EMetrics) :: Mount.

(** Everything announced is registered. *)
Lemma mounts_registered m : m ∈ Mounts → ∃ e, (mp_Verb m, mp_Pattern m, e) ∈ Mount.
Proof. unfold Mounts. rewrite !elem_of_cons. intros [->|[->|[->|[->|H]]]]; [exists EAdd|exists EHealthz|exists ECORS|exists ECORS|by apply elem_of_nil in H];
  cbn; unfold MountCORSHandler; set_solver. Qed.

Section server.
Context (env : OlapEnv) (goa : Goa) (metrics : Writer → Writer) (notFound : Writer → Writer).

(** The service's [Healthz] and its encoding. *)
Definition Healthz : string := "OK".
Definition EncodeHealthzResponse (body : string) (w : Writer) : Writer * option error := goa_Encode goa body (WriteHeader 200 w).
Definition HealthzHandler (w : Writer) : Go Olap Writer :=
  match EncodeHealthzResponse Healthz w with
  | (w, Some err) => ret (errorHandler goa w err)
  | (w, None) => ret w
  end.
Definition CORSHandler (w : Writer) : Go Olap Writer := ret (WriteHeader 204 w).

Definition serve_endpoint (e : endpoint) (r : WRequest) (w : Writer) : Go Olap Writer :=
  match e with
  | EAdd => HandleReporterOrigin (AddHandler env goa r) r w
  | EHealthz => HandleReporterOrigin HealthzHandler r w
  | ECORS => HandleReporterOrigin CORSHandler r w
  | EMetrics => ret (metrics w)
  end.

(** The router of goa: which registered handler gets a request. *)
Context (route : list (string * string * endpoint) → string → string → option (string * string * endpoint)).
Definition handle (verb path : string) (r : WRequest) (w : Writer) : Go Olap Writer :=
  match route registered verb path with
  | Some (_, _, e) => serve_endpoint e r w
  | None => ret (notFound w)
  end.

(** The router is documented to call a handler that was registered, for the method it was
    registered for. *)
Class RouterSpec : Prop := {
  route_registered table verb path m : route table verb path = Some m → m ∈ table ∧ m.1.1 = verb
}.
Context `{!RouterSpec}.

Lemma origin_pure h r w s : (∀ w, (h w s).2 = s) → (HandleReporterOrigin h r w s).2 = s.
Proof. intros Hh. unfold HandleReporterOrigin. repeat case_match; try done; by apply Hh. Qed.
Lemma healthz_pure w s : (HealthzHandler w s).2 = s.
Proof. unfold HealthzHandler. by destruct (EncodeHealthzResponse Healthz w) as [w' [err|]]. Qed.
(** Only a [POST] changes what is collected. *)
Lemma only_post_collects verb path r w s : verb ≠ "POST" → (handle verb path r w s).2 = s.
Proof.
  intros Hv. unfold handle. destruct (route registered verb path) as [[[v p] e]|] eqn:Hr; [|done].
  apply route_registered in Hr as [Hm <-]. unfold registered, Mount, MountAddHandler, MountHealthzHandler, MountCORSHandler in Hm.
  cbn in Hm, Hv. destruct e; cbn; [|apply origin_pure; intros; apply healthz_pure|by apply origin_pure|done].
  exfalso. apply Hv. set_solver.
Qed.
(** A page of another origin is told nothing: the headers that allow it to read the answer
    are set for the origins of the expression only. *)
Lemma foreign_origin_unmarked r w s : let origin := Header_Get (wr_Header r) "Origin" in spec0 origin = false →
  serve_endpoint ECORS r w s = (ROk (WriteHeader 204 w), s).
Proof. cbn. intros Ho. unfold HandleReporterOrigin. rewrite Ho. by destruct (String.eqb _ ""). Qed.
End server.

(** A router that compares methods and paths. *)
Definition exact_route (table : list (string * string * endpoint)) (verb path : string) : option (string * string * endpoint) :=
  find (λ m, String.eqb m.1.1 verb && String.eqb m.1.2 path) table.
#[export] Instance exact_route_spec : RouterSpec exact_route.
Proof.
  constructor. intros table verb path m [Hm [Hv%String.eqb_eq _]%andb_true_iff]%find_some. split; [|done].
  by apply list_elem_of_In.
Qed.
Example routes_ex : map (λ vp, (exact_route registered vp.1 vp.2) ≫= λ m, Some m.2) [("POST", "/reports/playback"); ("GET", "/reports/playback"); ("OPTIONS", "/healthz")]
  = [Some EAdd; None; Some ECORS].
Proof. reflexivity. Qed.

(** *** The settings of the log *)

(** [main]: the level and the encoding that are used. *)
Definition log_settings (level encoding : string) : string * string :=
  let encoding := if String.eqb encoding "" then "console" else encoding in
  let encoding := if String.eqb level "" then "debug" else encoding in
  (level, encoding).
(** [Configure]: zap knows the encodings it was built with, and [Build] fails for others; an
    unknown level is the zero value, info. *)
Definition Configure (known : string → bool) (level encoding : string) : result error string :=
  if known encoding then ROk (if String.eqb level "debug" then "debug" else "info")
  else RPanic ("no encoder registered for name " +:+ encoding).
Definition zap_encodings (e : string) : bool := mem e ["console"; "json"].

(** Without a level in the configuration the process ends in a panic, whatever encoding is
    configured: the default goes to the wrong setting. *)
Lemma missing_level_panics encoding : let '(l, e) := log_settings "" encoding in Configure zap_encodings l e = RPanic "no encoder registered for name debug".
Proof. cbn. by destruct (String.eqb encoding ""). Qed.
Lemma level_given level encoding : level ≠ "" → mem encoding [""; "console"; "json"] = true →
  let '(l, e) := log_settings level encoding in Configure zap_encodings l e = ROk (if String.eqb level "debug" then "debug" else "info").
Proof.
  intros Hl%String.eqb_neq He. unfold log_settings. rewrite Hl. unfold Configure, zap_encodings.
  apply mem_true in He. destruct (String.eqb_spec encoding ""); [done|]. by assert (mem encoding ["console"; "json"] = true) as -> by (apply mem_true; set_solver).
Qed.
End WatchmanServer.

(** ** The context of a query *)

Module QueryContext.
(** The keys of the package, and the values they carry: pointers to a query, a response and
    a log entry, and an origin. *)
Variant contextKey := contextKeyQuery | contextKeyResponse | contextKeyLogEntry | contextKeyOrigin.
#[export] Instance contextKey_eq_dec : EqDecision contextKey.
Proof. solve_decision. Defined.
Variant cvalue := CQuery (p : positive) | CResponse (p : positive) | CLogEntry (p : positive) | COrigin (s : string).
Definition Ctx := list (contextKey * cvalue).

Definition WithValue (k : contextKey) (v : cvalue) (ctx : Ctx) : Ctx := (k, v) :: ctx.
Fixpoint Value (ctx : Ctx) (k : contextKey) : option cvalue :=
  match ctx with
  | [] => None
  | (k', v) :: ctx => if bool_decide (k = k') then Some v else Value ctx k
  end.

Definition AttachQuery (ctx : Ctx) (q : positive) : Ctx := WithValue contextKeyQuery (CQuery q) ctx.
Definition AttachResponse (ctx : Ctx) (r : positive) : Ctx := WithValue contextKeyResponse (CResponse r) ctx.
Definition AttachLogEntry (ctx : Ctx) (e : positive) : Ctx := WithValue contextKeyLogEntry (CLogEntry e) ctx.
Definition AttachOrigin (ctx : Ctx) (o : string) : Ctx := WithValue contextKeyOrigin (COrigin o) ctx.
(** Type assertions without a check panic. *)
Definition QueryFromContext (ctx : Ctx) : result error positive :=
  match Value ctx contextKeyQuery with Some (CQuery q) => ROk q | _ => RPanic "interface conversion" end.
Definition ResponseFromContext (ctx : Ctx) : result error positive :=
  match Value ctx contextKeyResponse with Some (CResponse r) => ROk r | _ => RPanic "interface conversion" end.
Definition OriginFromContext (ctx : Ctx) : string :=
  match Value ctx contextKeyOrigin with Some (COrigin o) => o | _ => "" end.
(** The entry is shared: the field is seen by everybody who holds it. *)
Definition WithLogField (ctx : Ctx) (key : string) (x : value) : Go (gmap positive (gmap string value)) unit := λ entries,
  match Value ctx contextKeyLogEntry with
  | Some (CLogEntry e) =>
    match entries !! e with
    | Some data => (ROk tt, <[e := <[key := x]> data]> entries)
    | None => (RPanic "invalid memory address or nil pointer dereference", entries)
    end
  | _ => (RPanic "interface conversion", entries)
  end.

(** What is attached is found below anything else that is attached later. *)
Lemma attached_found ctx q r e o : let ctx' := AttachOrigin (AttachLogEntry (AttachResponse (AttachQuery ctx q) r) e) o in
  QueryFromContext ctx' = ROk q ∧ ResponseFromContext ctx' = ROk r ∧ OriginFromContext ctx' = o.
Proof. done. Qed.
Lemma WithLogField_shared ctx ctx' e key x entries data : Value ctx contextKeyLogEntry = Some (CLogEntry e) → entries !! e = Some data →
  ∃ entries', WithLogField ctx key x entries = (ROk tt, entries') ∧ (Value ctx' contextKeyLogEntry = Some (CLogEntry e) → ∀ y, WithLogField ctx' key y entries' = (ROk tt, <[e := <[key := y]> data]> entries)).
Proof.
  intros Hv He. unfold WithLogField. rewrite Hv, He. eexists. split; [done|]. intros -> y. rewrite lookup_insert_eq. f_equal.
  by rewrite !insert_insert_eq.
Qed.
End QueryContext.

(** ** The tus handler of [app/publish] *)

Module TusOptions.
Record TusHandlerOptions := mkTusOptions { auther : bool; provider : bool; uploadPath : string; tusConfig : option string }.
Variant TusOption := WithUploadPath (p : string) | WithAuther (given : bool) | WithLegacyProvider (given : bool) | WithTusConfig (basePath : string).
Definition tus_option (o : TusHandlerOptions) (f : TusOption) : TusHandlerOptions :=
  match f with
  | WithUploadPath p => mkTusOptions (auther o) (provider o) p (tusConfig o)
  | WithAuther b => mkTusOptions b (provider o) (uploadPath o) (tusConfig o)
  | WithLegacyProvider b => mkTusOptions (auther o) b (uploadPath o) (tusConfig o)
  | WithTusConfig b => mkTusOptions (auther o) (provider o) (uploadPath o) (Some b)
  end.
Definition NewTusHandler (mkdir : string → option error) (tusd : option error) (options : list TusOption) : error + TusHandlerOptions :=
  let o := foldl tus_option (mkTusOptions false false "./uploads" None) options in
  if negb (auther o) then inl (EText "authenticator is required")
  else if negb (provider o) then inl (EText "legacy auth provider is required")
  else match mkdir (uploadPath o), tusd with
       | Some err, _ => inl err
       | None, Some err => inl err
       | None, None => inr o
       end.
Lemma NewTusHandler_ok mkdir tusd options o : NewTusHandler mkdir tusd options = inr o →
  In (WithAuther true) options ∧ In (WithLegacyProvider true) options ∧ mkdir (uploadPath o) = None.
Proof.
  unfold NewTusHandler. assert (∀ o0, (auther (foldl tus_option o0 options) = true → auther o0 = true ∨ In (WithAuther true) options) ∧
    (provider (foldl tus_option o0 options) = true → provider o0 = true ∨ In (WithLegacyProvider true) options)) as H.
  { induction options as [|f options IH]; intros o0; [cbn; tauto|]. cbn. destruct (IH (tus_option o0 f)) as [Ha Hp].
    destruct f as [|[]|[]|]; cbn in *; intuition congruence. }
  destruct (H (mkTusOptions false false "./uploads" None)) as [Ha Hp]. cbn in Ha, Hp. revert Ha Hp.
  set (o' := foldl _ _ _). intros Ha Hp. destruct (auther o'); [|done]. destruct (provider o'); [|done]. cbn [negb].
  destruct (mkdir (uploadPath o')) eqn:E, tusd; try done. intros [= <-]. naive_solver.
Qed.

Section hook.
Context {W : Type} (au : Authenticator W) (pr : Provider W).
(** [preCreateHook]: the request that is authenticated has the headers of the upload's
    request and no address. *)
Definition Tus_preCreateHook (h : Header) : Go W unit :=
  let! _ := multiAuthUser au pr h "" in ret tt.
(** An upload is created only for a request that authenticates. *)
Lemma uploads_need_user h w w' : Tus_preCreateHook h w = (ROk tt, w') → ∃ u, multiAuthUser au pr h "" w = (ROk u, w').
Proof. unfold Tus_preCreateHook, bind. destruct (multiAuthUser au pr h "" w) as [[u| |] w1]; cbn; intros [=]; subst; by eexists. Qed.
End hook.

(** [TracingMiddleware]: the breadcrumb that is added, if the request has a hub and an id. *)
Record Breadcrumb := mkCrumb { bc_Category : string; bc_Message : string; bc_Level : string }.
Definition extractID (vars : gmap string string) : string := default "" (vars !! "id").
Definition TracingMiddleware (hub : bool) (vars : gmap string string) : option Breadcrumb :=
  if hub && negb (String.eqb (extractID vars) "") then Some (mkCrumb "upload" "ID" "info") else None.
(** The breadcrumb does not say which upload it is about. *)
Lemma crumb_without_id vars vars' : extractID vars ≠ "" → extractID vars' ≠ "" → TracingMiddleware true vars = TracingMiddleware true vars'.
Proof. unfold TracingMiddleware. by intros ->%String.eqb_neq ->%String.eqb_neq. Qed.
End TusOptions.

(** ** The listener of the API server *)

Module ApiServer.
Record HttpServer := mkHttpServer { sv_address : string; sv_WriteTimeout : Z; sv_IdleTimeout : Z; sv_ReadHeaderTimeout : Z; sv_stopWait : Z }.
Definition sec : Z := 10 ^ 9.
Definition NewHttpServer (address : string) : HttpServer := mkHttpServer address 0 0 (10 * sec) (15 * sec).
Definition Address (s : HttpServer) : string := sv_address s.
(** [Start]: the goroutine logs the error of the listener unless it is the one of a shutdown;
    the process goes on. *)
Definition server_Start (served : option error) : list error :=
  match served with
  | Some err => if String.eqb (Error err) "http: Server closed" then [] else [err]
  | None => []
  end.
(** [Shutdown]: the listener waits until its connections are idle or the deadline. *)
Definition server_Shutdown (s : HttpServer) (idle : option Z) : option error :=
  match idle with
  | Some t => if (t =? 0) || (t <? sv_stopWait s) then None else Some (EText "context deadline exceeded")
  | None => Some (EText "context deadline exceeded")
  end.
(** A server that cannot listen goes on without serving: only a line of the log says so. *)
Lemma failed_listener_logged err : Error err ≠ "http: Server closed" → server_Start (Some err) = [err].
Proof. intros H%String.eqb_neq. unfold server_Start. by rewrite H. Qed.
End ApiServer.
